(* ===== verification/_CoqProject ===== *)
-Q . S2P
Prelude.v
GoStrings.v
GoRuntime.v
ZoneStats.v
Float64.v
TypeUtil.v
Countries.v
GoNet.v
Targeting.v
GeoIP2.v
DnsNames.v
DnsMsg.v
Health.v
HealthTesters.v
HealthTest.v
HealthRunner.v
DnsScan.v
Zones.v
Soa.v
Picker.v
Reader.v
ReaderSpec.v
QueryLog.v
MuxManager.v
Reachable.v
Server.v
EndToEnd.v
Provenance.v
DayDuration.v
LogStats.v
Accounting.v
Config.v
Http.v
Startup.v
Applog.v
Program.v
