(* ===== verification/Prelude.v ===== *)
(** * GeoDNS: a verification development

    GeoDNS is an authoritative DNS server that gives different answers to
    clients in different places.  This library models its core as executable
    definitions and proves what makes it correct.

    ** The program and its parts

    - The zone manager (src/zones/muxmanager.go) lists a directory of JSON
      files, reads those that changed and registers one handler per zone with
      the server; zones whose file is gone are closed and removed.
    - The reader (src/zones/reader.go) turns a decoded file into a zone: labels
      with lists of weighted records for each record type.
    - A zone (src/zones/zone.go) finds the labels for a name and a list of
      targets, follows aliases, and knows its SOA record.  Its statistics
      (src/zones/zone_stats.go) are ring buffers that survive reloads.
    - The picker (src/zones/picker.go) chooses the records of an answer: it
      filters by health, keeps the closest servers, and draws by weight.
    - Targeting (src/targeting) maps a client address to the targets, from the
      most to the least specific, with the help of a geo provider.
      The provider is GeoIP2 (src/targeting/geoip2), which opens its databases
      when they are first needed and keeps them.
    - Health (src/health) keeps a registry of status files.  Health tests
      (src/health/healthtest) run testers in a loop of their own; a runner
      shares equal tests and counts the references to them.
    - The handler (src/server) puts these together for one query; the
      multiplexer of the vendored dns library finds the zone of a query.
    - The main program (src/geodns.go, src/util.go) reads and watches the
      configuration (src/config.go), finds the addresses to listen on, and
      serves pages over HTTP (src/http.go); src/applog and src/querylog write
      logs, and src/geodns-logs is the tool that counts the query log.

    A query goes through ServeDNS, serve, GetTargets, FindLabels, Picker; a
    reload through reload, ReadZoneFile, setupZoneData, addHandler; the start
    through main, start_program, NewMuxManager; an entry of the query log
    through serve, FileLogger_Write, scan_lines, processFile, Stats_Add.

    ** Files

    - Prelude: the result monad [res] (a value, a panic, out of fuel), machine
      integers with their wrap-around, Go's pointers, slices and maps, loops,
      tactics, the [geodns] hint database, generic lemmas.
    - GoStrings, GoNet, Float64: the parts of strings, strconv, net and the
      binary64 arithmetic that the program uses.  Letters are folded to lower
      case in ASCII only.
    - GoRuntime: what the language leaves open, as classes with laws: the order
      of [sort.Sort] on equal elements ([GoSort]), of [range] over a map
      ([GoRange]), the numbers of [rand.Intn] ([GoRand]).  Every theorem holds
      for every instance; the examples run with the instances given there.
    - TypeUtil: decoded JSON values and src/typeutil.
    - Countries: src/countries, both tables and those derived from them.
    - Targeting: src/targeting/targeting.go and src/targeting/geo/geo.go.  The
      provider is a record of functions; the great-circle angle is the class
      [GreatCircle], with its range as laws.
    - DnsNames, DnsMsg: the vendored github.com/miekg/dns as far as it is used:
      label arithmetic, messages and replies, the multiplexer.
    - DnsScan: the parser of the same library behind [dns.NewRR]: its lexer, the
      state machine of [ZoneParser.Next], the check of domain names and the data
      of SOA records.  The data of other types, $INCLUDE and $GENERATE are the
      class [ZoneScan], with [ScanReturns] for their returning.
    - Health: src/health (status.go, status_file.go, health.go).
    - ZoneStats, Zones, Picker, Reader, MuxManager: the files of src/zones of
      the same name (the metrics part of zone.go is in MuxManager).  What a
      zone asks of the parser is the class [RRParser].
    - Soa: [dns_parser], the instance of [RRParser] made of [dns_NewRR], and the
      composition of addSOA with it; the examples and Program run with it.
    - ReaderSpec: what a zone file means, label by label and entry by entry,
      and that the reader serves it.
    - Reachable: the manager as a transition system (start, reload, query) and
      the invariant of its reachable states; [Run] is its loop of reloads.
    - Server: src/server/serve.go and the registration in server.go.  What the
      handler sees of its surroundings (host name, time, JSON text, whether a
      message can be written) is the class [HandlerEnv]; the outcome of a run
      holds the messages, the log entry, the query counter and the statistics.
    - GeoIP2: src/targeting/geoip2/geoip2.go.  The file system maps a path to
      the database behind it; a database is its three lookup functions.
      [as_Provider] is the provider that Targeting asks for.
    - HealthTesters, HealthTest: src/health/healthtest.  What a tester sees of
      the world is the record [outside]; a running test is a step relation
      [proc_step] of its loop and its polls, labelled with the results the loop
      receives.
    - HealthRunner: the runner of the tests, with one definition per operation.
      Its state says which operation holds its mutex ([holder]), since [Stop]
      waits for a poll with the mutex held; [runner_step] interleaves the
      operations with the steps of the tests, and an [execution] is an infinite
      sequence of such steps, for which [fair] says what the scheduler, the
      testers and the select statement owe.
    - QueryLog: src/querylog/querylog.go.
    - LogStats: src/geodns-logs, the counters, the two goroutines that read a
      file, as the step relation [file_step], and main, whose loop over the
      lines of a followed file is [tail_step].
    - Accounting: the composition of the handler, the query log and the log
      tool; a [session] is a sequence of queries with the log they leave.
    - Config, Http, Startup, DayDuration, Applog: src/config.go, src/http.go,
      src/geodns.go with src/util.go, src/dayduration.go and src/applog/log.go.
      Http has what the pages see of the net/http package: the redirect of its
      ServeMux to a canonical path and the errors it sends itself.
    - EndToEnd: the invariant of every zone that is served, and the totality of
      the handler on the states of Reachable.
    - Provenance: the states of Reachable with the files the manager has seen
      on the way ([history]), and the way of a record from a file to an answer.
    - Program: [main] with its exits; [start_program], the part that composes
      configuration, provider, server, query log, manager and listeners; and
      [shutdown], what follows the signal.

    A struct is a record, a nil pointer [None], a map a [gmap], a slice a list,
    a decoded object a list of entries in the order [range] visits them.
    Where objects are shared and written (the statistics of a zone across
    reloads, the client subnet option between request and reply, the address
    that GetTargets overwrites) the model keeps the store or returns the
    written value.

    ** What the theorems show

    - The whole (EndToEnd, Provenance, Program): for zones whose weights are
      not negative and whose aliases have no cycle, every query, for whatever
      name and type, gets exactly one reply in every reachable state (when
      messages can be written, status files have no null entries and, for ANY,
      zones have the bare names of their targeted labels); its
      records are of the type that was asked for and were read from the file of
      a zone that the name belongs to.  The program that main starts is in such
      a state and stays in one through any rounds of the health reader and of
      the manager, with a provider that the handler can rely on when the city
      database opens.  The signal closes its log.
    - Answers (Server): one reply per query that answers the request; NXDOMAIN
      only for names that do not exist; the SOA whenever there is nothing to
      give; only healthy records of the zone of the right type under the name
      asked for; dispatch to the zone of the longest suffix (for DS the
      shortest); counters and log entries that agree with the reply the handler
      makes.  The theorems also say what is sent when this reply cannot be
      packed or written: SERVFAIL, or nothing for a name that was not found.
      A zone that reads addresses off names answers A questions apart from all
      this, with one record, without counters and log.
    - SOA (DnsScan, Soa): the parser returns on every string whose comments fit
      its buffer (and panics on a longer one, a finding); the line that
      addSOA prints is read back as the record with the zone's name, primary
      name server, contact, serial and times, so the zone of the program always
      has its SOA; with an empty contact the fields shift, which is a finding.
    - Accounts (Accounting): the statistics that the log tool computes from the
      query log are those of the replies the server has made: those it has
      sent, and those it could not write.
    - Lookup (Zones): soundness, completeness, equality with a specification
      when no alias is involved, termination when the aliases have no cycle
      and divergence when a label is an alias of itself.
    - Choice (Picker): exact sizes, only healthy records, no duplicates, the
      distance bound of the closest servers with rounding taken into account,
      termination of the selection loop, the interval of numbers for which a
      draw picks a server.
    - Loading (Reader, ReaderSpec): the labels, options and records of a loaded
      zone are those the file lists, with their default weights and TTLs; no
      holes, weights that add up, records of the type of their list, parents
      of all labels; and the picker's theorem on what was loaded.
    - Reload (MuxManager, Health): a reload serves the contents of the files
      that changed and leaves the other zones; the table of handlers mirrors
      the zone list and reload never panics; the registry of statuses mirrors its directory;
      statistics survive a reload.  Reachable proves the same of every state
      that a start, any reloads and any queries lead to, and that no listed
      zone has a closed statistics buffer there.
    - Statistics (ZoneStats): the ring buffer refines the list of all
      additions.  Targeting: parsing and printing of options, order and
      totality of targets.  Countries: the derived tables are inverses.
    - Provider (GeoIP2): after any history of calls and changes of the file
      system the provider answers from the databases it has opened; it meets
      the interface of targeting exactly when the city database is open.
    - Health tests (HealthTesters, HealthTest, HealthRunner): the loop refines a verdict over
      the results it has received, on every interleaving; one poll at a time,
      none on a stopped test; the runner runs a test exactly as long as it is
      referred to, and stops it before it forgets it; in every fair execution
      each operation of the runner completes, while a tester that does not
      return holds it up; keys identify tests; the intervals of a
      test are positive durations whatever its description says; the verdicts
      of the testers.
    - Log statistics (LogStats): the counts and the exported counters are
      exact, when reading a file returns, and what following a file counts.
    - Configuration, HTTP, start (Config, Http, Startup): every branch of the
      reader, safety of the watcher, protection by the password and the answer to every request, the listen
      addresses, when the check of a configuration passes.
    - Durations and logs (DayDuration, Applog): the printed text and that it
      fits its buffer; no line is written to a closed file.
    - Theorems of kind "error" state what the code does where it departs from
      its intention; they are listed as findings in the manifest.

    ** Fuel and bounds

    [FindLabels] takes fuel because the code follows aliases without a bound;
    [FindLabels_terminates] gives the fuel that is enough.  [choose_closest]
    gets one unit for every server and one more, which
    [choose_closest_spec] shows to be enough; the loops over a name in
    DnsNames and DnsMsg get its length, which is enough for every string
    ([seps_bound], [split_loop_length], [count_loop_seps]), and [fmt_loop] the
    bits of the number it prints ([fmt_loop_spec]).  [zp_loop] gets the
    measure [lexer_measure] of what is left to read, which [NewRR_returns]
    shows to be enough.  The endless loops [Run],
    [DirectoryReader] and [logToFileMonitor] take the list of what they find
    in each round, and the theorems hold for every list.  Integers are Go's
    64-bit [int]: sums of weights wrap, and the theorems that need them not to wrap say so
    ([weights_ok]).

    ** Not modelled

    Sockets, files, time and the metrics library are outside; their results
    are parameters, and what the program hands to them (sockets to open, the
    labels of counters and gauges) is part of the results.  The lines of the
    log are modelled for main and the loops it starts, not in the handler and
    the reader.  But for the mutex of the health test runner, locks are left
    out: each operation is one step, and the interleavings that matter (queries
    while a zone is removed, the goroutines of a health test and of the log
    reader) are step relations or the subject of a theorem
    ([serve_closed_zone_panics]).  Of the dns library the wire
    format, the resource data of types other than SOA and the positions in the
    texts of parse errors are left out.  Not translated are flag parsing,
    the sleeps between the rounds of a loop, the start of the file watcher, the
    rotation of the query log (a library), and templates_devel.go, which sets
    one variable. *)

From stdpp Require Export base tactics numbers list option strings gmap.
From Stdlib Require Export ZArith Lia.

(** ** Results of Go computations

    A Go computation returns a value, panics, or (for the loops and the
    recursions that have no structural bound) runs out of the fuel the model
    gives it. *)
Inductive res (A : Type) : Type :=
| Ret (a : A)
| Panic (msg : string)
| OutOfFuel.
Arguments Ret {A} a.
Arguments Panic {A} msg.
Arguments OutOfFuel {A}.

#[export] Instance res_ret : MRet res := λ A a, Ret a.
#[export] Instance res_bind : MBind res := λ A B f m,
  match m with
  | Ret a => f a
  | Panic msg => Panic msg
  | OutOfFuel => OutOfFuel
  end.
#[export] Instance res_fmap : FMap res := λ A B f m,
  match m with
  | Ret a => Ret (f a)
  | Panic msg => Panic msg
  | OutOfFuel => OutOfFuel
  end.

#[export] Instance res_eq_dec `{EqDecision A} : EqDecision (res A).
Proof. solve_decision. Defined.

#[export] Instance Ret_inj {A} : Inj (=) (=) (@Ret A).
Proof. by intros a b [= ->]. Qed.

(** [ok m]: the computation returns normally. *)
Definition ok {A} (m : res A) : Prop := ∃ a, m = Ret a.

(** ** Machine integers

    Go's [int] and [int64] are 64-bit two's complement; the unsigned types
    wrap modulo a power of two. *)
Definition wrap64 (z : Z) : Z := (z + 2 ^ 63) `mod` 2 ^ 64 - 2 ^ 63.
Definition uint8 (z : Z) : Z := z `mod` 2 ^ 8.
Definition uint16 (z : Z) : Z := z `mod` 2 ^ 16.
Definition uint32 (z : Z) : Z := z `mod` 2 ^ 32.
Definition uint64 (z : Z) : Z := z `mod` 2 ^ 64.
Definition max_int : Z := 2 ^ 63 - 1.
Definition min_int : Z := - 2 ^ 63.
Definition int_range (z : Z) : Prop := (min_int ≤ z ≤ max_int)%Z.

Declare Scope go_scope.
Delimit Scope go_scope with go.
Notation "a +! b" := (wrap64 (a + b)%Z) (at level 50, left associativity) : go_scope.
Notation "a -! b" := (wrap64 (a - b)%Z) (at level 50, left associativity) : go_scope.
Notation "a *! b" := (wrap64 (a * b)%Z) (at level 40, left associativity) : go_scope.
#[global] Open Scope go_scope.

(** ** Pointers, slices and maps *)

(** Go's [len] of a slice, an [int]. *)
Definition len {A} (l : list A) : Z := Z.of_nat (length l).

(** Dereferencing a pointer; [None] is Go's [nil]. *)
Definition deref {A} (p : option A) : res A :=
  match p with
  | Some a => Ret a
  | None => Panic "nil pointer dereference"
  end.

(** [l[i]] with Go's bounds check. *)
Definition index {A} (l : list A) (i : Z) : res A :=
  if decide (0 ≤ i)%Z then
    match l !! Z.to_nat i with
    | Some a => Ret a
    | None => Panic "index out of range"
    end
  else Panic "index out of range".

(** [l[i] = a] with Go's bounds check. *)
Definition store_at {A} (l : list A) (i : Z) (a : A) : res (list A) :=
  if decide (0 ≤ i < len l)%Z then Ret (<[Z.to_nat i := a]> l)
  else Panic "index out of range".

(** [m[k]] on a map whose zero value is [d]. *)
Definition map_get {V} `{Countable K} (d : V) (m : gmap K V) (k : K) : V :=
  default d (m !! k).

(** A left-to-right loop that can stop with a panic. *)
Fixpoint foldM {A B} (f : B → A → res B) (b : B) (l : list A) : res B :=
  match l with
  | [] => Ret b
  | a :: l => b' ← f b a; foldM f b' l
  end.

Fixpoint mapM_res {A B} (f : A → res B) (l : list A) : res (list B) :=
  match l with
  | [] => Ret []
  | a :: l => b ← f a; bs ← mapM_res f l; Ret (b :: bs)
  end.

(** A loop over the entries of a map that replaces each value. *)
Definition gmap_traverse `{Countable K} {A B} (f : K → A → res B) (m : gmap K A) :
    res (gmap K B) :=
  foldM (λ acc e, b ← f e.1 e.2; Ret (<[e.1 := b]> acc)) ∅ (map_to_list m).

(** Sum of a list of integers. *)
Definition sumZ (l : list Z) : Z := foldr Z.add 0%Z l.

(** ** Tactics *)

Create HintDb geodns.
Create Rewrite HintDb geodns.

(** Inverts the equations [m ≫= k = Ret a] of the context. *)
Lemma bind_Ret {A B} (m : res A) (k : A → res B) b :
  m ≫= k = Ret b ↔ ∃ a, m = Ret a ∧ k a = Ret b.
Proof. split; [destruct m; naive_solver | by intros (a & -> & ?)]. Qed.

Lemma bind_of_Ret {A B} (a : A) (k : A → res B) : Ret a ≫= k = k a.
Proof. done. Qed.

Ltac res_inv :=
  repeat match goal with
  | H : _ ≫= _ = Ret _ |- _ =>
      let a := fresh "r" in let H1 := fresh "Hr" in let H2 := fresh "Hk" in
      apply bind_Ret in H as (a & H1 & H2)
  | H : Ret _ = Ret _ |- _ => injection H as H; subst
  | H : Panic _ = Ret _ |- _ => discriminate H
  | H : OutOfFuel = Ret _ |- _ => discriminate H
  end.

(** Splits the boolean tests of the code into propositions. *)
Ltac split_bools :=
  repeat match goal with
  | H : _ && _ = true |- _ => apply andb_true_iff in H as [? ?]
  | H : _ || _ = false |- _ => apply orb_false_iff in H as [? ?]
  | H : negb _ = true |- _ => apply negb_true_iff in H
  | H : negb _ = false |- _ => apply negb_false_iff in H
  | H : (_ =? _)%Z = true |- _ => apply Z.eqb_eq in H
  | H : (_ =? _)%Z = false |- _ => apply Z.eqb_neq in H
  | H : (_ <=? _)%Z = true |- _ => apply Z.leb_le in H
  | H : (_ <=? _)%Z = false |- _ => apply Z.leb_gt in H
  | H : (_ <? _)%Z = true |- _ => apply Z.ltb_lt in H
  | H : (_ <? _)%Z = false |- _ => apply Z.ltb_ge in H
  | H : bool_decide _ = true |- _ => apply bool_decide_eq_true in H
  | H : bool_decide _ = false |- _ => apply bool_decide_eq_false in H
  end.

(** ** Generic lemmas *)

Lemma wrap64_id z : int_range z → wrap64 z = z.
Proof.
  unfold int_range, wrap64, min_int, max_int. intros H.
  rewrite Z.mod_small; lia.
Qed.

Lemma wrap64_range z : int_range (wrap64 z).
Proof.
  unfold int_range, wrap64, min_int, max_int.
  pose proof (Z.mod_pos_bound (z + 2 ^ 63) (2 ^ 64)). lia.
Qed.

Lemma sumZ_cons z l : sumZ (z :: l) = (z + sumZ l)%Z.
Proof. done. Qed.

Lemma sumZ_app l1 l2 : sumZ (l1 ++ l2) = (sumZ l1 + sumZ l2)%Z.
Proof. induction l1 as [|z l1 IH]; csimpl; [done|]. rewrite IH. lia. Qed.

Lemma sumZ_nonneg l : Forall (λ z, (0 ≤ z)%Z) l → (0 ≤ sumZ l)%Z.
Proof. induction 1; csimpl; lia. Qed.

Lemma sumZ_Permutation l1 l2 : l1 ≡ₚ l2 → sumZ l1 = sumZ l2.
Proof. induction 1; csimpl; lia. Qed.

#[export] Instance sumZ_Proper : Proper ((≡ₚ) ==> (=)) sumZ.
Proof. intros l1 l2. apply sumZ_Permutation. Qed.

Lemma index_lookup {A} (l : list A) (i : Z) (a : A) :
  index l i = Ret a ↔ (0 ≤ i)%Z ∧ l !! Z.to_nat i = Some a.
Proof.
  unfold index. case_decide; [|naive_solver lia].
  destruct (l !! _); naive_solver.
Qed.

Lemma index_ok {A} (l : list A) (i : Z) : (0 ≤ i < len l)%Z → ok (index l i).
Proof.
  unfold len. intros Hi. destruct (lookup_lt_is_Some_2 l (Z.to_nat i)) as [a Ha]; [lia|].
  exists a. apply index_lookup. split; [lia|done].
Qed.

Lemma store_at_ok {A} (l : list A) (i : Z) (a : A) :
  (0 ≤ i < len l)%Z → store_at l i a = Ret (<[Z.to_nat i := a]> l).
Proof. intros. unfold store_at. by case_decide. Qed.

Lemma foldM_app {A B} (f : B → A → res B) b l1 l2 :
  foldM f b (l1 ++ l2) = b' ← foldM f b l1; foldM f b' l2.
Proof.
  revert b. induction l1 as [|a l1 IH]; intros b; [done|].
  simpl. destruct (f b a) as [b'| |]; simpl; [apply IH|done|done].
Qed.

(** Loop rule: an invariant kept by every iteration holds at the end. *)
Lemma foldM_invariant {A B} (f : B → A → res B) (I : B → Prop) l b b' :
  I b → (∀ b1 a b2, a ∈ l → I b1 → f b1 a = Ret b2 → I b2) →
  foldM f b l = Ret b' → I b'.
Proof.
  revert b. induction l as [|a l IH]; simpl; intros b Hb Hstep Hr.
  { by injection Hr as <-. }
  apply bind_Ret in Hr as (b1 & Hf & Hr).
  eapply IH; [eapply Hstep; [left|done|done]| |done].
  intros. eapply Hstep; [by right|done|done].
Qed.

(** Loop rule for termination without a panic. *)
Lemma foldM_ok {A B} (f : B → A → res B) (I : B → Prop) l b :
  I b → (∀ b1 a, a ∈ l → I b1 → ∃ b2, f b1 a = Ret b2 ∧ I b2) →
  ∃ b', foldM f b l = Ret b' ∧ I b'.
Proof.
  revert b. induction l as [|a l IH]; simpl; intros b Hb Hstep; [by eauto|].
  destruct (Hstep b a) as (b1 & -> & Hb1); [left|done|]. simpl.
  apply IH; [done|]. intros. apply Hstep; [by right|done].
Qed.

Lemma mapM_res_Forall2 {A B} (f : A → res B) l k :
  mapM_res f l = Ret k ↔ Forall2 (λ a b, f a = Ret b) l k.
Proof.
  revert k. induction l as [|a l IH]; intros k; simpl.
  - split; [intros [= <-]; constructor|]. intros H. by inversion H.
  - split.
    + intros H. res_inv. constructor; [done|]. by apply IH.
    + intros H. inversion H as [|? b ? k' Hb Hk]; subst. rewrite Hb. simpl.
      by rewrite (proj2 (IH k') Hk).
Qed.

Lemma exists_Some {A} (x : A) (P : A → Prop) : (∃ y, Some x = Some y ∧ P y) ↔ P x.
Proof. naive_solver. Qed.

Lemma exists_None {A} (P : A → Prop) : (∃ y, None = Some y ∧ P y) ↔ False.
Proof. naive_solver. Qed.

Section traverse.
Context `{Countable K} {A B : Type} (f : K → A → res B).

Lemma gmap_traverse_fold l acc m' :
  NoDup l.*1 →
  foldM (λ (acc : gmap K B) e, b ← f e.1 e.2; Ret (<[e.1 := b]> acc)) acc l = Ret m' →
  (∀ k a, (k, a) ∈ l → ∃ b, f k a = Ret b ∧ m' !! k = Some b) ∧
  (∀ k, k ∉ l.*1 → m' !! k = acc !! k).
Proof.
  revert acc. induction l as [|[k0 a0] l IH]; intros acc Hnd Hr; cbn [foldM fst snd] in Hr.
  { res_inv. split; [set_solver|done]. }
  cbn [fmap list_fmap fst] in Hnd. apply NoDup_cons in Hnd as [Hk0 Hnd]. res_inv.
  destruct (IH _ Hnd Hk) as [IH1 IH2]. split.
  - intros k a [[= -> ->]|Hin]%elem_of_cons; [|by apply IH1].
    exists r0. split; [done|]. by rewrite IH2, lookup_insert_eq.
  - intros k Hk'. cbn [fmap list_fmap fst] in Hk'. apply not_elem_of_cons in Hk' as [Hne Hk'].
    by rewrite IH2, lookup_insert_ne by done.
Qed.

(** The entries after a traversal are the images of the entries before. *)
Lemma gmap_traverse_lookup m m' k :
  gmap_traverse f m = Ret m' →
  match m !! k with
  | Some a => ∃ b, f k a = Ret b ∧ m' !! k = Some b
  | None => m' !! k = None
  end.
Proof.
  intros Hr. apply gmap_traverse_fold in Hr as [H1 H2]; [|apply NoDup_fst_map_to_list].
  destruct (m !! k) as [a|] eqn:E.
  - apply H1. by apply elem_of_map_to_list.
  - rewrite H2; [apply lookup_empty|]. intros ([k' a] & -> & Hin)%list_elem_of_fmap.
    apply elem_of_map_to_list in Hin. simpl in E. congruence.
Qed.

Lemma gmap_traverse_ok m :
  (∀ k a, m !! k = Some a → ok (f k a)) → ok (gmap_traverse f m).
Proof.
  intros Hf. destruct (foldM_ok (λ (acc : gmap K B) e, b ← f e.1 e.2; Ret (<[e.1 := b]> acc))
    (λ _, True) (map_to_list m) ∅) as (m' & E & _); [done| |by exists m'].
  intros acc [k a] Hin _. apply elem_of_map_to_list in Hin.
  destruct (Hf k a Hin) as [b Hb]. simpl. rewrite Hb. by eexists.
Qed.
End traverse.

#[export] Hint Resolve wrap64_range sumZ_nonneg index_ok : geodns.
#[export] Hint Rewrite @bind_of_Ret sumZ_cons sumZ_app : geodns.
