(* ===== verification/GoStrings.v ===== *)
(** * The parts of Go's [strings] and [strconv] packages the program uses

    Go strings are byte strings; [string] is the same type here.  Every
    separator the program splits or joins on is a single byte.  [ToLower] is
    exact on ASCII text, which is what zone labels and query names hold. *)

From S2P Require Import Prelude.
From Stdlib Require Export Ascii.
Local Open Scope Z_scope.

(** ** Case folding *)

Definition byte_val (a : ascii) : Z := Z.of_nat (nat_of_ascii a).

Definition is_upper (a : ascii) : bool :=
  (65 <=? byte_val a) && (byte_val a <=? 90).

Definition lower_ascii (a : ascii) : ascii :=
  if is_upper a then ascii_of_nat (nat_of_ascii a + 32)%nat else a.

Fixpoint ToLower (s : string) : string :=
  match s with
  | EmptyString => EmptyString
  | String a s => String (lower_ascii a) (ToLower s)
  end.

(** ** Splitting and joining *)

Fixpoint Split (s : string) (c : ascii) : list string :=
  match s with
  | EmptyString => [EmptyString]
  | String a s =>
      if Ascii.eqb a c then EmptyString :: Split s c
      else match Split s c with
           | [] => [String a EmptyString]
           | w :: ws => String a w :: ws
           end
  end.

(** [strings.SplitN(s, c, 2)]. *)
Fixpoint SplitN2 (s : string) (c : ascii) : list string :=
  match s with
  | EmptyString => [EmptyString]
  | String a s =>
      if Ascii.eqb a c then [EmptyString; s]
      else match SplitN2 s c with
           | [] => [String a EmptyString]
           | w :: ws => String a w :: ws
           end
  end.

Fixpoint Join (l : list string) (sep : string) : string :=
  match l with
  | [] => EmptyString
  | [w] => w
  | w :: ws => w +:+ sep +:+ Join ws sep
  end.

(** ** Searching *)

Fixpoint HasPrefix (s p : string) : bool :=
  match p, s with
  | EmptyString, _ => true
  | String b p, String a s => Ascii.eqb a b && HasPrefix s p
  | _, EmptyString => false
  end.

Fixpoint HasSuffix (s p : string) : bool :=
  bool_decide (s = p) ||
  match s with
  | EmptyString => false
  | String _ s => HasSuffix s p
  end.

Fixpoint ContainsByte (s : string) (c : ascii) : bool :=
  match s with
  | EmptyString => false
  | String a s => Ascii.eqb a c || ContainsByte s c
  end.

(** [strings.Index(s, p)]: the offset of the first occurrence, or -1. *)
Fixpoint Index (s p : string) : Z :=
  if HasPrefix s p then 0
  else match s with
       | EmptyString => -1
       | String _ s => let i := Index s p in if i <? 0 then -1 else i + 1
       end.

(** [strings.LastIndex(s, c)] for a single byte: its last offset, or -1. *)
Fixpoint LastIndexByte (s : string) (c : ascii) : Z :=
  match s with
  | EmptyString => -1
  | String a s =>
      let i := LastIndexByte s c in
      if 0 <=? i then i + 1 else if Ascii.eqb a c then 0 else -1
  end.

(** [strings.ReplaceAll(s, c, d)] for single bytes. *)
Fixpoint ReplaceByte (s : string) (c d : ascii) : string :=
  match s with
  | EmptyString => EmptyString
  | String a s => String (if Ascii.eqb a c then d else a) (ReplaceByte s c d)
  end.

Definition slen (s : string) : Z := Z.of_nat (String.length s).

(** [s[a:b]]. *)
Fixpoint stake (n : nat) (s : string) : string :=
  match n, s with
  | S n, String a s => String a (stake n s)
  | _, _ => EmptyString
  end.
Fixpoint sdrop (n : nat) (s : string) : string :=
  match n, s with
  | S n, String _ s => sdrop n s
  | _, _ => s
  end.
Definition slice_to (s : string) (n : Z) : res string :=
  if decide (0 ≤ n ≤ slen s) then Ret (stake (Z.to_nat n) s)
  else Panic "slice bounds out of range".

(** ** Decimal conversion *)

Definition digit_char (d : Z) : ascii := ascii_of_nat (Z.to_nat (48 + d)).

(** The digits of [z], most significant first, in front of [acc]. *)
Fixpoint put_digits (fuel : nat) (z : Z) (acc : string) : string :=
  match fuel with
  | O => acc
  | S fuel =>
      let acc := String (digit_char (z `mod` 10)) acc in
      if z `div` 10 =? 0 then acc else put_digits fuel (z `div` 10) acc
  end.

Definition digit_fuel (z : Z) : nat := S (Z.to_nat (Z.log2 z)).

Definition Itoa (z : Z) : string :=
  if z <? 0 then String "-" (put_digits (digit_fuel (- z)) (- z) EmptyString)
  else put_digits (digit_fuel z) z EmptyString.

Definition digit_val (a : ascii) : option Z :=
  let d := byte_val a - 48 in
  if (0 <=? d) && (d <=? 9) then Some d else None.

Fixpoint read_digits (v : Z) (s : string) : option Z :=
  match s with
  | EmptyString => Some v
  | String a s => d ← digit_val a; read_digits (10 * v + d) s
  end.

Definition read_nonempty (s : string) : option Z :=
  match s with
  | EmptyString => None
  | _ => read_digits 0 s
  end.

(** [strconv.Atoi]: an optional sign, then decimal digits, in the range of a
    64-bit [int]; [None] is the error result. *)
Definition Atoi (s : string) : option Z :=
  v ← match s with
      | String "-" s => Z.opp <$> read_nonempty s
      | String "+" s => read_nonempty s
      | _ => read_nonempty s
      end;
  if decide (int_range v) then Some v else None.

(** ** Lemmas *)

Lemma sapp_nil_l (s : string) : EmptyString +:+ s = s.
Proof. done. Qed.

Lemma sapp_cons a (s t : string) : String a s +:+ t = String a (s +:+ t).
Proof. done. Qed.

Lemma sapp_nil_r (s : string) : s +:+ EmptyString = s.
Proof. induction s; [done|]. rewrite sapp_cons. by f_equal. Qed.

Lemma sapp_assoc (s t u : string) : (s +:+ t) +:+ u = s +:+ t +:+ u.
Proof. induction s; [done|]. rewrite !sapp_cons. by f_equal. Qed.

#[export] Hint Rewrite sapp_nil_l sapp_cons sapp_nil_r : geodns.

Lemma slen_cons a s : slen (String a s) = slen s + 1.
Proof. unfold slen. simpl. lia. Qed.

Lemma slen_nonneg s : 0 ≤ slen s.
Proof. unfold slen. lia. Qed.

Lemma slen_app s t : slen (s +:+ t) = slen s + slen t.
Proof.
  induction s as [|a s IH]; [done|]. rewrite sapp_cons, !slen_cons, IH. lia.
Qed.

Lemma slen_pos s : (0 <? slen s) = true ↔ s ≠ "".
Proof.
  rewrite Z.ltb_lt. destruct s as [|a s]; [done|]. rewrite slen_cons.
  pose proof (slen_nonneg s). split; [done|lia].
Qed.

Lemma slen_zero s : (0 <? slen s) = false ↔ s = "".
Proof.
  rewrite <-not_true_iff_false, slen_pos. split; [apply dec_stable|].
  intros -> Hne. by apply Hne.
Qed.

Lemma Split_nonnil s c : Split s c ≠ [].
Proof. destruct s; simpl; [done|]. by repeat case_match. Qed.

Lemma Join_Split s c : Join (Split s c) (String c EmptyString) = s.
Proof.
  induction s as [|a s IH]; [done|]. simpl.
  pose proof (Split_nonnil s c) as Hne.
  destruct (Ascii.eqb_spec a c) as [->|].
  - destruct (Split s c) eqn:E; [done|]. rewrite <-IH. done.
  - destruct (Split s c) as [|w [|w' ws]] eqn:E; [done|..];
      exact (f_equal (String a) IH).
Qed.

Lemma Split_app_sep w s c :
  ContainsByte w c = false → Split (w +:+ String c s) c = w :: Split s c.
Proof.
  induction w as [|a w IH]; simpl; intros H; rewrite ?sapp_nil_l, ?sapp_cons; simpl.
  { by rewrite Ascii.eqb_refl. }
  apply orb_false_iff in H as [-> H]. by rewrite (IH H).
Qed.

Lemma Split_no_sep w c : ContainsByte w c = false → Split w c = [w].
Proof.
  induction w as [|a w IH]; simpl; intros H; [done|].
  apply orb_false_iff in H as [-> H]. by rewrite (IH H).
Qed.

(** Words without the separator survive a join and a split. *)
Lemma Split_Join ws c :
  ws ≠ [] → Forall (λ w, ContainsByte w c = false) ws →
  Split (Join ws (String c EmptyString)) c = ws.
Proof.
  intros Hne Hws. induction Hws as [|w ws Hw Hws IH]; [done|].
  destruct ws as [|w' ws]; [by apply Split_no_sep|].
  change (Join (w :: w' :: ws) _) with
    (w +:+ String c EmptyString +:+ Join (w' :: ws) (String c EmptyString)).
  rewrite sapp_cons, sapp_nil_l, Split_app_sep by done. by rewrite IH.
Qed.

Lemma Split_no_sep_words s c : Forall (λ w, ContainsByte w c = false) (Split s c).
Proof.
  induction s as [|a s IH]; simpl; [by repeat constructor|].
  destruct (Ascii.eqb a c) eqn:E; [by constructor|].
  destruct IH as [|w ws Hw Hws]; constructor; simpl; rewrite ?E, ?Hw; done.
Qed.

Lemma SplitN2_app_sep w s c :
  ContainsByte w c = false → SplitN2 (w +:+ String c s) c = [w; s].
Proof.
  induction w as [|a w IH]; simpl; intros H; rewrite ?sapp_nil_l, ?sapp_cons; simpl.
  { by rewrite Ascii.eqb_refl. }
  apply orb_false_iff in H as [-> H]. by rewrite (IH H).
Qed.

Lemma SplitN2_no_sep w c : ContainsByte w c = false → SplitN2 w c = [w].
Proof.
  induction w as [|a w IH]; simpl; intros H; [done|].
  apply orb_false_iff in H as [-> H]. by rewrite (IH H).
Qed.

Lemma lower_ascii_idem a : lower_ascii (lower_ascii a) = lower_ascii a.
Proof. destruct a as [[][][][][][][][]]; reflexivity. Qed.

Lemma ToLower_idem s : ToLower (ToLower s) = ToLower s.
Proof. induction s; simpl; [done|]. rewrite lower_ascii_idem. by f_equal. Qed.

Lemma ToLower_app s t : ToLower (s +:+ t) = ToLower s +:+ ToLower t.
Proof. induction s; [done|]. rewrite sapp_cons. simpl. rewrite sapp_cons. by f_equal. Qed.

Lemma HasSuffix_app s t : HasSuffix (s +:+ t) t = true.
Proof.
  induction s as [|a s IH]; rewrite ?sapp_nil_l, ?sapp_cons.
  - destruct t; cbn [HasSuffix]; by rewrite bool_decide_eq_true_2.
  - cbn [HasSuffix]. by rewrite IH, orb_true_r.
Qed.

Lemma HasSuffix_inv s t : HasSuffix s t = true → ∃ u, s = u +:+ t.
Proof.
  induction s as [|a s IH]; simpl; intros H.
  - exists EmptyString. rewrite orb_false_r in H. by split_bools.
  - apply orb_true_iff in H as [H|H]; split_bools.
    + by exists EmptyString.
    + destruct (IH H) as [u ->]. by exists (String a u).
Qed.

Lemma digit_val_char d : 0 ≤ d < 10 → digit_val (digit_char d) = Some d.
Proof.
  intros Hd.
  assert (d = 0 ∨ d = 1 ∨ d = 2 ∨ d = 3 ∨ d = 4 ∨ d = 5 ∨ d = 6 ∨ d = 7 ∨ d = 8 ∨ d = 9)
    as Hcases by lia.
  by destruct_or! Hcases; subst.
Qed.

Lemma read_put_digits fuel z acc :
  0 ≤ z < 2 ^ Z.of_nat fuel →
  read_digits 0 (put_digits fuel z acc) = read_digits z acc.
Proof.
  revert z acc. induction fuel as [|fuel IH]; intros z acc Hz.
  { assert (z = 0) as -> by (simpl in Hz; lia). done. }
  rewrite Nat2Z.inj_succ, Z.pow_succ_r in Hz by lia. cbn [put_digits].
  pose proof (Z.div_mod z 10 ltac:(lia)) as Hdm.
  pose proof (Z.mod_pos_bound z 10 ltac:(lia)) as Hm.
  destruct (Z.eqb_spec (z `div` 10) 0) as [E|E].
  - cbn [read_digits]. rewrite digit_val_char by lia. simpl. f_equal. lia.
  - rewrite IH by lia. cbn [read_digits]. rewrite digit_val_char by lia.
    simpl. f_equal. lia.
Qed.

Lemma digit_fuel_enough z : 0 ≤ z → z < 2 ^ Z.of_nat (digit_fuel z).
Proof.
  intros Hz. unfold digit_fuel. rewrite Nat2Z.inj_succ.
  destruct (decide (z = 0)) as [->|]; [done|].
  rewrite Z2Nat.id by apply Z.log2_nonneg. apply Z.log2_spec. lia.
Qed.

Lemma put_digits_head fuel z acc :
  0 ≤ z → (0 < fuel)%nat →
  ∃ d s, 0 ≤ d < 10 ∧ put_digits fuel z acc = String (digit_char d) s.
Proof.
  revert z acc. induction fuel as [|fuel IH]; intros z acc Hz Hf; [lia|].
  cbn [put_digits]. pose proof (Z.mod_pos_bound z 10 ltac:(lia)).
  destruct (Z.eqb_spec (z `div` 10) 0); [by eauto|].
  destruct fuel as [|fuel]; [by eauto|].
  apply IH; [apply Z.div_pos; lia|lia].
Qed.

Lemma read_nonempty_put z :
  0 ≤ z → read_nonempty (put_digits (digit_fuel z) z EmptyString) = Some z.
Proof.
  intros Hz.
  destruct (put_digits_head (digit_fuel z) z EmptyString Hz ltac:(unfold digit_fuel; lia))
    as (d & s & Hd & E).
  pose proof (read_put_digits (digit_fuel z) z EmptyString) as Hr.
  rewrite E in *. apply Hr. split; [done|by apply digit_fuel_enough].
Qed.

(** Printing an [int] and reading it back gives the same [int]. *)
Lemma Atoi_Itoa z : int_range z → Atoi (Itoa z) = Some z.
Proof.
  intros Hz. unfold Itoa. destruct (Z.ltb_spec z 0) as [Hneg|Hpos].
  - unfold Atoi. rewrite read_nonempty_put by lia. simpl.
    rewrite Z.opp_involutive. by case_decide.
  - pose proof (read_nonempty_put z Hpos) as Hr.
    destruct (put_digits_head (digit_fuel z) z EmptyString Hpos ltac:(unfold digit_fuel; lia))
      as (d & s & Hd & E).
    rewrite E in *.
    assert (d = 0 ∨ d = 1 ∨ d = 2 ∨ d = 3 ∨ d = 4 ∨ d = 5 ∨ d = 6 ∨ d = 7 ∨ d = 8 ∨ d = 9)
      as Hcases by lia.
    destruct_or! Hcases; subst; unfold Atoi; simpl in *; rewrite Hr; simpl;
      by case_decide.
Qed.

Lemma LastIndexByte_bound s c : -1 ≤ LastIndexByte s c < slen s.
Proof.
  induction s as [|a s IH]; [done|]. cbn [LastIndexByte]. rewrite slen_cons.
  repeat case_match; split_bools; lia.
Qed.

Lemma stake_app s t : stake (String.length s) (s +:+ t) = s.
Proof. induction s; [by destruct t|]. rewrite sapp_cons. simpl. by f_equal. Qed.

Lemma sdrop_app s t : sdrop (String.length s) (s +:+ t) = t.
Proof. induction s; [by destruct t|]. done. Qed.

Lemma ContainsByte_app s t c :
  ContainsByte (s +:+ t) c = ContainsByte s c || ContainsByte t c.
Proof.
  induction s as [|a s IH]; [done|]. rewrite sapp_cons. simpl. by rewrite IH, orb_assoc.
Qed.

Lemma ContainsByte_Join l sep c :
  ContainsByte sep c = false → Forall (λ w, ContainsByte w c = false) l →
  ContainsByte (Join l sep) c = false.
Proof.
  intros Hsep Hl. induction Hl as [|w l Hw Hl IH]; [done|].
  destruct l as [|w' l]; [done|].
  change (Join (w :: w' :: l) sep) with (w +:+ sep +:+ Join (w' :: l) sep).
  by rewrite !ContainsByte_app, Hw, Hsep, IH.
Qed.
