(* ===== verification/GoRuntime.v ===== *)
(** * Interfaces of the Go runtime that leave the program a choice

    Three facilities of the language do not fix their result: [sort.Sort] may
    order equal elements in any way, [range] visits the entries of a map in an
    unspecified order, and [rand.Intn] draws any number below its bound.  Each
    is a class with the laws the language documents; the theorems of the
    components are proved against the class, for every implementation. *)

From S2P Require Import Prelude.
From stdpp Require Export sorting.
Local Open Scope Z_scope.

(** ** [sort.Sort] *)

(** [not_less less a b]: [b] does not have to come before [a]. *)
Definition not_less {A} (less : A → A → bool) (a b : A) : Prop := less b a = false.

(** [less] is a strict weak order, which [sort.Interface] requires. *)
Class WeakOrder {A} (less : A → A → bool) : Prop := {
  weak_trans : Transitive (not_less less);
  weak_total : Total (not_less less)
}.

Class GoSort := {
  go_sort : ∀ {A}, (A → A → bool) → list A → list A;
  go_sort_perm : ∀ {A} (less : A → A → bool) l, go_sort less l ≡ₚ l;
  go_sort_sorted : ∀ {A} (less : A → A → bool) l,
    WeakOrder less → StronglySorted (not_less less) (go_sort less l)
}.

(** ** [for k, v := range m] *)

Class GoRange := {
  go_range : ∀ {K V} `{Countable K}, gmap K V → list (K * V);
  go_range_perm : ∀ {K V} `{Countable K} (m : gmap K V),
    go_range m ≡ₚ map_to_list m
}.

(** ** [rand.Intn] *)

Class GoRand (rng : Type) := {
  draw : Z → rng → Z * rng;
  draw_range : ∀ n r, 0 < n → 0 ≤ (draw n r).1 < n
}.

(** [rand.Intn(n)] panics when [n <= 0]. *)
Definition Intn `{GoRand rng} (n : Z) (r : rng) : res (Z * rng) :=
  if n <=? 0 then Panic "invalid argument to Intn" else Ret (draw n r).

(** ** Instances, which the examples and the witnesses run with *)

#[export] Instance not_less_dec {A} (less : A → A → bool) : RelDecision (not_less less).
Proof. intros a b. unfold not_less. apply _. Defined.

Definition merge_sort_by {A} (less : A → A → bool) (l : list A) : list A :=
  merge_sort (not_less less) l.

Lemma merge_sort_by_perm {A} (less : A → A → bool) l : merge_sort_by less l ≡ₚ l.
Proof. apply merge_sort_Permutation. Qed.

Lemma merge_sort_by_sorted {A} (less : A → A → bool) l :
  WeakOrder less → StronglySorted (not_less less) (merge_sort_by less l).
Proof. intros [Ht Htot]. by apply (StronglySorted_merge_sort _). Qed.

Definition GoSort_merge : GoSort := {|
  go_sort := @merge_sort_by;
  go_sort_perm := @merge_sort_by_perm;
  go_sort_sorted := @merge_sort_by_sorted
|}.

Definition GoRange_list : GoRange := {|
  go_range := λ K V _ _ m, map_to_list m;
  go_range_perm := λ K V _ _ m, Permutation_refl (map_to_list m)
|}.

(** A generator that replays a list of numbers, reduced to the bound, and
    draws 0 once the list is used up. *)
Definition replay_draw (n : Z) (r : list Z) : Z * list Z :=
  match r with
  | [] => (0, [])
  | z :: r => (z `mod` n, r)
  end.

Lemma replay_draw_range n r : 0 < n → 0 ≤ (replay_draw n r).1 < n.
Proof. intros. destruct r; simpl; [lia|]. by apply Z.mod_pos_bound. Qed.

Definition GoRand_replay : GoRand (list Z) := {|
  draw := replay_draw;
  draw_range := replay_draw_range
|}.

(** ** Lemmas *)

Section range.
Context `{GoRange} `{Countable K} {V : Type}.
Implicit Types m : gmap K V.

Lemma elem_of_go_range m k v : (k, v) ∈ go_range m ↔ m !! k = Some v.
Proof. by rewrite go_range_perm, elem_of_map_to_list. Qed.

Lemma NoDup_go_range m : NoDup (go_range m).*1.
Proof. rewrite go_range_perm. apply NoDup_fst_map_to_list. Qed.

Lemma length_go_range m : length (go_range m) = size m.
Proof. by rewrite go_range_perm, length_map_to_list. Qed.
End range.

Lemma StronglySorted_weaken {A} (R R' : relation A) l :
  (∀ a b, R a b → R' a b) → StronglySorted R l → StronglySorted R' l.
Proof.
  intros HR. induction 1 as [|a l Hl IH Hall]; constructor; [done|].
  eapply Forall_impl; [done|]. intros; by apply HR.
Qed.

(** Ordering by a decreasing integer key is a weak order. *)
Lemma weak_order_by_key {A} (f : A → Z) : WeakOrder (λ a b, f b <? f a).
Proof.
  split.
  - intros a b c. unfold not_less. rewrite !Z.ltb_ge. lia.
  - intros a b. unfold not_less. rewrite !Z.ltb_ge. lia.
Qed.

Lemma Intn_ok `{GoRand rng} n (r : rng) :
  0 < n → ∃ z r', Intn n r = Ret (z, r') ∧ 0 ≤ z < n.
Proof.
  intros Hn. unfold Intn. destruct (Z.leb_spec n 0); [lia|].
  pose proof (draw_range n r Hn). destruct (draw n r) as [z r']. eauto.
Qed.
