(* ===== verification/ZoneStats.v ===== *)
(** * zones/zone_stats.go: the ring buffer of recent labels

    Each zone keeps two of these buffers, for the labels that were asked for
    and for the clients that asked.  The specification is the list of all
    labels ever added; the buffer shows the last [size] of them. *)

From S2P Require Import Prelude GoRuntime.
Local Open Scope Z_scope.

(** ** The buffer and its operations *)

Record zoneLabelStats := mkStats {
  zs_pos : Z;
  zs_rotated : bool;
  zs_log : list string
}.

Record labelStat := mkStat { ls_Label : string; ls_Count : Z }.

#[export] Instance labelStat_eq_dec : EqDecision labelStat.
Proof. solve_decision. Defined.
#[export] Instance zoneLabelStats_eq_dec : EqDecision zoneLabelStats.
Proof. solve_decision. Defined.

Definition NewZoneLabelStats (size : Z) : res zoneLabelStats :=
  if size <? 0 then Panic "makeslice: len out of range"
  else Ret (mkStats 0 false (replicate (Z.to_nat size) "")).

Definition Close (zs : zoneLabelStats) : zoneLabelStats :=
  mkStats (zs_pos zs) (zs_rotated zs) [].

Definition Reset (zs : zoneLabelStats) : zoneLabelStats :=
  mkStats 0 false (replicate (length (zs_log zs)) "").

Definition add (zs : zoneLabelStats) (l : string) : res zoneLabelStats :=
  log ← store_at (zs_log zs) (zs_pos zs) l;
  let pos := zs_pos zs + 1 in
  if len log <? pos + 1 then Ret (mkStats 0 true log)
  else Ret (mkStats pos (zs_rotated zs) log).

(** The loop of [Counts] over [zs.log] from index [i] on. *)
Fixpoint counts_loop (rotated : bool) (pos i : Z) (log : list string)
    (counts : gmap string Z) : gmap string Z :=
  match log with
  | [] => counts
  | l :: log =>
      if negb rotated && (pos <=? i) then counts
      else counts_loop rotated pos (i + 1) log (<[l := map_get 0 counts l + 1]> counts)
  end.

Definition Counts (zs : zoneLabelStats) : gmap string Z :=
  counts_loop (zs_rotated zs) (zs_pos zs) 0 (zs_log zs) ∅.

(** [labelStatsByCount.Less] *)
Definition labelStats_Less (a b : labelStat) : bool := ls_Count b <? ls_Count a.

Definition TopCounts `{GoRange, GoSort} (zs : zoneLabelStats) (n : Z) : res (list labelStat) :=
  let top := (λ '(l, c), mkStat l c) <$> go_range (Counts zs) in
  let top := go_sort labelStats_Less top in
  if n <? len top then
    if n <? 0 then Panic "slice bounds out of range"
    else
      let others := sumZ (ls_Count <$> drop (Z.to_nat n) top) in
      Ret (take (Z.to_nat n) top ++ [mkStat "Others" others])
  else Ret top.

(** ** Specification *)

(** The last [n] elements of a history. *)
Definition lastn {A} (n : nat) (l : list A) : list A := drop (length l - n) l.

Definition occurrences (l : string) (h : list string) : Z := len (filter (l =.) h).

(** The number of different labels. *)
Definition distinct (h : list string) : Z := Z.of_nat (size (list_to_set h : gset string)).

(** The entries the buffer holds, oldest first. *)
Definition contents (zs : zoneLabelStats) : list string :=
  if zs_rotated zs
  then drop (Z.to_nat (zs_pos zs)) (zs_log zs) ++ take (Z.to_nat (zs_pos zs)) (zs_log zs)
  else take (Z.to_nat (zs_pos zs)) (zs_log zs).

Definition stats_wf (zs : zoneLabelStats) : Prop := 0 ≤ zs_pos zs < len (zs_log zs).

(** ** Lemmas *)

Lemma lastn_app_one {A} (n : nat) (l : list A) a :
  (0 < n)%nat → (n ≤ length l)%nat → lastn n (l ++ [a]) = drop 1 (lastn n l) ++ [a].
Proof.
  intros Hn Hl. unfold lastn. rewrite length_app, drop_drop. simpl.
  rewrite drop_app_le by lia. do 2 f_equal. lia.
Qed.

Lemma lastn_all {A} (n : nat) (l : list A) : (length l ≤ n)%nat → lastn n l = l.
Proof. intros. unfold lastn. by replace (length l - n)%nat with 0%nat by lia. Qed.

Lemma lastn_lastn_app {A} (n : nat) (l k : list A) :
  lastn n (lastn n l ++ k) = lastn n (l ++ k).
Proof.
  destruct (decide (length l ≤ n)%nat) as [Hl|Hl]; [by rewrite (lastn_all n l)|].
  unfold lastn. rewrite !length_app, length_drop.
  replace (length l + length k - n)%nat with ((length l - n) + length k)%nat by lia.
  rewrite <-drop_drop, (drop_app_le l) by lia. f_equal. lia.
Qed.

Lemma length_contents zs :
  stats_wf zs →
  len (contents zs) = if zs_rotated zs then len (zs_log zs) else zs_pos zs.
Proof.
  unfold stats_wf, contents, len. intros Hwf.
  destruct (zs_rotated zs); rewrite ?length_app, ?length_drop, ?length_take; lia.
Qed.

Lemma take_insert_snoc {A} (l : list A) n a :
  (n < length l)%nat → take (S n) (<[n:=a]> l) = take n l ++ [a].
Proof.
  intros Hn. rewrite (take_S_r _ _ a) by (by apply list_lookup_insert_eq).
  by rewrite take_insert_ge by lia.
Qed.

(** One [add] on a well-formed buffer: it does not panic, keeps the capacity
    and the invariant, and appends to the visible entries, dropping the oldest
    one when the buffer is full. *)
Lemma add_step zs l :
  stats_wf zs →
  ∃ zs', add zs l = Ret zs' ∧ stats_wf zs' ∧
    length (zs_log zs') = length (zs_log zs) ∧
    contents zs' = lastn (length (zs_log zs)) (contents zs ++ [l]).
Proof.
  intros Hwf. pose proof (length_contents zs Hwf) as Hlen.
  destruct zs as [pos rot log]. unfold stats_wf, add, contents, len in *. simpl in *.
  rewrite store_at_ok by done. simpl. rewrite length_insert.
  set (p := Z.to_nat pos) in *. assert (Hp : (p < length log)%nat) by lia.
  destruct (Z.ltb_spec (Z.of_nat (length log)) (pos + 1 + 1)) as [Hend|Hend];
    eexists; (split; [reflexivity|]); simpl; rewrite length_insert;
    (split; [lia|]); (split; [done|]).
  - assert (S p = length log) as HS by lia.
    rewrite take_0, app_nil_r, drop_0. destruct rot.
    + rewrite lastn_app_one by lia. rewrite lastn_all by lia.
      rewrite (drop_S log (log !!! p) p) by
        (apply list_lookup_lookup_total_lt; lia).
      simpl. rewrite drop_0, (drop_ge log) by lia. simpl.
      rewrite <-take_insert_snoc by done. by rewrite HS, take_ge by (rewrite length_insert; lia).
    + rewrite lastn_all by (rewrite length_app, length_take; simpl; lia).
      rewrite <-take_insert_snoc by done. by rewrite HS, take_ge by (rewrite length_insert; lia).
  - replace (Z.to_nat (pos + 1)) with (S p) by lia. destruct rot.
    + rewrite lastn_app_one by lia. rewrite lastn_all by lia.
      rewrite (drop_S log (log !!! p) p) by
        (apply list_lookup_lookup_total_lt; lia).
      simpl. rewrite drop_0, drop_insert_lt, take_insert_snoc by lia.
      by rewrite app_assoc.
    + rewrite lastn_all by (rewrite length_app, length_take; simpl; lia).
      by apply take_insert_snoc.
Qed.

Lemma adds_step zs h :
  stats_wf zs →
  ∃ zs', foldM add zs h = Ret zs' ∧ stats_wf zs' ∧
    length (zs_log zs') = length (zs_log zs) ∧
    contents zs' = lastn (length (zs_log zs)) (contents zs ++ h).
Proof.
  revert zs. induction h as [|l h IH]; intros zs Hwf; cbn [foldM].
  - exists zs. rewrite app_nil_r. split_and!; [done..|].
    symmetry. apply lastn_all.
    pose proof (length_contents zs Hwf). unfold stats_wf, len in *.
    destruct (zs_rotated zs); lia.
  - destruct (add_step zs l Hwf) as (zs1 & -> & Hwf1 & Hlen1 & Hc1). simpl.
    destruct (IH zs1 Hwf1) as (zs2 & -> & Hwf2 & Hlen2 & Hc2).
    exists zs2. split_and!; [done|done|congruence|].
    rewrite Hc2, Hlen1, Hc1, lastn_lastn_app. by rewrite <-app_assoc.
Qed.

(** The labels the loop of [Counts] visits. *)
Definition visited (rotated : bool) (pos i : Z) (log : list string) : list string :=
  if rotated then log else take (Z.to_nat (pos - i)) log.

Lemma occurrences_cons x l h :
  occurrences x (l :: h) = (if decide (x = l) then 1 else 0) + occurrences x h.
Proof.
  unfold occurrences, len. rewrite filter_cons. case_decide; simpl; lia.
Qed.

Lemma map_get_bump (m : gmap string Z) l x :
  map_get 0 (<[l := map_get 0 m l + 1]> m) x =
    map_get 0 m x + if decide (x = l) then 1 else 0.
Proof.
  unfold map_get at 1. case_decide as E.
  - subst. by rewrite lookup_insert_eq.
  - rewrite lookup_insert_ne by done. unfold map_get. lia.
Qed.

Lemma counts_loop_spec rot pos i log m x :
  map_get 0 (counts_loop rot pos i log m) x =
    map_get 0 m x + occurrences x (visited rot pos i log).
Proof.
  revert i m. induction log as [|l log IH]; intros i m; simpl.
  { unfold visited. destruct rot; rewrite ?take_nil; unfold occurrences, len; simpl; lia. }
  destruct (negb rot && (pos <=? i)) eqn:E; split_bools.
  - subst. unfold visited. replace (Z.to_nat (pos - i)) with 0%nat by lia.
    unfold occurrences, len. simpl. lia.
  - rewrite IH, map_get_bump. unfold visited. destruct rot; simpl in *.
    + rewrite occurrences_cons. lia.
    + split_bools. replace (Z.to_nat (pos - i)) with (S (Z.to_nat (pos - (i + 1)))) by lia.
      simpl. rewrite occurrences_cons. lia.
Qed.

Lemma occurrences_perm x h1 h2 : h1 ≡ₚ h2 → occurrences x h1 = occurrences x h2.
Proof. intros E. unfold occurrences, len. by rewrite E. Qed.

Lemma Counts_contents zs x :
  stats_wf zs → map_get 0 (Counts zs) x = occurrences x (contents zs).
Proof.
  intros Hwf. unfold Counts. rewrite counts_loop_spec.
  replace (map_get 0 (∅ : gmap string Z) x) with 0 by done. rewrite Z.add_0_l.
  unfold visited, contents. rewrite Z.sub_0_r. destruct (zs_rotated zs); [|done].
  apply occurrences_perm. by rewrite (comm (++)), take_drop.
Qed.

Lemma counts_loop_keys rot pos i log m x :
  is_Some (counts_loop rot pos i log m !! x) →
  is_Some (m !! x) ∨ x ∈ visited rot pos i log.
Proof.
  revert i m. induction log as [|l log IH]; intros i m; simpl; [by left|].
  destruct (negb rot && (pos <=? i)) eqn:E; [by left|].
  intros H. apply IH in H. destruct (decide (l = x)) as [->|Hne].
  - right. unfold visited in *. destruct rot; [left|]. simpl in E. split_bools.
    replace (Z.to_nat (pos - i)) with (S (Z.to_nat (pos - (i + 1)))) by lia. left.
  - rewrite lookup_insert_ne in H by done. destruct H as [H|H]; [by left|right].
    unfold visited in *. destruct rot; [by right|]. simpl in E. split_bools.
    replace (Z.to_nat (pos - i)) with (S (Z.to_nat (pos - (i + 1)))) by lia. by right.
Qed.

Lemma occurrences_none x h : x ∉ h → occurrences x h = 0.
Proof.
  induction h as [|l h IH]; [done|]. intros [Hne Hh]%not_elem_of_cons.
  by rewrite occurrences_cons, decide_False, IH.
Qed.

Lemma occurrences_pos x h : x ∈ h → 0 < occurrences x h.
Proof.
  induction 1 as [h|x l h _ IH]; rewrite occurrences_cons.
  - rewrite decide_True by done. unfold occurrences, len. lia.
  - case_decide; lia.
Qed.

(** The keys of the counters are the labels of the buffer. *)
Lemma Counts_keys zs x : stats_wf zs → is_Some (Counts zs !! x) ↔ x ∈ contents zs.
Proof.
  intros Hwf. split.
  - intros [[? Hx]|Hx]%counts_loop_keys; [done|]. unfold visited, contents in *. rewrite Z.sub_0_r in Hx.
    destruct (zs_rotated zs); [|done]. by rewrite (comm (++)), take_drop.
  - intros Hx%occurrences_pos. rewrite <-Counts_contents in Hx by done. unfold map_get in Hx.
    destruct (Counts zs !! x); [by eexists|]. cbn in Hx. lia.
Qed.

Definition map_total (m : gmap string Z) : Z := sumZ (map_to_list m).*2.

Lemma map_total_bump m l : map_total (<[l := map_get 0 m l + 1]> m) = map_total m + 1.
Proof.
  unfold map_total, map_get. destruct (m !! l) as [c|] eqn:E; simpl.
  - rewrite <-(insert_id m l c E) at 2. rewrite <-(insert_delete_eq m l c).
    rewrite <-(insert_delete_eq m l (c + 1)).
    rewrite !map_to_list_insert by apply lookup_delete_eq. csimpl. lia.
  - rewrite map_to_list_insert by done. csimpl. lia.
Qed.

Lemma counts_loop_total rot pos i log m :
  map_total (counts_loop rot pos i log m) = map_total m + len (visited rot pos i log).
Proof.
  revert i m. induction log as [|l log IH]; intros i m; simpl.
  { unfold visited, len. destruct rot; rewrite ?take_nil; simpl; lia. }
  destruct (negb rot && (pos <=? i)) eqn:E; split_bools.
  - subst. unfold visited. replace (Z.to_nat (pos - i)) with 0%nat by lia.
    unfold len. simpl. lia.
  - rewrite IH, map_total_bump. unfold visited, len. destruct rot; simpl in *; [lia|].
    split_bools. replace (Z.to_nat (pos - i)) with (S (Z.to_nat (pos - (i + 1)))) by lia.
    simpl. lia.
Qed.

Lemma Counts_total zs : stats_wf zs → map_total (Counts zs) = len (contents zs).
Proof.
  intros Hwf. unfold Counts. rewrite counts_loop_total, length_contents by done.
  replace (map_total ∅) with 0 by done.
  unfold visited, stats_wf, len in *. rewrite Z.sub_0_r.
  destruct (zs_rotated zs); rewrite ?length_take; lia.
Qed.

Section top.
Context `{GoRange, GoSort}.

(** All counters, in the order [sort.Sort] leaves them. *)
Definition all_counts (zs : zoneLabelStats) : list labelStat :=
  go_sort labelStats_Less ((λ '(l, c), mkStat l c) <$> go_range (Counts zs)).

Lemma all_counts_sorted zs :
  StronglySorted (λ a b, ls_Count b ≤ ls_Count a) (all_counts zs).
Proof.
  eapply StronglySorted_weaken; [|apply go_sort_sorted, (weak_order_by_key ls_Count)].
  intros a b. unfold not_less, labelStats_Less. by rewrite Z.ltb_ge.
Qed.

Lemma all_counts_total zs : sumZ (ls_Count <$> all_counts zs) = map_total (Counts zs).
Proof.
  unfold all_counts, map_total. rewrite go_sort_perm, <-list_fmap_compose, go_range_perm.
  f_equal. apply list_fmap_ext. by intros i [l c].
Qed.

Lemma elem_of_all_counts zs s :
  s ∈ all_counts zs ↔ Counts zs !! ls_Label s = Some (ls_Count s).
Proof.
  unfold all_counts. rewrite go_sort_perm, list_elem_of_fmap. split.
  - intros ([l c] & -> & Hin). by rewrite elem_of_go_range in Hin.
  - intros Hin. exists (ls_Label s, ls_Count s). rewrite elem_of_go_range.
    by destruct s.
Qed.

(** Every label of the buffer is counted once, with its occurrences. *)
Lemma all_counts_own zs a :
  stats_wf zs → a ∈ all_counts zs →
  ls_Label a ∈ contents zs ∧ ls_Count a = occurrences (ls_Label a) (contents zs).
Proof.
  intros Hwf Ha%elem_of_all_counts. split.
  - apply Counts_keys; [done|]. by rewrite Ha.
  - rewrite <-Counts_contents by done. unfold map_get. by rewrite Ha.
Qed.

Lemma all_counts_all zs l :
  stats_wf zs → l ∈ contents zs → ∃ a, a ∈ all_counts zs ∧ ls_Label a = l.
Proof.
  intros Hwf Hl. apply Counts_keys in Hl as [c Hc]; [|done].
  exists (mkStat l c). by rewrite elem_of_all_counts.
Qed.

Lemma all_counts_labels zs : ls_Label <$> all_counts zs ≡ₚ (map_to_list (Counts zs)).*1.
Proof.
  unfold all_counts. rewrite go_sort_perm, go_range_perm, <-list_fmap_compose.
  by rewrite (list_fmap_ext (ls_Label ∘ _) fst) by (intros ? [? ?]; done).
Qed.

Lemma all_counts_NoDup zs : NoDup (ls_Label <$> all_counts zs).
Proof. rewrite all_counts_labels. apply NoDup_fst_map_to_list. Qed.

Lemma all_counts_length zs : stats_wf zs → len (all_counts zs) = distinct (contents zs).
Proof.
  intros Hwf. unfold len, distinct. f_equal.
  rewrite <-(length_fmap ls_Label), all_counts_labels, length_fmap, length_map_to_list, <-size_dom.
  f_equal. apply set_eq. intros x. rewrite elem_of_dom, elem_of_list_to_set. by apply Counts_keys.
Qed.
End top.

(** ** Properties *)

(** C28: starting from a fresh buffer of positive size, any sequence of [Add]
    calls succeeds, and [Counts] then gives for every label the number of its
    occurrences among the last [size] labels added: the ring buffer refines
    the list of all labels seen, restricted to the most recent ones. *)
Theorem stats_refine_recent (size : Z) (h : list string) :
  0 < size →
  ∃ zs0 zs, NewZoneLabelStats size = Ret zs0 ∧ foldM add zs0 h = Ret zs ∧
    ∀ l, map_get 0 (Counts zs) l = occurrences l (lastn (Z.to_nat size) h).
Proof.
  intros Hsize. unfold NewZoneLabelStats.
  destruct (Z.ltb_spec size 0); [lia|].
  set (zs0 := mkStats 0 false (replicate (Z.to_nat size) "")).
  assert (Hwf : stats_wf zs0).
  { unfold stats_wf, zs0, len. simpl. rewrite length_replicate. lia. }
  destruct (adds_step zs0 h Hwf) as (zs & Hadds & Hwf' & _ & Hc).
  exists zs0, zs. split_and!; [done|done|]. intros l.
  rewrite Counts_contents, Hc by done. f_equal. simpl. by rewrite length_replicate.
Qed.

Lemma stats_refine_recent_witness :
  ∃ zs0 zs, NewZoneLabelStats 4 = Ret zs0 ∧
    foldM add zs0 ["abc"; "foo"; "def"; "abc"; "foo"] = Ret zs ∧
    ∀ l, map_get 0 (Counts zs) l = occurrences l ["foo"; "def"; "abc"; "foo"].
Proof. exact (stats_refine_recent 4 ["abc"; "foo"; "def"; "abc"; "foo"] eq_refl). Defined.

(** C29: [TopCounts(n)] is the table of the [n] most frequent labels.  It lists
    the smaller of [n] and the number of different labels in the buffer, each
    once, in decreasing order of its count, with the number of its occurrences;
    no label that is left out occurs more often than one that is listed.
    Exactly when labels are left out there is one more line, "Others", with the
    number of all their entries.  This holds for every order in which the map
    is ranged over and for every sort. *)
Theorem TopCounts_spec `{GoRange, GoSort} (zs : zoneLabelStats) (n : Z) :
  stats_wf zs → 0 ≤ n →
  ∃ listed,
    TopCounts zs n = Ret (listed ++
      if n <? distinct (contents zs)
      then [mkStat "Others" (len (contents zs) - sumZ (ls_Count <$> listed))] else []) ∧
    len listed = Z.min n (distinct (contents zs)) ∧
    NoDup (ls_Label <$> listed) ∧
    StronglySorted (λ a b, ls_Count b ≤ ls_Count a) listed ∧
    (∀ a, a ∈ listed → ls_Label a ∈ contents zs ∧
       ls_Count a = occurrences (ls_Label a) (contents zs)) ∧
    (∀ a l, a ∈ listed → l ∉ ls_Label <$> listed →
       occurrences l (contents zs) ≤ ls_Count a) ∧
    (distinct (contents zs) ≤ n → sumZ (ls_Count <$> listed) = len (contents zs)).
Proof.
  intros Hwf Hn. exists (take (Z.to_nat n) (all_counts zs)).
  pose proof (all_counts_sorted zs) as Hsorted.
  pose proof (all_counts_total zs) as Htotal. rewrite (Counts_total zs Hwf) in Htotal.
  pose proof (all_counts_length zs Hwf) as Hlen.
  pose proof (all_counts_NoDup zs) as Hnd.
  rewrite <-(take_drop (Z.to_nat n) (all_counts zs)) in Hsorted, Htotal, Hnd.
  apply StronglySorted_app in Hsorted as (Hcross & Htake & _).
  rewrite fmap_app in Hnd. apply NoDup_app in Hnd as (Hnd & _ & _).
  rewrite fmap_app, sumZ_app in Htotal.
  assert (Hin : ∀ a, a ∈ take (Z.to_nat n) (all_counts zs) → a ∈ all_counts zs)
    by (intros a; apply subseteq_take).
  split_and!; [|unfold len in *; rewrite length_take; lia|done|done| | |].
  - unfold TopCounts. fold (all_counts zs). rewrite Hlen.
    destruct (Z.ltb_spec n (distinct (contents zs))).
    + destruct (Z.ltb_spec n 0); [lia|]. do 4 f_equal. lia.
    + rewrite take_ge, app_nil_r; [done|unfold len in Hlen; lia].
  - intros a Ha%Hin. by apply all_counts_own.
  - intros a l Ha Hl. destruct (decide (l ∈ contents zs)) as [Hc|Hc].
    + destruct (all_counts_all zs l Hwf Hc) as (b & Hb & <-).
      destruct (all_counts_own zs b Hwf Hb) as [_ <-].
      rewrite <-(take_drop (Z.to_nat n) (all_counts zs)), elem_of_app in Hb.
      destruct Hb as [Hb|Hb]; [|by apply Hcross]. destruct Hl. by apply list_elem_of_fmap_2.
    + rewrite occurrences_none by done.
      destruct (all_counts_own zs a Hwf (Hin a Ha)) as [_ ->]. unfold occurrences, len. lia.
  - intros Hle. rewrite (drop_ge (all_counts zs)) in Htotal by (unfold len in Hlen; lia).
    cbn in Htotal. lia.
Qed.

Lemma TopCounts_spec_witness :
  let _ := GoRange_list in let _ := GoSort_merge in
  let zs := mkStats 3 true ["b"; "a"; "a"; "b"; "c"] in
  ∃ a, TopCounts zs 1 = Ret [a; mkStat "Others" 3] ∧ ls_Count a = 2.
Proof.
  intros R S zs.
  destruct (TopCounts_spec zs 1) as (listed & H1 & H2 & _ & _ & H3 & _);
    [vm_compute; split; congruence | lia |].
  assert (Hd : distinct (contents zs) = 3) by (vm_compute; reflexivity).
  rewrite Hd in H1, H2. destruct listed as [|a [|b l]]; [discriminate H2| |unfold len in H2; simpl in H2; lia].
  exists a. assert (E : ls_Count a = 2) by (revert H1; vm_compute; intros [= <- ]; reflexivity).
  split; [|exact E]. rewrite H1. cbn. rewrite E. reflexivity.
Defined.

(** [Close] leaves a buffer on which every later [Add] panics, whatever
    state it was in, because the log it writes to has no slot. *)
Theorem add_after_Close_panics (zs : zoneLabelStats) (l : string) :
  add (Close zs) l = Panic "index out of range".
Proof.
  unfold add, Close, store_at, len. simpl. case_decide; [lia|done].
Qed.
