(* ===== verification/Float64.v ===== *)
(** * Go's [float64]

    IEEE 754 binary64 numbers and the operations the program uses on them, as
    the Standard Library specifies them (53 bits of precision, largest
    exponent 1024): comparison, arithmetic with rounding to nearest even,
    conversion from and to integers.

    The lemma the record picker rests on is [fle_fmul_105]: multiplying a
    distance by the constant 1.05 never gives a smaller number, rounding
    included. *)

From S2P Require Import Prelude.
From Stdlib Require Import SpecFloat.
Local Open Scope Z_scope.

Abbreviation float64 := spec_float.

#[export] Instance float64_eq_dec : EqDecision float64.
Proof. solve_decision. Defined.

Definition fle (a b : float64) : bool := SFleb a b.
Definition flt (a b : float64) : bool := SFltb a b.
Definition fmul (a b : float64) : float64 := SFmul 53 1024 a b.
Definition fadd (a b : float64) : float64 := SFadd 53 1024 a b.
Definition fdiv (a b : float64) : float64 := SFdiv 53 1024 a b.
Definition float_of_Z (z : Z) : float64 := binary_normalize 53 1024 z 0 false.

(** The constants 0, 1.05 and 360 of the source. *)
Definition f_zero : float64 := S754_zero false.
Definition f_105 : float64 := S754_finite false 4728779608739021 (-52).
Definition f_360 : float64 := S754_finite false 6333186975989760 (-44).

(** [int(f)]: truncation toward zero.  The language leaves the result of a
    conversion that does not fit to the implementation: [GoArch] is that
    choice. *)
Class GoArch := float_to_int_overflow : float64 → Z.

Definition truncate (m : positive) (e : Z) : Z :=
  if 0 <=? e then Zpos m * 2 ^ e else Zpos m `div` 2 ^ (- e).

Definition int_of_float `{GoArch} (f : float64) : Z :=
  match f with
  | S754_zero _ => 0
  | S754_finite s m e =>
      let z := if s then - truncate m e else truncate m e in
      if bool_decide (int_range z) then z else float_to_int_overflow f
  | _ => float_to_int_overflow f
  end.

(** The conversion instruction of amd64 gives the least integer. *)
Definition arch_amd64 : GoArch := λ _, min_int.

(** A finite number that is not negative. *)
Definition nonneg_finite (f : float64) : bool :=
  match f with
  | S754_zero _ => true
  | S754_finite s _ _ => negb s
  | _ => false
  end.

(** ** Order *)

Lemma fle_refl f : nonneg_finite f → fle f f.
Proof.
  destruct f as [| | |[] m e]; simpl; try done.
  unfold fle, SFleb, SFcompare. rewrite Z.compare_refl.
  replace (PosDef.Pos.compare_cont Eq m m) with Eq; [done|].
  symmetry. apply Pos.compare_refl.
Qed.

Lemma fle_total f g : nonneg_finite f → nonneg_finite g → fle f g = false → fle g f.
Proof.
  destruct f as [| | |[] m e], g as [| | |[] n k]; simpl; try done.
  unfold fle, SFleb, SFcompare. intros _ _.
  destruct (Z.compare_spec e k), (Z.compare_spec k e); try lia; try done.
  change (PosDef.Pos.compare_cont Eq) with Pos.compare.
  destruct (Pos.compare_spec m n), (Pos.compare_spec n m); try lia; done.
Qed.

Lemma fle_trans f g h :
  nonneg_finite f → nonneg_finite g → fle f g → fle g h → fle f h.
Proof.
  destruct f as [| | |[] m e], g as [| | |[] n k], h as [|[]| |[] p j]; simpl; try done.
  unfold fle, SFleb, SFcompare. intros _ _.
  change (PosDef.Pos.compare_cont Eq) with Pos.compare.
  destruct (Z.compare_spec e k), (Z.compare_spec k j), (Z.compare_spec e j);
    try lia; try done;
    destruct (Pos.compare_spec m n), (Pos.compare_spec n p), (Pos.compare_spec m p);
    try lia; done.
Qed.

(** ** Rounding *)

Lemma digits2_log2 p : Zpos (digits2_pos p) = Z.log2 (Zpos p) + 1.
Proof.
  induction p as [p IH|p IH|]; [| |done]; cbn [digits2_pos];
    rewrite Pos2Z.inj_succ, IH.
  - change (Zpos p~1) with (2 * Zpos p + 1).
    rewrite Z.log2_succ_double by lia. lia.
  - change (Zpos p~0) with (2 * Zpos p). rewrite Z.log2_double by lia. lia.
Qed.

Lemma Zdigits2_bounds m :
  0 < m → 2 ^ (Zdigits2 m - 1) ≤ m < 2 ^ Zdigits2 m ∧ 0 < Zdigits2 m.
Proof.
  destruct m as [|p|p]; try lia. intros _. simpl. rewrite digits2_log2.
  pose proof (Z.log2_spec (Zpos p) ltac:(lia)). pose proof (Z.log2_nonneg (Zpos p)).
  rewrite Z.add_simpl_r. replace (Z.log2 (Zpos p) + 1) with (Z.succ (Z.log2 (Zpos p))) by lia.
  lia.
Qed.

Lemma iter_pos_nat {A} (f : A → A) n x : iter_pos f n x = Nat.iter (Pos.to_nat n) f x.
Proof.
  revert x. induction n as [n IH|n IH|]; intros x; cbn [iter_pos]; [| |done].
  - rewrite !IH, Pos2Nat.inj_xI, <-!Nat.iter_add.
    replace (S (2 * Pos.to_nat n)) with (Pos.to_nat n + Pos.to_nat n + 1)%nat by lia.
    by rewrite !Nat.iter_add.
  - rewrite !IH, Pos2Nat.inj_xO, <-Nat.iter_add. f_equal. lia.
Qed.

Lemma shr_1_m r : 0 ≤ shr_m r → shr_m (shr_1 r) = shr_m r `div` 2.
Proof.
  destruct r as [[|[p|p|]|p] ? ?]; simpl; intros; try done; try lia.
  - apply (Z.div_unique _ _ _ 1); lia.
  - apply (Z.div_unique _ _ _ 0); lia.
Qed.

Lemma shr_iter_m n r :
  0 ≤ shr_m r → shr_m (Nat.iter n shr_1 r) = shr_m r `div` 2 ^ Z.of_nat n.
Proof.
  intros Hr. induction n as [|n IH]; [by rewrite Z.div_1_r|].
  cbn [Nat.iter nat_rect]. rewrite shr_1_m.
  - unfold Nat.iter in IH. rewrite IH, Z.div_div by lia. f_equal.
    rewrite Nat2Z.inj_succ, Z.pow_succ_r by lia. lia.
  - unfold Nat.iter in IH. rewrite IH. apply Z.div_pos; lia.
Qed.

(** What [shr_fexp] does to a positive mantissa. *)
Lemma shr_fexp_spec m e :
  0 < m →
  let n := Z.max 0 (fexp 53 1024 (Zdigits2 m + e) - e) in
  shr_m (shr_fexp 53 1024 m e loc_Exact).1 = m `div` 2 ^ n ∧
  (shr_fexp 53 1024 m e loc_Exact).2 = e + n.
Proof.
  intros Hm n. unfold shr_fexp, shr. subst n.
  destruct (Z.sub (fexp 53 1024 (Zdigits2 m + e)) e) as [|p|p] eqn:E; cbn [fst snd].
  - simpl. rewrite Z.div_1_r. lia.
  - rewrite iter_pos_nat, shr_iter_m by (simpl; lia).
    rewrite positive_nat_Z. split; [done|]. lia.
  - simpl. rewrite Z.div_1_r. lia.
Qed.

Lemma round_nearest_even_bounds m l :
  m ≤ round_nearest_even m l ≤ m + 1.
Proof. destruct l as [|[]]; simpl; try lia. destruct (Z.even m); lia. Qed.

Lemma div_pow2_pos a n k : 0 ≤ k → 0 ≤ n → 2 ^ (n + k) ≤ a → 2 ^ k ≤ a `div` 2 ^ n.
Proof.
  intros Hk Hn Ha. apply Z.div_le_lower_bound; [lia|]. by rewrite <-Z.pow_add_r.
Qed.

(** The second normalisation of the rounding: it either leaves the number
    alone or raises the exponent and keeps the mantissa positive. *)
Lemma second_shift m e :
  0 < m → -1074 ≤ e →
  let n := Z.max 0 (fexp 53 1024 (Zdigits2 m + e) - e) in
  0 < m `div` 2 ^ n ∧ (n = 0 ∨ 0 < n ∧ n = Zdigits2 m - 53).
Proof.
  intros Hm He n. destruct (Zdigits2_bounds m Hm) as [[Hlo Hhi] Hd].
  unfold fexp, emin in n.
  destruct (decide (Zdigits2 m ≤ 53)) as [Hs|Hs].
  - assert (n = 0) as -> by (unfold n; lia). rewrite Z.div_1_r. lia.
  - assert (n = Zdigits2 m - 53) as -> by (unfold n; lia). split; [|lia].
    assert (2 ^ 52 ≤ m `div` 2 ^ (Zdigits2 m - 53)); [|lia].
    apply div_pow2_pos; [lia|lia|]. etrans; [|apply Hlo]. apply Z.pow_le_mono_r; lia.
Qed.

(** Rounding an exact product [M * 2^E]: the result is at least [m * 2^e]
    when the first shift lands on exponent [e] with a mantissa of at least
    [m], or on a larger exponent. *)
Lemma round_at_least m e M E :
  0 < M → -1074 ≤ e → e ≤ 900 →
  let n := Z.max 0 (fexp 53 1024 (Zdigits2 M + E) - E) in
  Zpos m ≤ 2 ^ 53 →
  Zdigits2 M - n ≤ 53 →
  0 < M `div` 2 ^ n →
  (E + n = e ∧ Zpos m ≤ M `div` 2 ^ n ∨ E + n = e + 1) →
  SFleb (S754_finite false m e) (binary_round_aux 53 1024 false M E loc_Exact) = true.
Proof.
  intros HM He He' n Hm53 Hdig Hpos Hcase. unfold binary_round_aux.
  destruct (shr_fexp_spec M E HM) as [Hm1 He1].
  destruct (shr_fexp 53 1024 M E loc_Exact) as [r1 e1] eqn:E1. cbn [fst snd] in Hm1, He1.
  fold n in Hm1, He1.
  pose proof (round_nearest_even_bounds (shr_m r1) (loc_of_shr_record r1)) as Hrnd.
  set (m2 := round_nearest_even _ _) in *.
  assert (Hm2 : 0 < m2) by lia.
  destruct (shr_fexp_spec m2 e1 Hm2) as [Hm3 He3].
  destruct (second_shift m2 e1 Hm2 ltac:(lia)) as [Hm3pos Hn2].
  destruct (shr_fexp 53 1024 m2 e1 loc_Exact) as [r3 e3]. cbn [fst snd] in Hm3, He3.
  set (n2 := Z.max 0 (fexp 53 1024 (Zdigits2 m2 + e1) - e1)) in *.
  rewrite Hm3. destruct (m2 `div` 2 ^ n2) as [|m3|m3] eqn:Em3; [lia| |lia].
  assert (Hn2' : n2 ≤ 2).
  { destruct Hn2 as [->|[_ ->]]; [lia|].
    destruct (Zdigits2_bounds m2 Hm2) as [[Hlo _] _].
    destruct (Zdigits2_bounds M HM) as [[_ Hhi] _].
    assert (M `div` 2 ^ n < 2 ^ 53).
    { apply Z.div_lt_upper_bound; [apply Z.pow_pos_nonneg; unfold n; lia|].
      rewrite <-Z.pow_add_r by (unfold n; lia). eapply Z.lt_le_trans; [apply Hhi|].
      apply Z.pow_le_mono_r; lia. }
    assert (2 ^ (Zdigits2 m2 - 1) ≤ 2 ^ 53) by lia.
    apply Z.pow_le_mono_r_iff in H0; lia. }
  destruct (Z.leb_spec e3 (1024 - 53)); [|lia].
  unfold SFleb, SFcompare. destruct (Z.compare_spec e e3) as [Heq|Hlt|Hgt]; [|done|lia].
  change (PosDef.Pos.compare_cont Eq) with Pos.compare.
  assert (n2 = 0) as Hn20 by lia. rewrite Hn20, Z.div_1_r in Em3.
  destruct (Pos.compare_spec m m3); [done|done|]. lia.
Qed.

(** Multiplying a nonnegative number of moderate size by 1.05 does not make
    it smaller. *)
Lemma fle_fmul_105 f :
  valid_binary 53 1024 f = true → nonneg_finite f → fle f f_360 → fle f (fmul f f_105).
Proof.
  destruct f as [| | |[] m e]; try done. intros Hv _ Hle.
  assert (He' : e ≤ -44).
  { revert Hle. unfold fle, SFleb, SFcompare, f_360.
    destruct (Z.compare_spec e (-44)); [lia..|done]. }
  unfold valid_binary, bounded, canonical_mantissa, fexp, emin in Hv. split_bools.
  set (d := Zpos (digits2_pos m)) in *.
  destruct (Zdigits2_bounds (Zpos m) ltac:(lia)) as [[Hlo Hhi] Hd].
  change (Zdigits2 (Zpos m)) with d in *.
  unfold fle, fmul, SFmul, f_105. cbn [xorb].
  change (Zpos (PosDef.Pos.mul m 4728779608739021)) with (Zpos m * 4728779608739021).
  set (M := Zpos m * 4728779608739021). assert (HM : 0 < M) by (unfold M; lia).
  destruct (Zdigits2_bounds M HM) as [[HMlo HMhi] HMd].
  assert (HD1 : d + 52 ≤ Zdigits2 M).
  { assert (2 ^ (d + 51) < 2 ^ Zdigits2 M) as Hlt%Z.pow_lt_mono_r_iff; [|lia..].
    eapply Z.le_lt_trans; [|apply HMhi]. unfold M.
    replace (d + 51) with ((d - 1) + 52) by lia. rewrite Z.pow_add_r by lia. nia. }
  assert (HD2 : Zdigits2 M ≤ d + 53).
  { assert (2 ^ (Zdigits2 M - 1) < 2 ^ (d + 53)) as Hlt%Z.pow_lt_mono_r_iff; [|lia..].
    eapply Z.le_lt_trans; [apply HMlo|]. unfold M. rewrite Z.pow_add_r by lia. nia. }
  assert (Hd53 : d ≤ 53) by lia.
  set (n := Z.max 0 (fexp 53 1024 (Zdigits2 M + (e + -52)) - (e + -52))).
  assert (Hn : n = 52 ∧ Zdigits2 M ≤ 105 ∨ n = 53 ∧ Zdigits2 M = 106).
  { unfold n, fexp, emin. lia. }
  assert (Hm53 : Zpos m ≤ 2 ^ 53).
  { apply Z.lt_le_incl. eapply Z.lt_le_trans; [apply Hhi|]. apply Z.pow_le_mono_r; lia. }
  apply Is_true_true_2, round_at_least; fold n; [done|lia|lia|done|lia| |].
  - destruct Hn as [[-> HD]|[-> HD]].
    + assert (2 ^ 0 ≤ M `div` 2 ^ 52); [|lia]. apply div_pow2_pos; [lia..|].
      unfold M. lia.
    + assert (2 ^ 0 ≤ M `div` 2 ^ 53); [|lia]. apply div_pow2_pos; [lia..|].
      rewrite HD in HMlo. lia.
  - destruct Hn as [[-> HD]|[-> HD]]; [left|right; lia]. split; [lia|].
    apply Z.div_le_lower_bound; [lia|]. unfold M. lia.
Qed.
