(* ===== verification/TypeUtil.v ===== *)
(** * typeutil/typeutil.go: conversions of decoded JSON values

    [value] is Go's [interface{}] restricted to the dynamic types the program
    meets: what [encoding/json] decodes into, and the [[]string] pairs the zone
    reader builds for the legacy NS syntax.  An object lists its entries in
    the order in which [range] visits them, so a theorem about every object
    covers every visiting order. *)

From S2P Require Import Prelude GoStrings Float64.
Local Open Scope Z_scope.

#[warnings="-register-all"]
Inductive value :=
| VNil
| VBool (b : bool)
| VNum (f : float64)
| VStr (s : string)
| VStrs (l : list string)
| VArr (l : list value)
| VObj (l : list (string * value)).

(** [strconv.FormatFloat(v, 'f', -1, 64)], the shortest decimal number that
    reads back as [v].  An integer of at most 53 bits prints as such; the
    digits of the other numbers are left to [GoFormat]. *)
Class GoFormat := format_fraction : float64 → string.

Definition float_integer (f : float64) : option Z :=
  match f with
  | SpecFloat.S754_finite s m e =>
      let z := if s then - truncate m e else truncate m e in
      if ((0 <=? e) || (Zpos m `mod` 2 ^ (- e) =? 0)) && (Z.abs z <=? 2 ^ 53) then Some z
      else None
  | _ => None
  end.

Definition FormatFloat `{GoFormat} (f : float64) : string :=
  match f with
  | SpecFloat.S754_zero s => if s then "-0" else "0"
  | _ => match float_integer f with Some z => Itoa z | None => format_fraction f end
  end.

(** [m[k]] on a decoded object: the value and whether it is there. *)
Fixpoint obj_get (l : list (string * value)) (k : string) : option value :=
  match l with
  | [] => None
  | (k', v) :: l => if decide (k' = k) then Some v else obj_get l k
  end.

(** ** Type assertions, which panic when the dynamic type differs *)

Definition as_string (v : value) : res string :=
  match v with VStr s => Ret s | _ => Panic "interface conversion: not a string" end.
Definition as_bool (v : value) : res bool :=
  match v with VBool b => Ret b | _ => Panic "interface conversion: not a bool" end.
Definition as_obj (v : value) : res (list (string * value)) :=
  match v with VObj l => Ret l | _ => Panic "interface conversion: not a map" end.
Definition as_arr (v : value) : res (list value) :=
  match v with VArr l => Ret l | _ => Panic "interface conversion: not a slice" end.

(** ** The package's functions *)

Definition ToBool (v : value) : res bool :=
  match v with
  | VBool b => Ret b
  | VStr s => Ret (bool_decide (s = "true") || bool_decide (s = "1"))
  | VNum f => Ret (flt f_zero f)
  | _ => Panic "Can't convert value"
  end.

Definition ToString `{GoFormat} (v : value) : res string :=
  match v with
  | VStr s => Ret s
  | VNum f => Ret (FormatFloat f)
  | _ => Panic "Can't convert value"
  end.

Definition ToInt `{GoArch} (v : value) : res Z :=
  match v with
  | VStr s =>
      match Atoi s with
      | Some i => Ret i
      | None => Panic "Error converting weight to integer"
      end
  | VNum f => Ret (int_of_float f)
  | _ => Panic "Can't convert value"
  end.

(** ** Lemmas *)

Lemma Atoi_range s z : Atoi s = Some z → int_range z.
Proof.
  unfold Atoi. intros H. apply bind_Some in H as (v & _ & H).
  case_decide; naive_solver.
Qed.

(** A decimal string and the number it denotes convert to the same [int]. *)
Lemma ToInt_string `{GoArch} z : int_range z → ToInt (VStr (Itoa z)) = Ret z.
Proof. intros Hz. simpl. by rewrite Atoi_Itoa. Qed.

Lemma ToInt_range `{GoArch} v z :
  (∀ f, int_range (float_to_int_overflow f)) → ToInt v = Ret z → int_range z.
Proof.
  intros Harch. destruct v; simpl; intros Hz; try done.
  - injection Hz as <-. unfold int_of_float.
    destruct f as [| | |s m e]; auto; [split; done|]. case_bool_decide; auto.
  - destruct (Atoi s) eqn:E; [|done]. injection Hz as <-. by eapply Atoi_range.
Qed.

Example FormatFloat_300 `{GoFormat} : FormatFloat (float_of_Z 300) = "300".
Proof. reflexivity. Qed.
Example FormatFloat_neg `{GoFormat} : FormatFloat (float_of_Z (-7)) = "-7".
Proof. reflexivity. Qed.
