(* ===== verification/Countries.v ===== *)
(** * countries/: the country, continent and region tables

    The two literal tables of the package, the two tables its [init] functions
    derive from them by inversion, and the lookup of a region group. *)

From S2P Require Import Prelude GoRuntime.

(** ** The literal tables *)

(** The table in the order of the source, in two halves. *)
Definition CountryContinent_first : list (string * string) := [
  ("ad", "europe"); ("ae", "asia"); ("af", "asia"); ("ag", "north-america");
  ("ai", "north-america"); ("al", "europe"); ("am", "asia"); ("an", "north-america");
  ("ao", "africa"); ("ap", "asia"); ("aq", "antarctica"); ("ar", "south-america");
  ("as", "oceania"); ("at", "europe"); ("au", "oceania"); ("aw", "north-america");
  ("ax", "europe"); ("az", "asia"); ("ba", "europe"); ("bb", "north-america");
  ("bd", "asia"); ("be", "europe"); ("bf", "africa"); ("bg", "europe"); ("bh", "asia");
  ("bi", "africa"); ("bj", "africa"); ("bl", "north-america"); ("bm", "north-america");
  ("bn", "asia"); ("bo", "south-america"); ("br", "south-america");
  ("bs", "north-america"); ("bt", "asia"); ("bv", "antarctica"); ("bw", "africa");
  ("by", "europe"); ("bz", "north-america"); ("ca", "north-america"); ("cc", "asia");
  ("cd", "africa"); ("cf", "africa"); ("cg", "africa"); ("ch", "europe"); ("ci", "africa");
  ("ck", "oceania"); ("cl", "south-america"); ("cm", "africa"); ("cn", "asia");
  ("co", "south-america"); ("cr", "north-america"); ("cu", "north-america");
  ("cv", "africa"); ("cx", "asia"); ("cy", "asia"); ("cz", "europe"); ("de", "europe");
  ("dj", "africa"); ("dk", "europe"); ("dm", "north-america"); ("do", "north-america");
  ("dz", "africa"); ("ec", "south-america"); ("ee", "europe"); ("eg", "africa");
  ("eh", "africa"); ("er", "africa"); ("es", "europe"); ("et", "africa"); ("eu", "europe");
  ("fi", "europe"); ("fj", "oceania"); ("fk", "south-america"); ("fm", "oceania");
  ("fo", "europe"); ("fr", "europe"); ("fx", "europe"); ("ga", "africa"); ("gb", "europe");
  ("gd", "north-america"); ("ge", "asia"); ("gf", "south-america"); ("gg", "europe");
  ("gh", "africa"); ("gi", "europe"); ("gl", "north-america"); ("gm", "africa");
  ("gn", "africa"); ("gp", "north-america"); ("gq", "africa"); ("gr", "europe");
  ("gs", "antarctica"); ("gt", "north-america"); ("gu", "oceania"); ("gw", "africa");
  ("gy", "south-america"); ("hk", "asia"); ("hm", "antarctica"); ("hn", "north-america");
  ("hr", "europe"); ("ht", "north-america"); ("hu", "europe"); ("id", "asia");
  ("ie", "europe"); ("il", "asia"); ("im", "europe"); ("in", "asia"); ("io", "asia");
  ("iq", "asia"); ("ir", "asia"); ("is", "europe"); ("it", "europe"); ("je", "europe");
  ("jm", "north-america"); ("jo", "asia"); ("jp", "asia"); ("ke", "africa");
  ("kg", "asia"); ("kh", "asia"); ("ki", "oceania"); ("km", "africa");
  ("kn", "north-america"); ("kp", "asia"); ("kr", "asia"); ("kw", "asia")
].

Definition CountryContinent_second : list (string * string) := [
  ("ky", "north-america"); ("kz", "asia"); ("la", "asia"); ("lb", "asia");
  ("lc", "north-america"); ("li", "europe"); ("lk", "asia"); ("lr", "africa");
  ("ls", "africa"); ("lt", "europe"); ("lu", "europe"); ("lv", "europe"); ("ly", "africa");
  ("ma", "africa"); ("mc", "europe"); ("md", "europe"); ("me", "europe");
  ("mf", "north-america"); ("mg", "africa"); ("mh", "oceania"); ("mk", "europe");
  ("ml", "africa"); ("mm", "asia"); ("mn", "asia"); ("mo", "asia"); ("mp", "oceania");
  ("mq", "north-america"); ("mr", "africa"); ("ms", "north-america"); ("mt", "europe");
  ("mu", "africa"); ("mv", "asia"); ("mw", "africa"); ("mx", "north-america");
  ("my", "asia"); ("mz", "africa"); ("na", "africa"); ("nc", "oceania"); ("ne", "africa");
  ("nf", "oceania"); ("ng", "africa"); ("ni", "north-america"); ("nl", "europe");
  ("no", "europe"); ("np", "asia"); ("nr", "oceania"); ("nu", "oceania");
  ("nz", "oceania"); ("om", "asia"); ("pa", "north-america"); ("pe", "south-america");
  ("pf", "oceania"); ("pg", "oceania"); ("ph", "asia"); ("pk", "asia"); ("pl", "europe");
  ("pm", "north-america"); ("pn", "oceania"); ("pr", "north-america"); ("ps", "asia");
  ("pt", "europe"); ("pw", "oceania"); ("py", "south-america"); ("qa", "asia");
  ("re", "africa"); ("ro", "europe"); ("rs", "europe"); ("ru", "europe"); ("rw", "africa");
  ("sa", "asia"); ("sb", "oceania"); ("sc", "africa"); ("sd", "africa"); ("se", "europe");
  ("sg", "asia"); ("sh", "africa"); ("si", "europe"); ("sj", "europe"); ("sk", "europe");
  ("sl", "africa"); ("sm", "europe"); ("sn", "africa"); ("so", "africa");
  ("sr", "south-america"); ("st", "africa"); ("sv", "north-america"); ("sy", "asia");
  ("sz", "africa"); ("tc", "north-america"); ("td", "africa"); ("tf", "antarctica");
  ("tg", "africa"); ("th", "asia"); ("tj", "asia"); ("tk", "oceania"); ("tl", "asia");
  ("tm", "asia"); ("tn", "africa"); ("to", "oceania"); ("tr", "europe");
  ("tt", "north-america"); ("tv", "oceania"); ("tw", "asia"); ("tz", "africa");
  ("ua", "europe"); ("ug", "africa"); ("um", "oceania"); ("us", "north-america");
  ("uy", "south-america"); ("uz", "asia"); ("va", "europe"); ("vc", "north-america");
  ("ve", "south-america"); ("vg", "north-america"); ("vi", "north-america");
  ("vn", "asia"); ("vu", "oceania"); ("wf", "oceania"); ("ws", "oceania"); ("ye", "asia");
  ("yt", "africa"); ("za", "africa"); ("zm", "africa"); ("zw", "africa")
].

Definition CountryContinent_list : list (string * string) :=
  CountryContinent_first ++ CountryContinent_second.

Definition CountryContinent : gmap string string := list_to_map CountryContinent_list.

Definition RegionGroups_list : list (string * string) := [
  ("us-ak", "us-west"); ("us-az", "us-west"); ("us-ca", "us-west");
  ("us-co", "us-west"); ("us-hi", "us-west"); ("us-id", "us-west");
  ("us-mt", "us-west"); ("us-nm", "us-west"); ("us-nv", "us-west");
  ("us-or", "us-west"); ("us-ut", "us-west"); ("us-wa", "us-west");
  ("us-wy", "us-west"); ("us-ar", "us-central"); ("us-ia", "us-central");
  ("us-il", "us-central"); ("us-in", "us-central"); ("us-ks", "us-central");
  ("us-la", "us-central"); ("us-mn", "us-central"); ("us-mo", "us-central");
  ("us-nd", "us-central"); ("us-ne", "us-central"); ("us-ok", "us-central");
  ("us-sd", "us-central"); ("us-tx", "us-central"); ("us-wi", "us-central");
  ("us-al", "us-east"); ("us-ct", "us-east"); ("us-dc", "us-east");
  ("us-de", "us-east"); ("us-fl", "us-east"); ("us-ga", "us-east");
  ("us-ky", "us-east"); ("us-ma", "us-east"); ("us-md", "us-east");
  ("us-me", "us-east"); ("us-mi", "us-east"); ("us-ms", "us-east");
  ("us-nc", "us-east"); ("us-nh", "us-east"); ("us-nj", "us-east");
  ("us-ny", "us-east"); ("us-oh", "us-east"); ("us-pa", "us-east");
  ("us-ri", "us-east"); ("us-sc", "us-east"); ("us-tn", "us-east");
  ("us-va", "us-east"); ("us-vt", "us-east"); ("us-wv", "us-east")
].

Definition RegionGroups : gmap string string := list_to_map RegionGroups_list.

(** ** The derived tables *)

(** One iteration of the [init] of countries.go: the group is created when
    it is new, then the key is appended to it. *)
Definition continent_step (m : gmap string (list string)) (e : string * string) :
    gmap string (list string) :=
  let m := match m !! e.2 with Some _ => m | None => <[e.2 := []]> m end in
  <[e.2 := map_get [] m e.2 ++ [e.1]]> m.

Definition ContinentCountries `{GoRange} : gmap string (list string) :=
  foldl continent_step ∅ (go_range CountryContinent).

(** One iteration of the [init] of regiongroups.go: appending to the nil
    slice of a missing entry creates it. *)
Definition regiongroup_step (m : gmap string (list string)) (e : string * string) :
    gmap string (list string) :=
  <[e.2 := map_get [] m e.2 ++ [e.1]]> m.

Definition RegionGroupRegions `{GoRange} : gmap string (list string) :=
  foldl regiongroup_step ∅ (go_range RegionGroups).

Definition CountryRegionGroup (country region : string) : string :=
  if decide (country = "us") then map_get "" RegionGroups region else "".

(** ** Lemmas *)

Lemma continent_step_regiongroup m e : continent_step m e = regiongroup_step m e.
Proof.
  unfold continent_step, regiongroup_step, map_get.
  destruct (m !! e.2) eqn:E; simpl; [by rewrite E|].
  by rewrite lookup_insert_eq, insert_insert_eq.
Qed.

Lemma invert_lookup l m k v :
  k ∈ map_get [] (foldl regiongroup_step m l) v ↔ k ∈ map_get [] m v ∨ (k, v) ∈ l.
Proof.
  revert m. induction l as [|[k' v'] l IH]; intros m; simpl.
  { rewrite elem_of_nil. naive_solver. }
  rewrite IH, elem_of_cons. unfold regiongroup_step, map_get. simpl.
  destruct (decide (v' = v)) as [->|Hne].
  - rewrite lookup_insert_eq. simpl. rewrite elem_of_app, list_elem_of_singleton.
    naive_solver.
  - rewrite lookup_insert_ne by done. naive_solver.
Qed.

Lemma invert_range_lookup `{GoRange} (t : gmap string string) k v :
  k ∈ map_get [] (foldl regiongroup_step ∅ (go_range t)) v ↔ t !! k = Some v.
Proof.
  rewrite invert_lookup, elem_of_go_range. unfold map_get. rewrite lookup_empty.
  simpl. rewrite elem_of_nil. naive_solver.
Qed.

Lemma foldl_ext {A B} (f g : A → B → A) l a :
  (∀ a b, f a b = g a b) → foldl f a l = foldl g a l.
Proof. intros E. revert a. induction l; intros; simpl; [done|]. by rewrite E. Qed.

(** A check on every entry of a literal table, by computation. *)
Lemma table_forall (l : list (string * string)) (P : string * string → bool) k v :
  forallb P l = true → (list_to_map l : gmap string string) !! k = Some v → P (k, v).
Proof.
  intros HP Hk. apply elem_of_list_to_map_2 in Hk.
  rewrite forallb_forall in HP. apply Is_true_true, HP. by apply list_elem_of_In.
Qed.

(** ** Properties *)

(** The two derived tables are the exact inverses of the literal ones, for
    every order in which the maps are ranged over: a country is listed under a
    continent iff it lies in it, and a region under a region group iff it
    belongs to it. *)
Theorem derived_tables_inverse `{GoRange} (key group : string) :
  (key ∈ map_get [] ContinentCountries group ↔ CountryContinent !! key = Some group) ∧
  (key ∈ map_get [] RegionGroupRegions group ↔ RegionGroups !! key = Some group).
Proof.
  split; [|apply invert_range_lookup]. unfold ContinentCountries.
  rewrite (foldl_ext _ regiongroup_step) by (intros; apply continent_step_regiongroup).
  apply invert_range_lookup.
Qed.
