(* ===== verification/GoNet.v ===== *)
(** * The parts of Go's [net] package the program uses

    An address is its byte slice: 4 bytes, or 16 bytes with IPv4 addresses
    mapped into [::ffff:0:0/96]; the empty list is [nil].  [ParseIP] and
    [IP.String] follow the package of the Go releases the repository was
    written for (decimal fields may have leading zeros). *)

From S2P Require Import Prelude GoStrings.
From Stdlib Require Export Ascii.
Local Open Scope Z_scope.

Abbreviation IP := (list Z).

Definition v4InV6Prefix : IP := [0; 0; 0; 0; 0; 0; 0; 0; 0; 0; 255; 255].

Definition IPv4 (a b c d : Z) : IP := v4InV6Prefix ++ [a; b; c; d].

Definition To4 (ip : IP) : IP :=
  if decide (length ip = 4%nat) then ip
  else if decide (length ip = 16%nat ∧ take 12 ip = v4InV6Prefix) then drop 12 ip
  else [].

Definition zip_and (ip mask : IP) : IP := zip_with Z.land ip mask.

Definition Mask (ip mask : IP) : IP :=
  let mask :=
    if decide (length mask = 16%nat ∧ length ip = 4%nat ∧ take 12 mask = replicate 12 255)
    then drop 12 mask else mask in
  let ip :=
    if decide (length mask = 4%nat ∧ length ip = 16%nat ∧ take 12 ip = v4InV6Prefix)
    then drop 12 ip else ip in
  if decide (length ip = length mask) then zip_and ip mask else [].

(** [net.CIDRMask(48, 128)] *)
Definition CIDRMask_48_128 : IP := replicate 6 255 ++ replicate 10 0.

Definition IsLoopback (ip : IP) : bool :=
  match To4 ip with
  | a :: _ => a =? 127
  | [] => bool_decide (ip = replicate 15 0 ++ [1])
  end.

(** ** Printing *)

Definition hex_digit (d : Z) : ascii :=
  if d <? 10 then digit_char d else ascii_of_nat (Z.to_nat (87 + d)).

Fixpoint put_hex (fuel : nat) (z : Z) (acc : string) : string :=
  match fuel with
  | O => acc
  | S fuel =>
      let acc := String (hex_digit (z `mod` 16)) acc in
      if z `div` 16 =? 0 then acc else put_hex fuel (z `div` 16) acc
  end.

(** A 16-bit field in hexadecimal, without leading zeros. *)
Definition hex16 (z : Z) : string := put_hex 4 z "".
(** A byte as two hexadecimal digits. *)
Definition hex8 (z : Z) : string :=
  String (hex_digit (z `div` 16)) (String (hex_digit (z `mod` 16)) "").

Fixpoint groups (ip : IP) : list Z :=
  match ip with
  | a :: b :: ip => (a * 256 + b) :: groups ip
  | _ => []
  end.

(** The number of zero fields at the front. *)
Fixpoint zero_run (l : list Z) : nat :=
  match l with
  | 0 :: l => S (zero_run l)
  | _ => O
  end.

(** The first longest run of zero fields from field [i] on: its start and
    its length, [best] being the one found so far. *)
Fixpoint longest_run (fuel i : nat) (l : list Z) (best : nat * nat) : nat * nat :=
  match fuel with
  | O => best
  | S fuel =>
      match l with
      | [] => best
      | _ :: l' =>
          let n := zero_run l in
          if decide (best.2 < n)%nat then longest_run fuel (i + S n) (drop (S n) l) (i, n)
          else longest_run fuel (S i) l' best
      end
  end.

Definition colon_hex (l : list Z) : string := Join (hex16 <$> l) ":".

Definition IP_String (ip : IP) : string :=
  match ip with
  | [] => "<nil>"
  | _ =>
      match To4 ip with
      | [a; b; c; d] => Join (Itoa <$> [a; b; c; d]) "."
      | _ =>
          if decide (length ip = 16%nat) then
            let gs := groups ip in
            let '(i, n) := longest_run 8 0 gs (O, O) in
            if decide (n < 2)%nat then colon_hex gs
            else colon_hex (take i gs) +:+ "::" +:+ colon_hex (drop (i + n) gs)
          else "?" +:+ Join (hex8 <$> ip) ""
      end
  end.

(** ** Parsing *)

(** [dtoi]: the decimal number at the front, below 0xFFFFFF, and the rest. *)
Fixpoint dtoi_loop (n : Z) (s : string) : option (Z * string) :=
  match s with
  | EmptyString => Some (n, s)
  | String a s' =>
      match digit_val a with
      | Some d =>
          let n := n * 10 + d in
          if 16777215 <=? n then None else dtoi_loop n s'
      | None => Some (n, s)
      end
  end.
Definition dtoi (s : string) : option (Z * string) :=
  match s with
  | String a _ => match digit_val a with Some _ => dtoi_loop 0 s | None => None end
  | EmptyString => None
  end.

Definition hex_val (a : ascii) : option Z :=
  let z := byte_val a in
  if (48 <=? z) && (z <=? 57) then Some (z - 48)
  else if (97 <=? z) && (z <=? 102) then Some (z - 87)
  else if (65 <=? z) && (z <=? 70) then Some (z - 55)
  else None.

Fixpoint xtoi_loop (n : Z) (s : string) : option (Z * string) :=
  match s with
  | EmptyString => Some (n, s)
  | String a s' =>
      match hex_val a with
      | Some d =>
          let n := n * 16 + d in
          if 16777215 <=? n then None else xtoi_loop n s'
      | None => Some (n, s)
      end
  end.
Definition xtoi (s : string) : option (Z * string) :=
  match s with
  | String a _ => match hex_val a with Some _ => xtoi_loop 0 s | None => None end
  | EmptyString => None
  end.

Definition parse_field (s : string) : option (Z * string) :=
  '(n, s) ← dtoi s; if 255 <? n then None else Some (n, s).

Definition skip_byte (c : ascii) (s : string) : option string :=
  match s with
  | String a s => if Ascii.eqb a c then Some s else None
  | EmptyString => None
  end.

Definition parseIPv4 (s : string) : option IP :=
  '(a, s) ← parse_field s;
  s ← skip_byte "." s; '(b, s) ← parse_field s;
  s ← skip_byte "." s; '(c, s) ← parse_field s;
  s ← skip_byte "." s; '(d, s) ← parse_field s;
  match s with EmptyString => Some (IPv4 a b c d) | _ => None end.

(** The loop of [parseIPv6]: [ip] holds the bytes read so far, [ell] the
    position of an ellipsis.  Returns the bytes, the ellipsis and the rest. *)
Fixpoint parse6_loop (fuel : nat) (ip : IP) (ell : option nat) (s : string) :
    option (IP * option nat * string) :=
  match fuel with
  | O => Some (ip, ell, s)
  | S fuel =>
      '(n, rest) ← xtoi s;
      if 65535 <? n then None else
      match rest with
      | String "." _ =>
          if decide (ell = None ∧ length ip ≠ 12%nat) then None else
          if decide (16 < length ip + 4)%nat then None else
          ip4 ← parseIPv4 s;
          Some (ip ++ drop 12 ip4, ell, "")
      | _ =>
          let ip := ip ++ [n `div` 256; n `mod` 256] in
          match rest with
          | EmptyString => Some (ip, ell, "")
          | String ":" EmptyString => None
          | String ":" (String ":" s') =>
              match ell with
              | Some _ => None
              | None =>
                  match s' with
                  | EmptyString => Some (ip, Some (length ip), "")
                  | _ => parse6_loop fuel ip (Some (length ip)) s'
                  end
              end
          | String ":" s' => parse6_loop fuel ip ell s'
          | _ => None
          end
      end
  end.

Definition parseIPv6 (s : string) : option IP :=
  let finish (ip : IP) (ell : option nat) (s : string) :=
    match s with
    | EmptyString =>
        if decide (length ip < 16)%nat then
          e ← ell; Some (take e ip ++ replicate (16 - length ip) 0 ++ drop e ip)
        else match ell with None => Some ip | Some _ => None end
    | _ => None
    end in
  match s with
  | String ":" (String ":" EmptyString) => Some (replicate 16 0)
  | String ":" (String ":" s) => '(ip, ell, s) ← parse6_loop 8 [] (Some O) s; finish ip ell s
  | _ => '(ip, ell, s) ← parse6_loop 8 [] None s; finish ip ell s
  end.

(** The first dot or colon decides the family. *)
Fixpoint family (s : string) : option ascii :=
  match s with
  | EmptyString => None
  | String a s => if Ascii.eqb a "." || Ascii.eqb a ":" then Some a else family s
  end.

(** [net.ParseIP]; the empty list is the [nil] result. *)
Definition ParseIP (s : string) : IP :=
  match family s with
  | Some "." => default [] (parseIPv4 s)
  | Some ":" => default [] (parseIPv6 s)
  | _ => []
  end%char.

(** ** Hosts with a port *)

(** [net.JoinHostPort]. *)
Definition JoinHostPort (host port : string) : string :=
  if ContainsByte host ":"%char then "[" +:+ host +:+ "]:" +:+ port else host +:+ ":" +:+ port.

(** The text of a [net.AddrError]. *)
Definition addr_error (addr why : string) : string :=
  if decide (addr = "") then why else "address " +:+ addr +:+ ": " +:+ why.

Definition missingPort : string := "missing port in address".
Definition tooManyColons : string := "too many colons in address".

(** The end of [net.SplitHostPort]: no bracket is left from [j] and [k] on. *)
Definition split_rest (hostport host : string) (i j k : Z) : string + (string * string) :=
  if ContainsByte (sdrop (Z.to_nat j) hostport) "[" then
    inl (addr_error hostport "unexpected '[' in address")
  else if ContainsByte (sdrop (Z.to_nat k) hostport) "]" then
    inl (addr_error hostport "unexpected ']' in address")
  else inr (host, sdrop (Z.to_nat (i + 1)) hostport).

(** [net.SplitHostPort]: an error, or the host and the port. *)
Definition SplitHostPort (hostport : string) : string + (string * string) :=
  let i := LastIndexByte hostport ":" in
  if i <? 0 then inl (addr_error hostport missingPort)
  else if HasPrefix hostport "[" then
    let end_ := Index hostport "]" in
    if end_ <? 0 then inl (addr_error hostport "missing ']' in address")
    else if end_ + 1 =? slen hostport then inl (addr_error hostport missingPort)
    else if end_ + 1 =? i then
      split_rest hostport (stake (Z.to_nat (end_ - 1)) (sdrop 1 hostport)) i 1 (end_ + 1)
    else if HasPrefix (sdrop (Z.to_nat (end_ + 1)) hostport) ":" then
      inl (addr_error hostport tooManyColons)
    else inl (addr_error hostport missingPort)
  else
    let host := stake (Z.to_nat i) hostport in
    if ContainsByte host ":" then inl (addr_error hostport tooManyColons)
    else split_rest hostport host i 0 0.

(** ** Classes of addresses *)

Definition IsUnspecified (ip : IP) : bool :=
  bool_decide (ip = IPv4 0 0 0 0) || bool_decide (ip = [0; 0; 0; 0]) ||
  bool_decide (ip = replicate 16 0).

Definition IsMulticast (ip : IP) : bool :=
  match To4 ip with
  | b :: _ => Z.land b 240 =? 224
  | [] => match ip with b :: _ => (length ip =? 16)%nat && (b =? 255) | [] => false end
  end.

Definition IsLinkLocalUnicast (ip : IP) : bool :=
  match To4 ip with
  | a :: b :: _ => (a =? 169) && (b =? 254)
  | _ => match ip with
         | a :: b :: _ => (length ip =? 16)%nat && (a =? 254) && (Z.land b 192 =? 128)
         | _ => false
         end
  end.

Definition IsGlobalUnicast (ip : IP) : bool :=
  ((length ip =? 4)%nat || (length ip =? 16)%nat) &&
  negb (bool_decide (To4 ip = [255; 255; 255; 255])) && negb (IsUnspecified ip) &&
  negb (IsLoopback ip) && negb (IsMulticast ip) && negb (IsLinkLocalUnicast ip).

(** ** Lemmas *)

Definition is_byte (z : Z) : Prop := 0 ≤ z ≤ 255.

Lemma digit_char_not d c :
  digit_val c = None → 0 ≤ d < 10 → Ascii.eqb (digit_char d) c = false.
Proof.
  intros Hc Hd. destruct (Ascii.eqb_spec (digit_char d) c) as [<-|]; [|done].
  by rewrite digit_val_char in Hc.
Qed.

Lemma put_digits_no c fuel z acc :
  digit_val c = None → ContainsByte acc c = false →
  ContainsByte (put_digits fuel z acc) c = false.
Proof.
  intros Hc. revert z acc. induction fuel as [|fuel IH]; intros z acc Hacc; [done|].
  cbn [put_digits].
  assert (E : ContainsByte (String (digit_char (z `mod` 10)) acc) c = false).
  { simpl. by rewrite digit_char_not, Hacc by (done || apply Z.mod_pos_bound; lia). }
  case_match; auto.
Qed.

Lemma Itoa_no c z :
  digit_val c = None → Ascii.eqb "-" c = false → ContainsByte (Itoa z) c = false.
Proof.
  intros Hc Hm. unfold Itoa. case_match; cbn [ContainsByte]; rewrite ?Hm, ?orb_false_l;
    by apply put_digits_no.
Qed.

Lemma hex_digit_no_slash d : 0 ≤ d < 16 → Ascii.eqb (hex_digit d) "/" = false.
Proof.
  intros Hd. assert (∃ n : nat, d = Z.of_nat n ∧ (n < 16)%nat) as (n & -> & Hn)
    by (exists (Z.to_nat d); lia).
  do 16 (destruct n as [|n]; [done|]). lia.
Qed.

Lemma hex_no_slash fuel z acc :
  ContainsByte acc "/" = false → ContainsByte (put_hex fuel z acc) "/" = false.
Proof.
  revert z acc. induction fuel as [|fuel IH]; intros z acc Hacc; [done|].
  cbn [put_hex].
  assert (E : ContainsByte (String (hex_digit (z `mod` 16)) acc) "/" = false).
  { simpl. by rewrite hex_digit_no_slash, Hacc by (apply Z.mod_pos_bound; lia). }
  case_match; auto.
Qed.

Lemma colon_hex_no_slash l : ContainsByte (colon_hex l) "/" = false.
Proof.
  apply ContainsByte_Join; [done|]. apply Forall_fmap, Forall_true.
  intros. by apply hex_no_slash.
Qed.

(** The text of an address never holds a slash. *)
Lemma IP_String_no_slash ip : Forall is_byte ip → ContainsByte (IP_String ip) "/" = false.
Proof.
  intros Hb. destruct ip as [|b ip]; [done|]. unfold IP_String.
  assert (Hhex8 : ContainsByte ("?" +:+ Join (hex8 <$> b :: ip) "") "/" = false).
  { rewrite ContainsByte_app. apply ContainsByte_Join; [done|]. apply Forall_fmap.
    eapply Forall_impl; [done|]. intros x [? ?]. cbn.
    rewrite !hex_digit_no_slash; [done| |].
    - apply Z.mod_pos_bound. lia.
    - split; [apply Z.div_pos; lia|apply Z.div_lt_upper_bound; lia]. }
  assert (Hgen : ContainsByte
    (if decide (length (b :: ip) = 16%nat) then
       let gs := groups (b :: ip) in
       let '(i, n) := longest_run 8 0 gs (O, O) in
       if decide (n < 2)%nat then colon_hex gs
       else colon_hex (take i gs) +:+ "::" +:+ colon_hex (drop (i + n) gs)
     else "?" +:+ Join (hex8 <$> b :: ip) "") "/" = false).
  { case_decide; [|done]. cbv zeta.
    destruct (longest_run 8 0 (groups (b :: ip)) (O, O)) as [i n].
    case_decide; rewrite ?ContainsByte_app, ?colon_hex_no_slash; done. }
  destruct (To4 (b :: ip)) as [|x1 [|x2 [|x3 [|x4 [|x5 l]]]]]; try exact Hgen.
  apply ContainsByte_Join; [done|]. apply Forall_fmap, Forall_true.
  intros. by apply Itoa_no.
Qed.

Lemma put_digits_app fuel z acc t :
  put_digits fuel z acc +:+ t = put_digits fuel z (acc +:+ t).
Proof.
  revert z acc. induction fuel as [|fuel IH]; intros z acc; cbn [put_digits]; [done|].
  case_match; [by rewrite sapp_cons|]. by rewrite IH, sapp_cons.
Qed.

Lemma dtoi_put_digits fuel z t :
  0 ≤ z < 2 ^ Z.of_nat fuel → z < 16777215 →
  dtoi_loop 0 (put_digits fuel z t) = dtoi_loop z t.
Proof.
  revert z t. induction fuel as [|fuel IH]; intros z t Hz Hbig.
  { assert (z = 0) as -> by (simpl in Hz; lia). done. }
  rewrite Nat2Z.inj_succ, Z.pow_succ_r in Hz by lia. cbn [put_digits].
  pose proof (Z.div_mod z 10 ltac:(lia)) as Hdm.
  pose proof (Z.mod_pos_bound z 10 ltac:(lia)) as Hm.
  destruct (Z.eqb_spec (z `div` 10) 0) as [E|E]; [|rewrite IH by lia];
    cbn [dtoi_loop]; rewrite digit_val_char by lia;
    (case_match; split_bools; [lia|f_equal; lia]).
Qed.

Definition no_digit (t : string) : Prop :=
  match t with EmptyString => True | String c _ => digit_val c = None end.

Lemma parse_field_Itoa z t :
  is_byte z → no_digit t → parse_field (Itoa z +:+ t) = Some (z, t).
Proof.
  intros [H1 H2] Ht. unfold Itoa. destruct (Z.ltb_spec z 0); [lia|].
  rewrite put_digits_app, sapp_nil_l. unfold parse_field, dtoi.
  destruct (put_digits_head (digit_fuel z) z t H1 ltac:(unfold digit_fuel; lia))
    as (d & s & Hd & E).
  pose proof (dtoi_put_digits (digit_fuel z) z t) as Hr. rewrite E in *.
  rewrite digit_val_char, Hr by (auto using digit_fuel_enough; lia).
  destruct t as [|c t]; simpl in *; [|rewrite Ht; simpl];
    (destruct (Z.ltb_spec 255 z); [lia|done]).
Qed.

Lemma family_skip w t :
  ContainsByte w "." = false → ContainsByte w ":" = false → family (w +:+ t) = family t.
Proof.
  induction w as [|a w IH]; [done|]. rewrite sapp_cons. simpl. intros H1 H2.
  apply orb_false_iff in H1 as [-> H1]. apply orb_false_iff in H2 as [-> H2]. auto.
Qed.

Definition dotted (a b c d : Z) : string := Join (Itoa <$> [a; b; c; d]) ".".

(** Parsing the dotted form of an IPv4 address gives the address back. *)
Lemma ParseIP_dotted a b c d :
  is_byte a → is_byte b → is_byte c → is_byte d → ParseIP (dotted a b c d) = IPv4 a b c d.
Proof.
  intros Ha Hb Hc Hd. unfold ParseIP, dotted. cbn [fmap list_fmap Join].
  rewrite <-(sapp_nil_r (Itoa d)), family_skip by (by apply Itoa_no).
  rewrite !(sapp_cons "."), !sapp_nil_l. cbn. unfold parseIPv4.
  rewrite parse_field_Itoa by done. simpl.
  rewrite parse_field_Itoa by done. simpl.
  rewrite parse_field_Itoa by done. simpl.
  by rewrite parse_field_Itoa by done.
Qed.

Lemma To4_IPv4 a b c d : To4 (IPv4 a b c d) = [a; b; c; d].
Proof. done. Qed.

Lemma IP_String_IPv4 a b c d : IP_String (IPv4 a b c d) = dotted a b c d.
Proof. done. Qed.
