(* ===== verification/Targeting.v ===== *)
(** * targeting/ and targeting/geo/: which labels a client is sent to

    [Provider] is the interface of targeting/geo/geo.go; its methods return a
    result that can be a panic, since the implementation may dereference a
    database it has not opened.  [GetTargets] writes to the address slice it
    is given; the model returns the slice as the caller sees it afterwards. *)

From S2P Require Import Prelude GoStrings GoNet Float64.
Local Open Scope Z_scope.

(** ** targeting/geo/geo.go *)

Record Location := mkLocation {
  loc_Country : string;
  loc_Continent : string;
  loc_RegionGroup : string;
  loc_Region : string;
  loc_Latitude : float64;
  loc_Longitude : float64;
  loc_Netmask : Z
}.

#[export] Instance Location_eq_dec : EqDecision Location.
Proof. solve_decision. Defined.

(** An [error] value; [None] is [nil]. *)
Abbreviation error := (option string).

Record Provider := mkProvider {
  HasCountry : bool * error;
  GetCountry : IP → res (string * string * Z);
  HasASN : bool * error;
  GetASN : IP → res (string * Z * error);
  HasLocation : bool * error;
  GetLocation : IP → res (option Location * error)
}.

(** [targeting.Setup]: the provider of the package, after it. *)
Definition Setup (g : option Provider) (gn : Provider) : option Provider := Some gn.

Definition MAX_DISTANCE : float64 := f_360.

Definition MaxDistance (l : Location) : float64 := MAX_DISTANCE.

(** The great-circle angle in degrees between two points, from the s2 and
    math packages: a finite number, not negative, and at most 360.  This is
    what the packages give for coordinates in range, which are the ones the
    databases hold; a location stands for such a point. *)
Class GreatCircle := {
  angle_degrees : Location → Location → float64;
  angle_valid : ∀ l l', SpecFloat.valid_binary 53 1024 (angle_degrees l l') = true;
  angle_nonneg : ∀ l l', nonneg_finite (angle_degrees l l');
  angle_bound : ∀ l l', fle (angle_degrees l l') f_360
}.

Definition Distance `{GreatCircle} (l : Location) (to : option Location) : float64 :=
  match to with
  | None => MAX_DISTANCE
  | Some l' => angle_degrees l l'
  end.

(** ** targeting/targeting.go *)

Definition TargetGlobal : Z := 1.
Definition TargetContinent : Z := 2.
Definition TargetCountry : Z := 4.
Definition TargetRegionGroup : Z := 8.
Definition TargetRegion : Z := 16.
Definition TargetASN : Z := 32.
Definition TargetIP : Z := 64.

Definition cidr48Mask : IP := CIDRMask_48_128.

(** [t & flag > 0] *)
Definition has (t flag : Z) : bool := 0 <? Z.land t flag.

Definition nonempty (s : string) : bool := 0 <? slen s.

(** The branch of [getGeoTargets] that finds out where the client is: the
    country, the continent, the region, the region group, the netmask and the
    location, or [None] for the early return. *)
Definition locate (t : Z) (g : Provider) (ip : IP) (hasClosest : bool) :
    res (option (string * string * string * string * Z * option Location)) :=
  if has t TargetRegion || has t TargetRegionGroup || hasClosest then
    '(location, err) ← GetLocation g ip;
    match location, err with
    | Some l, None =>
        Ret (Some (loc_Country l, loc_Continent l, loc_Region l, loc_RegionGroup l, 0, Some l))
    | _, _ => Ret None
    end
  else if has t TargetCountry || has t TargetContinent then
    '(country, continent, netmask) ← GetCountry g ip;
    Ret (Some (country, continent, "", "", netmask, None))
  else Ret (Some ("", "", "", "", 0, None)).

Definition getGeoTargets (t : Z) (g : Provider) (ip : IP) (hasClosest : bool) :
    res (list string * Z * option Location) :=
  targets ←
    (if has t TargetASN then
       '(asn, _, _) ← GetASN g ip;
       Ret (if nonempty asn then [asn] else [])
     else Ret []);
  where_ ← locate t g ip hasClosest;
  match where_ with
  | None => Ret (targets, 0, None)
  | Some (country, continent, region, regionGroup, netmask, location) =>
      let targets := if has t TargetRegion && nonempty region
                     then targets ++ [region] else targets in
      let targets := if has t TargetRegionGroup && nonempty regionGroup
                     then targets ++ [regionGroup] else targets in
      let targets := if has t TargetCountry && nonempty country
                     then targets ++ [country] else targets in
      let targets := if has t TargetContinent && nonempty continent
                     then targets ++ [continent] else targets in
      Ret (targets, netmask, location)
  end.

Definition bracket (s : string) : string := "[" +:+ s +:+ "]".

(** The address targets of [GetTargets], and the slice afterwards: [To4]
    returns a slice of the same array, so clearing its last byte clears the
    last byte of the argument. *)
Definition ip_targets (ip : IP) : res (list string * IP) :=
  match To4 ip with
  | [] => Ret ([bracket (IP_String ip); bracket (IP_String (Mask ip cidr48Mask))], ip)
  | ip4 =>
      b ← index ip4 3;
      if b =? 0 then Ret ([bracket (IP_String ip)], ip)
      else
        ip4 ← store_at ip4 3 0;
        Ret ([bracket (IP_String ip); bracket (IP_String ip4)],
             take (length ip - 4) ip ++ ip4)
  end.

(** [GetTargets]: the targets, the netmask, the location, and the address
    slice as the call leaves it. *)
Definition GetTargets (t : Z) (g : option Provider) (ip : IP) (hasClosest : bool) :
    res (list string * Z * option Location * IP) :=
  '(targets, ip) ← (if has t TargetIP then ip_targets ip else Ret ([], ip));
  '(targets, netmask, location) ←
    match g with
    | Some g =>
        '(geotargets, netmask, location) ← getGeoTargets t g ip hasClosest;
        Ret (targets ++ geotargets, netmask, location)
    | None => Ret (targets, 0, None)
    end;
  let targets := if has t TargetGlobal then targets ++ ["@"] else targets in
  Ret (targets, netmask, location, ip).

Definition TargetOptions_String (t : Z) : string :=
  let targets := [] in
  let targets := if has t TargetGlobal then targets ++ ["@"] else targets in
  let targets := if has t TargetContinent then targets ++ ["continent"] else targets in
  let targets := if has t TargetCountry then targets ++ ["country"] else targets in
  let targets := if has t TargetRegionGroup then targets ++ ["regiongroup"] else targets in
  let targets := if has t TargetRegion then targets ++ ["region"] else targets in
  let targets := if has t TargetASN then targets ++ ["asn"] else targets in
  let targets := if has t TargetIP then targets ++ ["ip"] else targets in
  Join targets " ".

(** The [switch] of [ParseTargets]. *)
Definition parse_target (t : string) : option Z :=
  if decide (t = "@") then Some TargetGlobal
  else if decide (t = "country") then Some TargetCountry
  else if decide (t = "continent") then Some TargetContinent
  else if decide (t = "regiongroup") then Some TargetRegionGroup
  else if decide (t = "region") then Some TargetRegion
  else if decide (t = "asn") then Some TargetASN
  else if decide (t = "ip") then Some TargetIP
  else None.

Definition parse_step (st : Z * error) (t : string) : Z * error :=
  match parse_target t with
  | Some x => (Z.lor st.1 x, st.2)
  | None => (Z.lor st.1 0, Some ("Unknown targeting option '" +:+ t +:+ "'"))
  end.

Definition ParseTargets (v : string) : Z * error :=
  foldl parse_step (0, None) (Split v " "%char).

(** ** Lemmas *)

Definition known_targets : list string :=
  ["@"; "continent"; "country"; "regiongroup"; "region"; "asn"; "ip"].

Lemma parse_target_known w : is_Some (parse_target w) ↔ w ∈ known_targets.
Proof.
  split.
  - unfold parse_target. intros [x Hx]. unfold known_targets.
    repeat case_decide; subst; set_solver.
  - unfold known_targets. rewrite !elem_of_cons, elem_of_nil.
    intros H. destruct_or! H; subst; done || (by eexists).
Qed.

Lemma parse_target_bit w x :
  parse_target w = Some x → ∃ i, 0 ≤ i ≤ 6 ∧ x = 2 ^ i.
Proof.
  unfold parse_target. intros Hx.
  repeat case_decide; simplify_eq;
    first [by exists 0 | by exists 1 | by exists 2 | by exists 3
          | by exists 4 | by exists 5 | by exists 6].
Qed.

Lemma parse_target_inj w w' x :
  parse_target w = Some x → parse_target w' = Some x → w = w'.
Proof.
  intros Hw Hw'.
  assert (w ∈ known_targets) as H by (apply parse_target_known; by eexists).
  assert (w' ∈ known_targets) as H' by (apply parse_target_known; by eexists).
  unfold known_targets in H, H'. rewrite !elem_of_cons, elem_of_nil in H, H'.
  destruct_or! H; try done; subst; vm_compute in Hw; injection Hw as <-;
    destruct_or! H'; try done; subst; vm_compute in Hw'; done.
Qed.

Lemma has_testbit t i : 0 ≤ i → has t (2 ^ i) = Z.testbit t i.
Proof.
  intros Hi. unfold has.
  assert (E : Z.land t (2 ^ i) = if Z.testbit t i then 2 ^ i else 0).
  { apply Z.bits_inj'. intros k Hk. rewrite Z.land_spec.
    destruct (decide (i = k)) as [->|Hne].
    - rewrite Z.pow2_bits_true by done.
      destruct (Z.testbit t k); simpl; [by rewrite Z.pow2_bits_true|by rewrite Z.bits_0].
    - rewrite Z.pow2_bits_false, andb_false_r by done.
      destruct (Z.testbit t i); [by rewrite Z.pow2_bits_false|by rewrite Z.bits_0]. }
  rewrite E. destruct (Z.testbit t i); [|done]. apply Z.ltb_lt. lia.
Qed.

Lemma parse_fold_bits ws st i :
  0 ≤ i →
  Z.testbit (foldl parse_step st ws).1 i = true ↔
  Z.testbit st.1 i = true ∨ ∃ w, w ∈ ws ∧ parse_target w = Some (2 ^ i).
Proof.
  intros Hi. revert st. induction ws as [|w ws IH]; intros st; simpl.
  { split; [by left|]. intros [?|(w & Hw & _)]; [done|]. set_solver. }
  rewrite IH. unfold parse_step. destruct (parse_target w) as [x|] eqn:E; simpl.
  - destruct (parse_target_bit w x E) as (j & Hj & ->).
    rewrite Z.lor_spec, orb_true_iff. split.
    + intros [[?|Hx]|(w' & ? & ?)]; [by left|right|right; set_solver].
      destruct (decide (j = i)) as [->|]; [exists w; set_solver|].
      by rewrite Z.pow2_bits_false in Hx.
    + intros [?|(w' & Hw' & Ew')]; [by do 2 left|].
      apply elem_of_cons in Hw' as [->|Hw']; [|right; by eauto].
      left. right. rewrite E in Ew'. injection Ew' as ->. by apply Z.pow2_bits_true.
  - rewrite Z.lor_0_r. split; (intros [?|(w' & Hw' & Ew')]; [by left|right]).
    + exists w'. set_solver.
    + apply elem_of_cons in Hw' as [->|Hw']; [congruence|by eauto].
Qed.

Lemma parse_fold_err ws st :
  (foldl parse_step st ws).2 = None ↔ st.2 = None ∧ ∀ w, w ∈ ws → w ∈ known_targets.
Proof.
  revert st. induction ws as [|w ws IH]; intros st; simpl.
  { split; [|by intros []]. intros ->. split; [done|]. set_solver. }
  rewrite IH. unfold parse_step.
  pose proof (parse_target_known w) as Hk. destruct (parse_target w); simpl.
  - assert (w ∈ known_targets) by (apply Hk; by eexists). set_solver.
  - split; [by intros []|]. intros [_ Hall].
    assert (is_Some (@None Z)) as [? [=]]. apply Hk, Hall. set_solver.
Qed.

(** [s] as a target, when it is asked for and known. *)
Definition flagged (t flag : Z) (s : string) : list string :=
  if has t flag && nonempty s then [s] else [].

Lemma append_flagged t flag s (l : list string) :
  (if has t flag && nonempty s then l ++ [s] else l) = l ++ flagged t flag s.
Proof. unfold flagged. case_match; [done|]. by rewrite app_nil_r. Qed.

Lemma length_To4 ip : To4 ip ≠ [] → length (To4 ip) = 4%nat.
Proof.
  unfold To4. repeat case_decide; try done. intros _. rewrite length_drop. lia.
Qed.

Lemma ip_targets_ok ip : ok (ip_targets ip).
Proof.
  unfold ip_targets. pose proof (length_To4 ip) as Hlen.
  destruct (To4 ip) as [|x1 l]; [by eexists|]. specialize (Hlen ltac:(done)).
  destruct l as [|x2 [|x3 [|x4 [|]]]]; try done. simpl.
  case_match; by eexists.
Qed.

Lemma opt_ip_targets_ok (b : bool) ip :
  ∃ ts ip', (if b then ip_targets ip else Ret ([], ip)) = Ret (ts, ip').
Proof. destruct b; [|by eauto]. destruct (ip_targets_ok ip) as [[? ?] ->]. eauto. Qed.

(** The byte that is cleared in the address does not make it a loopback address
    or another one. *)
Lemma ip_targets_loopback ip ts ip' : ip_targets ip = Ret (ts, ip') → IsLoopback ip' = IsLoopback ip.
Proof.
  unfold ip_targets. destruct (To4 ip) as [|a l] eqn:E; [by intros [= _ <-]|]. intros Hr.
  apply bind_Ret in Hr as (b & Hb & Hr). case_match; [by injection Hr as _ <-|].
  apply bind_Ret in Hr as (ip4 & Hs & Hr). injection Hr as _ <-.
  assert (∃ b c d, l = [b; c; d] ∧ (length ip = 4%nat ∨ length ip = 16%nat ∧ take 12 ip = v4InV6Prefix))
    as (x & y & w & -> & Hlen).
  { unfold To4 in E. case_decide as H4; [subst; destruct l as [|? [|? [|? [|]]]]; try done; by eauto 6|].
    case_decide as H6; [|done]. destruct H6 as [H6 Hp]. apply (f_equal length) in E as El.
    rewrite length_drop, H6 in El. destruct l as [|? [|? [|? [|]]]]; try done. eauto 8. }
  unfold store_at in Hs. case_decide; [|done]. injection Hs as <-. cbn [Z.to_nat Pos.to_nat Pos.iter_op].
  unfold IsLoopback. rewrite E. destruct Hlen as [H4|[H6 Hp]].
  - rewrite H4. reflexivity.
  - rewrite H6. change (16 - 4)%nat with 12%nat. rewrite Hp. reflexivity.
Qed.

Lemma GetTargets_loopback t g ip hasClosest ts nm loc ip' :
  GetTargets t g ip hasClosest = Ret (ts, nm, loc, ip') → IsLoopback ip' = IsLoopback ip.
Proof.
  unfold GetTargets. intros Hr. apply bind_Ret in Hr as ([ts1 ip1] & H1 & Hr).
  apply bind_Ret in Hr as ([[ts2 nm2] loc2] & _ & Hr). injection Hr as _ _ _ <-.
  case_match; [by eapply ip_targets_loopback|by injection H1 as _ <-].
Qed.

Lemma ip_targets_v4 a b c d :
  d ≠ 0 →
  ip_targets (IPv4 a b c d) =
    Ret ([bracket (dotted a b c d); bracket (dotted a b c 0)], IPv4 a b c 0).
Proof.
  intros Hd. unfold ip_targets. rewrite To4_IPv4. simpl.
  destruct (Z.eqb_spec d 0); [done|]. done.
Qed.

(** The methods of the provider return for every address. *)
Definition provider_total (g : Provider) : Prop :=
  ∀ ip, ok (GetCountry g ip) ∧ ok (GetASN g ip) ∧ ok (GetLocation g ip).

Lemma locate_ok t g ip hc : provider_total g → ok (locate t g ip hc).
Proof.
  intros Hg. destruct (Hg ip) as ([[[? ?] ?] E1] & _ & [[l e] E2]). unfold locate.
  repeat case_match; rewrite ?E1, ?E2; simpl; repeat case_match; by eexists.
Qed.

Lemma getGeoTargets_ok t g ip hc : provider_total g → ok (getGeoTargets t g ip hc).
Proof.
  intros Hg. destruct (locate_ok t g ip hc Hg) as [w Hw].
  destruct (Hg ip) as (_ & [[[? ?] ?] E2] & _). unfold getGeoTargets. rewrite E2, Hw.
  repeat (case_match; simpl); by eexists.
Qed.

(** ** Properties *)

(** [ParseTargets] reads exactly what the option string says: it reports
    no error iff every space-separated word is one of the seven known targets,
    and, error or not, a flag is set iff its word occurs. *)
Theorem ParseTargets_spec (v : string) :
  ((ParseTargets v).2 = None ↔ ∀ w, w ∈ Split v " "%char → w ∈ known_targets) ∧
  (∀ w flag, parse_target w = Some flag →
     has (ParseTargets v).1 flag = true ↔ w ∈ Split v " "%char).
Proof.
  unfold ParseTargets. split; [rewrite parse_fold_err; naive_solver|].
  intros w flag Hw. destruct (parse_target_bit w flag Hw) as (i & Hi & ->).
  rewrite has_testbit, parse_fold_bits by lia. simpl. rewrite Z.bits_0. split.
  - intros [?|(w' & Hin & Hw')]; [done|]. by rewrite (parse_target_inj w w' (2 ^ i)).
  - intros Hin. right. eauto.
Qed.

(** C30: printing any non-empty combination of the seven options and parsing
    the text again gives the same combination and no error. *)
Theorem ParseTargets_String (t : Z) :
  1 ≤ t ≤ 127 → ParseTargets (TargetOptions_String t) = (t, None).
Proof.
  intros Ht.
  assert (Hall : forallb (λ t, bool_decide (ParseTargets (TargetOptions_String t) = (t, None)))
    (seqZ 1 127) = true) by (vm_compute; reflexivity).
  rewrite forallb_forall in Hall. eapply bool_decide_eq_true, Hall.
  apply list_elem_of_In, elem_of_seqZ. lia.
Qed.

Lemma ParseTargets_String_witness :
  ParseTargets (TargetOptions_String 7) = (7, None) ∧
  TargetOptions_String 7 = "@ continent country".
Proof. split; [apply ParseTargets_String; lia | reflexivity]. Defined.

(** C31: an IPv4 client whose location is known is sent to labels in the order
    from the most to the least specific (its address, its /24, its AS, region,
    region group, country, continent, then "@"), each one only when the zone
    asks for it and the provider knows it.  With address targeting on, the
    provider is asked about the /24 and the caller's slice is left holding the
    /24, because the mask is applied in place. *)
Theorem GetTargets_v4_order (t : Z) (g : Provider) (a b c d : Z) (hasClosest : bool)
    (asn : string) (n : Z) (e : error) (l : Location) :
  d ≠ 0 → has t TargetIP = true →
  has t TargetRegion || has t TargetRegionGroup || hasClosest = true →
  GetASN g (IPv4 a b c 0) = Ret (asn, n, e) →
  GetLocation g (IPv4 a b c 0) = Ret (Some l, None) →
  GetTargets t (Some g) (IPv4 a b c d) hasClosest =
    Ret ([bracket (dotted a b c d); bracket (dotted a b c 0)] ++
         flagged t TargetASN asn ++
         flagged t TargetRegion (loc_Region l) ++
         flagged t TargetRegionGroup (loc_RegionGroup l) ++
         flagged t TargetCountry (loc_Country l) ++
         flagged t TargetContinent (loc_Continent l) ++
         (if has t TargetGlobal then ["@"] else []),
         0, Some l, IPv4 a b c 0).
Proof.
  intros Hd HIP Hloc Hasn Hl. unfold GetTargets, getGeoTargets, locate.
  rewrite HIP, ip_targets_v4 by done. cbn [mbind res_bind]. rewrite Hloc, Hl, Hasn. simpl.
  assert (E : (if has t TargetASN then Ret (if nonempty asn then [asn] else []) else Ret [])
              = Ret (flagged t TargetASN asn)).
  { unfold flagged. by destruct (has t TargetASN). }
  rewrite E. cbn [mbind res_bind]. rewrite !append_flagged.
  do 4 f_equal. destruct (has t TargetGlobal); rewrite ?app_nil_r;
    rewrite <-?app_assoc; simpl; by rewrite <-?app_assoc.
Qed.

Lemma GetTargets_v4_order_witness :
  let l := mkLocation "us" "north-america" "us-west" "us-ca" f_zero f_zero 0 in
  let g := mkProvider (true, None) (λ _, Ret ("us", "north-america", 0)) (true, None)
             (λ _, Ret ("as7012", 0, None)) (true, None) (λ _, Ret (Some l, None)) in
  GetTargets 127 (Some g) (IPv4 207 171 1 1) false =
    Ret (["[207.171.1.1]"; "[207.171.1.0]"; "as7012"; "us-ca"; "us-west"; "us";
          "north-america"; "@"], 0, Some l, IPv4 207 171 1 0).
Proof.
  intros l g.
  exact (GetTargets_v4_order 127 g 207 171 1 1 false "as7012" 0 None l
           ltac:(lia) eq_refl eq_refl eq_refl eq_refl).
Defined.

(** When the location lookup fails, a zone that targets regions or asks
    for the closest servers falls back to the address, the AS and "@" only: no
    country or continent target is produced, even if the zone asks for them. *)
Theorem GetTargets_unlocated (t : Z) (g : Provider) (ip ip' : IP) (hasClosest : bool)
    (ips : list string) (asn : string) (n : Z) (e err : error) (l : option Location) :
  (if has t TargetIP then ip_targets ip else Ret ([], ip)) = Ret (ips, ip') →
  has t TargetRegion || has t TargetRegionGroup || hasClosest = true →
  GetASN g ip' = Ret (asn, n, e) →
  GetLocation g ip' = Ret (l, err) → l = None ∨ err ≠ None →
  GetTargets t (Some g) ip hasClosest =
    Ret (ips ++ flagged t TargetASN asn ++ (if has t TargetGlobal then ["@"] else []),
         0, None, ip').
Proof.
  intros Hips Hloc Hasn Hl Hfail. unfold GetTargets, getGeoTargets, locate.
  rewrite Hips. cbn [mbind res_bind]. rewrite Hloc, Hl, Hasn. simpl.
  assert (E : (if has t TargetASN then Ret (if nonempty asn then [asn] else []) else Ret [])
              = Ret (flagged t TargetASN asn)).
  { unfold flagged. by destruct (has t TargetASN). }
  rewrite E. cbn [mbind res_bind].
  destruct l, err; try naive_solver; simpl;
    destruct (has t TargetGlobal); by rewrite ?app_nil_r, <-?app_assoc.
Qed.

Lemma GetTargets_unlocated_witness :
  let g := mkProvider (true, None) (λ _, Ret ("us", "north-america", 0)) (true, None)
             (λ _, Ret ("as7012", 0, None)) (true, None)
             (λ _, Ret (None, Some "no record")) in
  GetTargets 127 (Some g) (IPv4 10 0 0 7) false =
    Ret (["[10.0.0.7]"; "[10.0.0.0]"; "as7012"; "@"], 0, None, IPv4 10 0 0 0).
Proof.
  intros g.
  exact (GetTargets_unlocated 127 g (IPv4 10 0 0 7) (IPv4 10 0 0 0) false
           ["[10.0.0.7]"; "[10.0.0.0]"] "as7012" 0 None (Some "no record") None
           eq_refl eq_refl eq_refl eq_refl (or_introl eq_refl)).
Defined.

(** [GetTargets] returns for every address, of any length, whenever the
    methods of the provider do (or there is no provider); no slice access in
    it can be out of range.  With the global option set, "@" is the last
    target. *)
Theorem GetTargets_total (t : Z) (g : option Provider) (ip : IP) (hasClosest : bool) :
  (∀ p, g = Some p → provider_total p) →
  ∃ targets netmask location ip',
    GetTargets t g ip hasClosest = Ret (targets, netmask, location, ip') ∧
    (has t TargetGlobal = true → last targets = Some "@").
Proof.
  intros Hg. unfold GetTargets.
  destruct (opt_ip_targets_ok (has t TargetIP) ip) as (ts & ip' & ->).
  simpl. destruct g as [p|]; simpl.
  - destruct (getGeoTargets_ok t p ip' hasClosest (Hg p eq_refl)) as [[[? ?] ?] ->]. simpl.
    do 4 eexists. split; [done|]. intros ->. apply last_snoc.
  - do 4 eexists. split; [done|]. intros ->. apply last_snoc.
Qed.

Lemma GetTargets_total_witness :
  ∃ targets netmask location ip',
    GetTargets 7 None [1; 2; 3] true = Ret (targets, netmask, location, ip') ∧
    (has 7 TargetGlobal = true → last targets = Some "@").
Proof. exact (GetTargets_total 7 None [1; 2; 3] true ltac:(done)). Defined.
