(* ===== verification/GeoIP2.v ===== *)
(** * targeting/geoip2/geoip2.go: the geo provider

    A [GeoIP2] opens up to three databases in a directory and answers lookups
    from them.  The country database is opened by [New], the others when a
    method first asks for them; an open database is kept for good.  The
    database library is the class [MaxMind], the file system a record that may
    differ from call to call. *)

From S2P Require Import Prelude GoStrings GoNet Float64 Countries Targeting.
Local Open Scope Z_scope.

(** What the program reads of a city record. *)
Record CityRecord := mkCity {
  city_Latitude : float64;
  city_Longitude : float64;
  city_Country_IsoCode : string;
  city_Subdivisions : list string
}.

(** github.com/oschwald/geoip2-golang: lookups give an error or a record. *)
Class MaxMind := {
  Reader : Type;
  Reader_Country : Reader → IP → string + string;
  Reader_City : Reader → IP → string + CityRecord;
  Reader_ASN : Reader → IP → string + Z
}.

Inductive geoType := countryDB | cityDB | asnDB.

#[export] Instance geoType_eq_dec : EqDecision geoType.
Proof. solve_decision. Defined.

Definition dbFiles (t : geoType) : list string :=
  match t with
  | countryDB => ["GeoIP2-Country.mmdb"; "GeoLite2-Country.mmdb"]
  | asnDB => ["GeoIP2-ASN.mmdb"; "GeoLite2-ASN.mmdb"]
  | cityDB => ["GeoIP2-City.mmdb"; "GeoLite2-City.mmdb"]
  end.

(** ** [FindDB] *)

Fixpoint first_existing (stat : string → bool) (dirs : list string) : string :=
  match dirs with
  | [] => ""
  | dir :: dirs => if stat dir then dir else first_existing stat dirs
  end.

(** [stat dir]: [os.Stat] reports no error. *)
Definition FindDB (stat : string → bool) : string :=
  first_existing stat
    ["/usr/share/GeoIP/"; "/usr/share/local/GeoIP/"; "/usr/local/share/GeoIP/";
     "/opt/local/share/GeoIP/"].

Section geoip2.
Context `{MaxMind}.

Record GeoIP2 := mkGeoIP2 {
  g_dir : string;
  g_country : option Reader;
  g_city : option Reader;
  g_asn : option Reader
}.

Record filesystem := mkFS {
  fs_Stat : string → bool;
  fs_Open : string → string + Reader
}.

(** [filepath.Join]. *)
Context (path_Join : string → string → string).

(** ** Opening databases *)

(** The loop of [open] over the candidates: the first file that exists. *)
Fixpoint find_file (fs : filesystem) (dir : string) (files : list string) : option string :=
  match files with
  | [] => None
  | f :: files =>
      let fileName := path_Join dir f in
      if fs_Stat fs fileName then Some fileName else find_file fs dir files
  end.

Definition reader_of (g : GeoIP2) (t : geoType) : option Reader :=
  match t with
  | countryDB => g_country g
  | cityDB => g_city g
  | asnDB => g_asn g
  end.

Definition set_reader (g : GeoIP2) (t : geoType) (r : Reader) : GeoIP2 :=
  match t with
  | countryDB => mkGeoIP2 (g_dir g) (Some r) (g_city g) (g_asn g)
  | cityDB => mkGeoIP2 (g_dir g) (g_country g) (Some r) (g_asn g)
  | asnDB => mkGeoIP2 (g_dir g) (g_country g) (g_city g) (Some r)
  end.

Definition open_ (fs : filesystem) (g : GeoIP2) (t : geoType) (db : string) :
    GeoIP2 * (option Reader * error) :=
  let fileName :=
    if slen db =? 0 then find_file fs (g_dir g) (dbFiles t)
    else Some (path_Join (g_dir g) db) in
  match fileName with
  | None =>
      (g, (None, Some ("could not find '[" +:+ Join (dbFiles t) " " +:+ "]' in '"
                       +:+ g_dir g +:+ "'")))
  | Some fileName =>
      match fs_Open fs fileName with
      | inl err => (g, (None, Some err))
      | inr n => (set_reader g t n, (Some n, None))
      end
  end.

Definition get (fs : filesystem) (g : GeoIP2) (t : geoType) (db : string) :
    GeoIP2 * (option Reader * error) :=
  match reader_of g t with
  | Some r => (g, (Some r, None))
  | None => open_ fs g t db
  end.

Definition New (fs : filesystem) (dir : string) : option GeoIP2 * error :=
  let '(g, (_, err)) := open_ fs (mkGeoIP2 dir None None None) countryDB "" in
  match err with
  | Some err => (None, Some err)
  | None => (Some g, None)
  end.

(** ** The methods of the provider *)

(** [HasASN], [HasCountry] and [HasLocation] differ in the database only. *)
Definition has_db (t : geoType) (fs : filesystem) (g : GeoIP2) : GeoIP2 * (bool * error) :=
  let '(g, (r, err)) := get fs g t "" in
  match r, err with
  | Some _, None => (g, (true, None))
  | _, _ => (g, (false, err))
  end.

Definition GeoIP2_HasASN := has_db asnDB.
Definition GeoIP2_HasCountry := has_db countryDB.
Definition GeoIP2_HasLocation := has_db cityDB.

Definition GeoIP2_GetASN (fs : filesystem) (g : GeoIP2) (ip : IP) :
    res (GeoIP2 * (string * Z * error)) :=
  let '(g, (r, err)) := get fs g asnDB "" in
  match err with
  | Some err => Ret (g, ("", 0, Some err))
  | None =>
      r ← deref r;
      match Reader_ASN r ip with
      | inl err => Ret (g, ("", 0, Some ("lookup ASN for '" +:+ IP_String ip +:+ "': " +:+ err)))
      | inr asn => Ret (g, ("as" +:+ Itoa asn, 0, None))
      end
  end.

(** The error of [get] is overwritten before it is looked at. *)
Definition GeoIP2_GetCountry (fs : filesystem) (g : GeoIP2) (ip : IP) :
    res (GeoIP2 * (string * string * Z)) :=
  let '(g, (r, _)) := get fs g countryDB "" in
  r ← deref r;
  match Reader_Country r ip with
  | inl _ => Ret (g, ("", "", 0))
  | inr iso =>
      let country := if 0 <? slen iso then ToLower iso else iso in
      let continent := if 0 <? slen iso then map_get "" CountryContinent country else "" in
      Ret (g, (country, continent, 0))
  end.

(** The location of a city record. *)
Definition city_location (c : CityRecord) : Location :=
  let country := ToLower (city_Country_IsoCode c) in
  let region := match city_Subdivisions c with [] => "" | s :: _ => ToLower s end in
  if 0 <? slen country then
    let continent := map_get "" CountryContinent country in
    if 0 <? slen region then
      let region := country +:+ "-" +:+ region in
      mkLocation country continent (CountryRegionGroup country region) region
        (city_Latitude c) (city_Longitude c) 0
    else mkLocation country continent "" region (city_Latitude c) (city_Longitude c) 0
  else mkLocation country "" "" region (city_Latitude c) (city_Longitude c) 0.

(** [GetLocation] uses the field and not [get]: the database must be open. *)
Definition GeoIP2_GetLocation (g : GeoIP2) (ip : IP) : res (option Location * error) :=
  r ← deref (g_city g);
  match Reader_City r ip with
  | inl err => Ret (None, Some err)
  | inr c => Ret (Some (city_location c), None)
  end.

(** The provider the rest of the program sees in state [g]. *)
Definition as_Provider (fs : filesystem) (g : GeoIP2) : Provider :=
  mkProvider (GeoIP2_HasCountry fs g).2 (λ ip, snd <$> GeoIP2_GetCountry fs g ip)
    (GeoIP2_HasASN fs g).2 (λ ip, snd <$> GeoIP2_GetASN fs g ip)
    (GeoIP2_HasLocation fs g).2 (GeoIP2_GetLocation g).

(** ** Histories of calls *)

(** One call of a method, with what it finds in the file system. *)
Inductive call : GeoIP2 → GeoIP2 → Prop :=
| call_has fs t g : call g (has_db t fs g).1
| call_country fs ip g g' x : GeoIP2_GetCountry fs g ip = Ret (g', x) → call g g'
| call_asn fs ip g g' x : GeoIP2_GetASN fs g ip = Ret (g', x) → call g g'
| call_location ip g x : GeoIP2_GetLocation g ip = Ret x → call g g.

Abbreviation calls := (rtc call).

(** ** Lemmas *)

Lemma reader_of_set g t r : reader_of (set_reader g t r) t = Some r.
Proof. by destruct t. Qed.

Lemma reader_of_set_ne g t t' r : t ≠ t' → reader_of (set_reader g t r) t' = reader_of g t'.
Proof. by destruct t, t'. Qed.

Lemma g_dir_set g t r : g_dir (set_reader g t r) = g_dir g.
Proof. by destruct t. Qed.

(** [get] keeps what is open, opens at most the database it is asked for, and
    its result is that database. *)
Lemma get_spec fs g t :
  let '(g', (r, err)) := get fs g t "" in
  (∀ t' r', reader_of g t' = Some r' → reader_of g' t' = Some r') ∧
  (∀ t', t' ≠ t → reader_of g' t' = reader_of g t') ∧
  reader_of g' t = r ∧ g_dir g' = g_dir g ∧
  match r with Some _ => err = None | None => is_Some err end.
Proof.
  unfold get, open_. destruct (reader_of g t) as [r|] eqn:E; [done|]. cbn [slen String.length].
  change (slen "" =? 0) with true. cbn iota.
  destruct (find_file fs (g_dir g) (dbFiles t)) as [fn|]; [|done].
  destruct (fs_Open fs fn) as [err|r]; [done|]. split_and!.
  - intros t' r' Hr'. destruct (decide (t = t')) as [->|Hne]; [congruence|].
    by rewrite reader_of_set_ne.
  - intros t' Hne. by apply reader_of_set_ne.
  - apply reader_of_set.
  - apply g_dir_set.
  - done.
Qed.

Lemma has_db_get t fs g : (has_db t fs g).1 = (get fs g t "").1.
Proof. unfold has_db. destruct (get fs g t "") as [g' [[r|] [e|]]]; done. Qed.

Lemma GetCountry_get fs g ip g' x :
  GeoIP2_GetCountry fs g ip = Ret (g', x) → g' = (get fs g countryDB "").1.
Proof.
  unfold GeoIP2_GetCountry. destruct (get fs g countryDB "") as [g1 [[r|] e]]; [|done].
  simpl. destruct (Reader_Country r ip); naive_solver.
Qed.

Lemma GetASN_get fs g ip g' x :
  GeoIP2_GetASN fs g ip = Ret (g', x) → g' = (get fs g asnDB "").1.
Proof.
  unfold GeoIP2_GetASN. destruct (get fs g asnDB "") as [g1 [[r|] [e|]]]; simpl; try done;
    try (destruct (Reader_ASN r ip)); naive_solver.
Qed.

(** A call keeps the open databases. *)
Lemma call_keeps g g' t r : call g g' → reader_of g t = Some r → reader_of g' t = Some r.
Proof.
  assert (Hget : ∀ fs t', reader_of g t = Some r →
    reader_of (get fs g t' "").1 t = Some r).
  { intros fs t' Hr. pose proof (get_spec fs g t') as Hs.
    destruct (get fs g t' "") as [g1 [r1 e1]]. by apply Hs. }
  destruct 1 as [fs t' g|fs ip g g' x Hc|fs ip g g' x Hc|]; [..|done].
  - rewrite has_db_get. apply Hget.
  - rewrite (GetCountry_get _ _ _ _ _ Hc). apply Hget.
  - rewrite (GetASN_get _ _ _ _ _ Hc). apply Hget.
Qed.

Lemma calls_keep g g' t r : calls g g' → reader_of g t = Some r → reader_of g' t = Some r.
Proof. induction 1; [done|]. intros. eauto using call_keeps. Qed.

Lemma New_country fs dir g err :
  New fs dir = (Some g, err) → ∃ r, reader_of g countryDB = Some r.
Proof.
  unfold New. pose proof (get_spec fs (mkGeoIP2 dir None None None) countryDB) as Hs.
  unfold get in Hs. cbn [reader_of g_country] in Hs.
  destruct (open_ fs _ countryDB "") as [g1 [[r|] [e|]]]; intros E; simplify_eq.
  - exists r. apply Hs.
  - destruct Hs as (_ & _ & _ & _ & [? ?]). done.
Qed.

(** What a country database answers. *)
Definition country_answer (r : Reader) (ip : IP) : string * string * Z :=
  match Reader_Country r ip with
  | inl _ => ("", "", 0)
  | inr iso => (ToLower iso, map_get "" CountryContinent (ToLower iso), 0)
  end.

Lemma GetCountry_open fs g r ip :
  reader_of g countryDB = Some r →
  GeoIP2_GetCountry fs g ip = Ret (g, country_answer r ip).
Proof.
  unfold GeoIP2_GetCountry, get, country_answer. intros ->. simpl.
  destruct (Reader_Country r ip) as [e|iso]; [done|].
  destruct (0 <? slen iso) eqn:Hlen; [done|]. by apply slen_zero in Hlen as ->.
Qed.

(** [GetASN] always returns. *)
Lemma GetASN_ok fs g ip : ok (GeoIP2_GetASN fs g ip).
Proof.
  unfold GeoIP2_GetASN. pose proof (get_spec fs g asnDB) as Hs.
  destruct (get fs g asnDB "") as [g1 [[r|] [e|]]]; simpl; try (by eexists).
  - by destruct (Reader_ASN r ip); eexists.
  - destruct Hs as (_ & _ & _ & _ & [? ?]). done.
Qed.

(** With both databases open the provider answers. *)
Lemma open_provider_total fs g r c :
  reader_of g countryDB = Some r → g_city g = Some c → provider_total (as_Provider fs g).
Proof.
  intros Hr Hc ip. simpl. rewrite (GetCountry_open fs g r ip Hr).
  destruct (GetASN_ok fs g ip) as [[g' x] ->]. unfold GeoIP2_GetLocation. rewrite Hc. simpl.
  split_and!; [by eexists..|]. by destruct (Reader_City c ip); eexists.
Qed.

(** ** Properties *)

(** C26: once [New] has returned a provider on country database [r], and after
    any sequence of calls with any changes of the file system between them,
    [GetCountry] does not panic and answers from [r]; [GetASN] returns; and if
    the city database is open, [GetLocation] answers from it, from then on. *)
Theorem provider_history (fs : filesystem) (dir : string) (g0 : GeoIP2) (err : error) :
  New fs dir = (Some g0, err) →
  ∃ r, reader_of g0 countryDB = Some r ∧ ∀ g, calls g0 g →
    (∀ fs' ip, GeoIP2_GetCountry fs' g ip = Ret (g, country_answer r ip)) ∧
    (∀ fs' ip, ok (GeoIP2_GetASN fs' g ip)) ∧
    (∀ c, g_city g = Some c → ∀ g' ip, calls g g' →
       GeoIP2_GetLocation g' ip =
         Ret match Reader_City c ip with
             | inl e => (None, Some e)
             | inr rec => (Some (city_location rec), None)
             end).
Proof.
  intros Hnew. destruct (New_country _ _ _ _ Hnew) as [r Hr]. exists r. split; [done|].
  intros g Hg. split_and!.
  - intros. apply GetCountry_open. by apply (calls_keep g0).
  - intros. apply GetASN_ok.
  - intros c Hc g' ip Hg'. apply (calls_keep g g' cityDB c Hg') in Hc. simpl in Hc.
    unfold GeoIP2_GetLocation. rewrite Hc. simpl. by destruct (Reader_City c ip).
Qed.
(** After any history, the provider satisfies what targeting asks of a
    provider exactly when the city database is open.  Otherwise every request
    for targets with region or region group targeting, or for the closest
    servers, panics, although [HasLocation] reports the missing database as an
    error that only leads to a log line. *)
Theorem provider_needs_city (fs : filesystem) (dir : string) (g0 : GeoIP2) (err : error) :
  New fs dir = (Some g0, err) → ∀ g fs', calls g0 g →
  (provider_total (as_Provider fs' g) ↔ is_Some (g_city g)) ∧
  (g_city g = None → ∀ t ip hasClosest,
     has t TargetRegion || has t TargetRegionGroup || hasClosest = true →
     GetTargets t (Some (as_Provider fs' g)) ip hasClosest
       = Panic "nil pointer dereference").
Proof.
  intros Hnew g fs' Hg. destruct (New_country _ _ _ _ Hnew) as [r Hr].
  apply (calls_keep _ g _ _ Hg) in Hr. split; [split|].
  - intros Htot. destruct (Htot []) as (_ & _ & [x Hx]). simpl in Hx.
    unfold GeoIP2_GetLocation in Hx. destruct (g_city g); [done|discriminate Hx].
  - intros [c Hc]. by eapply open_provider_total.
  - intros Hc t ip hasClosest Hloc. unfold GetTargets.
    destruct (opt_ip_targets_ok (has t TargetIP) ip) as (ts & ip' & ->).
    cbn [mbind res_bind]. unfold getGeoTargets, locate. rewrite Hloc. cbn [as_Provider GetASN GetLocation].
    destruct (GetASN_ok fs' g ip') as [[g' [[asn ?] ?]] ->].
    unfold GeoIP2_GetLocation. rewrite Hc. by destruct (has t TargetASN).
Qed.

(** A location is consistent: the country is in lower case, the continent is
    that of the country, the region is a subdivision of the country written
    "country-subdivision", and a region group is only given for the regions
    of the table, which are regions of the US. *)
Theorem GetLocation_consistent (g : GeoIP2) (ip : IP) (l : Location) (err : error) :
  GeoIP2_GetLocation g ip = Ret (Some l, err) →
  ToLower (loc_Country l) = loc_Country l ∧
  loc_Continent l = map_get "" CountryContinent (loc_Country l) ∧
  (loc_Country l ≠ "" → loc_Region l ≠ "" →
     ∃ s, s ≠ "" ∧ ToLower s = s ∧ loc_Region l = loc_Country l +:+ "-" +:+ s) ∧
  (loc_RegionGroup l ≠ "" →
     loc_Country l = "us" ∧ RegionGroups !! loc_Region l = Some (loc_RegionGroup l)).
Proof.
  unfold GeoIP2_GetLocation. intros Hl. res_inv.
  destruct (Reader_City r ip) as [e|c]; simplify_eq. unfold city_location.
  set (country := ToLower (city_Country_IsoCode c)).
  set (region := match city_Subdivisions c with [] => "" | s :: _ => ToLower s end).
  assert (Hc : ToLower country = country) by apply ToLower_idem.
  assert (Hreg : ToLower region = region).
  { unfold region. destruct (city_Subdivisions c); [done|apply ToLower_idem]. }
  clearbody country region.
  destruct (0 <? slen country) eqn:Hlen.
  - destruct (0 <? slen region) eqn:Hrl;
      cbn [loc_Country loc_Continent loc_Region loc_RegionGroup].
    + split_and!; [done..| |].
      * intros _ _. exists region. split_and!; [|done..]. by apply slen_pos.
      * unfold CountryRegionGroup, map_get. case_decide; [|done]. intros Hg. split; [done|].
        destruct (RegionGroups !! (country +:+ "-" +:+ region)) as [gr|]; [done|]. by destruct Hg.
    + apply slen_zero in Hrl as ->. split_and!; done.
  - apply slen_zero in Hlen as ->. cbn [loc_Country loc_Continent loc_Region loc_RegionGroup].
    split_and!; [reflexivity|vm_compute; reflexivity|..]; intros Hne; by destruct Hne.
Qed.
End geoip2.

(** ** Examples *)

(** A library whose readers give every address the same city. *)
Definition example_city : CityRecord := mkCity f_zero f_360 "US" ["CA"; "X"].

#[export] Instance MaxMind_example : MaxMind := {|
  Reader := string;
  Reader_Country := λ _ _, inr "US";
  Reader_City := λ _ _, inr example_city;
  Reader_ASN := λ _ _, inr 64512
|}.

Definition example_join (dir f : string) : string := dir +:+ f.

(** A directory with the free country database, and one that has the free and
    the commercial city database as well. *)
Definition example_fs (files : list string) : filesystem :=
  mkFS (λ fn, bool_decide (fn ∈ files)) (λ fn, inr fn).

Definition country_only : filesystem := example_fs ["/geo/GeoLite2-Country.mmdb"].
Definition with_city : filesystem :=
  example_fs ["/geo/GeoLite2-Country.mmdb"; "/geo/GeoLite2-City.mmdb"; "/geo/GeoIP2-City.mmdb"].

Definition example_geo (city : option string) : GeoIP2 :=
  mkGeoIP2 "/geo/" (Some "/geo/GeoLite2-Country.mmdb") city None.

Lemma example_New : New example_join country_only "/geo/" = (Some (example_geo None), None).
Proof. vm_compute. reflexivity. Qed.

Lemma example_HasLocation :
  (GeoIP2_HasLocation example_join with_city (example_geo None)).1
    = example_geo (Some "/geo/GeoIP2-City.mmdb").
Proof. vm_compute. reflexivity. Qed.

Lemma example_calls :
  rtc (call example_join) (example_geo None) (example_geo (Some "/geo/GeoIP2-City.mmdb")).
Proof.
  eapply rtc_l; [apply (call_has example_join with_city cityDB)|].
  change (has_db example_join cityDB) with (GeoIP2_HasLocation example_join).
  rewrite example_HasLocation. apply rtc_refl.
Qed.

Lemma provider_history_witness :
  ∃ r, ∀ fs' ip, GeoIP2_GetCountry example_join fs' (example_geo None) ip
    = Ret (example_geo None, country_answer r ip).
Proof.
  destruct (provider_history example_join country_only "/geo/" _ _ example_New) as (r & _ & Hr).
  exists r. apply (Hr (example_geo None)). apply rtc_refl.
Defined.

Lemma provider_needs_city_witness :
  provider_total (as_Provider example_join with_city (example_geo (Some "/geo/GeoIP2-City.mmdb"))) ∧
  GetTargets TargetRegion (Some (as_Provider example_join country_only (example_geo None)))
    (IPv4 192 0 2 1) false = Panic "nil pointer dereference".
Proof.
  split.
  - apply (provider_needs_city example_join country_only "/geo/" _ _ example_New _ with_city
      example_calls). by eexists.
  - apply (provider_needs_city example_join country_only "/geo/" _ _ example_New
      (example_geo None) country_only (rtc_refl _ _)); reflexivity.
Defined.

Lemma GetLocation_consistent_witness :
  RegionGroups !! "us-ca" = Some "us-west".
Proof.
  assert (E : GeoIP2_GetLocation (example_geo (Some "x")) [] =
    Ret (Some (city_location example_city), None)) by (vm_compute; reflexivity).
  destruct (GetLocation_consistent (example_geo (Some "x")) [] _ None E) as (_ & _ & _ & Hg).
  destruct Hg as [_ Hg]; [vm_compute; discriminate|]. exact Hg.
Defined.
