(* ===== verification/DnsNames.v ===== *)
(** * Domain names, from the vendored github.com/miekg/dns

    [labels.go] and [defaults.go] work on offsets into the name and honour
    backslash escapes; the definitions keep that.  The lemmas describe them on
    names given as a list of plain labels, and count the labels of any string. *)

From S2P Require Import Prelude GoStrings.
Local Open Scope Z_scope.

(** ** Definitions *)

(** The loop of [NextLabel], on the rest of the name from offset [i] on; it
    stops before the last byte. *)
Fixpoint next_label (rest : string) (i : Z) (quote : bool) : Z * bool :=
  match rest with
  | String a ((String _ _) as rest') =>
      if Ascii.eqb a "\" then next_label rest' (i + 1) (negb quote)
      else if Ascii.eqb a "." then
        if quote then next_label rest' (i + 1) (negb quote) else (i + 1, false)
      else next_label rest' (i + 1) false
  | _ => (i + 1, true)
  end.

Definition NextLabel (s : string) (offset : Z) : Z * bool :=
  next_label (sdrop (Z.to_nat offset) s) offset false.

(** The offsets after the first one that [Split] collects. *)
Fixpoint split_loop (fuel : nat) (s : string) (off : Z) : list Z :=
  match fuel with
  | O => []
  | S fuel =>
      let '(off, end_) := NextLabel s off in
      if end_ then [] else off :: split_loop fuel s off
  end.

(** Every turn of the loop moves past a dot, so the length of the name is
    enough fuel. *)
Definition dns_Split (s : string) : list Z :=
  if decide (s = ".") then [] else 0 :: split_loop (String.length s) s 0.

Fixpoint count_loop (fuel : nat) (s : string) (off labels : Z) : Z :=
  match fuel with
  | O => labels
  | S fuel =>
      let '(off, end_) := NextLabel s off in
      if end_ then labels + 1 else count_loop fuel s off (labels + 1)
  end.

Definition CountLabel (s : string) : Z :=
  if decide (s = ".") then 0 else count_loop (S (String.length s)) s 0 0.

(** The number of backslashes at the end of [s]. *)
Fixpoint trailing_backslashes (s : string) (k : Z) : Z :=
  match s with
  | EmptyString => k
  | String a s => trailing_backslashes s (if Ascii.eqb a "\" then k + 1 else 0)
  end.

Definition TrimSuffixDot (s : string) : string :=
  if HasSuffix s "." then stake (String.length s - 1) s else s.

(** [IsFqdn]: a final dot that is not escaped. *)
Definition IsFqdn (s : string) : bool :=
  HasSuffix s "." && Z.even (trailing_backslashes (TrimSuffixDot s) 0).

Definition Fqdn (s : string) : string := if IsFqdn s then s else s +:+ ".".

(** [s[a:b]] *)
Definition substr (s : string) (a b : Z) : string :=
  stake (Z.to_nat (b - a)) (sdrop (Z.to_nat a) s).

Fixpoint cut_labels (s : string) (begin : Z) (ends : list Z) (fqdnEnd : Z) : list string :=
  match ends with
  | [] => [substr s begin fqdnEnd]
  | e :: ends => substr s begin (e - 1) :: cut_labels s e ends fqdnEnd
  end.

Definition SplitDomainName (s : string) : list string :=
  if decide (s = "") then []
  else
    let fqdnEnd := if IsFqdn s then slen s - 1 else slen s in
    match dns_Split s with
    | [] => []
    | _ :: ends => cut_labels s 0 ends fqdnEnd
    end.

(** ** Names as lists of labels *)

(** A label that needs no escaping: not empty, no dot, no backslash. *)
Definition plain (w : string) : Prop :=
  w ≠ "" ∧ ContainsByte w "." = false ∧ ContainsByte w "\" = false.

Definition dotted_name (ls : list string) : string := Join ls ".".
Definition fqdn_of (ls : list string) : string := dotted_name ls +:+ ".".

(** The two written forms of a name: with and without the final dot. *)
Definition name_of (dot : bool) (ls : list string) : string :=
  dotted_name ls +:+ (if dot then "." else "").

(** ** Lemmas *)

Lemma dotted_name_cons w ls :
  ls ≠ [] → dotted_name (w :: ls) = w +:+ String "." (dotted_name ls).
Proof. by destruct ls. Qed.

Lemma name_of_cons dot w ls :
  ls ≠ [] → name_of dot (w :: ls) = w +:+ String "." (name_of dot ls).
Proof.
  intros. unfold name_of. by rewrite dotted_name_cons, sapp_assoc, sapp_cons.
Qed.

Lemma name_of_long dot ls : ls ≠ [] → Forall plain ls → ∃ a s, name_of dot ls = String a s.
Proof.
  intros Hne Hp. destruct Hp as [|w ls [Hw _] Hp]; [done|].
  destruct w as [|a w]; [done|].
  destruct ls; [by eexists _, _|]. rewrite name_of_cons by done. by eexists _, _.
Qed.

Lemma next_label_cons a b r i :
  Ascii.eqb a "." = false → Ascii.eqb a "\" = false →
  next_label (String a (String b r)) i false = next_label (String b r) (i + 1) false.
Proof. intros H1 H2. simpl. by rewrite H1, H2. Qed.

Lemma next_label_plain w i t :
  ContainsByte w "." = false → ContainsByte w "\" = false → t ≠ "" →
  next_label (w +:+ String "." t) i false = (i + slen w + 1, false).
Proof.
  revert i. induction w as [|a w IH]; intros i H1 H2 Ht; rewrite ?sapp_nil_l, ?sapp_cons.
  - destruct t; [done|]. simpl. f_equal. unfold slen. simpl. lia.
  - simpl in H1, H2. apply orb_false_iff in H1 as [H1 H1'], H2 as [H2 H2'].
    destruct (w +:+ String "." t) as [|b r] eqn:E; [by destruct w|].
    rewrite next_label_cons, IH by done. rewrite slen_cons. f_equal. lia.
Qed.

Lemma next_label_end w i dot :
  ContainsByte w "." = false → ContainsByte w "\" = false →
  ∃ j, next_label (w +:+ if dot : bool then "." else "") i false = (j, true).
Proof.
  revert i. induction w as [|a w IH]; intros i H1 H2; [destruct dot; by eexists|].
  simpl in H1, H2. apply orb_false_iff in H1 as [H1 H1'], H2 as [H2 H2'].
  rewrite sapp_cons. destruct (w +:+ (if dot then "." else "")) as [|b r] eqn:E.
  - by eexists.
  - rewrite next_label_cons by done. by apply IH.
Qed.

Lemma sdrop_slen p t : sdrop (Z.to_nat (slen p)) (p +:+ t) = t.
Proof. unfold slen. rewrite Nat2Z.id. apply sdrop_app. Qed.

(** The offsets of the labels after the first one, for labels that start at
    offset [off]. *)
Fixpoint offsets (off : Z) (ls : list string) : list Z :=
  match ls with
  | [] | [_] => []
  | w :: ls => (off + slen w + 1) :: offsets (off + slen w + 1) ls
  end.

Lemma plain_not_empty_name dot ls : ls ≠ [] → Forall plain ls → name_of dot ls ≠ "".
Proof. intros H1 H2. destruct (name_of_long dot ls H1 H2) as (a & s & ->). done. Qed.

Lemma NextLabel_step p w ls dot :
  ls ≠ [] → Forall plain (w :: ls) →
  NextLabel (p +:+ name_of dot (w :: ls)) (slen p) = (slen p + slen w + 1, false).
Proof.
  intros Hne [[_ [H1 H2]] Hp]%Forall_cons. unfold NextLabel. rewrite sdrop_slen, name_of_cons by done.
  rewrite next_label_plain; [done..|]. by apply plain_not_empty_name.
Qed.

Lemma NextLabel_last p w dot :
  plain w → ∃ j, NextLabel (p +:+ name_of dot [w]) (slen p) = (j, true).
Proof.
  intros [_ [H1 H2]]. unfold NextLabel. rewrite sdrop_slen. unfold name_of. simpl.
  by apply next_label_end.
Qed.

(** A name with prefix [p] before the labels [w :: ls], seen with prefix
    [p ++ w ++ "."] before the labels [ls]. *)
Lemma shift_prefix p w ls dot :
  ls ≠ [] →
  p +:+ name_of dot (w :: ls) = (p +:+ w +:+ ".") +:+ name_of dot ls ∧
  slen (p +:+ w +:+ ".") = slen p + slen w + 1.
Proof.
  intros Hne. rewrite name_of_cons, !slen_app by done. split; [|unfold slen; simpl; lia].
  by rewrite !sapp_assoc, sapp_cons.
Qed.

Lemma split_loop_offsets fuel p ls dot :
  ls ≠ [] → Forall plain ls → (length ls ≤ fuel)%nat →
  split_loop fuel (p +:+ name_of dot ls) (slen p) = offsets (slen p) ls.
Proof.
  revert p ls. induction fuel as [|fuel IH]; intros p ls Hne Hp Hf.
  { destruct ls; [done|simpl in Hf; lia]. }
  cbn [split_loop]. destruct ls as [|w [|w' ls]]; [done|..].
  - apply Forall_cons in Hp as [Hp _]. by destruct (NextLabel_last p w dot Hp) as [j ->].
  - rewrite NextLabel_step by done. cbn [offsets]. f_equal.
    destruct (shift_prefix p w (w' :: ls) dot) as [-> <-]; [done|].
    apply IH; [done|by apply Forall_cons in Hp as [_ ?]|simpl in *; lia].
Qed.

Lemma count_loop_length fuel p ls dot n :
  ls ≠ [] → Forall plain ls → (length ls ≤ fuel)%nat →
  count_loop fuel (p +:+ name_of dot ls) (slen p) n = n + len ls.
Proof.
  revert p ls n. induction fuel as [|fuel IH]; intros p ls n Hne Hp Hf.
  { destruct ls; [done|simpl in Hf; lia]. }
  cbn [count_loop]. destruct ls as [|w [|w' ls]]; [done|..].
  - apply Forall_cons in Hp as [Hp _]. by destruct (NextLabel_last p w dot Hp) as [j ->].
  - rewrite NextLabel_step by done.
    destruct (shift_prefix p w (w' :: ls) dot) as [-> <-]; [done|].
    rewrite IH; [unfold len; simpl; lia|done|by apply Forall_cons in Hp as [_ ?]|simpl in *; lia].
Qed.

Lemma length_le_name dot ls : (length ls ≤ S (String.length (name_of dot ls)))%nat.
Proof.
  induction ls as [|w ls IH]; [simpl; lia|]. destruct ls as [|w' ls]; [simpl; lia|].
  rewrite name_of_cons by done.
  assert (E : slen (w +:+ String "." (name_of dot (w' :: ls))) =
              slen w + (slen (name_of dot (w' :: ls)) + 1)).
  { by rewrite slen_app, slen_cons. }
  unfold slen in E. simpl in *. lia.
Qed.

Lemma length_le_plain dot ls :
  ls ≠ [] → Forall plain ls → (length ls ≤ String.length (name_of dot ls))%nat.
Proof.
  intros Hne Hp. destruct Hp as [|w ls [Hw _] Hp]; [done|].
  destruct ls as [|w' ls]; [destruct w; [done|simpl; lia]|].
  rewrite name_of_cons by done. pose proof (length_le_name dot (w' :: ls)).
  assert (E : slen (w +:+ String "." (name_of dot (w' :: ls))) =
              slen w + (slen (name_of dot (w' :: ls)) + 1)).
  { by rewrite slen_app, slen_cons. }
  assert (1 ≤ slen w) by (destruct w; [done|rewrite slen_cons; pose proof (slen_nonneg w); lia]).
  unfold slen in *. simpl in *. lia.
Qed.

Lemma name_not_root dot ls : ls ≠ [] → Forall plain ls → name_of dot ls ≠ ".".
Proof.
  intros Hne Hp. destruct Hp as [|w ls [Hw [H1 _]] Hp]; [done|].
  destruct w as [|a w]; [done|]. simpl in H1. apply orb_false_iff in H1 as [Ha _].
  destruct ls; [unfold name_of, dotted_name; cbn [Join]|rewrite name_of_cons by done];
    rewrite sapp_cons; intros E; injection E as ->; by rewrite Ascii.eqb_refl in Ha.
Qed.

Lemma CountLabel_name dot ls : ls ≠ [] → Forall plain ls → CountLabel (name_of dot ls) = len ls.
Proof.
  intros Hne Hp. unfold CountLabel.
  destruct (decide (name_of dot ls = ".")) as [E|_]; [by destruct (name_not_root dot ls)|].
  pose proof (count_loop_length (S (String.length (name_of dot ls))) "" ls dot 0) as Hc.
  rewrite sapp_nil_l in Hc. apply Hc; [done|done|apply length_le_name].
Qed.

Lemma dns_Split_name dot ls :
  ls ≠ [] → Forall plain ls → dns_Split (name_of dot ls) = 0 :: offsets 0 ls.
Proof.
  intros Hne Hp. unfold dns_Split.
  destruct (decide (name_of dot ls = ".")) as [E|_]; [by destruct (name_not_root dot ls)|].
  f_equal. pose proof (split_loop_offsets (String.length (name_of dot ls)) "" ls dot) as Hs.
  rewrite sapp_nil_l in Hs. apply Hs; [done|done|by apply length_le_plain].
Qed.

Lemma trailing_no_backslash s k :
  ContainsByte s "\" = false → trailing_backslashes s k = if decide (s = "") then k else 0.
Proof.
  revert k. induction s as [|a s IH]; intros k H; [done|].
  simpl in *. apply orb_false_iff in H as [-> H]. rewrite IH by done.
  by case_decide.
Qed.

Lemma HasSuffix_dot_app s w :
  w ≠ "" → ContainsByte w "." = false → HasSuffix (s +:+ w) "." = false.
Proof.
  intros Hw Hc. destruct (HasSuffix (s +:+ w) ".") eqn:E; [|done].
  apply HasSuffix_inv in E as [u E]. exfalso. revert u E.
  induction s as [|a s IH]; intros u E.
  - rewrite sapp_nil_l in E. subst. by rewrite ContainsByte_app, orb_true_r in Hc.
  - destruct u as [|b u]; rewrite ?sapp_nil_l, ?sapp_cons in E.
    + injection E as _ E. by destruct s, w.
    + injection E as _ E. by apply (IH u).
Qed.

Lemma substr_mid p w t : substr (p +:+ w +:+ t) (slen p) (slen p + slen w) = w.
Proof.
  unfold substr. rewrite sdrop_slen. replace (slen p + slen w - slen p) with (slen w) by lia.
  unfold slen. rewrite Nat2Z.id. apply stake_app.
Qed.

Lemma cut_labels_name p ls dot :
  ls ≠ [] → Forall plain ls →
  cut_labels (p +:+ name_of dot ls) (slen p) (offsets (slen p) ls)
    (slen p + slen (dotted_name ls)) = ls.
Proof.
  revert p. induction ls as [|w ls IH]; intros p Hne Hp; [done|].
  destruct ls as [|w' ls].
  - cbn [offsets cut_labels]. f_equal. apply substr_mid.
  - cbn [offsets cut_labels]. rewrite Z.add_simpl_r. f_equal.
    + rewrite name_of_cons by done. apply substr_mid.
    + apply Forall_cons in Hp as [_ Hp].
      destruct (shift_prefix p w (w' :: ls) dot) as [-> E]; [done|].
      assert (Es : slen (dotted_name (w :: w' :: ls)) =
        slen w + (slen (dotted_name (w' :: ls)) + 1)).
      { by rewrite dotted_name_cons, slen_app, slen_cons. }
      rewrite Es, <-E.
      replace (slen p + (slen w + (slen (dotted_name (w' :: ls)) + 1)))
        with (slen (p +:+ w +:+ ".") + slen (dotted_name (w' :: ls))) by lia.
      by apply IH.
Qed.

Lemma dotted_name_no_backslash ls :
  Forall plain ls → ContainsByte (dotted_name ls) "\" = false.
Proof.
  intros Hp. apply ContainsByte_Join; [done|].
  eapply Forall_impl; [done|]. by intros w (_ & _ & ?).
Qed.

Lemma dotted_name_last ls :
  ls ≠ [] → Forall plain ls → ∃ q w, dotted_name ls = q +:+ w ∧ plain w.
Proof.
  intros Hne Hp. induction Hp as [|w ls Hw Hp IH]; [done|].
  destruct ls as [|w' ls]; [by exists "", w|].
  destruct IH as (q & v & E & Hv); [done|]. exists (w +:+ String "." q), v.
  by rewrite dotted_name_cons, E, sapp_assoc, sapp_cons by done.
Qed.

Lemma dotted_name_nonempty ls : ls ≠ [] → Forall plain ls → dotted_name ls ≠ "".
Proof.
  intros H1 H2. pose proof (plain_not_empty_name false ls H1 H2) as H.
  unfold name_of in H. by rewrite sapp_nil_r in H.
Qed.

Lemma TrimSuffixDot_app s : TrimSuffixDot (s +:+ ".") = s.
Proof.
  unfold TrimSuffixDot. rewrite HasSuffix_app.
  replace (String.length (s +:+ ".") - 1)%nat with (String.length s); [apply stake_app|].
  pose proof (slen_app s ".") as E. unfold slen in E. simpl in E. lia.
Qed.

(** A name of plain labels is fully qualified iff it is written with its
    final dot. *)
Lemma IsFqdn_name dot ls : ls ≠ [] → Forall plain ls → IsFqdn (name_of dot ls) = dot.
Proof.
  intros Hne Hp. unfold IsFqdn, name_of. destruct dot.
  - rewrite HasSuffix_app, TrimSuffixDot_app.
    rewrite trailing_no_backslash by (by apply dotted_name_no_backslash).
    by case_decide.
  - rewrite sapp_nil_r. destruct (dotted_name_last ls Hne Hp) as (q & w & -> & Hw & Hd & _).
    by rewrite HasSuffix_dot_app.
Qed.

Lemma Fqdn_name dot ls : ls ≠ [] → Forall plain ls → Fqdn (name_of dot ls) = fqdn_of ls.
Proof.
  intros Hne Hp. unfold Fqdn. rewrite IsFqdn_name by done. unfold name_of, fqdn_of.
  destruct dot; [done|]. by rewrite sapp_nil_r.
Qed.

(** [SplitDomainName] recovers the labels of a name, with or without the
    final dot. *)
Lemma SplitDomainName_name dot ls :
  ls ≠ [] → Forall plain ls → SplitDomainName (name_of dot ls) = ls.
Proof.
  intros Hne Hp. unfold SplitDomainName.
  destruct (decide _) as [E|_]; [by destruct (plain_not_empty_name dot ls)|].
  rewrite dns_Split_name, IsFqdn_name by done.
  pose proof (cut_labels_name "" ls dot Hne Hp) as Hc. rewrite sapp_nil_l in Hc.
  replace (if dot then slen (name_of dot ls) - 1 else slen (name_of dot ls))
    with (slen "" + slen (dotted_name ls)); [done|].
  unfold name_of. destruct dot; rewrite slen_app; unfold slen; simpl; lia.
Qed.

(** ** Names of any form

    The lemmas above are about names written in plain labels.  What the server
    relies on holds for every string, escapes and empty labels included: the
    number of labels is one more than the number of separators. *)

(** The separators of a name: the dots before the last byte that are not
    escaped. *)
Fixpoint seps (rest : string) (quote : bool) : nat :=
  match rest with
  | String a ((String _ _) as rest') =>
      if Ascii.eqb a "\" then seps rest' (negb quote)
      else if Ascii.eqb a "." then
        if quote then seps rest' (negb quote) else S (seps rest' false)
      else seps rest' false
  | _ => O
  end.

Lemma seps_cons a s q :
  s ≠ "" →
  seps (String a s) q =
    if Ascii.eqb a "\" then seps s (negb q)
    else if Ascii.eqb a "." then if q then seps s (negb q) else S (seps s false)
    else seps s false.
Proof. by destruct s. Qed.

Lemma seps_bound rest q : (seps rest q ≤ String.length rest)%nat.
Proof.
  revert q. induction rest as [|a rest IH]; intros q; [done|]. cbn [seps String.length].
  destruct rest as [|b rest]; [lia|]. set (r := String b rest) in *.
  pose proof (IH true). pose proof (IH false).
  destruct (Ascii.eqb a "\"), q, (Ascii.eqb a "."); cbn [negb]; lia.
Qed.

Lemma sdrop_sdrop n m s : sdrop m (sdrop n s) = sdrop (n + m) s.
Proof. revert s. induction n as [|n IH]; intros [|a s]; cbn; auto. by destruct m. Qed.

Lemma next_label_seps rest i q :
  match next_label rest i q with
  | (_, true) => seps rest q = O
  | (j, false) => i < j ∧ seps rest q = S (seps (sdrop (Z.to_nat (j - i)) rest) false)
  end.
Proof.
  revert i q. induction rest as [|a rest IH]; intros i q; [done|]. cbn [next_label seps].
  destruct rest as [|b rest']; [done|]. set (rest := String b rest') in *.
  assert (Hstep : ∀ q', match next_label rest (i + 1) q' with
    | (_, true) => seps rest q' = O
    | (j, false) => i < j ∧ seps rest q' = S (seps (sdrop (Z.to_nat (j - i)) (String a rest)) false)
    end).
  { intros q'. specialize (IH (i + 1) q'). destruct (next_label rest (i + 1) q') as [j []]; [done|].
    destruct IH as [Hlt ->]. split; [lia|].
    by replace (Z.to_nat (j - i)) with (S (Z.to_nat (j - (i + 1)))) by lia. }
  destruct (Ascii.eqb a "\"); [apply Hstep|]. destruct (Ascii.eqb a "."); [|apply Hstep].
  destruct q; [apply Hstep|]. split; [lia|].
  by replace (Z.to_nat (i + 1 - i)) with 1%nat by lia.
Qed.

Lemma NextLabel_seps s off :
  0 ≤ off →
  match NextLabel s off with
  | (_, true) => seps (sdrop (Z.to_nat off) s) false = O
  | (j, false) => off < j ∧
      seps (sdrop (Z.to_nat off) s) false = S (seps (sdrop (Z.to_nat j) s) false)
  end.
Proof.
  intros Hoff. unfold NextLabel. pose proof (next_label_seps (sdrop (Z.to_nat off) s) off false) as Hn.
  destruct (next_label _ _ _) as [j []]; [done|]. destruct Hn as [Hlt ->]. split; [done|].
  rewrite sdrop_sdrop. by replace (Z.to_nat off + Z.to_nat (j - off))%nat with (Z.to_nat j) by lia.
Qed.

Lemma split_loop_length fuel s off :
  0 ≤ off → (seps (sdrop (Z.to_nat off) s) false ≤ fuel)%nat →
  length (split_loop fuel s off) = seps (sdrop (Z.to_nat off) s) false.
Proof.
  revert off. induction fuel as [|fuel IH]; intros off Hoff Hf; cbn [split_loop]; [simpl; lia|].
  pose proof (NextLabel_seps s off Hoff) as Hn. destruct (NextLabel s off) as [j []]; [done|].
  destruct Hn as [Hlt Hn]. rewrite Hn in *. simpl. rewrite IH; [done|lia|lia].
Qed.

Lemma count_loop_seps fuel s off labels :
  0 ≤ off → (seps (sdrop (Z.to_nat off) s) false < fuel)%nat →
  count_loop fuel s off labels = labels + 1 + Z.of_nat (seps (sdrop (Z.to_nat off) s) false).
Proof.
  revert off labels. induction fuel as [|fuel IH]; intros off labels Hoff Hf; cbn [count_loop]; [lia|].
  pose proof (NextLabel_seps s off Hoff) as Hn. destruct (NextLabel s off) as [j []].
  - rewrite Hn. lia.
  - destruct Hn as [Hlt Hn]. rewrite Hn in *. rewrite IH by lia. lia.
Qed.

Lemma CountLabel_seps s : s ≠ "." → CountLabel s = 1 + Z.of_nat (seps s false).
Proof.
  intros Hs. unfold CountLabel. rewrite decide_False by done.
  pose proof (seps_bound s false). rewrite count_loop_seps; change (sdrop (Z.to_nat 0) s) with s; lia.
Qed.

Lemma cut_labels_length s begin ends e : length (cut_labels s begin ends e) = S (length ends).
Proof. revert begin. induction ends as [|x ends IH]; intros begin; [done|]. cbn. by rewrite IH. Qed.

(** The labels of a name that is neither empty nor the root. *)
Lemma SplitDomainName_seps s :
  s ≠ "" → s ≠ "." → len (SplitDomainName s) = 1 + Z.of_nat (seps s false).
Proof.
  intros H1 H2. unfold SplitDomainName, dns_Split. rewrite !decide_False by done. unfold len.
  pose proof (seps_bound s false). rewrite cut_labels_length, split_loop_length;
    change (sdrop (Z.to_nat 0) s) with s; lia.
Qed.

Lemma seps_app s t q : (seps s q ≤ seps (s +:+ t) q)%nat.
Proof.
  revert q. induction s as [|a s IH]; intros q; [simpl; lia|]. rewrite sapp_cons.
  destruct s as [|b s]; [simpl; lia|]. rewrite sapp_cons in *.
  set (u := String b s) in *. set (v := String b (s +:+ t)) in *. cbn [seps].
  destruct (Ascii.eqb a "\"); [apply IH|]. destruct (Ascii.eqb a "."); [|apply IH].
  destruct q; [apply IH|]. apply le_n_S, IH.
Qed.
