(* ===== verification/DnsMsg.v ===== *)
(** * Records, messages and the request multiplexer, from the vendored
    github.com/miekg/dns

    [types.go], [msg.go], [defaults.go] and [serve_mux.go], as far as the
    server uses them.  An [RR] is its header and its data; Go's type switches
    and type assertions on records are matches on the data. *)

From S2P Require Import Prelude GoStrings GoNet DnsNames.
Local Open Scope Z_scope.

Definition TypeA : Z := 1.
Definition TypeNS : Z := 2.
Definition TypeMF : Z := 4.
Definition TypeCNAME : Z := 5.
Definition TypeSOA : Z := 6.
Definition TypePTR : Z := 12.
Definition TypeMX : Z := 15.
Definition TypeTXT : Z := 16.
Definition TypeAAAA : Z := 28.
Definition TypeSRV : Z := 33.
Definition TypeOPT : Z := 41.
Definition TypeDS : Z := 43.
Definition TypeSPF : Z := 99.
Definition TypeANY : Z := 255.
Definition ClassINET : Z := 1.
Definition RcodeSuccess : Z := 0.
Definition RcodeServerFailure : Z := 2.
Definition RcodeNameError : Z := 3.
Definition RcodeRefused : Z := 5.
Definition OpcodeQuery : Z := 0.

Record RR_Header := mkHdr {
  h_Name : string;
  h_Rrtype : Z;
  h_Class : Z;
  h_Ttl : Z;
  h_Rdlength : Z
}.

(** [EDNS0_SUBNET], and every other option. *)
Record EDNS0_SUBNET := mkSubnet {
  e_Family : Z;
  e_SourceNetmask : Z;
  e_SourceScope : Z;
  e_Address : IP
}.
Inductive EDNS0 :=
| OptSubnet (e : EDNS0_SUBNET)
| OptOther (code : Z).

Inductive RData :=
| RD_A (ip : IP)
| RD_AAAA (ip : IP)
| RD_PTR (ptr : string)
| RD_MX (pref : Z) (mx : string)
| RD_SRV (priority weight port : Z) (target : string)
| RD_CNAME (target : string)
| RD_MF (mf : string)
| RD_NS (ns : string)
| RD_TXT (txt : list string)
| RD_SPF (txt : list string)
| RD_SOA (ns mbox : string) (serial refresh retry expire minttl : Z)
| RD_OPT (options : list EDNS0).

Record RR := mkRR { rr_Hdr : RR_Header; rr_Data : RData }.

Record Question := mkQuestion { q_Name : string; q_Qtype : Z; q_Qclass : Z }.

Record Msg := mkMsg {
  m_Id : Z;
  m_Response : bool;
  m_Opcode : Z;
  m_Authoritative : bool;
  m_RecursionDesired : bool;
  m_CheckingDisabled : bool;
  m_Rcode : Z;
  m_Question : list Question;
  m_Answer : list RR;
  m_Ns : list RR;
  m_Extra : list RR
}.

#[export] Instance RR_Header_eq_dec : EqDecision RR_Header.
Proof. solve_decision. Defined.
#[export] Instance EDNS0_SUBNET_eq_dec : EqDecision EDNS0_SUBNET.
Proof. solve_decision. Defined.
#[export] Instance EDNS0_eq_dec : EqDecision EDNS0.
Proof. solve_decision. Defined.
#[export] Instance RData_eq_dec : EqDecision RData.
Proof. solve_decision. Defined.
#[export] Instance RR_eq_dec : EqDecision RR.
Proof. solve_decision. Defined.
#[export] Instance Question_eq_dec : EqDecision Question.
Proof. solve_decision. Defined.
#[export] Instance Msg_eq_dec : EqDecision Msg.
Proof. solve_decision. Defined.

(** [new(dns.Msg)] *)
Definition new_Msg : Msg := mkMsg 0 false 0 false false false 0 [] [] [] [].

Definition SetReply (m request : Msg) : Msg :=
  let query := m_Opcode request =? OpcodeQuery in
  mkMsg (m_Id request) true (m_Opcode request) (m_Authoritative m)
    (if query then m_RecursionDesired request else m_RecursionDesired m)
    (if query then m_CheckingDisabled request else m_CheckingDisabled m)
    RcodeSuccess
    (match m_Question request with q :: _ => [q] | [] => m_Question m end)
    (m_Answer m) (m_Ns m) (m_Extra m).

Definition set_Rcode (m : Msg) (rcode : Z) : Msg :=
  mkMsg (m_Id m) (m_Response m) (m_Opcode m) (m_Authoritative m) (m_RecursionDesired m)
    (m_CheckingDisabled m) rcode (m_Question m) (m_Answer m) (m_Ns m) (m_Extra m).
Definition set_Authoritative (m : Msg) : Msg :=
  mkMsg (m_Id m) (m_Response m) (m_Opcode m) true (m_RecursionDesired m)
    (m_CheckingDisabled m) (m_Rcode m) (m_Question m) (m_Answer m) (m_Ns m) (m_Extra m).
Definition set_Answer (m : Msg) (a : list RR) : Msg :=
  mkMsg (m_Id m) (m_Response m) (m_Opcode m) (m_Authoritative m) (m_RecursionDesired m)
    (m_CheckingDisabled m) (m_Rcode m) (m_Question m) a (m_Ns m) (m_Extra m).
Definition set_Ns (m : Msg) (ns : list RR) : Msg :=
  mkMsg (m_Id m) (m_Response m) (m_Opcode m) (m_Authoritative m) (m_RecursionDesired m)
    (m_CheckingDisabled m) (m_Rcode m) (m_Question m) (m_Answer m) ns (m_Extra m).
Definition set_Extra (m : Msg) (extra : list RR) : Msg :=
  mkMsg (m_Id m) (m_Response m) (m_Opcode m) (m_Authoritative m) (m_RecursionDesired m)
    (m_CheckingDisabled m) (m_Rcode m) (m_Question m) (m_Answer m) (m_Ns m) extra.

Definition SetRcode (m request : Msg) (rcode : Z) : Msg := set_Rcode (SetReply m request) rcode.

(** [IsEdns0]: the last OPT record of the additional section. *)
Definition IsEdns0 (m : Msg) : option RR :=
  List.find (λ rr, h_Rrtype (rr_Hdr rr) =? TypeOPT) (reverse (m_Extra m)).

(** [SetEdns0]; the DO bit is bit 15 of the TTL field. *)
Definition SetEdns0 (m : Msg) (udpsize : Z) (do_ : bool) : Msg :=
  set_Extra m (m_Extra m ++
    [mkRR (mkHdr "." TypeOPT udpsize (if do_ then 32768 else 0) 0) (RD_OPT [])]).
Definition opt_Do (rr : RR) : bool := Z.testbit (h_Ttl (rr_Hdr rr)) 15.

(** [HandleFailed] *)
Definition HandleFailed (request : Msg) : Msg := SetRcode new_Msg request RcodeServerFailure.

(** ** serve_mux.go *)

Section mux.
Context {H : Type}.
Implicit Types z : gmap string H.

Definition mux_Handle z (pattern : string) (h : H) : res (gmap string H) :=
  if decide (pattern = "") then Panic "dns: invalid pattern"
  else Ret (<[Fqdn pattern := h]> z).

Definition mux_HandleRemove z (pattern : string) : res (gmap string H) :=
  if decide (pattern = "") then Panic "dns: invalid pattern"
  else Ret (delete (Fqdn pattern) z).

(** The loop of [match] over the label offsets of the name; the second
    component is the handler remembered for a DS query. *)
Fixpoint match_loop (fuel : nat) z (q : string) (off : Z) (t : Z) (handler : option H) :
    option H * option H :=
  match fuel with
  | O => (None, handler)
  | S fuel =>
      match z !! sdrop (Z.to_nat off) q with
      | Some h =>
          if t =? TypeDS then
            let '(off, end_) := NextLabel q off in
            if end_ then (None, Some h) else match_loop fuel z q off t (Some h)
          else (Some h, handler)
      | None =>
          let '(off, end_) := NextLabel q off in
          if end_ then (None, handler) else match_loop fuel z q off t handler
      end
  end.

Definition mux_match z (q : string) (t : Z) : option H :=
  let q := ToLower q in
  match match_loop (S (String.length q)) z q 0 t None with
  | (Some h, _) => Some h
  | (None, handler) =>
      match z !! "." with
      | Some h => Some h
      | None => handler
      end
  end.

(** ** What the multiplexer promises *)

(** The handler registered for the longest suffix of the name. *)
Fixpoint best_match z (ls : list string) : option H :=
  match ls with
  | [] => None
  | _ :: ls' =>
      match z !! fqdn_of ls with
      | Some h => Some h
      | None => best_match z ls'
      end
  end.

Lemma match_loop_best fuel z p ls t handler :
  t ≠ TypeDS → ls ≠ [] → Forall plain ls → (length ls ≤ fuel)%nat →
  match_loop fuel z (p +:+ fqdn_of ls) (slen p) t handler = (best_match z ls, handler).
Proof.
  intros Ht. revert p ls. induction fuel as [|fuel IH]; intros p ls Hne Hp Hf.
  { destruct ls; [done|simpl in Hf; lia]. }
  cbn [match_loop]. rewrite sdrop_slen.
  assert (best_match z ls = match z !! fqdn_of ls with
                            | Some h => Some h | None => best_match z (tail ls) end) as ->.
  { by destruct ls. }
  destruct (z !! fqdn_of ls) as [h|].
  { by destruct (Z.eqb_spec t TypeDS). }
  change (fqdn_of ls) with (name_of true ls).
  destruct ls as [|w [|w' ls]]; [done|..].
  - apply Forall_cons in Hp as [Hp _]. by destruct (NextLabel_last p w true Hp) as [j ->].
  - rewrite NextLabel_step by done.
    destruct (shift_prefix p w (w' :: ls) true) as [-> <-]; [done|].
    apply IH; [done|by apply Forall_cons in Hp as [_ ?]|simpl in *; lia].
Qed.

(** The handler registered for the shortest suffix, which gets the DS queries. *)
Fixpoint parent_match z (ls : list string) : option H :=
  match ls with
  | [] => None
  | _ :: ls' =>
      match parent_match z ls' with
      | Some h => Some h
      | None => z !! fqdn_of ls
      end
  end.

Lemma match_loop_parent fuel z p ls handler :
  ls ≠ [] → Forall plain ls → (length ls ≤ fuel)%nat →
  match_loop fuel z (p +:+ fqdn_of ls) (slen p) TypeDS handler =
    (None, match parent_match z ls with Some h => Some h | None => handler end).
Proof.
  revert p ls handler. induction fuel as [|fuel IH]; intros p ls handler Hne Hp Hf.
  { destruct ls; [done|simpl in Hf; lia]. }
  cbn [match_loop]. rewrite sdrop_slen. change (TypeDS =? TypeDS) with true. cbn match.
  assert (parent_match z ls = match parent_match z (tail ls) with
    | Some h => Some h | None => z !! fqdn_of ls end) as -> by (by destruct ls).
  set (found := z !! fqdn_of ls). change (fqdn_of ls) with (name_of true ls).
  destruct ls as [|w [|w' ls]]; [done|..].
  - apply Forall_cons in Hp as [Hp _]. destruct (NextLabel_last p w true Hp) as [j ->].
    cbn. by destruct found.
  - rewrite NextLabel_step by done.
    destruct (shift_prefix p w (w' :: ls) true) as [-> <-]; [done|]. cbn [tail].
    apply Forall_cons in Hp as [_ Hp].
    destruct found; (rewrite IH; [|done|done|simpl in *; lia]); by destruct (parent_match z _).
Qed.
End mux.

(** ** Lemmas on case folding of names *)

Lemma lower_ascii_dot a : Ascii.eqb (lower_ascii a) "." = Ascii.eqb a ".".
Proof. destruct a as [[][][][][][][][]]; reflexivity. Qed.

Lemma lower_ascii_backslash a : Ascii.eqb (lower_ascii a) "\" = Ascii.eqb a "\".
Proof. destruct a as [[][][][][][][][]]; reflexivity. Qed.

Lemma ContainsByte_ToLower s c :
  (∀ a, Ascii.eqb (lower_ascii a) c = Ascii.eqb a c) →
  ContainsByte (ToLower s) c = ContainsByte s c.
Proof. intros Hc. induction s as [|a s IH]; simpl; [done|]. by rewrite Hc, IH. Qed.

Lemma plain_ToLower w : plain w → plain (ToLower w).
Proof.
  intros (H1 & H2 & H3). split_and!.
  - by destruct w.
  - by rewrite (ContainsByte_ToLower _ _ lower_ascii_dot).
  - by rewrite (ContainsByte_ToLower _ _ lower_ascii_backslash).
Qed.

Lemma Forall_plain_ToLower ls : Forall plain ls → Forall plain (ToLower <$> ls).
Proof. intros. apply Forall_fmap. eapply Forall_impl; [done|]. apply plain_ToLower. Qed.

Lemma dotted_name_ToLower ls : ToLower (dotted_name ls) = dotted_name (ToLower <$> ls).
Proof.
  induction ls as [|w ls IH]; [done|]. destruct ls as [|w' ls]; [done|].
  rewrite fmap_cons, !dotted_name_cons, ToLower_app by done. simpl. by rewrite IH.
Qed.

Lemma fqdn_of_ToLower ls : ToLower (fqdn_of ls) = fqdn_of (ToLower <$> ls).
Proof. unfold fqdn_of. by rewrite ToLower_app, dotted_name_ToLower. Qed.

Lemma ToLower_sdrop n s : ToLower (sdrop n s) = sdrop n (ToLower s).
Proof. revert s. induction n; intros [|a s]; simpl; auto. Qed.

Lemma match_loop_insert_other {H} fuel (z : gmap string H) k h q off t handler :
  (∀ n, sdrop n q ≠ k) →
  match_loop fuel (<[k := h]> z) q off t handler = match_loop fuel z q off t handler.
Proof.
  intros Hk. revert off handler. induction fuel as [|fuel IH]; intros off handler; [done|].
  cbn [match_loop]. rewrite lookup_insert_ne by (symmetry; apply Hk).
  destruct (z !! _), (NextLabel q off) as [? []]; try case_match; auto.
Qed.

Lemma seps_ToLower s q : seps (ToLower s) q = seps s q.
Proof.
  revert q. induction s as [|a s IH]; intros q; [done|]. destruct s as [|b s]; [done|].
  set (u := String b s) in *.
  change (ToLower (String a u)) with (String (lower_ascii a) (ToLower u)).
  rewrite !seps_cons, lower_ascii_dot, lower_ascii_backslash by done. by rewrite !IH.
Qed.

(** A handler found for a part of the name that starts at one of its labels. *)
Definition found_in {H} (z : gmap string H) (q : string) (h : H) : Prop :=
  ∃ n, z !! sdrop n q = Some h ∧ (seps (sdrop n q) false ≤ seps q false)%nat.

Lemma match_loop_found {H} fuel (z : gmap string H) q off t handler :
  0 ≤ off → (seps (sdrop (Z.to_nat off) q) false ≤ seps q false)%nat →
  (∀ h, handler = Some h → found_in z q h) →
  ∀ h, (match_loop fuel z q off t handler).1 = Some h ∨
       (match_loop fuel z q off t handler).2 = Some h → found_in z q h.
Proof.
  revert off handler. induction fuel as [|fuel IH]; intros off handler Hoff Hs Hh h;
    cbn [match_loop]; [intros [?|?]; [done|by apply Hh]|].
  assert (Hnext : ∀ handler', (∀ h, handler' = Some h → found_in z q h) →
    let r := (let '(off, end_) := NextLabel q off in
              if end_ then (None, handler') else match_loop fuel z q off t handler') in
    r.1 = Some h ∨ r.2 = Some h → found_in z q h).
  { intros handler' Hh'. pose proof (NextLabel_seps q off Hoff) as Hn.
    destruct (NextLabel q off) as [j []]; cbn; [intros [?|?]; [done|by apply Hh']|].
    destruct Hn as [Hlt Hn]. apply IH; [lia|lia|done]. }
  destruct (z !! sdrop (Z.to_nat off) q) as [h'|] eqn:E; [|by apply Hnext].
  assert (Hf : found_in z q h') by (by exists (Z.to_nat off)).
  destruct (t =? TypeDS).
  - apply Hnext. by intros ? [= <-].
  - cbn. intros [[= <-]|?]; [done|by apply Hh].
Qed.

(** Whatever the name and the type are, the handler is registered for a part
    of the name that starts at a label, or for the root. *)
Lemma mux_match_found {H} (z : gmap string H) q t h :
  mux_match z q t = Some h → found_in z (ToLower q) h ∨ z !! "." = Some h.
Proof.
  unfold mux_match. pose proof (match_loop_found (S (String.length (ToLower q))) z (ToLower q) 0 t None
    ltac:(lia) (Nat.le_refl _) ltac:(done)) as Hf.
  destruct (match_loop _ _ _ _ _ _) as [[h1|] handler].
  - intros [= <-]. left. apply Hf. by left.
  - destruct (z !! "."); [by right|]. intros ->. left. apply Hf. by right.
Qed.

(** ** Properties *)

(** For a query other than DS, the multiplexer finds the handler that is
    registered for the longest suffix of the query name, compared without
    regard to case, and falls back to the root handler only when no suffix is
    registered. *)
Lemma mux_match_best {H} (z : gmap string H) (ls : list string) (t : Z) :
  t ≠ TypeDS → ls ≠ [] → Forall plain ls →
  mux_match z (fqdn_of ls) t =
    match best_match z (ToLower <$> ls) with
    | Some h => Some h
    | None => z !! "."
    end.
Proof.
  intros Ht Hne Hp. unfold mux_match. rewrite fqdn_of_ToLower.
  set (ls' := ToLower <$> ls).
  assert (Hp' : Forall plain ls') by (by apply Forall_plain_ToLower).
  assert (Hne' : ls' ≠ []) by (by destruct ls).
  pose proof (match_loop_best (S (String.length (fqdn_of ls'))) z "" ls' t None Ht Hne' Hp')
    as Hb.
  rewrite sapp_nil_l in Hb. change (slen "") with 0 in Hb.
  rewrite Hb by (change (fqdn_of ls') with (name_of true ls'); apply length_le_name).
  destruct (best_match z ls'); [done|]. by destruct (z !! ".").
Qed.

(** A DS query is for the parent: it goes to the handler of the shortest
    suffix, or to that of the root. *)
Lemma mux_match_parent {H} (z : gmap string H) (ls : list string) :
  ls ≠ [] → Forall plain ls →
  mux_match z (fqdn_of ls) TypeDS =
    match z !! "." with
    | Some h => Some h
    | None => parent_match z (ToLower <$> ls)
    end.
Proof.
  intros Hne Hp. unfold mux_match. rewrite fqdn_of_ToLower.
  set (ls' := ToLower <$> ls).
  assert (Hp' : Forall plain ls') by (by apply Forall_plain_ToLower).
  assert (Hne' : ls' ≠ []) by (by destruct ls).
  pose proof (match_loop_parent (S (String.length (fqdn_of ls'))) z "" ls' None Hne' Hp') as Hb.
  rewrite sapp_nil_l in Hb. change (slen "") with 0 in Hb.
  rewrite Hb by (change (fqdn_of ls') with (name_of true ls'); apply length_le_name).
  by destruct (parent_match z ls').
Qed.

Example mux_match_best_example :
  mux_match (<["example.com." := 1%nat]> (<["com." := 2%nat]> ∅))
    (fqdn_of ["WWW"; "Example"; "com"]) TypeA = Some 1%nat.
Proof. reflexivity. Qed.

(** A zone that is registered under a name with an upper-case letter is
    never reached: registering it changes the answer for no query, because
    the query name is folded to lower case and the registered name is not. *)
Theorem mux_upper_case_unreachable {H} (z : gmap string H) (pattern : string) (h : H) :
  pattern ≠ "" → ToLower (Fqdn pattern) ≠ Fqdn pattern →
  ∃ z', mux_Handle z pattern h = Ret z' ∧ ∀ q t, mux_match z' q t = mux_match z q t.
Proof.
  intros Hp Hup. exists (<[Fqdn pattern := h]> z). split.
  { unfold mux_Handle. by case_decide. }
  intros q t. unfold mux_match.
  assert (Hk : ∀ n, sdrop n (ToLower q) ≠ Fqdn pattern).
  { intros n E. apply Hup. rewrite <-E. by rewrite <-ToLower_sdrop, ToLower_idem. }
  rewrite match_loop_insert_other by done.
  rewrite lookup_insert_ne by (intros E; rewrite E in Hup; done). done.
Qed.

Lemma mux_upper_case_unreachable_witness :
  ∃ z', mux_Handle (∅ : gmap string nat) "Example.com" 1%nat = Ret z' ∧
    ∀ q t, mux_match z' q t = mux_match ∅ q t.
Proof.
  apply mux_upper_case_unreachable; vm_compute; congruence.
Defined.
