(* ===== verification/Health.v ===== *)
(** * health/: the status registry, status files and health references

    The registry maps the name of a status file to its data; the data maps the
    name of a check to a status.  Decoding a file is a parameter, [read_status]:
    the bytes of a file and the parser of [encoding/json] are outside the
    model, what [Service.UnmarshalJSON] does with a decoded number is inside. *)

From S2P Require Import Prelude GoStrings TypeUtil.
Local Open Scope Z_scope.

(** ** health/status.go and health/status_file.go *)

Definition StatusUnknown : Z := 0.
Definition StatusUnhealthy : Z := 1.
Definition StatusHealthy : Z := 2.

Definition StatusType_String (st : Z) : string :=
  if st =? StatusHealthy then "healthy"
  else if st =? StatusUnhealthy then "unhealthy"
  else if st =? StatusUnknown then "unknown"
  else "status=" +:+ Itoa st.

(** [StatusFileData]: a [*Service] is [nil] or holds a status. *)
Abbreviation StatusFileData := (gmap string (option Z)).

Record StatusFile := mkStatusFile {
  sf_filename : string;
  sf_m : option StatusFileData
}.

#[export] Instance StatusFile_eq_dec : EqDecision StatusFile.
Proof. solve_decision. Defined.

Abbreviation registry := (gmap string StatusFile).

(** The registry the package starts with. *)
Definition new_registry : registry := ∅.

Definition registry_Add (r : registry) (name : string) (s : StatusFile) : registry :=
  <[name := s]> r.

Definition NewStatusFile (filename : string) : StatusFile := mkStatusFile filename (Some ∅).

(** What reading and decoding a file gives: an error, or the entries of the
    object, each [null] or an [int64]. *)
Abbreviation file_reader := (string → option (list (string * option Z))).

(** [Service.UnmarshalJSON] converts the decoded [int64] to the 8-bit
    [StatusType]; [null] leaves a nil pointer. *)
Definition Service_UnmarshalJSON (e : string * option Z) : string * option Z :=
  (e.1, uint8 <$> e.2).

(** The later of two entries for the same key wins. *)
Definition decode_status (l : list (string * option Z)) : StatusFileData :=
  foldl (λ m e, <[e.1 := e.2]> m) ∅ (Service_UnmarshalJSON <$> l).

Definition Load (read : file_reader) (s : StatusFile) (filename : string) :
    StatusFile * option string :=
  match read filename with
  | None => (s, Some ("cannot load " +:+ filename))
  | Some l => (mkStatusFile (sf_filename s) (Some (decode_status l)), None)
  end.

Definition Reload (read : file_reader) (s : StatusFile) : StatusFile * option string :=
  if 0 <? slen (sf_filename s) then Load read s (sf_filename s) else (s, None).

Definition StatusFile_Close (s : StatusFile) : StatusFile := mkStatusFile (sf_filename s) None.

Definition StatusFile_GetStatus (s : StatusFile) (check : string) : res Z :=
  match sf_m s with
  | None => Ret StatusUnknown
  | Some m =>
      match m !! check with
      | None => Ret StatusUnknown
      | Some st => deref st
      end
  end.

(** [health.GetStatus] on the global registry. *)
Definition GetStatus (r : registry) (name : string) : res Z :=
  match SplitN2 name "/"%char with
  | [file; check] =>
      match r !! file with
      | None => Ret StatusUnknown
      | Some s => StatusFile_GetStatus s check
      end
  | _ => Ret StatusUnknown
  end.

(** ** Directory listings *)

Record dir_entry := mkEntry { f_Name : string; f_IsDir : bool; f_ModTime : Z }.

(** The test both directory readers make, and the name they derive: a file,
    not hidden, whose name ends in ".json" in any case. *)
Definition json_file (f : dir_entry) : bool :=
  HasSuffix (ToLower (f_Name f)) ".json" && negb (HasPrefix (f_Name f) ".") && negb (f_IsDir f).

Definition base_name (f : dir_entry) : res string :=
  slice_to (f_Name f) (LastIndexByte (f_Name f) "."%char).

Section reload.
(** [path.Join] and the file system. *)
Context (path_Join : string → string → string) (read : file_reader).

(** One file of [reloadDirectory]: the registry, the names seen so far, and
    the last parse error. *)
Definition reload_status_file (dir : string)
    (st : registry * gset string * option string) (f : dir_entry) :
    res (registry * gset string * option string) :=
  let '(r, seen, parseErr) := st in
  if negb (json_file f) then Ret st
  else
    statusName ← base_name f;
    let seen := {[statusName]} ∪ seen in
    match r !! statusName with
    | Some s => Ret (<[statusName := (Reload read s).1]> r, seen, parseErr)
    | None =>
        let s := NewStatusFile (path_Join dir (f_Name f)) in
        let '(s, err) := Reload read s in
        Ret (registry_Add r statusName s, seen,
             match err with Some _ => err | None => parseErr end)
    end.

(** [reloadDirectory]; [None] is a directory that cannot be read.  Entries
    that were not seen are closed and deleted. *)
Definition reloadDirectory (dir : string) (listing : option (list dir_entry)) (r : registry) :
    res (registry * option string) :=
  match listing with
  | None => Ret (r, Some ("could not read '" +:+ dir +:+ "'"))
  | Some files =>
      '(r, seen, parseErr) ← foldM (reload_status_file dir) (r, ∅, None) files;
      Ret (filter (λ e, e.1 ∈ seen) r, parseErr)
  end.
End reload.

(** [DirectoryReader]: the endless loop of reloads, for as many rounds as are
    given, each with the listing and the files it finds; the lines it logs. *)
Fixpoint DirectoryReader (path_Join : string → string → string) (dir : string)
    (rounds : list (option (list dir_entry) * file_reader)) (r : registry) :
    res (registry * list string) :=
  match rounds with
  | [] => Ret (r, [])
  | (listing, read) :: rounds =>
      '(r, err) ← reloadDirectory path_Join read dir listing r;
      '(r, lines) ← DirectoryReader path_Join dir rounds r;
      Ret (r, match err with Some err => ("loading health data: " +:+ err) :: lines | None => lines end)
  end.

(** ** health/health.go *)

Record HealthReference := mkReference { hr_name : string }.

Definition HealthReference_Name (hr : HealthReference) (record : string) : string :=
  if 0 <? slen record then hr_name hr +:+ "/" +:+ record else hr_name hr.

Definition HealthReference_String (hr : HealthReference) : string := hr_name hr.

Definition opt_string `{GoFormat} (v : option value) : res string :=
  match v with Some v => ToString v | None => Ret "" end.

(** [NewReferenceFromMap]: a reference, or the error result. *)
Definition NewReferenceFromMap `{GoFormat} (i : list (string * value)) :
    res (option HealthReference) :=
  ts ← opt_string (obj_get i "type");
  name ← opt_string (obj_get i "name");
  let name := if slen name =? 0 then ts else name in
  if slen name =? 0 then Ret None else Ret (Some (mkReference name)).

(** ** Lemmas *)

Lemma LastIndexByte_app_sep s t c :
  0 ≤ LastIndexByte (s +:+ String c t) c.
Proof.
  induction s as [|a s IH]; rewrite ?sapp_nil_l, ?sapp_cons; cbn [LastIndexByte].
  - destruct (Z.leb_spec 0 (LastIndexByte t c)); [lia|]. by rewrite Ascii.eqb_refl.
  - destruct (Z.leb_spec 0 (LastIndexByte (s +:+ String c t) c)); lia.
Qed.

Lemma lower_dot_inv s u t :
  ToLower s = u +:+ String "." t → ∃ u' t', s = u' +:+ String "." t'.
Proof.
  revert u. induction s as [|a s IH]; intros u E; [by destruct u|].
  destruct u as [|b u].
  - injection E as E _. exists "", s. rewrite sapp_nil_l. f_equal.
    by destruct a as [[][][][][][][][]].
  - injection E as _ E. destruct (IH u E) as (u' & t' & ->). by exists (String a u'), t'.
Qed.

(** A file that passes the test has a base name. *)
Lemma json_file_base f : json_file f = true → ∃ n, base_name f = Ret n.
Proof.
  unfold json_file, base_name, slice_to. intros H. split_bools.
  apply HasSuffix_inv in H as [u E]. apply lower_dot_inv in E as (u' & t' & E).
  pose proof (LastIndexByte_app_sep u' t' "."%char) as Hlo.
  pose proof (LastIndexByte_bound (f_Name f) "."%char) as Hhi. rewrite <-E in Hlo.
  case_decide; [by eexists|lia].
Qed.

(** The name a file is registered under, if it is one of the files read. *)
Definition status_name (f : dir_entry) : option string :=
  if json_file f then match base_name f with Ret n => Some n | _ => None end else None.

Definition status_names (files : list dir_entry) : list string := omap status_name files.

(** The first file of a listing that is registered under a name. *)
Fixpoint first_file (n : string) (files : list dir_entry) : option dir_entry :=
  match files with
  | [] => None
  | f :: files => if decide (status_name f = Some n) then Some f else first_file n files
  end.

Lemma first_file_Some n files : is_Some (first_file n files) ↔ n ∈ status_names files.
Proof.
  induction files as [|f files IH]; cbn [first_file].
  { split; [by intros [? ?]|by intros ?%elem_of_nil]. }
  assert (status_names (f :: files) = option_list (status_name f) ++ status_names files) as ->
    by (unfold status_names; cbn; by destruct (status_name f)).
  rewrite elem_of_app, <-IH. case_decide as E.
  - rewrite E. split; [left; left|by eexists].
  - split; [by right|]. intros [Hin|?]; [|done].
    destruct (status_name f) as [n'|]; [|by apply elem_of_nil in Hin].
    apply list_elem_of_singleton in Hin as <-. done.
Qed.

Section reload_lemmas.
Context (path_Join : string → string → string) (read : file_reader).

Lemma Reload_idem s : (Reload read (Reload read s).1).1 = (Reload read s).1.
Proof.
  unfold Reload, Load. destruct (0 <? slen (sf_filename s)) eqn:E; cbn [fst]; [|by rewrite E].
  destruct (read (sf_filename s)) eqn:Er; cbn [fst sf_filename]; by rewrite E, Er.
Qed.

(** What the registry holds for name [n] after file [f] of that name. *)
Definition entry_after (dir : string) (r : registry) (n : string) (f : dir_entry) : StatusFile :=
  match r !! n with
  | Some s => (Reload read s).1
  | None => (Reload read (NewStatusFile (path_Join dir (f_Name f)))).1
  end.

Lemma reload_step dir r seen err f :
  ∃ err',
    reload_status_file path_Join read dir (r, seen, err) f =
    match status_name f with
    | None => Ret (r, seen, err')
    | Some n => Ret (<[n := entry_after dir r n f]> r, {[n]} ∪ seen, err')
    end.
Proof.
  unfold reload_status_file, status_name. destruct (json_file f) eqn:Ej; [|by eexists].
  destruct (json_file_base f Ej) as [n En]. rewrite En. simpl. unfold entry_after, registry_Add.
  destruct (r !! n); [by eexists|]. destruct (Reload read _) as [s e]. by eexists.
Qed.

(** The entry a listed file leads to: the one that is there already, or a new
    one for the file, after it has been reloaded. *)
Definition entry_for (dir : string) (r : registry) (n : string) (f : dir_entry) : StatusFile :=
  default (NewStatusFile (path_Join dir (f_Name f))) (r !! n).

Lemma entry_after_for dir r n f : entry_after dir r n f = (Reload read (entry_for dir r n f)).1.
Proof. unfold entry_after, entry_for. by destruct (r !! n). Qed.

(** The loop over the files: the names seen are the base names of the files;
    every one of them has an entry afterwards, which has been reloaded; the
    other entries are unchanged. *)
Lemma reload_loop dir files r seen err :
  ∃ r' seen' err',
    foldM (reload_status_file path_Join read dir) (r, seen, err) files = Ret (r', seen', err') ∧
    (∀ n, n ∈ seen' ↔ n ∈ seen ∨ n ∈ status_names files) ∧
    (∀ n, r' !! n =
       match first_file n files with
       | Some f => Some (Reload read (entry_for dir r n f)).1
       | None => r !! n
       end).
Proof.
  revert r seen err. induction files as [|f files IH]; intros r seen err.
  { exists r, seen, err. split_and!; [done|set_solver|done]. }
  cbn [foldM]. destruct (reload_step dir r seen err f) as [err1 ->].
  assert (status_names (f :: files) = option_list (status_name f) ++ status_names files) as ->
    by (unfold status_names; cbn; by destruct (status_name f)).
  cbn [first_file]. destruct (status_name f) as [n0|] eqn:En; cbn [mbind res_bind].
  2: { destruct (IH r seen err1) as (r' & seen' & err' & ? & ? & Hr). exists r', seen', err'.
       split_and!; [done..|]. intros n. by rewrite decide_False. }
  destruct (IH (<[n0 := entry_after dir r n0 f]> r) ({[n0]} ∪ seen) err1)
    as (r' & seen' & err' & E & Hs & Hr).
  exists r', seen', err'. split_and!; [done|intros n; rewrite Hs; set_solver|].
  intros n. rewrite Hr. case_decide as Hn.
  - simplify_eq. rewrite lookup_insert_eq, entry_after_for.
    destruct (first_file n files) as [f'|]; [|done]. unfold entry_for at 1. rewrite lookup_insert_eq.
    cbn [default from_option id]. by rewrite Reload_idem.
  - unfold entry_for. by rewrite lookup_insert_ne by congruence.
Qed.
End reload_lemmas.

Lemma decode_status_other l m k :
  k ∉ l.*1 → foldl (λ m e, <[e.1 := e.2]> m) m l !! k = (m : StatusFileData) !! k.
Proof.
  revert m. induction l as [|[k' v] l IH]; intros m; cbn [foldl fmap list_fmap]; [done|].
  rewrite not_elem_of_cons. intros [Hne Hl]. rewrite IH by done.
  by rewrite lookup_insert_ne.
Qed.

(** When every check occurs once, the decoded data holds its status, reduced
    to eight bits. *)
Lemma decode_status_lookup l k v :
  NoDup l.*1 → (k, v) ∈ l → decode_status l !! k = Some (uint8 <$> v).
Proof.
  intros Hnd Hin. unfold decode_status.
  assert (Hfst : (Service_UnmarshalJSON <$> l).*1 = l.*1).
  { rewrite <-list_fmap_compose. by apply list_fmap_ext. }
  apply list_elem_of_split in Hin as (l1 & l2 & ->).
  rewrite fmap_app, fmap_cons, foldl_app. cbn [foldl].
  rewrite fmap_app, fmap_cons in Hnd. apply NoDup_app in Hnd as (_ & _ & Hnd).
  apply NoDup_cons in Hnd as [Hk _].
  rewrite decode_status_other; [by rewrite lookup_insert_eq|].
  rewrite <-list_fmap_compose. simpl in Hk |- *.
  intros (e & He & Hin)%list_elem_of_fmap. apply Hk. apply list_elem_of_fmap. by exists e.
Qed.

(** *** Registries without null entries *)

(** No file gives [null] for a check. *)
Definition no_nulls (read : file_reader) : Prop :=
  ∀ fn l, read fn = Some l → Forall (λ e, is_Some e.2) l.

Definition status_ok (s : StatusFile) : Prop :=
  ∀ m c v, sf_m s = Some m → m !! c = Some v → is_Some v.

Definition registry_ok (r : registry) : Prop := map_Forall (λ _, status_ok) r.

Lemma GetStatus_ok r name : registry_ok r → ok (GetStatus r name).
Proof.
  intros Hr. unfold GetStatus. repeat case_match; try (by eexists).
  unfold StatusFile_GetStatus. destruct (sf_m _) as [m|] eqn:Em; [|by eexists].
  destruct (m !! _) as [v|] eqn:Ev; [|by eexists].
  edestruct (Hr _ _ ltac:(eassumption) _ _ _ Em Ev) as [st ->]. by eexists.
Qed.

Lemma decode_status_no_null l c v :
  Forall (λ e, is_Some e.2) l → decode_status l !! c = Some v → is_Some v.
Proof.
  unfold decode_status. induction l as [|[k x] l IH] using rev_ind; [done|].
  intros [Hl Hx]%Forall_app. apply Forall_singleton in Hx as [z Hx]. cbn in Hx. subst x.
  rewrite fmap_app, foldl_app. cbn [foldl fmap list_fmap]. cbn.
  intros [[_ <-]|[_ Hv]]%lookup_insert_Some; [by eexists|by apply IH].
Qed.

Lemma Reload_status_ok read s : no_nulls read → status_ok s → status_ok (Reload read s).1.
Proof.
  intros Hn Hs. unfold Reload, Load. case_match; [|done].
  destruct (read (sf_filename s)) as [l|] eqn:E; [|done]. intros m c v [= <-] Hv.
  eapply decode_status_no_null; [by eapply Hn|exact Hv].
Qed.

Lemma reloadDirectory_ok path_Join read dir listing r :
  no_nulls read → registry_ok r →
  ∃ r' err, reloadDirectory path_Join read dir listing r = Ret (r', err) ∧ registry_ok r'.
Proof.
  intros Hn Hr. destruct listing as [files|]; [|by eexists _, _].
  destruct (reload_loop path_Join read dir files r ∅ None) as (r1 & seen & err & E & _).
  unfold reloadDirectory. rewrite E. eexists _, _. split; [reflexivity|].
  apply (foldM_invariant _ (λ st, registry_ok st.1.1)) in E; [|done|].
  { intros n s [Hs _]%map_lookup_filter_Some. by apply (E n). }
  intros [[r0 seen0] err0] f [[r2 seen2] err2] _ Hr0 Hf.
  destruct (reload_step path_Join read dir r0 seen0 err0 f) as [err' Hs].
  destruct (status_name f) as [n|]; rewrite Hs in Hf; injection Hf as <- <- <-; [|done].
  apply map_Forall_insert_2; [|done]. unfold entry_after.
  destruct (r0 !! n) as [s|] eqn:E0; (apply Reload_status_ok; [done|]); [by apply (Hr0 n)|].
  intros m c v [= <-]. by rewrite lookup_empty.
Qed.

(** Whatever the reader finds, as long as no file has a null entry, it goes on
    and every status can be looked up. *)
Lemma DirectoryReader_ok path_Join dir rounds : ∀ r,
  Forall (λ round, no_nulls round.2) rounds → registry_ok r →
  ∃ r' lines, DirectoryReader path_Join dir rounds r = Ret (r', lines) ∧ registry_ok r'.
Proof.
  induction rounds as [|[listing read] rounds IH]; intros r Hall Hr; cbn [DirectoryReader].
  { by eexists _, _. }
  apply Forall_cons in Hall as [Hn Hall].
  destruct (reloadDirectory_ok path_Join read dir listing r Hn Hr) as (r1 & err & -> & Hr1).
  cbn [mbind res_bind]. destruct (IH r1 Hall Hr1) as (r2 & lines & -> & Hr2).
  cbn [mbind res_bind]. by eexists _, _.
Qed.

Lemma new_registry_ok : registry_ok new_registry.
Proof. apply map_Forall_empty. Qed.

(** ** Properties *)

(** [s'] is [s] after its file was read: it holds what the file says, or, when
    the file cannot be read and decoded (or there is none), what it held
    before. *)
Definition reread (read : file_reader) (s s' : StatusFile) : Prop :=
  sf_filename s' = sf_filename s ∧
  sf_m s' = match read (sf_filename s) with
            | Some l => if decide (sf_filename s = "") then sf_m s else Some (decode_status l)
            | None => sf_m s
            end.

Lemma Reload_reread read s : reread read s (Reload read s).1.
Proof.
  unfold reread, Reload, Load. destruct (Z.ltb_spec 0 (slen (sf_filename s))) as [Hl|Hl].
  - destruct (read (sf_filename s)); [|done]. split; [done|]. rewrite decide_False; [done|].
    intros E. rewrite E in Hl. done.
  - split; [done|]. destruct (read (sf_filename s)); [|done]. rewrite decide_True; [done|].
    destruct (sf_filename s) as [|a t]; [done|]. rewrite slen_cons in Hl. pose proof (slen_nonneg t). lia.
Qed.

(** C35: after [reloadDirectory] has read a listing, the registry holds exactly
    the JSON files of the listing.  An entry that was already there holds what
    its file now says, or, when the file cannot be loaded, the data it held
    before.  A name that is new has an entry for the first file with this name,
    with what the file says, or no data when it cannot be loaded.  Every other
    entry is gone. *)
Theorem reloadDirectory_exact (path_Join : string → string → string) (read : file_reader)
    (dir : string) (files : list dir_entry) (r : registry) :
  ∃ r' err, reloadDirectory path_Join read dir (Some files) r = Ret (r', err) ∧
    ∀ n, match first_file n files with
         | None => (n ∉ status_names files) ∧ r' !! n = None
         | Some f => ∃ s', r' !! n = Some s' ∧
             match r !! n with
             | Some s => reread read s s'
             | None => reread read (mkStatusFile (path_Join dir (f_Name f)) (Some ∅)) s'
             end
         end.
Proof.
  destruct (reload_loop path_Join read dir files r ∅ None) as (r' & seen & err & E & Hs & Hr).
  exists (filter (λ e, e.1 ∈ seen) r'), err. unfold reloadDirectory. rewrite E. split; [done|].
  intros n. pose proof (first_file_Some n files) as Hff. specialize (Hr n).
  destruct (first_file n files) as [f|].
  - exists (Reload read (entry_for path_Join dir r n f)).1. split.
    + apply map_lookup_filter_Some. split; [done|]. apply Hs. right. apply Hff. by eexists.
    + unfold entry_for. destruct (r !! n); apply Reload_reread.
  - assert (n ∉ status_names files) as Hn by (rewrite <-Hff; by intros [? ?]). split; [done|].
    apply map_lookup_filter_None. right. intros s _. cbn. rewrite Hs. set_solver.
Qed.

(** A status name without a slash is never healthy: whatever the registry
    holds, the lookup gives [StatusUnknown]. *)
Theorem GetStatus_no_slash (r : registry) (name : string) :
  ContainsByte name "/"%char = false → GetStatus r name = Ret StatusUnknown.
Proof. intros H. unfold GetStatus. by rewrite SplitN2_no_sep. Qed.

Lemma GetStatus_no_slash_witness :
  GetStatus (<["test" := mkStatusFile "test.json" (Some {["10.0.0.1" := Some 2]})]> ∅) "10.0.0.1"
    = Ret StatusUnknown.
Proof. apply GetStatus_no_slash. reflexivity. Defined.

(** The status of check [c] of a loaded file [n] is the number the file
    gives for it, reduced to eight bits; a check that is [null] in the file
    makes the lookup dereference a nil pointer. *)
Theorem GetStatus_loaded (r : registry) (n c fn : string)
    (l : list (string * option Z)) (v : option Z) :
  ContainsByte n "/"%char = false → NoDup l.*1 → (c, v) ∈ l →
  r !! n = Some (mkStatusFile fn (Some (decode_status l))) →
  GetStatus r (n +:+ "/" +:+ c) =
    match v with
    | Some z => Ret (z `mod` 256)
    | None => Panic "nil pointer dereference"
    end.
Proof.
  intros Hn Hnd Hin Hr. unfold GetStatus. rewrite (sapp_cons "/"), sapp_nil_l.
  rewrite SplitN2_app_sep, Hr by done. unfold StatusFile_GetStatus. cbn [sf_m].
  rewrite (decode_status_lookup l c v) by done. by destruct v.
Qed.

Lemma GetStatus_loaded_witness :
  let l := [("ok", Some 2); ("odd", Some 258); ("none", None)] in
  let r : registry := <["test" := mkStatusFile "test.json" (Some (decode_status l))]> ∅ in
  GetStatus r "test/odd" = Ret StatusHealthy ∧
  GetStatus r "test/none" = Panic "nil pointer dereference".
Proof.
  intros l r. assert (Hnd : NoDup l.*1) by (vm_compute; repeat constructor; set_solver).
  split.
  - refine (GetStatus_loaded r "test" "odd" "test.json" l (Some 258) eq_refl Hnd _ _);
      [vm_compute; set_solver|reflexivity].
  - refine (GetStatus_loaded r "test" "none" "test.json" l None eq_refl Hnd _ _);
      [vm_compute; set_solver|reflexivity].
Defined.
