(* ===== verification/HealthTesters.v ===== *)
(** * health/healthtest/healthtesters.go: the health testers

    A tester probes a server, or asks a file or a service about all servers.
    The testers and their builders are translated whole; what the network, the
    file system and the programs answer is the record [outside].  A tester
    that reports on many addresses at once is "global": it writes the map
    [ht_globalMap] of the test it runs for.  The data types of healthtest.go
    are here as well, since the testers need them. *)

From S2P Require Import Prelude GoStrings GoNet Float64 TypeUtil Health.
Local Open Scope Z_scope.

(** ** Data *)

Definition Second : Z := 1000000000.

Record HealthTestParameters := mkParams {
  htp_frequency : Z;
  htp_retryTime : Z;
  htp_timeout : Z;
  htp_retries : Z;
  htp_healthyInitially : bool;
  htp_testName : string;
  htp_global : bool
}.

(** The structs that implement the interface.  The last two fields of a file
    tester are written by its [Test]; [None] is the zero time. *)
Inductive HealthTester :=
| TcpHealthTester (port : Z)
| NtpHealthTester (maxStratum : Z)
| ExecHealthTester (cmd : string)
| FileHealthTester (path lastHash : string) (lastReadTime : option Z)
| NodepingHealthTester (token : string)
| PingdomHealthTester (username password accountEmail appKey : string)
    (stateMap : option (gmap string bool)).

(** [ht_tester] points to a tester in a store, which copies of the test share.
    [ht_running]: the two channels of the test have been made ([start]) and
    not yet closed ([Stop]). *)
Record HealthTest := mkTest {
  ht_params : HealthTestParameters;
  ht_ipAddress : IP;
  ht_healthy : bool;
  ht_running : bool;
  ht_tester : nat;
  ht_globalMap : gmap string bool
}.

#[export] Instance HealthTestParameters_eq_dec : EqDecision HealthTestParameters.
Proof. solve_decision. Defined.
#[export] Instance HealthTester_eq_dec : EqDecision HealthTester.
Proof. solve_decision. Defined.
#[export] Instance HealthTest_eq_dec : EqDecision HealthTest.
Proof. solve_decision. Defined.

Definition setGlobal (ht : HealthTest) (g : gmap string bool) : HealthTest :=
  mkTest (ht_params ht) (ht_ipAddress ht) (ht_healthy ht) (ht_running ht) (ht_tester ht) g.

Definition getGlobal (ht : HealthTest) (k : string) : option bool := ht_globalMap ht !! k.

(** ** What the testers ask for *)

Record http_request := mkRequest {
  rq_Host : string;
  rq_Path : string;
  rq_Query : list (string * string);
  rq_BasicAuth : option (string * string);
  rq_Header : list (string * string)
}.

(** A file as [os.Open], [Stat] and [ReadAll] see it: it does not open, its
    time is not known, it cannot be read, or its time and its contents. *)
Inductive file_state :=
| NoFile
| NoStat
| NoRead (modTime : Z)
| FileBytes (modTime : Z) (bytes : string).

Record outside := mkOutside {
  (** [net.DialTimeout] on a host and port connects. *)
  DialTimeout : string → Z → bool;
  (** The datagram that answers [data] sent to a host and port, if one comes
      before the timeout. *)
  ExchangeUDP : string → list Z → Z → option (list Z);
  (** The program and its arguments end with exit code 0. *)
  RunCommand : string → list string → bool;
  os_file : string → file_state;
  sha256_hex : string → string;
  (** [json.Unmarshal] into a [map[string]bool]. *)
  UnmarshalBools : string → option (gmap string bool);
  (** A GET request: [None] when there is no response, it cannot be read or
      is not an object; otherwise the entries as [range] visits them. *)
  HttpGet : http_request → option (list (string * value))
}.

(** ** tcp *)

Definition Tcp_Test (out : outside) (port : Z) (ht : HealthTest) : bool :=
  DialTimeout out (JoinHostPort (IP_String (ht_ipAddress ht)) (Itoa port))
    (htp_timeout (ht_params ht)).

Definition opt_int `{GoArch} (params : list (string * value)) (k : string) (d : Z) : res Z :=
  match obj_get params k with
  | Some v => ToInt v
  | None => Ret d
  end.

Definition opt_str `{GoFormat} (params : list (string * value)) (k d : string) : res string :=
  match obj_get params k with
  | Some v => ToString v
  | None => Ret d
  end.

Definition newTcpHealthTester `{GoArch} (params : list (string * value)) : res HealthTester :=
  port ← opt_int params "port" 80;
  Ret (TcpHealthTester port).

(** ** ntp *)

(** The request: version 4, client mode, in 48 bytes. *)
Definition ntp_request : list Z := Z.lor (Z.shiftl 4 3) 3 :: replicate 47 0.

(** [conn.Read(data)] overwrites the first bytes of [data]. *)
Definition read_into (data reply : list Z) : list Z :=
  take (length data) reply ++ drop (length reply) data.

Definition Ntp_Test (out : outside) (maxStratum : Z) (ht : HealthTest) : res bool :=
  match ExchangeUDP out (JoinHostPort (IP_String (ht_ipAddress ht)) "123") ntp_request
          (htp_timeout (ht_params ht)) with
  | None => Ret false
  | Some reply =>
      stratum ← index (read_into ntp_request reply) 1;
      if (stratum =? 0) || (uint8 maxStratum <? stratum) then Ret false else Ret true
  end.

Definition newNtpHealthTester `{GoArch} (params : list (string * value)) : res HealthTester :=
  maxStratum ← opt_int params "max_stratum" 3;
  Ret (NtpHealthTester maxStratum).

(** ** exec *)

(** [strings.Replace(s, old, new, -1)] for a non-empty [old]; [skip] bytes
    belong to an occurrence that has been replaced. *)
Fixpoint replace_from (skip : nat) (s old new : string) : string :=
  match s with
  | EmptyString => EmptyString
  | String a s' =>
      match skip with
      | S skip => replace_from skip s' old new
      | O => if HasPrefix s old then new +:+ replace_from (String.length old - 1) s' old new
             else String a (replace_from 0 s' old new)
      end
  end.
Definition ReplaceAll (s old new : string) : string := replace_from 0 s old new.

Definition Exec_Test (out : outside) (cmd : string) (ht : HealthTest) : res bool :=
  let commandSlice := Split (ReplaceAll cmd "{}" (IP_String (ht_ipAddress ht))) " "%char in
  command ← index commandSlice 0;
  Ret (RunCommand out command (drop 1 commandSlice)).

Definition newExecHealthTester `{GoFormat} (params : list (string * value)) : res HealthTester :=
  cmd ← opt_str params "cmd" "echo '%s'";
  Ret (ExecHealthTester cmd).

(** ** file *)

(** The result, the two fields of the tester afterwards, and the map given
    to [setGlobal], if any.  The time and the hash are recorded before the
    contents are parsed. *)
Definition File_Test (out : outside) (path lastHash : string) (lastReadTime : option Z)
    (ht : HealthTest) : bool * string * option Z * HealthTest :=
  if slen path =? 0 then (false, lastHash, lastReadTime, ht)
  else
    match os_file out path with
    | NoFile | NoStat => (false, lastHash, lastReadTime, ht)
    | NoRead modTime =>
        if bool_decide (lastReadTime = Some modTime) then (true, lastHash, lastReadTime, ht)
        else (false, lastHash, lastReadTime, ht)
    | FileBytes modTime bytes =>
        if bool_decide (lastReadTime = Some modTime) then (true, lastHash, lastReadTime, ht)
        else
          let lastReadTime := Some modTime in
          let hash := sha256_hex out bytes in
          if bool_decide (hash = lastHash) then (true, lastHash, lastReadTime, ht)
          else
            match UnmarshalBools out bytes with
            | None => (false, hash, lastReadTime, ht)
            | Some m => (true, hash, lastReadTime, setGlobal ht m)
            end
    end.

Definition set_global (htp : HealthTestParameters) : HealthTestParameters :=
  mkParams (htp_frequency htp) (htp_retryTime htp) (htp_timeout htp) (htp_retries htp)
    (htp_healthyInitially htp) (htp_testName htp) true.

Definition set_healthyInitially (htp : HealthTestParameters) (b : bool) : HealthTestParameters :=
  mkParams (htp_frequency htp) (htp_retryTime htp) (htp_timeout htp) (htp_retries htp)
    b (htp_testName htp) (htp_global htp).

Definition newFileHealthTester `{GoFormat} (params : list (string * value))
    (htp : HealthTestParameters) : res (HealthTester * HealthTestParameters) :=
  path ← opt_str params "path" "";
  Ret (FileHealthTester path "" None, set_global htp).

(** ** nodeping *)

(** One item of the response: only what is down is listed. *)
Definition nodeping_item `{GoFormat} (state : gmap string bool) (item : string * value) :
    res (gmap string bool) :=
  match item.2 with
  | VObj result =>
      match obj_get result "label" with
      | Some ip => host ← ToString ip; Ret (<[host := false]> state)
      | None => Ret state
      end
  | _ => Ret state
  end.

Definition Nodeping_Test `{GoFormat} (out : outside) (token : string) (ht : HealthTest) :
    res (bool * HealthTest) :=
  if slen token =? 0 then Ret (false, ht)
  else
    match HttpGet out (mkRequest "api.nodeping.com" "/api/1/results/current"
                         [("token", token)] None []) with
    | None => Ret (false, ht)
    | Some m => state ← foldM nodeping_item ∅ m; Ret (true, setGlobal ht state)
    end.

Definition newNodepingHealthTester `{GoFormat} (params : list (string * value))
    (htp : HealthTestParameters) : res (HealthTester * HealthTestParameters) :=
  token ← opt_str params "token" "";
  Ret (NodepingHealthTester token, set_global (set_healthyInitially htp true)).

(** ** pingdom *)

Definition defaultPingdomStateMap : gmap string bool :=
  list_to_map [("up", true); ("down", false); ("paused", false)].

(** One element of the array of checks. *)
Definition pingdom_check `{GoFormat} (stateMap : gmap string bool) (state : gmap string bool)
    (checki : value) : res (gmap string bool) :=
  match checki with
  | VObj check =>
      match obj_get check "name", obj_get check "status" with
      | Some ip, Some status =>
          s ← ToString status;
          match stateMap !! s with
          | Some updown => host ← ToString ip; Ret (<[host := updown]> state)
          | None => Ret state
          end
      | _, _ => Ret state
      end
  | _ => Ret state
  end.

Definition Pingdom_Test `{GoFormat} (out : outside)
    (username password accountEmail appKey : string) (stateMap : option (gmap string bool))
    (ht : HealthTest) : res (bool * HealthTest) :=
  if slen username =? 0 then Ret (false, ht)
  else if slen password =? 0 then Ret (false, ht)
  else
    let stateMap := default defaultPingdomStateMap stateMap in
    let header := (if 0 <? slen accountEmail then [("Account-Email", accountEmail)] else [])
                  ++ [("App-Key", appKey)] in
    match HttpGet out (mkRequest "api.pingdom.com" "/api/2.0/checks" []
                         (Some (username, password)) header) with
    | None => Ret (false, ht)
    | Some m =>
        match obj_get m "checks" with
        | Some (VArr checkarray) =>
            state ← foldM (pingdom_check stateMap) ∅ checkarray;
            Ret (true, setGlobal ht state)
        | _ => Ret (false, ht)
        end
    end.

(** The entries of the [state_map] parameter. *)
Definition state_entry (m : gmap string bool) (e : string * value) : res (gmap string bool) :=
  b ← ToBool e.2;
  Ret (<[e.1 := b]> m).

Definition newPingdomHealthTester `{GoFormat} (params : list (string * value))
    (htp : HealthTestParameters) : res (HealthTester * HealthTestParameters) :=
  username ← opt_str params "username" "";
  password ← opt_str params "password" "";
  accountEmail ← opt_str params "account_email" "";
  appKey ← opt_str params "app_key" "";
  stateMap ←
    match obj_get params "state_map" with
    | Some (VObj vv) => Some <$> foldM state_entry ∅ vv
    | _ => Ret None
    end;
  Ret (PingdomHealthTester username password accountEmail appKey stateMap, set_global htp).

(** ** The interface *)

(** The text of a [map[string]bool] in a "%v" verb; its order depends on the
    version of the fmt package. *)
Class GoFormatMap := format_map : option (gmap string bool) → string.

Definition Tcp_String (port : Z) : string := Itoa port.
Definition Ntp_String (maxStratum : Z) : string := Itoa maxStratum.
Definition Exec_String (cmd : string) : string := cmd.
Definition File_String (path : string) : string := path.
Definition Nodeping_String (token : string) : string := token.
Definition Pingdom_String `{GoFormatMap} (u p a k : string) (m : option (gmap string bool)) : string :=
  Join [u; p; a; k; format_map m] "/".

Definition HealthTester_String `{GoFormatMap} (t : HealthTester) : string :=
  match t with
  | TcpHealthTester port => Tcp_String port
  | NtpHealthTester maxStratum => Ntp_String maxStratum
  | ExecHealthTester cmd => Exec_String cmd
  | FileHealthTester path _ _ => File_String path
  | NodepingHealthTester token => Nodeping_String token
  | PingdomHealthTester u p a k m => Pingdom_String u p a k m
  end.

(** [Test]: the result, the tester and the test afterwards. *)
Definition Test `{GoFormat} (out : outside) (t : HealthTester) (ht : HealthTest) :
    res (bool * HealthTester * HealthTest) :=
  match t with
  | TcpHealthTester port => Ret (Tcp_Test out port ht, t, ht)
  | NtpHealthTester maxStratum => b ← Ntp_Test out maxStratum ht; Ret (b, t, ht)
  | ExecHealthTester cmd => b ← Exec_Test out cmd ht; Ret (b, t, ht)
  | FileHealthTester path lastHash lastReadTime =>
      let '(b, h, rt, ht) := File_Test out path lastHash lastReadTime ht in
      Ret (b, FileHealthTester path h rt, ht)
  | NodepingHealthTester token =>
      '(b, ht) ← Nodeping_Test out token ht; Ret (b, t, ht)
  | PingdomHealthTester u p a k m =>
      '(b, ht) ← Pingdom_Test out u p a k m ht; Ret (b, t, ht)
  end.

(** [HealthTesterMap]: the builder of a type; [None] is an unknown type. *)
Definition HealthTesterMap `{GoFormat} `{GoArch} (ts : string) :
    option (list (string * value) → HealthTestParameters →
            res (HealthTester * HealthTestParameters)) :=
  let keep (b : list (string * value) → res HealthTester) :=
    λ params htp, t ← b params; Ret (t, htp) in
  if decide (ts = "tcp") then Some (keep newTcpHealthTester)
  else if decide (ts = "ntp") then Some (keep newNtpHealthTester)
  else if decide (ts = "exec") then Some (keep newExecHealthTester)
  else if decide (ts = "file") then Some newFileHealthTester
  else if decide (ts = "nodeping") then Some newNodepingHealthTester
  else if decide (ts = "pingdom") then Some newPingdomHealthTester
  else None.

(** ** Lemmas *)

Lemma read_into_lookup data reply i :
  (i < length data)%nat →
  read_into data reply !! i = match reply !! i with Some b => Some b | None => data !! i end.
Proof.
  intros Hi. unfold read_into. destruct (decide (i < length reply)%nat) as [Hr|Hr].
  - destruct (lookup_lt_is_Some_2 reply i Hr) as [b Hb]. rewrite Hb.
    rewrite lookup_app_l by (rewrite length_take; lia). by rewrite lookup_take_lt.
  - rewrite (proj2 (lookup_ge_None reply i)) by lia.
    rewrite lookup_app_r by (rewrite length_take; lia).
    rewrite length_take, lookup_drop. f_equal. lia.
Qed.

(** What a check of the Pingdom response says about a host, when its name and
    its status are strings. *)
Definition check_status (stateMap : gmap string bool) (checki : value) : option (string * bool) :=
  match checki with
  | VObj check =>
      match obj_get check "name", obj_get check "status" with
      | Some (VStr host), Some (VStr s) => (λ b, (host, b)) <$> stateMap !! s
      | _, _ => None
      end
  | _ => None
  end.

(** The name and the status of a check are strings, if they are there. *)
Definition textual_check (checki : value) : Prop :=
  match checki with
  | VObj check =>
      (∀ v, obj_get check "name" = Some v → ∃ s, v = VStr s) ∧
      (∀ v, obj_get check "status" = Some v → ∃ s, v = VStr s)
  | _ => True
  end.

Lemma pingdom_check_spec `{GoFormat} stateMap state checki :
  textual_check checki →
  pingdom_check stateMap state checki =
    Ret match check_status stateMap checki with
        | Some (host, b) => <[host := b]> state
        | None => state
        end.
Proof.
  unfold pingdom_check, check_status. destruct checki as [| | | | | |check]; try done.
  intros [Hn Hs]. destruct (obj_get check "name") as [v|]; [|done].
  destruct (Hn v eq_refl) as [host ->]. destruct (obj_get check "status") as [v|]; [|done].
  destruct (Hs v eq_refl) as [s ->]. simpl. by destruct (stateMap !! s).
Qed.

(** The verdict of the last of the entries for [host]. *)
Definition last_verdict (host : string) (l : list (string * bool)) : option bool :=
  snd <$> last (filter (λ e, e.1 = host) l).

Lemma last_verdict_cons host e l :
  last_verdict host (e :: l) =
    match last_verdict host l with
    | Some b => Some b
    | None => if decide (e.1 = host) then Some e.2 else None
    end.
Proof.
  unfold last_verdict. rewrite filter_cons. case_decide.
  - destruct (filter _ l) as [|e' l'] eqn:E; [done|]. rewrite last_cons_cons.
    destruct (last (e' :: l')) eqn:El; [done|]. by apply last_None in El.
  - by destruct (last (filter _ l)).
Qed.

Lemma pingdom_checks_spec `{GoFormat} stateMap checks state :
  Forall textual_check checks →
  ∃ state', foldM (pingdom_check stateMap) state checks = Ret state' ∧
    ∀ host, state' !! host =
      match last_verdict host (omap (check_status stateMap) checks) with
      | Some b => Some b
      | None => state !! host
      end.
Proof.
  intros Hall. revert state. induction Hall as [|c checks Hc Hall IH]; intros state.
  { by exists state. }
  cbn [foldM omap list_omap]. rewrite pingdom_check_spec by done. simpl.
  destruct (check_status stateMap c) as [[h b]|]; [|apply IH].
  destruct (IH (<[h := b]> state)) as (state' & E & Hst). exists state'. split; [done|].
  intros host. rewrite Hst, last_verdict_cons. cbn [fst snd].
  destruct (last_verdict host _); [done|]. case_decide as Hh.
  - subst. by rewrite lookup_insert_eq.
  - by rewrite lookup_insert_ne.
Qed.

(** A service whose token, user name or the like is missing is not asked. *)
Lemma slen_eqb_zero s : (slen s =? 0) = bool_decide (s = "").
Proof.
  destruct s as [|a s]; [done|]. rewrite slen_cons. pose proof (slen_nonneg s).
  rewrite bool_decide_eq_false_2 by done. apply Z.eqb_neq. lia.
Qed.

(** The hosts that Nodeping lists, when the labels are strings. *)
Definition down_host (item : string * value) : option string :=
  match item.2 with
  | VObj result => match obj_get result "label" with Some (VStr h) => Some h | _ => None end
  | _ => None
  end.

Definition textual_item (item : string * value) : Prop :=
  match item.2 with
  | VObj result => ∀ v, obj_get result "label" = Some v → ∃ s, v = VStr s
  | _ => True
  end.

Lemma nodeping_items_spec `{GoFormat} items state :
  Forall textual_item items →
  ∃ state', foldM nodeping_item state items = Ret state' ∧
    ∀ host, state' !! host =
      if decide (host ∈ omap down_host items) then Some false else state !! host.
Proof.
  intros Hall. revert state. induction Hall as [|[k v] items Hc Hall IH]; intros state.
  { exists state. split; [done|]. intros host. rewrite decide_False; [done|set_solver]. }
  assert (E : nodeping_item state (k, v) =
    Ret match down_host (k, v) with Some h => <[h := false]> state | None => state end).
  { unfold nodeping_item, down_host, textual_item in *. cbn [snd] in *.
    destruct v as [| | | | | |result]; try done.
    destruct (obj_get result "label") as [v|]; [|done].
    by destruct (Hc v eq_refl) as [s ->]. }
  cbn [foldM omap list_omap]. rewrite E. cbn [mbind res_bind].
  destruct (down_host (k, v)) as [h|]; [|apply IH].
  destruct (IH (<[h := false]> state)) as (state' & E' & Hst). exists state'. split; [done|].
  intros host. rewrite Hst. destruct (decide (h = host)) as [->|Hne].
  - rewrite lookup_insert_eq. rewrite (decide_True (P := host ∈ host :: _)) by set_solver.
    by case_decide.
  - rewrite lookup_insert_ne by done. f_equal. apply decide_ext. set_solver.
Qed.

(** ** Properties *)

(** An NTP server is healthy exactly when it answers in time and the
    stratum, the second byte of the answer, is between 1 and the configured
    maximum reduced to eight bits (a maximum of 256 admits no server). *)
Theorem Ntp_Test_stratum (out : outside) (maxStratum : Z) (ht : HealthTest) :
  (∀ reply, ExchangeUDP out (JoinHostPort (IP_String (ht_ipAddress ht)) "123") ntp_request
     (htp_timeout (ht_params ht)) = Some reply → Forall is_byte reply) →
  ∃ b, Ntp_Test out maxStratum ht = Ret b ∧
    (b = true ↔ ∃ reply s,
      ExchangeUDP out (JoinHostPort (IP_String (ht_ipAddress ht)) "123") ntp_request
        (htp_timeout (ht_params ht)) = Some reply ∧
      reply !! 1%nat = Some s ∧ 1 ≤ s ≤ maxStratum `mod` 256).
Proof.
  unfold Ntp_Test. destruct (ExchangeUDP out _ _ _) as [reply|]; intros Hb; [|naive_solver].
  specialize (Hb reply eq_refl). unfold index. rewrite decide_True by lia.
  change (Z.to_nat 1) with 1%nat. rewrite read_into_lookup by (simpl; lia).
  destruct (reply !! 1%nat) as [s|] eqn:Hs; cbn [mbind res_bind].
  - assert (is_byte s) as [Hlo Hhi] by (eapply Forall_lookup_1; eauto).
    unfold uint8. change (2 ^ 8) with 256.
    destruct ((s =? 0) || (maxStratum `mod` 256 <? s)) eqn:E.
    + exists false. split; [done|]. split; [done|]. intros (r' & s' & ? & ? & ?); simplify_eq.
      apply orb_true_iff in E as [E|E]; split_bools; lia.
    + exists true. split; [done|]. split; [|done]. intros _. exists reply, s. split_bools.
      split_and!; [done|done|lia|lia].
  - exists false. split; [done|]. naive_solver.
Qed.

(** When Pingdom answers with an array of checks, the test succeeds and the
    map of the test then holds, for every host, the verdict of the last of its
    checks with a status of the state map, and nothing for the other hosts. *)
Theorem Pingdom_Test_verdicts `{GoFormat} (out : outside)
    (username password accountEmail appKey : string) (stateMap : option (gmap string bool))
    (ht : HealthTest) (m : list (string * value)) (checks : list value) :
  username ≠ "" → password ≠ "" →
  (∀ rq, rq_BasicAuth rq = Some (username, password) → HttpGet out rq = Some m) →
  obj_get m "checks" = Some (VArr checks) → Forall textual_check checks →
  ∃ ht', Pingdom_Test out username password accountEmail appKey stateMap ht = Ret (true, ht') ∧
    (∀ host, getGlobal ht' host =
       last_verdict host (omap (check_status (default defaultPingdomStateMap stateMap)) checks)) ∧
    ht_healthy ht' = ht_healthy ht.
Proof.
  intros Hu Hp Hget Hc Hall. unfold Pingdom_Test. rewrite !slen_eqb_zero.
  rewrite !bool_decide_eq_false_2, Hget, Hc by done.
  destruct (pingdom_checks_spec (default defaultPingdomStateMap stateMap) checks ∅ Hall)
    as (state & -> & Hst).
  eexists. split; [done|]. split; [|done]. intros host. unfold getGlobal, setGlobal. simpl.
  rewrite Hst, lookup_empty. by destruct (last_verdict _ _).
Qed.

(** When Nodeping answers, exactly the hosts it lists are down; the others
    are left to the default. *)
Theorem Nodeping_Test_down `{GoFormat} (out : outside) (token : string) (ht : HealthTest)
    (m : list (string * value)) :
  token ≠ "" → (∀ rq, rq_Query rq = [("token", token)] → HttpGet out rq = Some m) →
  Forall textual_item m →
  ∃ ht', Nodeping_Test out token ht = Ret (true, ht') ∧
    ∀ host, getGlobal ht' host = if decide (host ∈ omap down_host m) then Some false else None.
Proof.
  intros Ht Hget Hall. unfold Nodeping_Test. rewrite slen_eqb_zero.
  rewrite bool_decide_eq_false_2, Hget by done.
  destruct (nodeping_items_spec m ∅ Hall) as (state & -> & Hst).
  eexists. split; [done|]. intros host. unfold getGlobal, setGlobal. simpl.
  by rewrite Hst, lookup_empty.
Qed.

(** ** Examples *)

Definition example_params : HealthTestParameters :=
  mkParams (30 * Second) (5 * Second) (5 * Second) 3 false "tcp" false.

Definition example_test : HealthTest := mkTest example_params (IPv4 192 0 2 1) false false 0 ∅.

Definition example_checks : list value :=
  [VObj [("name", VStr "192.0.2.1"); ("status", VStr "down")];
   VObj [("name", VStr "192.0.2.1"); ("status", VStr "up")];
   VObj [("name", VStr "192.0.2.2"); ("status", VStr "unconfirmed_down")]; VNil].

(** Everything answers: the NTP server with stratum 2, the service with the
    checks above, and every file with the same contents. *)
Definition example_outside : outside :=
  mkOutside (λ _ _, true) (λ _ _ _, Some [36; 2; 3; 4]) (λ _ _, true)
    (λ _, FileBytes 7 "{192.0.2.1: true}") (λ s, s) (λ _, Some {["192.0.2.1" := true]})
    (λ _, Some [("checks", VArr example_checks)]).

Lemma Ntp_Test_stratum_witness :
  ∃ b, Ntp_Test example_outside 3 example_test = Ret b ∧
    (b = true ↔ ∃ reply s, Some [36; 2; 3; 4] = Some reply ∧
      reply !! 1%nat = Some s ∧ 1 ≤ s ≤ 3 `mod` 256).
Proof.
  apply (Ntp_Test_stratum example_outside 3 example_test).
  intros reply [= <-]. repeat constructor; done.
Defined.

Lemma example_checks_textual : Forall textual_check example_checks.
Proof. repeat constructor; cbn; intros v [= <-]; by eexists. Qed.

Lemma Pingdom_Test_verdicts_witness :
  ∃ ht' : HealthTest, getGlobal ht' "192.0.2.1" = Some true ∧ getGlobal ht' "192.0.2.2" = None.
Proof.
  destruct (@Pingdom_Test_verdicts (λ _, "") example_outside "user" "secret" "" "" None
    example_test [("checks", VArr example_checks)] example_checks) as (ht' & _ & Hg & _);
    [done|done|done|reflexivity|apply example_checks_textual|].
  exists ht'. rewrite !Hg. split; reflexivity.
Defined.

Example exec_substitutes :
  Split (ReplaceAll "check {} -p 80 {}" "{}" "192.0.2.1") " "%char
    = ["check"; "192.0.2.1"; "-p"; "80"; "192.0.2.1"].
Proof. reflexivity. Qed.
