(* ===== verification/HealthTest.v ===== *)
(** * health/healthtest/healthtest.go: health tests

    A test polls its tester at intervals and keeps a verdict.  Three goroutines
    meet in a running test: the loop [run], the polls it starts, and the caller
    of [Stop].  [proc_step] is the relation of their steps; channels are
    unbuffered, so a send and its receive are one step.  Testers live in a
    store, because the copies of a test share them.  The runner, which shares
    running tests, is in HealthRunner. *)

From S2P Require Import Prelude GoRuntime GoStrings GoNet Float64 TypeUtil Health HealthTesters.
Local Open Scope Z_scope.

(** ** Tests *)

Definition defaultHealthTestParameters : HealthTestParameters :=
  mkParams (30 * Second) (5 * Second) (5 * Second) 3 false "" false.

(** At least a second. *)
Definition at_least_second (d : Z) : Z := if d <? Second then Second else d.

Definition NewTest (ipAddress : IP) (htp : HealthTestParameters) (tester : nat) : HealthTest :=
  mkTest (mkParams (at_least_second (htp_frequency htp)) (at_least_second (htp_retryTime htp))
            (at_least_second (htp_timeout htp)) (htp_retries htp) (htp_healthyInitially htp)
            (htp_testName htp) (htp_global htp))
    ipAddress (htp_healthyInitially htp) false tester ∅.

Definition copy (ht : HealthTest) (ipAddress : IP) : HealthTest :=
  NewTest ipAddress (ht_params ht) (ht_tester ht).

Definition bool_text (b : bool) : string := if b then "true" else "false".

(** The "%v" of the parameters: the durations are not exported, so they print
    as plain numbers. *)
Definition params_text (htp : HealthTestParameters) : string :=
  "{" +:+ Join [Itoa (htp_frequency htp); Itoa (htp_retryTime htp); Itoa (htp_timeout htp);
                Itoa (htp_retries htp); bool_text (htp_healthyInitially htp);
                htp_testName htp; bool_text (htp_global htp)] " " +:+ "}".

Definition HealthTest_String `{GoFormatMap} (store : list HealthTester) (ht : HealthTest) :
    res string :=
  let ip := if htp_global (ht_params ht) then "" else IP_String (ht_ipAddress ht) in
  t ← deref (store !! ht_tester ht);
  Ret (ip +:+ "/" +:+ params_text (ht_params ht) +:+ "/" +:+ HealthTester_String t).

Definition setHealthy (ht : HealthTest) (h : bool) : HealthTest :=
  mkTest (ht_params ht) (ht_ipAddress ht) h (ht_running ht) (ht_tester ht) (ht_globalMap ht).

Definition set_running (ht : HealthTest) (b : bool) : HealthTest :=
  mkTest (ht_params ht) (ht_ipAddress ht) (ht_healthy ht) b (ht_tester ht) (ht_globalMap ht).

Definition set_ipAddress (ht : HealthTest) (ip : IP) : HealthTest :=
  mkTest (ht_params ht) ip (ht_healthy ht) (ht_running ht) (ht_tester ht) (ht_globalMap ht).

(** ** The loop [run] *)

(** Its variables; [None] is the zero [pollStart]: no poll is under way. *)
Record run_state := mkRun {
  rs_nextPoll : Z;
  rs_pollStart : option Z;
  rs_failCount : Z
}.

(** The random delay before the first poll; [rand.Int63n] has the contract of
    [rand.Intn]. *)
Definition first_delay `{GoRand rng} (ht : HealthTest) (r : rng) : res (Z * rng) :=
  '(d, r) ← Intn (htp_frequency (ht_params ht)) r;
  if ht_healthy ht then Ret (d, r) else Intn (htp_retryTime (ht_params ht)) r.

Definition run_begin `{GoRand rng} (ht : HealthTest) (now : Z) (r : rng) :
    res (run_state * rng) :=
  '(d, r) ← first_delay ht r;
  Ret (mkRun (now + d) None 0, r).

(** The zero [time.Time], in nanoseconds of the Unix epoch. *)
Definition zero_time : Z := -62135596800 * Second.

(** The case of the [select] that receives the result of a poll. *)
Definition on_result (ht : HealthTest) (rs : run_state) (h : bool) : HealthTest * run_state :=
  let pollStart := default zero_time (rs_pollStart rs) in
  let nextPoll := pollStart + htp_frequency (ht_params ht) in
  if h then (setHealthy ht true, mkRun nextPoll None 0)
  else
    let failCount := rs_failCount rs +! 1 in
    if htp_retries (ht_params ht) <=? failCount
    then (setHealthy ht false,
          mkRun (pollStart + htp_retryTime (ht_params ht)) None failCount)
    else (ht, mkRun nextPoll None failCount).

(** A test with its loop and its polls: a poll runs the tester ([None]), then
    waits to send its result. *)
Record proc := mkProc {
  p_test : HealthTest;
  p_loop : run_state;
  p_pollers : list (option bool)
}.

Definition start `{GoRand rng} (ht : HealthTest) (now : Z) (r : rng) : res (proc * rng) :=
  let ht := set_running ht true in
  '(rs, r) ← run_begin ht now r;
  Ret (mkProc ht rs [], r).

(** Steps of a test that has been started, on the store of testers and the
    test.  The label is the result the loop receives in the step, if any.
    - The timer fires: the loop starts a poll.  The channel of the timer is
      only selected on when no poll is under way.
    - A poll has run the tester.
    - The loop receives the result of a poll.
    - The loop receives the request of [Stop], which is only selected on when
      no poll is under way, and ends; [Stop] closes the channels. *)
Inductive proc_step `{GoFormat} :
    list HealthTester * proc → option bool → list HealthTester * proc → Prop :=
| step_poll store ht nextPoll failCount pollers now :
    ht_running ht = true → nextPoll ≤ now →
    proc_step (store, mkProc ht (mkRun nextPoll None failCount) pollers) None
      (store, mkProc ht (mkRun nextPoll (Some now) failCount) (pollers ++ [None]))
| step_test store ht rs pollers i out t h t' ht' :
    pollers !! i = Some None → store !! ht_tester ht = Some t →
    Test out t ht = Ret (h, t', ht') →
    proc_step (store, mkProc ht rs pollers) None
      (<[ht_tester ht := t']> store, mkProc ht' rs (<[i := Some h]> pollers))
| step_result store ht rs pollers i h :
    ht_running ht = true → pollers !! i = Some (Some h) →
    proc_step (store, mkProc ht rs pollers) (Some h)
      (store, mkProc (on_result ht rs h).1 (on_result ht rs h).2 (delete i pollers))
| step_stop store ht nextPoll failCount pollers :
    ht_running ht = true →
    proc_step (store, mkProc ht (mkRun nextPoll None failCount) pollers) None
      (store, mkProc (set_running ht false) (mkRun nextPoll None failCount) pollers).

(** Runs, with the results the loop has received. *)
Inductive proc_run `{GoFormat} (s : list HealthTester * proc) :
    list bool → list HealthTester * proc → Prop :=
| run_refl : proc_run s [] s
| run_step l s' r s'' :
    proc_run s l s' → proc_step s' r s'' → proc_run s (l ++ option_list r) s''.

(** ** [NewFromMap] *)

Definition set_testName (htp : HealthTestParameters) (ts : string) : HealthTestParameters :=
  mkParams (htp_frequency htp) (htp_retryTime htp) (htp_timeout htp) (htp_retries htp)
    (htp_healthyInitially htp) ts (htp_global htp).

Definition set_frequency (htp : HealthTestParameters) (d : Z) : HealthTestParameters :=
  mkParams d (htp_retryTime htp) (htp_timeout htp) (htp_retries htp)
    (htp_healthyInitially htp) (htp_testName htp) (htp_global htp).

Definition set_retryTime (htp : HealthTestParameters) (d : Z) : HealthTestParameters :=
  mkParams (htp_frequency htp) d (htp_timeout htp) (htp_retries htp)
    (htp_healthyInitially htp) (htp_testName htp) (htp_global htp).

Definition set_retries (htp : HealthTestParameters) (n : Z) : HealthTestParameters :=
  mkParams (htp_frequency htp) (htp_retryTime htp) (htp_timeout htp) n
    (htp_healthyInitially htp) (htp_testName htp) (htp_global htp).

(** One entry of the loop of [NewFromMap]; "timeout" sets the retry time. *)
Definition read_param `{GoArch} (htp : HealthTestParameters) (e : string * value) :
    res HealthTestParameters :=
  let '(k, v) := e in
  if decide (k = "frequency") then d ← ToInt v; Ret (set_frequency htp (d *! Second))
  else if decide (k = "retry_time") then d ← ToInt v; Ret (set_retryTime htp (d *! Second))
  else if decide (k = "timeout") then d ← ToInt v; Ret (set_retryTime htp (d *! Second))
  else if decide (k = "retries") then n ← ToInt v; Ret (set_retries htp n)
  else if decide (k = "healthy_initially") then b ← ToBool v; Ret (set_healthyInitially htp b)
  else Ret htp.

(** A missing entry is a nil interface, which [ToString] cannot convert. *)
Definition NewFromMap `{GoFormat} `{GoArch} (store : list HealthTester)
    (i : list (string * value)) : res (list HealthTester * (string + HealthTest)) :=
  ts ← ToString (default VNil (obj_get i "type"));
  if slen ts =? 0 then Ret (store, inl "type required")
  else
    match HealthTesterMap ts with
    | None => Ret (store, inl ("Bad health test type '" +:+ ts +:+ "'"))
    | Some nh =>
        '(h, htp) ← nh i (set_testName defaultHealthTestParameters ts);
        htp ← foldM read_param htp i;
        Ret (store ++ [h], inr (NewTest [] htp (length store)))
    end.

(** ** Lemmas on tests *)

Definition duration_ok (d : Z) : Prop := Second ≤ d ≤ max_int.

(** What [NewTest] establishes: no interval is shorter than a second. *)
Record params_ok (htp : HealthTestParameters) : Prop := {
  po_frequency : duration_ok (htp_frequency htp);
  po_retryTime : duration_ok (htp_retryTime htp);
  po_timeout : duration_ok (htp_timeout htp)
}.

Definition int_params (htp : HealthTestParameters) : Prop :=
  int_range (htp_frequency htp) ∧ int_range (htp_retryTime htp) ∧ int_range (htp_timeout htp).

Lemma at_least_second_ok d : int_range d → duration_ok (at_least_second d).
Proof.
  unfold duration_ok, at_least_second, int_range, max_int, Second. intros [_ H].
  destruct (Z.ltb_spec d 1000000000); lia.
Qed.

Lemma at_least_second_id d : duration_ok d → at_least_second d = d.
Proof. unfold duration_ok, at_least_second. intros [? ?]. by destruct (Z.ltb_spec d Second); [lia|]. Qed.

Lemma NewTest_ok ip htp t : int_params htp → params_ok (ht_params (NewTest ip htp t)).
Proof. intros (? & ? & ?). split; by apply at_least_second_ok. Qed.

(** A copy of a test has its parameters. *)
Lemma copy_params ht ip : params_ok (ht_params ht) → ht_params (copy ht ip) = ht_params ht.
Proof.
  intros [? ? ?]. unfold copy, NewTest. cbn [ht_params]. rewrite !at_least_second_id by done.
  by destruct (ht_params ht).
Qed.

Lemma run_begin_ok `{GoRand rng} ht now (r : rng) :
  params_ok (ht_params ht) →
  ∃ rs r', run_begin ht now r = Ret (rs, r') ∧ rs_pollStart rs = None ∧ rs_failCount rs = 0 ∧
    now ≤ rs_nextPoll rs < now + Z.max (htp_frequency (ht_params ht)) (htp_retryTime (ht_params ht)).
Proof.
  intros [[Hf _] [Hr _] _]. unfold run_begin, first_delay, Second in *.
  destruct (Intn_ok (htp_frequency (ht_params ht)) r) as (d & r1 & -> & Hd); [lia|]. simpl.
  destruct (ht_healthy ht); simpl.
  - do 2 eexists. split_and!; [done..| |]; simpl; lia.
  - destruct (Intn_ok (htp_retryTime (ht_params ht)) r1) as (d' & r2 & -> & Hd'); [lia|]. simpl.
    do 2 eexists. split_and!; [done..| |]; simpl; lia.
Qed.

(** A tester writes nothing of a test but the map of a global test, and only
    the cache of a file tester changes. *)
Lemma Test_frame `{GoFormat} `{GoFormatMap} out t ht b t' ht' :
  Test out t ht = Ret (b, t', ht') →
  (∃ g, ht' = setGlobal ht g) ∧ HealthTester_String t' = HealthTester_String t.
Proof.
  assert (Hid : ∃ g, ht = setGlobal ht g) by (exists (ht_globalMap ht); by destruct ht).
  destruct t; simpl; intros E; res_inv; simplify_eq; try done.
  - destruct (File_Test _ _ _ _ _) as [[[b0 h0] rt0] ht0] eqn:EF. simplify_eq. split; [|done].
    unfold File_Test in EF. repeat case_match; simplify_eq; first [done | eexists; reflexivity].
  - destruct r as [b' ht1]. simplify_eq. split; [|done]. unfold Nodeping_Test in Hr.
    repeat case_match; res_inv; simplify_eq; first [done | eexists; reflexivity].
  - destruct r as [b' ht1]. simplify_eq. split; [|done]. unfold Pingdom_Test in Hr.
    repeat case_match; res_inv; simplify_eq; first [done | eexists; reflexivity].
Qed.

(** ** Lemmas on running tests *)

Section process.
Context `{GoFormat}.

(** A poll is under way exactly when [pollStart] is set, and then there is
    exactly one; a stopped test has none. *)
Definition proc_inv (p : proc) : Prop :=
  match rs_pollStart (p_loop p) with
  | None => p_pollers p = []
  | Some _ => ht_running (p_test p) = true ∧ ∃ x, p_pollers p = [x]
  end.

Lemma proc_step_inv s r s' : proc_step s r s' → proc_inv s.2 → proc_inv s'.2.
Proof.
  unfold proc_inv.
  destruct 1 as [store ht np fc pollers now Hrun|store ht rs pollers i out t h t' ht' Hi Ht HT
                |store ht rs pollers i h Hrun Hi|store ht np fc pollers Hrun]; cbn.
  - intros ->. split; [done|]. by exists None.
  - destruct (rs_pollStart rs); [|by intros ->].
    intros [Hrun [x ->]]. apply list_lookup_singleton_Some in Hi as [-> _].
    destruct (@Test_frame _ (λ _, "") _ _ _ _ _ _ HT) as [[g ->] _]. split; [done|]. by exists (Some h).
  - intros Hinv. assert (rs_pollStart (on_result ht rs h).2 = None) as ->.
    { unfold on_result. destruct h; [done|]. by destruct (_ <=? _). }
    destruct (rs_pollStart rs); [|by subst].
    destruct Hinv as [_ [x ->]]. by apply list_lookup_singleton_Some in Hi as [-> _].
  - done.
Qed.

Lemma proc_run_inv s l s' : proc_run s l s' → proc_inv s.2 → proc_inv s'.2.
Proof. induction 1; eauto using proc_step_inv. Qed.

(** *** The verdict as a function of the results *)

(** The number of failures since the last success. *)
Definition failures (l : list bool) : Z :=
  foldl (λ n (h : bool), if h then 0 else n + 1) 0 l.

(** Unhealthy after enough failures in a row (at least one), healthy after a
    success, and the initial verdict until there is a reason to change it. *)
Definition verdict (retries : Z) (init : bool) (l : list bool) : bool :=
  if (0 <? failures l) && (retries <=? failures l) then false
  else if bool_decide (true ∈ l) then true else init.

Lemma failures_snoc l h : failures (l ++ [h]) = if h then 0 else failures l + 1.
Proof. unfold failures. by rewrite foldl_app. Qed.

Lemma failures_bound l : 0 ≤ failures l ≤ len l.
Proof.
  induction l as [|h l IH] using rev_ind; [done|]. rewrite failures_snoc. unfold len in *.
  rewrite length_app. simpl. destruct h; lia.
Qed.

Lemma verdict_snoc_false retries init l :
  failures l + 1 < retries → verdict retries init (l ++ [false]) = verdict retries init l.
Proof.
  intros Hlt. unfold verdict. rewrite failures_snoc.
  destruct (Z.leb_spec retries (failures l + 1)) as [|_]; [lia|].
  destruct (Z.leb_spec retries (failures l)) as [|_]; [lia|]. rewrite !andb_false_r.
  assert (true ∈ l ++ [false] ↔ true ∈ l) as Hin by set_solver.
  by rewrite (bool_decide_ext _ _ Hin).
Qed.

(** The fields of a test and its loop, after the results [l]. *)
Definition follows (ht0 : HealthTest) (l : list bool) (p : proc) : Prop :=
  ht_params (p_test p) = ht_params ht0 ∧ ht_tester (p_test p) = ht_tester ht0 ∧
  rs_failCount (p_loop p) = failures l ∧
  ht_healthy (p_test p) = verdict (htp_retries (ht_params ht0)) (ht_healthy ht0) l.

Lemma on_result_follows ht0 l ht rs pollers h :
  len l < max_int → follows ht0 l (mkProc ht rs pollers) →
  follows ht0 (l ++ [h]) (mkProc (on_result ht rs h).1 (on_result ht rs h).2 (delete 0%nat pollers)).
Proof.
  intros Hlen (Hp & Ht & Hfc & Hh). cbn in *. unfold follows, on_result. cbn.
  rewrite failures_snoc, Hp, Hfc.
  assert (wrap64 (failures l + 1) = failures l + 1) as ->.
  { apply wrap64_id. pose proof (failures_bound l). unfold int_range, min_int, max_int in *. lia. }
  destruct h; cbn.
  - split_and!; [done..|]. unfold verdict. rewrite failures_snoc.
    by rewrite bool_decide_eq_true_2 by set_solver.
  - destruct (Z.leb_spec (htp_retries (ht_params ht0)) (failures l + 1)) as [Hle|Hlt]; cbn.
    + split_and!; [done..|]. unfold verdict. rewrite failures_snoc.
      pose proof (failures_bound l). destruct (Z.ltb_spec 0 (failures l + 1)); [|lia].
      by destruct (Z.leb_spec (htp_retries (ht_params ht0)) (failures l + 1)); [|lia].
    + split_and!; [done..|]. rewrite verdict_snoc_false by done. exact Hh.
Qed.

Lemma follows_pollers ht0 l ht rs pollers pollers' :
  follows ht0 l (mkProc ht rs pollers) → follows ht0 l (mkProc ht rs pollers').
Proof. done. Qed.

Lemma proc_run_follows store p l s' :
  proc_run (store, p) l s' → rs_failCount (p_loop p) = 0 → len l ≤ max_int →
  follows (p_test p) l s'.2.
Proof.
  intros Hrun Hfc. induction Hrun as [|l s1 r s2 Hrun IH Hstep]; intros Hlen.
  { split_and!; done. }
  unfold len in *. rewrite length_app in Hlen.
  specialize (IH ltac:(lia)).
  destruct Hstep as [st ht np fc pollers now Hr|st ht rs pollers i out t h t' ht' Hi Ht HT
                    |st ht rs pollers i h Hr Hi|st ht np fc pollers Hr];
    cbn [option_list] in *; rewrite ?app_nil_r; cbn [snd] in *.
  - exact IH.
  - destruct (@Test_frame _ (λ _, "") _ _ _ _ _ _ HT) as [[g ->] _]. exact IH.
  - eapply follows_pollers, on_result_follows; [|exact IH]. unfold len. simpl in Hlen. lia.
  - exact IH.
Qed.
End process.

Lemma start_spec `{GoRand rng} ht now (r r' : rng) p :
  start ht now r = Ret (p, r') →
  p_test p = set_running ht true ∧ p_pollers p = [] ∧
  rs_pollStart (p_loop p) = None ∧ rs_failCount (p_loop p) = 0.
Proof.
  unfold start, run_begin. intros E. res_inv. destruct r0 as [rs r0].
  res_inv. destruct r1 as [d r1]. simplify_eq. done.
Qed.

Lemma start_inv `{GoRand rng} ht now (r r' : rng) p : start ht now r = Ret (p, r') → proc_inv p.
Proof. intros (_ & Hp & Hs & _)%start_spec. unfold proc_inv. by rewrite Hs. Qed.

Lemma start_ok `{GoRand rng} ht now (r : rng) :
  params_ok (ht_params ht) → ∃ p r', start ht now r = Ret (p, r').
Proof.
  intros Hp. unfold start.
  destruct (run_begin_ok (set_running ht true) now r Hp) as (rs & r' & -> & _). by do 2 eexists.
Qed.

(** ** Lemmas on the keys of tests *)

Section keys.
Context `{GoFormatMap}.

Definition tester_names : list string := ["tcp"; "ntp"; "exec"; "file"; "nodeping"; "pingdom"].

(** A test as [NewFromMap] and [copy] make it. *)
Record test_ok (store : list HealthTester) (ht : HealthTest) : Prop := {
  to_params : params_ok (ht_params ht);
  to_tester : is_Some (store !! ht_tester ht);
  to_name : htp_testName (ht_params ht) ∈ tester_names;
  to_ip : Forall is_byte (ht_ipAddress ht)
}.

(** The names of the testers of a store are kept. *)
Definition store_le (store store' : list HealthTester) : Prop :=
  ∀ i t, store !! i = Some t →
    ∃ t', store' !! i = Some t' ∧ HealthTester_String t' = HealthTester_String t.

Lemma String_store store store' ht key :
  store_le store store' → HealthTest_String store ht = Ret key →
  HealthTest_String store' ht = Ret key.
Proof.
  unfold HealthTest_String. intros Hle E.
  destruct (store !! ht_tester ht) as [t|] eqn:Ht; [|done].
  destruct (Hle _ _ Ht) as (t' & -> & Hs). simpl in *. by rewrite Hs.
Qed.

Lemma String_ok store ht : is_Some (store !! ht_tester ht) → ok (HealthTest_String store ht).
Proof. unfold HealthTest_String. intros [t ->]. by eexists. Qed.

(** The key depends on the parameters, the tester, and, unless the test is
    global, the address. *)
Lemma String_same store ht ht' :
  ht_params ht' = ht_params ht → ht_tester ht' = ht_tester ht →
  (htp_global (ht_params ht) = true ∨ ht_ipAddress ht' = ht_ipAddress ht) →
  HealthTest_String store ht' = HealthTest_String store ht.
Proof.
  unfold HealthTest_String. intros -> -> [->| ->]; [done|]. done.
Qed.

Lemma store_le_refl store : store_le store store.
Proof. intros i t ?. by exists t. Qed.

Lemma store_le_app store k : store_le store (store ++ k).
Proof. intros i t Hi. exists t. split; [|done]. by apply lookup_app_l_Some. Qed.

Lemma store_le_insert store i t t' :
  store !! i = Some t → HealthTester_String t' = HealthTester_String t →
  store_le store (<[i := t']> store).
Proof.
  intros Hi Hs j tj Hj. destruct (decide (i = j)) as [->|Hne].
  - exists t'. rewrite list_lookup_insert_eq by (by eapply lookup_lt_Some).
    split; [done|]. congruence.
  - exists tj. by rewrite list_lookup_insert_ne.
Qed.

Lemma proc_step_frame `{GoFormat} store p r store' p' :
  proc_step (store, p) r (store', p') →
  store_le store store' ∧ ht_params (p_test p') = ht_params (p_test p) ∧
  ht_tester (p_test p') = ht_tester (p_test p) ∧
  ht_ipAddress (p_test p') = ht_ipAddress (p_test p).
Proof.
  intros Hs. inversion Hs as [|? ? ? ? ? ? ? ? ? ? Hi Ht HT| |]; subst; cbn.
  - split_and!; [apply store_le_refl|done..].
  - apply Test_frame in HT as [[g ->] HT]. split_and!; [by eapply store_le_insert|done..].
  - split; [apply store_le_refl|]. unfold on_result. destruct h; [done|]. by destruct (_ <=? _).
  - split_and!; [apply store_le_refl|done..].
Qed.

Context `{GoFormat} `{GoArch}.

(** [NewFromMap] fails without a trace, or adds the tester it builds. *)
Lemma NewFromMap_cases store i store' x :
  NewFromMap store i = Ret (store', x) →
  (store' = store ∧ ∃ err, x = inl err) ∨
  ∃ ts nh h htp0 htp, HealthTesterMap ts = Some nh ∧
    nh i (set_testName defaultHealthTestParameters ts) = Ret (h, htp0) ∧
    foldM read_param htp0 i = Ret htp ∧
    store' = store ++ [h] ∧ x = inr (NewTest [] htp (length store)).
Proof.
  unfold NewFromMap. intros E. apply bind_Ret in E as (ts & _ & E).
  destruct (slen ts =? 0); [simplify_eq; left; eauto|].
  destruct (HealthTesterMap ts) as [nh|] eqn:Enh; [|simplify_eq; left; eauto].
  apply bind_Ret in E as ([h htp0] & Eh & E). apply bind_Ret in E as (htp & Ep & E).
  simplify_eq. right. by exists ts, nh, h, htp0, htp.
Qed.

Lemma NewFromMap_store store i store' x :
  NewFromMap store i = Ret (store', x) → store_le store store'.
Proof.
  intros [[-> _]|(ts & nh & h & htp0 & htp & _ & _ & _ & -> & _)]%NewFromMap_cases.
  - apply store_le_refl.
  - apply store_le_app.
Qed.

End keys.

(** ** Lemmas on the keys *)

Lemma Itoa_inj z z' : Itoa z = Itoa z' → z = z'.
Proof.
  assert (Hneg : ∀ a b, 0 ≤ b → String "-" a ≠ put_digits (digit_fuel b) b "").
  { intros a b Hb. destruct (put_digits_head (digit_fuel b) b "" Hb
      ltac:(unfold digit_fuel; lia)) as (d & s & Hd & ->). intros [= Hc _].
    assert (d = 0 ∨ d = 1 ∨ d = 2 ∨ d = 3 ∨ d = 4 ∨ d = 5 ∨ d = 6 ∨ d = 7 ∨ d = 8 ∨ d = 9)
      as Hcases by lia.
    destruct_or! Hcases; subst; discriminate Hc. }
  unfold Itoa. destruct (Z.ltb_spec z 0), (Z.ltb_spec z' 0); intros E.
  - assert (E' : put_digits (digit_fuel (- z)) (- z) "" = put_digits (digit_fuel (- z')) (- z') "")
      by congruence.
    apply (f_equal read_nonempty) in E'. rewrite !read_nonempty_put in E' by lia.
    apply (inj Some) in E'. lia.
  - by destruct (Hneg _ z' ltac:(done) E).
  - by destruct (Hneg _ z ltac:(done) (eq_sym E)).
  - apply (f_equal read_nonempty) in E. rewrite !read_nonempty_put in E by lia. congruence.
Qed.

Lemma bool_text_inj b b' : bool_text b = bool_text b' → b = b'.
Proof. by destruct b, b'. Qed.

(** The words of the parameters. *)
Definition param_words (htp : HealthTestParameters) : list string :=
  [Itoa (htp_frequency htp); Itoa (htp_retryTime htp); Itoa (htp_timeout htp);
   Itoa (htp_retries htp); bool_text (htp_healthyInitially htp); htp_testName htp;
   bool_text (htp_global htp)].

Lemma param_words_inj htp htp' : param_words htp = param_words htp' → htp = htp'.
Proof.
  destruct htp, htp'. unfold param_words. cbn. intros [= E1 E2 E3 E4 E5 E6 E7].
  by rewrite (Itoa_inj _ _ E1), (Itoa_inj _ _ E2), (Itoa_inj _ _ E3), (Itoa_inj _ _ E4),
    (bool_text_inj _ _ E5), E6, (bool_text_inj _ _ E7).
Qed.

(** None of the separators occurs in a word. *)
Lemma param_words_no htp (c : ascii) :
  htp_testName htp ∈ tester_names → c ∈ [" "%char; "}"%char; "/"%char] →
  Forall (λ w, ContainsByte w c = false) (param_words htp).
Proof.
  intros Hn Hc. unfold tester_names in Hn.
  assert (∀ z, ContainsByte (Itoa z) c = false) as HI.
  { intros z. rewrite !elem_of_cons, elem_of_nil in Hc. destruct_or! Hc; subst; by apply Itoa_no. }
  assert (∀ b, ContainsByte (bool_text b) c = false) as HB.
  { intros b. rewrite !elem_of_cons, elem_of_nil in Hc. destruct_or! Hc; subst; by destruct b. }
  repeat constructor; auto.
  rewrite !elem_of_cons, elem_of_nil in Hc. rewrite !elem_of_cons, elem_of_nil in Hn.
  destruct_or! Hc; subst; destruct_or! Hn; try done;
    by rewrite Hn.
Qed.

Lemma params_text_inj htp htp' :
  htp_testName htp ∈ tester_names → htp_testName htp' ∈ tester_names →
  params_text htp = params_text htp' → htp = htp'.
Proof.
  intros Hn Hn' E. apply param_words_inj. apply (f_equal (sdrop 1)) in E.
  assert (E' : Join (param_words htp) " " +:+ "}" = Join (param_words htp') " " +:+ "}")
    by exact E. clear E.
  assert (Hbr : ∀ h, htp_testName h ∈ tester_names →
    SplitN2 (Join (param_words h) " " +:+ "}") "}"%char = [Join (param_words h) " "; ""]).
  { intros h Hh. apply SplitN2_app_sep. apply ContainsByte_Join; [done|].
    apply param_words_no; [done|set_solver]. }
  pose proof (Hbr htp Hn) as E. rewrite E', Hbr in E by done.
  assert (EJ : Join (param_words htp) " " = Join (param_words htp') " ") by congruence.
  rewrite <-(Split_Join (param_words htp) " "%char), <-(Split_Join (param_words htp') " "%char);
    [by rewrite EJ|done|apply param_words_no; set_solver|done|apply param_words_no; set_solver].
Qed.

Lemma params_text_no_slash htp :
  htp_testName htp ∈ tester_names → ContainsByte (params_text htp) "/" = false.
Proof.
  intros Hn. unfold params_text. rewrite !ContainsByte_app. cbn [ContainsByte].
  fold (param_words htp).
  by rewrite ContainsByte_Join; [|done|apply param_words_no; [done|set_solver]].
Qed.

(** ** Lemmas on [NewFromMap] *)

Lemma HealthTesterMap_builds `{GoFormat} `{GoArch} ts nh i htp h htp' :
  HealthTesterMap ts = Some nh → nh i htp = Ret (h, htp') →
  ts ∈ tester_names ∧ htp_frequency htp' = htp_frequency htp ∧
  htp_retryTime htp' = htp_retryTime htp ∧ htp_timeout htp' = htp_timeout htp ∧
  htp_testName htp' = htp_testName htp.
Proof.
  unfold HealthTesterMap. intros Hm Hn. unfold tester_names.
  repeat case_decide; simplify_eq; (split; [set_solver|]).
  all: unfold newFileHealthTester, newNodepingHealthTester, newPingdomHealthTester in *.
  all: res_inv; simplify_eq; done.
Qed.

Lemma read_params_keep `{GoArch} htp i htp' :
  foldM read_param htp i = Ret htp' →
  int_params htp →
  int_params htp' ∧ htp_timeout htp' = htp_timeout htp ∧ htp_testName htp' = htp_testName htp.
Proof.
  intros Hr Hint.
  refine (foldM_invariant read_param
    (λ p, int_params p ∧ htp_timeout p = htp_timeout htp ∧ htp_testName p = htp_testName htp)
    i htp htp' _ _ Hr); [done|].
  intros p [k v] p' _ ((Hf & Hr1 & Ht) & E1 & E2) Hstep. unfold read_param in Hstep.
  repeat case_decide; res_inv; simplify_eq; unfold int_params; cbn; split_and!; try done;
    apply wrap64_range.
Qed.

(** ** Properties *)

(** C16: the verdict of a running test is a function of the results its loop has
    received since the start: unhealthy after [retries] failures in a row,
    healthy after a success, and otherwise as it was.  The loop refines
    [verdict] on every interleaving of its goroutines, for any tester. *)
Theorem run_refines_verdict `{GoFormat} `{GoRand rng} (ht : HealthTest) (now : Z) (r r' : rng)
    (p p' : proc) (store store' : list HealthTester) (l : list bool) :
  start ht now r = Ret (p, r') → proc_run (store, p) l (store', p') → len l ≤ max_int →
  ht_healthy (p_test p') = verdict (htp_retries (ht_params ht)) (ht_healthy ht) l ∧
  ht_params (p_test p') = ht_params ht.
Proof.
  intros Hs Hrun Hlen. destruct (start_spec _ _ _ _ _ Hs) as (Ht & _ & _ & Hfc).
  destruct (proc_run_follows _ _ _ _ Hrun Hfc Hlen) as (Hp & _ & _ & Hh). cbn [snd] in *.
  rewrite Ht in Hh, Hp. done.
Qed.

(** C25: a running test never has two polls at once, and a poll never sends on a
    closed channel: while one is under way the test is running, and it cannot
    be stopped. *)
Theorem polls_safe `{GoFormat} `{GoRand rng} (ht : HealthTest) (now : Z) (r r' : rng)
    (p p' : proc) (store store' : list HealthTester) (l : list bool) :
  start ht now r = Ret (p, r') → proc_run (store, p) l (store', p') →
  (length (p_pollers p') ≤ 1)%nat ∧
  (p_pollers p' ≠ [] → ht_running (p_test p') = true ∧
     ∀ lab s, proc_step (store', p') lab s → ht_running (p_test s.2) = true).
Proof.
  intros Hs Hrun. assert (Hinv : proc_inv p').
  { apply (proc_run_inv _ _ _ Hrun). by eapply start_inv. }
  unfold proc_inv in Hinv. destruct (rs_pollStart (p_loop p')) as [t|] eqn:Eps.
  - destruct Hinv as [Hr [x Hx]]. rewrite Hx. split; [done|]. intros _. split; [done|].
    intros lab s Hstep. inversion Hstep as [|? ? ? ? ? ? ? ? ? ? Hi Ht HT| |]; subst; cbn in *;
      try done.
    + by destruct (@Test_frame _ (λ _, "") _ _ _ _ _ _ HT) as [[g ->] _].
    + unfold on_result. destruct h; [done|]. by destruct (_ <=? _).
  - rewrite Hinv. split; [simpl; lia|done].
Qed.

(** C34: whatever numbers a description of a test holds, also those whose
    nanoseconds overflow, the test [NewFromMap] makes has intervals between a
    second and the largest duration, so that the loop can always be started
    and polls within one interval.  The timeout is always five seconds: the
    entry "timeout" sets the retry time instead. *)
Theorem NewFromMap_bounds `{GoFormat} `{GoArch} (store store' : list HealthTester)
    (i : list (string * value)) (ht : HealthTest) :
  NewFromMap store i = Ret (store', inr ht) →
  test_ok store' ht ∧ htp_timeout (ht_params ht) = 5 * Second ∧
  ht_healthy ht = htp_healthyInitially (ht_params ht) ∧
  ∀ rng (G : GoRand rng) (r : rng) now, ∃ p r',
    start ht now r = Ret (p, r') ∧
    now ≤ rs_nextPoll (p_loop p) <
      now + Z.max (htp_frequency (ht_params ht)) (htp_retryTime (ht_params ht)).
Proof.
  intros [[_ [err ?]]|(ts & nh & h & htp0 & htp & Hm & Hn & Hr & -> & [= ->])]%NewFromMap_cases;
    [done|].
  destruct (HealthTesterMap_builds _ _ _ _ _ _ Hm Hn) as (Hts & Ef & Er & Et & Ename).
  destruct (read_params_keep _ _ _ Hr) as (Hint & Etm & Enm).
  { unfold int_params. rewrite Ef, Er, Et. repeat split; done. }
  assert (Hpar : params_ok (ht_params (NewTest [] htp (length store)))) by (by apply NewTest_ok).
  split_and!.
  - split; cbn [ht_tester ht_ipAddress NewTest].
    + done.
    + rewrite lookup_app_r, Nat.sub_diag by lia. by eexists.
    + cbn. by rewrite Enm, Ename.
    + constructor.
  - cbn. rewrite Etm, Et. reflexivity.
  - done.
  - intros rng G r now. unfold start.
    destruct (run_begin_ok (set_running (NewTest [] htp (length store)) true) now r Hpar)
      as (rs & r' & -> & _ & _ & Hb).
    eexists (mkProc _ rs []), r'. split; [done|]. exact Hb.
Qed.

(** The key of a test identifies it: two tests with the same key have the
    same parameters, testers of the same description, and, unless they are
    global, the same address.  So a running test is shared only between equal
    tests. *)
Theorem test_key_identifies `{GoFormatMap} (store : list HealthTester) (ht ht' : HealthTest)
    (key : string) :
  test_ok store ht → test_ok store ht' →
  HealthTest_String store ht = Ret key → HealthTest_String store ht' = Ret key →
  ht_params ht = ht_params ht' ∧
  (∃ t t', store !! ht_tester ht = Some t ∧ store !! ht_tester ht' = Some t' ∧
     HealthTester_String t = HealthTester_String t') ∧
  (htp_global (ht_params ht) = false →
     IP_String (ht_ipAddress ht) = IP_String (ht_ipAddress ht')).
Proof.
  intros [_ [t Ht] Hn Hip] [_ [t' Ht'] Hn' Hip']. unfold HealthTest_String.
  rewrite Ht, Ht'. cbn [deref mbind res_bind].
  set (ip := if htp_global (ht_params ht) then "" else _).
  set (ip' := if htp_global (ht_params ht') then "" else _).
  assert (Hs : ContainsByte ip "/" = false)
    by (unfold ip; case_match; [done|by apply IP_String_no_slash]).
  assert (Hs' : ContainsByte ip' "/" = false)
    by (unfold ip'; case_match; [done|by apply IP_String_no_slash]).
  intros E [= <-]. apply (inj Ret) in E.
  assert (Hcut : ∀ a b c d : string, ContainsByte a "/" = false → ContainsByte c "/" = false →
    a +:+ "/" +:+ b = c +:+ "/" +:+ d → a = c ∧ b = d).
  { intros a b c d Ha Hc Eab. rewrite !(sapp_cons "/"), !sapp_nil_l in Eab.
    pose proof (SplitN2_app_sep a b "/" Ha) as E1. rewrite Eab, SplitN2_app_sep in E1 by done.
    split; congruence. }
  apply Hcut in E as [Eip E]; [|done..].
  apply Hcut in E as [Ep Et]; [|by apply params_text_no_slash..].
  apply params_text_inj in Ep; [|done..]. split_and!; [done|by eauto|].
  intros Hg. unfold ip, ip' in Eip. by rewrite <-Ep, Hg in Eip.
Qed.

(** ** Examples *)

Definition blank_format : GoFormat := λ _, "".
Definition blank_map : GoFormatMap := λ _, "map[]".

Definition example_map : list (string * value) :=
  [("type", VStr "tcp"); ("port", VNum (float_of_Z 53)); ("timeout", VStr "60");
   ("frequency", VStr "10000000000"); ("retries", VNum (float_of_Z 2))].

(** Ten billion seconds do not fit a duration: the product is negative and
    the interval becomes one second.  The 60 seconds that the description
    calls the timeout become the retry time. *)
Definition example_new : res (list HealthTester * (string + HealthTest)) :=
  @NewFromMap blank_format arch_amd64 [] example_map.

Definition tcp_test : HealthTest :=
  match example_new with Ret (_, inr ht) => ht | _ => example_test end.

Lemma example_new_ok : example_new = Ret ([TcpHealthTester 53], inr tcp_test).
Proof. vm_compute. reflexivity. Qed.

Lemma NewFromMap_bounds_witness :
  test_ok [TcpHealthTester 53] tcp_test ∧ htp_timeout (ht_params tcp_test) = 5 * Second.
Proof.
  destruct (@NewFromMap_bounds blank_format arch_amd64 [] [TcpHealthTester 53] example_map
    tcp_test example_new_ok) as (Hok & Ht & _). exact (conj Hok Ht).
Defined.

Definition tcp_started : res (proc * list Z) := @start _ GoRand_replay tcp_test 1000 [5].

Definition tcp_proc : proc :=
  match tcp_started with Ret (p, _) => p | _ => mkProc example_test (mkRun 0 None 0) [] end.

Lemma tcp_started_ok : @start _ GoRand_replay tcp_test 1000 [5] = Ret (tcp_proc, []).
Proof. vm_compute. reflexivity. Qed.

(** The server does not answer. *)
Definition dead_outside : outside :=
  mkOutside (λ _ _, false) (λ _ _ _, None) (λ _ _, false) (λ _, NoFile) (λ s, s) (λ _, None)
    (λ _, None).

(** The state after a poll has been started, and after its result. *)
Definition polling (p : proc) (now : Z) : proc :=
  mkProc (p_test p) (mkRun (rs_nextPoll (p_loop p)) (Some now) (rs_failCount (p_loop p))) [None].

Lemma tcp_polling_run :
  @proc_run blank_format ([TcpHealthTester 53], tcp_proc) []
    ([TcpHealthTester 53], polling tcp_proc 1000000000000).
Proof.
  change [] with ([] ++ option_list (None : option bool)) at 2.
  eapply run_step; [apply run_refl|].
  assert (E : tcp_proc = mkProc (p_test tcp_proc) (mkRun (rs_nextPoll (p_loop tcp_proc)) None 0) [])
    by (vm_compute; reflexivity).
  rewrite E. apply (step_poll _ _ _ _ []); [vm_compute; reflexivity|vm_compute; discriminate].
Qed.

Lemma polls_safe_witness :
  (length (p_pollers (polling tcp_proc 1000000000000)) ≤ 1)%nat.
Proof.
  exact (proj1 (@polls_safe blank_format _ GoRand_replay _ _ _ _ _ _ _ _ _
    tcp_started_ok tcp_polling_run)).
Defined.

(** One poll that fails. *)
Definition tcp_failed : proc :=
  let p := polling tcp_proc 1000000000000 in
  let '(ht, rs) := on_result (p_test p) (p_loop p) false in mkProc ht rs [].

Lemma tcp_failed_run :
  @proc_run blank_format ([TcpHealthTester 53], tcp_proc) [false]
    ([TcpHealthTester 53], tcp_failed).
Proof.
  change [false] with ([] ++ option_list (Some false)).
  eapply run_step.
  { change [] with ([] ++ option_list (None : option bool)) at 2.
    eapply run_step; [apply tcp_polling_run|].
    apply (step_test _ _ _ [None] 0 dead_outside (TcpHealthTester 53) false (TcpHealthTester 53)
      (p_test tcp_proc)); vm_compute; reflexivity. }
  assert (E : tcp_failed = mkProc
    (on_result (p_test tcp_proc) (p_loop (polling tcp_proc 1000000000000)) false).1
    (on_result (p_test tcp_proc) (p_loop (polling tcp_proc 1000000000000)) false).2
    (delete 0%nat [Some false])) by (vm_compute; reflexivity).
  rewrite E. apply (step_result _ _ _ [Some false]); vm_compute; reflexivity.
Qed.

Lemma run_refines_verdict_witness :
  ht_healthy (p_test tcp_failed) = verdict 2 false [false].
Proof.
  exact (proj1 (@run_refines_verdict blank_format _ GoRand_replay _ _ _ _ _ _ _ _ _
    tcp_started_ok tcp_failed_run ltac:(vm_compute; discriminate))).
Defined.

Lemma tcp_test_ok ip : Forall is_byte ip → test_ok [TcpHealthTester 53] (set_ipAddress tcp_test ip).
Proof.
  intros Hip. split; [|by eexists|vm_compute; set_solver|exact Hip].
  split; (split; [vm_compute; discriminate|vm_compute; discriminate]).
Qed.

Definition tcp_test_v4 : HealthTest := set_ipAddress tcp_test (IPv4 192 0 2 1).

Definition tcp_key : string := "192.0.2.1/{1000000000 60000000000 5000000000 2 false tcp false}/53".

Lemma tcp_key_ok : @HealthTest_String blank_map [TcpHealthTester 53] tcp_test_v4 = Ret tcp_key.
Proof. vm_compute. reflexivity. Qed.

Lemma example_v4_bytes : Forall is_byte (IPv4 192 0 2 1).
Proof. repeat constructor; done. Qed.

(** The same address in its short form. *)
Lemma test_key_identifies_witness :
  ht_params tcp_test_v4 = ht_params (set_ipAddress tcp_test [192; 0; 2; 1]).
Proof.
  assert (Hip : Forall is_byte [192; 0; 2; 1]) by (repeat constructor; done).
  exact (proj1 (@test_key_identifies blank_map [TcpHealthTester 53] tcp_test_v4
    (set_ipAddress tcp_test [192; 0; 2; 1]) tcp_key (tcp_test_ok _ example_v4_bytes)
    (tcp_test_ok _ Hip) tcp_key_ok ltac:(vm_compute; reflexivity))).
Defined.

