(* ===== verification/HealthRunner.v ===== *)
(** * health/healthtest/healthtest.go: the runner of health tests

    The runner shares one running test between all the places that refer to the
    same test, and stops it when the last reference goes.  [Stop] waits for the
    poll that is under way, and its caller holds the mutex of the runner all
    the while.  So the operations are steps of a transition system: the state
    says which operation holds the mutex and what it still has to do, and the
    tests go on meanwhile. *)

From S2P Require Import Prelude GoRuntime GoStrings GoNet Float64 TypeUtil Health HealthTesters.
From S2P Require Import HealthTest.
Local Open Scope Z_scope.

(** ** The runner and its operations *)

Record HealthTestRunnerEntry := mkRunnerEntry {
  e_proc : proc;
  e_references : gset string
}.

(** Who holds [entryMutex]: nobody; an operation that waits in [Stop] for the
    test [key]; or the loop of [refAllGlobalHealthChecks(ref, false)].  [todo]
    are the entries the loop still has to visit (none for [removeTest]). *)
Inductive holder :=
| Unlocked
| Stopping (key ref : string) (todo : list string)
| Visiting (ref : string) (todo : list string).

#[export] Instance holder_eq_dec : EqDecision holder.
Proof. solve_decision. Defined.

Record HealthTestRunner := mkRunner {
  htr_testers : list HealthTester;
  htr_entries : gmap string HealthTestRunnerEntry;
  htr_mutex : holder
}.

Definition e_test (e : HealthTestRunnerEntry) : HealthTest := p_test (e_proc e).
Definition e_global (e : HealthTestRunnerEntry) : bool := htp_global (ht_params (e_test e)).

Definition set_entries (htr : HealthTestRunner) (m : gmap string HealthTestRunnerEntry) :
    HealthTestRunner :=
  mkRunner (htr_testers htr) m (htr_mutex htr).

Definition set_mutex (htr : HealthTestRunner) (h : holder) : HealthTestRunner :=
  mkRunner (htr_testers htr) (htr_entries htr) h.

Definition addTest `{GoFormatMap} `{GoRand rng} (htr : HealthTestRunner) (ht : HealthTest)
    (ref : string) (now : Z) (r : rng) : res (HealthTestRunner * rng) :=
  key ← HealthTest_String (htr_testers htr) ht;
  match htr_entries htr !! key with
  | Some t =>
      Ret (set_entries htr (<[key := mkRunnerEntry (e_proc t) ({[ref]} ∪ e_references t)]>
             (htr_entries htr)), r)
  | None =>
      let t := copy ht (ht_ipAddress ht) in
      let t := if htp_global (ht_params t) then set_ipAddress t [] else t in
      let t := setHealthy t (ht_healthy ht) in
      '(p, r) ← start t now r;
      Ret (set_entries htr (<[key := mkRunnerEntry p {[ref]}]> (htr_entries htr)), r)
  end.

(** The loop goes on, or its operation returns and releases the mutex. *)
Definition go_on (ref : string) (todo : list string) : holder :=
  match todo with
  | [] => Unlocked
  | _ => Visiting ref todo
  end.

(** [delete(t.references, ref)]; without references [Stop] is called. *)
Definition drop_reference (htr : HealthTestRunner) (key ref : string) (todo : list string)
    (t : HealthTestRunnerEntry) : HealthTestRunner :=
  let refs := e_references t ∖ {[ref]} in
  let htr := set_entries htr (<[key := mkRunnerEntry (e_proc t) refs]> (htr_entries htr)) in
  set_mutex htr (if decide (refs = ∅) then Stopping key ref todo else go_on ref todo).

(** [Stop] has returned: the entry is deleted. *)
Definition after_Stop (htr : HealthTestRunner) (store : list HealthTester) (key ref : string)
    (todo : list string) : HealthTestRunner :=
  mkRunner store (delete key (htr_entries htr)) (go_on ref todo).

(** The runner when [removeTest] waits or returns, and the caller's test, which
    takes over the last state of health. *)
Definition removeTest `{GoFormatMap} (htr : HealthTestRunner) (ht : HealthTest) (ref : string) :
    res (HealthTestRunner * HealthTest) :=
  key ← HealthTest_String (htr_testers htr) ht;
  match htr_entries htr !! key with
  | Some t => Ret (drop_reference htr key ref [] t, setHealthy ht (ht_healthy (e_test t)))
  | None => Ret (htr, ht)
  end.

(** [refAllGlobalHealthChecks]: adding does not wait; dropping visits the
    entries in the order [keys]. *)
Definition ref_global (ref : string) (t : HealthTestRunnerEntry) : HealthTestRunnerEntry :=
  if e_global t then mkRunnerEntry (e_proc t) ({[ref]} ∪ e_references t) else t.

Definition refAllGlobalHealthChecks (htr : HealthTestRunner) (ref : string) (add : bool)
    (keys : list string) : HealthTestRunner :=
  if add then set_entries htr (ref_global ref <$> htr_entries htr)
  else set_mutex htr (go_on ref keys).

(** One entry of the loop that drops. *)
Definition visit (htr : HealthTestRunner) (key ref : string) (todo : list string) : HealthTestRunner :=
  match htr_entries htr !! key with
  | Some t => if e_global t then drop_reference htr key ref todo t else set_mutex htr (go_on ref todo)
  | None => set_mutex htr (go_on ref todo)
  end.

Definition runner_isHealthy `{GoFormatMap} (htr : HealthTestRunner) (ht : HealthTest) : res bool :=
  key ← HealthTest_String (htr_testers htr) ht;
  match htr_entries htr !! key with
  | Some t =>
      if e_global t then
        match getGlobal (e_test t) (IP_String (ht_ipAddress ht)) with
        | Some healthy => Ret healthy
        | None => Ret (ht_healthy ht)
        end
      else Ret (ht_healthy (e_test t))
  | None => Ret (ht_healthy ht)
  end.

Section steps.
Context `{GoFormatMap} `{GoFormat} `{GoArch} `{GoRand rng}.

(** Steps of the runner: a test is described; an operation takes the mutex; the
    loop visits an entry; a test makes a step; and the test that an operation
    stops receives the request of [Stop]. *)
Inductive runner_step : HealthTestRunner → HealthTestRunner → Prop :=
| rstep_new htr i store x :
    NewFromMap (htr_testers htr) i = Ret (store, x) →
    runner_step htr (mkRunner store (htr_entries htr) (htr_mutex htr))
| rstep_add htr ht ref now (r : rng) htr' r' :
    htr_mutex htr = Unlocked → test_ok (htr_testers htr) ht →
    addTest htr ht ref now r = Ret (htr', r') → runner_step htr htr'
| rstep_remove htr ht ref htr' ht' :
    htr_mutex htr = Unlocked → removeTest htr ht ref = Ret (htr', ht') → runner_step htr htr'
| rstep_all htr ref add keys :
    htr_mutex htr = Unlocked → keys ≡ₚ (map_to_list (htr_entries htr)).*1 →
    runner_step htr (refAllGlobalHealthChecks htr ref add keys)
| rstep_visit htr key ref todo :
    htr_mutex htr = Visiting ref (key :: todo) → runner_step htr (visit htr key ref todo)
| rstep_test htr key e store p lab :
    htr_entries htr !! key = Some e →
    proc_step (htr_testers htr, e_proc e) lab (store, p) → ht_running (p_test p) = true →
    runner_step htr (mkRunner store (<[key := mkRunnerEntry p (e_references e)]> (htr_entries htr))
                       (htr_mutex htr))
| rstep_stop htr key ref todo e store p lab :
    htr_mutex htr = Stopping key ref todo → htr_entries htr !! key = Some e →
    proc_step (htr_testers htr, e_proc e) lab (store, p) → ht_running (p_test p) = false →
    runner_step htr (after_Stop htr store key ref todo).

Definition runner_reachable (htr : HealthTestRunner) : Prop :=
  ∃ store, rtc runner_step (mkRunner store ∅ Unlocked) htr.
End steps.

(** ** Lemmas *)

Section runner.
Context `{GoFormatMap}.

(** The test that [addTest] starts for [ht]. *)
Definition started (ht : HealthTest) : HealthTest :=
  let t := copy ht (ht_ipAddress ht) in
  let t := if htp_global (ht_params t) then set_ipAddress t [] else t in
  setHealthy t (ht_healthy ht).

Lemma started_params ht : params_ok (ht_params ht) → ht_params (started ht) = ht_params ht.
Proof. intros Hp. unfold started. rewrite <-(copy_params ht (ht_ipAddress ht) Hp). by case_match. Qed.

Lemma started_String store ht :
  params_ok (ht_params ht) →
  HealthTest_String store (started ht) = HealthTest_String store ht.
Proof.
  intros Hp. apply String_same; [by apply started_params|by unfold started; case_match|].
  unfold started. rewrite (copy_params ht _ Hp). destruct (htp_global _); auto.
Qed.

(** *** References *)

Definition refers (htr : HealthTestRunner) (key ref : string) : Prop :=
  ∃ e, htr_entries htr !! key = Some e ∧ ref ∈ e_references e.

(** What holds of the test of every entry. *)
Record entry_inv (store : list HealthTester) (key : string) (e : HealthTestRunnerEntry) : Prop := {
  ei_running : ht_running (e_test e) = true;
  ei_proc : proc_inv (e_proc e);
  ei_key : HealthTest_String store (e_test e) = Ret key;
  ei_params : params_ok (ht_params (e_test e))
}.

(** Only the entry that is being stopped has no references, and the loop that
    holds the mutex has something to do. *)
Record runner_inv (htr : HealthTestRunner) : Prop := {
  ri_entries : map_Forall (entry_inv (htr_testers htr)) (htr_entries htr);
  ri_stopping : ∀ k e, htr_entries htr !! k = Some e →
    (e_references e = ∅ ↔ ∃ ref todo, htr_mutex htr = Stopping k ref todo);
  ri_stopped : ∀ k ref todo, htr_mutex htr = Stopping k ref todo → is_Some (htr_entries htr !! k);
  ri_visiting : ∀ ref, htr_mutex htr ≠ Visiting ref []
}.

Lemma entry_inv_refs store key e refs :
  entry_inv store key e → entry_inv store key (mkRunnerEntry (e_proc e) refs).
Proof. intros [? ? ? ?]. by split. Qed.

Lemma entry_inv_store store store' key e :
  store_le store store' → entry_inv store key e → entry_inv store' key e.
Proof. intros Hle [? ? ? ?]. split; try done. by eapply String_store. Qed.

Lemma go_on_not_stopping ref todo k ref' todo' : go_on ref todo ≠ Stopping k ref' todo'.
Proof. by destruct todo. Qed.

Lemma go_on_visiting ref todo ref' : go_on ref todo ≠ Visiting ref' [].
Proof. by destruct todo. Qed.

(** The invariant when nobody waits in [Stop]. *)
Lemma runner_inv_idle store m h :
  map_Forall (entry_inv store) m → map_Forall (λ _ e, e_references e ≠ ∅) m →
  (∀ k ref todo, h ≠ Stopping k ref todo) → (∀ ref, h ≠ Visiting ref []) →
  runner_inv (mkRunner store m h).
Proof.
  intros He Hr Hs Hv. split; cbn; [done| |by intros k ref todo ?%Hs|done].
  intros k e Hk. split; [by intros ?%(Hr k e Hk)|by intros (ref & todo & ?%Hs)].
Qed.

Lemma idle_references htr :
  runner_inv htr → (∀ k ref todo, htr_mutex htr ≠ Stopping k ref todo) →
  map_Forall (λ _ e, e_references e ≠ ∅) (htr_entries htr).
Proof. intros Hi Hs k e Hk Hemp. apply (ri_stopping _ Hi k e Hk) in Hemp as (ref & todo & ?). by eapply Hs. Qed.

(** Dropping a reference of an entry. *)
Lemma drop_reference_inv htr key ref todo t :
  runner_inv htr → (∀ k r l, htr_mutex htr ≠ Stopping k r l) → htr_entries htr !! key = Some t →
  runner_inv (drop_reference htr key ref todo t).
Proof.
  intros Hi Hs Hk. pose proof (idle_references _ Hi Hs) as Hne. unfold drop_reference. case_decide as Hd.
  - split; cbn.
    + apply map_Forall_insert_2; [by apply entry_inv_refs, Hi|apply Hi].
    + intros k e [[<- <-]|[Hn He]]%lookup_insert_Some; cbn.
      * split; [by eauto|done].
      * split; [by intros ?%(Hne k e He)|]. by intros (? & ? & [= <- _ _]).
    + intros k r l [= <- _ _]. rewrite lookup_insert_eq. by eexists.
    + done.
  - apply runner_inv_idle; [|by apply map_Forall_insert_2|apply go_on_not_stopping|apply go_on_visiting].
    apply map_Forall_insert_2; [by apply entry_inv_refs, Hi|apply Hi].
Qed.

Lemma drop_reference_refers htr key ref todo t k s :
  htr_entries htr !! key = Some t →
  refers (drop_reference htr key ref todo t) k s ↔ refers htr k s ∧ ¬ (k = key ∧ s = ref).
Proof.
  intros Hk. unfold refers, drop_reference. cbn. destruct (decide (key = k)) as [<-|Hne].
  - rewrite lookup_insert_eq, Hk, !exists_Some. cbn. set_solver.
  - rewrite lookup_insert_ne by done. naive_solver.
Qed.

Lemma addTest_spec `{GoRand rng} htr ht ref now (r : rng) key :
  runner_inv htr → htr_mutex htr = Unlocked → test_ok (htr_testers htr) ht →
  HealthTest_String (htr_testers htr) ht = Ret key →
  ∃ htr' r', addTest htr ht ref now r = Ret (htr', r') ∧ runner_inv htr' ∧
    htr_testers htr' = htr_testers htr ∧ htr_mutex htr' = Unlocked ∧
    (∀ k, is_Some (htr_entries htr !! k) → is_Some (htr_entries htr' !! k)) ∧
    ∀ k s, refers htr' k s ↔ refers htr k s ∨ (k = key ∧ s = ref).
Proof.
  intros Hinv Hu [Hp Ht Hn Hip] Hkey. unfold addTest. rewrite Hkey. cbn [mbind res_bind].
  assert (Hidle : ∀ k r l, htr_mutex htr ≠ Stopping k r l) by (by rewrite Hu).
  pose proof (idle_references _ Hinv Hidle) as Hne. destruct (Hinv) as [Hent _ _ Hv].
  assert (Hgrow : ∀ e k, is_Some (htr_entries htr !! k) →
    is_Some (<[key := e]> (htr_entries htr) !! k)).
  { intros e k. rewrite lookup_insert. case_decide; [by eexists|done]. }
  destruct (htr_entries htr !! key) as [t|] eqn:Et.
  - do 2 eexists. split; [done|]. split_and!; [|done|done|by intros; apply Hgrow|].
    + apply runner_inv_idle; [| |done|done]; apply map_Forall_insert_2;
        [by apply entry_inv_refs, Hent|done|cbn; set_solver|done].
    + intros k s. unfold refers. cbn. destruct (decide (key = k)) as [<-|Hk].
      * rewrite lookup_insert_eq, Et, !exists_Some. cbn. set_solver.
      * rewrite lookup_insert_ne by done. naive_solver.
  - change (setHealthy _ _) with (started ht).
    destruct (start_ok (started ht) now r) as (p & r' & E); [by rewrite started_params|].
    rewrite E. cbn [mbind res_bind]. do 2 eexists. split; [done|].
    destruct (start_spec _ _ _ _ _ E) as (Htest & _).
    split_and!; [|done|done|by intros; apply Hgrow|].
    + apply runner_inv_idle; [| |done|done]; apply map_Forall_insert_2; [|done|cbn; set_solver|done].
      split; unfold e_test; cbn [e_proc e_references].
      * by rewrite Htest.
      * by eapply start_inv.
      * rewrite Htest, (String_same _ (started ht)), started_String by (done || by right). done.
      * rewrite Htest. cbn [set_running ht_params]. by rewrite started_params.
    + intros k s. unfold refers. cbn. destruct (decide (key = k)) as [<-|Hk].
      * rewrite lookup_insert_eq, Et, exists_Some, exists_None. cbn. set_solver.
      * rewrite lookup_insert_ne by done. naive_solver.
Qed.

(** The last reference is the one that goes. *)
Definition last_reference (htr : HealthTestRunner) (key ref : string) : Prop :=
  refers htr key ref ∧ ∀ s, refers htr key s → s = ref.

Lemma removeTest_spec htr ht ref key :
  runner_inv htr → htr_mutex htr = Unlocked → HealthTest_String (htr_testers htr) ht = Ret key →
  ∃ htr' ht', removeTest htr ht ref = Ret (htr', ht') ∧ runner_inv htr' ∧
    htr_testers htr' = htr_testers htr ∧
    (∀ k, e_proc <$> htr_entries htr' !! k = e_proc <$> htr_entries htr !! k) ∧
    (∀ k s, refers htr' k s ↔ refers htr k s ∧ ¬ (k = key ∧ s = ref)) ∧
    (last_reference htr key ref → htr_mutex htr' = Stopping key ref []) ∧
    (¬ last_reference htr key ref → htr_mutex htr' = Unlocked).
Proof.
  intros Hinv Hu Hkey. unfold removeTest. rewrite Hkey. cbn [mbind res_bind].
  assert (Hidle : ∀ k r l, htr_mutex htr ≠ Stopping k r l) by (by rewrite Hu).
  pose proof (idle_references _ Hinv Hidle) as Hne.
  destruct (htr_entries htr !! key) as [t|] eqn:Et.
  - do 2 eexists. split; [done|]. split_and!; [by apply drop_reference_inv|done| | | |].
    + intros k. unfold drop_reference. cbn. destruct (decide (key = k)) as [<-|Hk].
      * by rewrite lookup_insert_eq, Et.
      * by rewrite lookup_insert_ne.
    + intros k s. by apply drop_reference_refers.
    + intros [_ Hlast]. unfold drop_reference. rewrite decide_True; [done|]. apply set_eq. intros s.
      specialize (Hlast s). unfold refers in Hlast. rewrite Et, exists_Some in Hlast. set_solver.
    + intros Hnot. unfold drop_reference. rewrite decide_False; [done|]. intros Hemp. apply Hnot.
      specialize (Hne key t Et). apply set_choose_L in Hne as [s Hs].
      assert (Hall : ∀ s, s ∈ e_references t → s = ref).
      { intros s' Hs'. destruct (decide (s' = ref)); [done|].
        assert (s' ∈ (∅ : gset string)) as []%elem_of_empty by (rewrite <-Hemp; set_solver). }
      unfold last_reference, refers. rewrite Et. split.
      * exists t. split; [done|]. by rewrite <-(Hall s Hs).
      * intros s' (e & [= <-] & ?). by apply Hall.
  - assert (Hnone : ∀ s, ¬ refers htr key s) by (intros s (e & ? & _); congruence).
    exists htr, ht. split_and!; [done..| | |done].
    + intros k s. split; [|naive_solver]. intros Hr. split; [done|]. intros [-> _]. by eapply Hnone.
    + intros [Hr _]. by eapply Hnone in Hr.
Qed.

(** An entry of the runner for a global test. *)
Definition global_key (htr : HealthTestRunner) (k : string) : Prop :=
  ∃ e, htr_entries htr !! k = Some e ∧ e_global e = true.

Lemma refAll_add_spec htr ref keys :
  runner_inv htr → htr_mutex htr = Unlocked →
  runner_inv (refAllGlobalHealthChecks htr ref true keys) ∧
  ∀ k s, refers (refAllGlobalHealthChecks htr ref true keys) k s ↔
    refers htr k s ∨ (global_key htr k ∧ s = ref).
Proof.
  intros Hinv Hu. assert (Hidle : ∀ k r l, htr_mutex htr ≠ Stopping k r l) by (by rewrite Hu).
  pose proof (idle_references _ Hinv Hidle) as Hne. split.
  - apply runner_inv_idle; cbn; [| |done|apply Hinv].
    + intros k e'. rewrite lookup_fmap. intros (e & He & ->)%fmap_Some. pose proof (ri_entries _ Hinv k e He).
      unfold ref_global. case_match; [by apply entry_inv_refs|done].
    + intros k e'. rewrite lookup_fmap. intros (e & He & ->)%fmap_Some. specialize (Hne k e He).
      unfold ref_global. case_match; [cbn; set_solver|done].
  - intros k s. unfold refers, global_key. cbn. rewrite lookup_fmap.
    destruct (htr_entries htr !! k) as [e|]; cbn; [|rewrite !exists_None; tauto].
    unfold ref_global. destruct (e_global e) eqn:Eg; rewrite !exists_Some, ?Eg; cbn; [set_solver|naive_solver].
Qed.

Lemma visit_inv htr key ref todo :
  runner_inv htr → htr_mutex htr = Visiting ref (key :: todo) → runner_inv (visit htr key ref todo).
Proof.
  intros Hinv Hm. assert (Hidle : ∀ k r l, htr_mutex htr ≠ Stopping k r l) by (by rewrite Hm).
  assert (Hgo : runner_inv (set_mutex htr (go_on ref todo))).
  { apply runner_inv_idle; [apply Hinv|by apply idle_references|apply go_on_not_stopping|apply go_on_visiting]. }
  unfold visit. destruct (htr_entries htr !! key) as [t|] eqn:Et; [|done].
  case_match; [by apply drop_reference_inv|done].
Qed.

Lemma visit_refers htr key ref todo k s :
  refers (visit htr key ref todo) k s ↔ refers htr k s ∧ ¬ (k = key ∧ global_key htr key ∧ s = ref).
Proof.
  unfold visit. destruct (htr_entries htr !! key) as [t|] eqn:Et.
  - destruct (e_global t) eqn:Eg.
    + rewrite drop_reference_refers by done. unfold global_key. rewrite Et, exists_Some, Eg. tauto.
    + unfold global_key. rewrite Et, exists_Some, Eg. cbn. intuition congruence.
  - unfold global_key. rewrite Et, exists_None. cbn. tauto.
Qed.

Lemma visit_procs htr key ref todo k :
  e_proc <$> htr_entries (visit htr key ref todo) !! k = e_proc <$> htr_entries htr !! k.
Proof.
  unfold visit. destruct (htr_entries htr !! key) as [t|] eqn:Et; [|done]. case_match; [|done].
  unfold drop_reference. cbn. destruct (decide (key = k)) as [<-|Hne].
  - by rewrite lookup_insert_eq, Et.
  - by rewrite lookup_insert_ne.
Qed.

(** *** Reachable states *)

Context `{GoFormat} `{GoArch} `{GoRand rng}.

Lemma runner_step_inv htr htr' : runner_step htr htr' → runner_inv htr → runner_inv htr'.
Proof.
  destruct 1 as [htr i store x HN|htr ht ref now r htr' r' Hu Hok Ha|htr ht ref htr' ht' Hu Hr
    |htr ref add keys Hu Hk|htr key ref todo Hm|htr key e store p lab He Hs Hrun
    |htr key ref todo e store p lab Hm He Hs Hrun]; intros Hinv.
  - destruct Hinv as [I1 I2 I3 I4]. split; cbn; [|done..].
    intros k e He. eapply entry_inv_store; [by eapply NewFromMap_store|by apply I1].
  - destruct (String_ok _ _ (to_tester _ _ Hok)) as [key Hkey].
    destruct (addTest_spec htr ht ref now r key Hinv Hu Hok Hkey) as (htr1 & r1 & E & Hi & _).
    rewrite Ha in E. by injection E as -> ->.
  - destruct (HealthTest_String (htr_testers htr) ht) as [key| |] eqn:Hkey;
      [|unfold removeTest in Hr; rewrite Hkey in Hr; done..].
    destruct (removeTest_spec htr ht ref key Hinv Hu Hkey) as (htr1 & ht1 & E & Hi & _).
    rewrite Hr in E. by injection E as -> ->.
  - destruct add; [by apply refAll_add_spec|]. unfold refAllGlobalHealthChecks, set_mutex.
    assert (Hidle : ∀ k r l, htr_mutex htr ≠ Stopping k r l) by (by rewrite Hu).
    apply runner_inv_idle; [apply Hinv|by apply idle_references|apply go_on_not_stopping|apply go_on_visiting].
  - by apply visit_inv.
  - pose proof (proc_step_frame _ _ _ _ _ Hs) as (Hle & Hp & Ht & Hip). destruct Hinv as [I1 I2 I3 I4].
    split; cbn; [| | |done].
    + apply map_Forall_insert_2.
      * destruct (I1 key e He) as [? Hpi Hkey Hpar]. split; unfold e_test; cbn in *.
        -- done.
        -- exact (proc_step_inv _ _ _ Hs Hpi).
        -- eapply String_store; [done|]. rewrite <-Hkey. apply String_same; auto.
        -- by rewrite Hp.
      * intros k e' He'. eapply entry_inv_store; [done|by apply I1].
    + intros k e' [[<- <-]|[_ ?]]%lookup_insert_Some; [exact (I2 key e He)|by apply I2].
    + intros k ref todo Hm. rewrite lookup_insert. case_decide; [by eexists|by eapply I3].
  - pose proof (proc_step_frame _ _ _ _ _ Hs) as (Hle & _).
    apply runner_inv_idle; [| |apply go_on_not_stopping|apply go_on_visiting].
    + intros k e' [_ He']%lookup_delete_Some. eapply entry_inv_store; [done|by apply Hinv].
    + intros k e' [Hne He']%lookup_delete_Some Hemp.
      apply (ri_stopping _ Hinv k e' He') in Hemp as (ref' & todo' & E). congruence.
Qed.

Lemma runner_reachable_inv htr : runner_reachable htr → runner_inv htr.
Proof.
  intros [store Hr].
  assert (Hinit : runner_inv (mkRunner store ∅ Unlocked)) by (by apply runner_inv_idle).
  induction Hr as [|a b c Hab _ IH]; [done|]. apply IH. by eapply runner_step_inv.
Qed.

(** *** Operations that wait *)

(** A step while an operation holds the mutex. *)
Definition busy_step (a b : HealthTestRunner) : Prop := htr_mutex a ≠ Unlocked ∧ runner_step a b.

(** The operation with the reference [ref] still has to visit [todo]. *)
Definition holding (ref : string) (todo : list string) (h : holder) : Prop :=
  h = go_on ref todo ∨ ∃ k, h = Stopping k ref todo ∧ k ∉ todo.

(** From [htr] to [htr'] the reference has been dropped from the global tests
    among [todo] that are no longer among [todo']. *)
Record dropped (ref : string) (htr : HealthTestRunner) (todo : list string)
    (htr' : HealthTestRunner) (todo' : list string) : Prop := {
  dr_holding : holding ref todo' (htr_mutex htr');
  dr_NoDup : NoDup todo';
  dr_subset : ∀ k, k ∈ todo' → k ∈ todo;
  dr_global : ∀ k, k ∈ todo' → global_key htr' k ↔ global_key htr k;
  dr_refers : ∀ k s, refers htr' k s ↔
    refers htr k s ∧ ¬ (s = ref ∧ k ∈ todo ∧ (k ∉ todo') ∧ global_key htr k)
}.

Lemma dropped_refl ref htr todo :
  holding ref todo (htr_mutex htr) → NoDup todo → dropped ref htr todo htr todo.
Proof. intros. split; try done. intros k s. tauto. Qed.

(** A step of a test changes neither the references nor the kind of an entry. *)
Lemma test_step_same htr key e store p lab h (htr' := mkRunner store
    (<[key := mkRunnerEntry p (e_references e)]> (htr_entries htr)) h) :
  htr_entries htr !! key = Some e → proc_step (htr_testers htr, e_proc e) lab (store, p) →
  (∀ k s, refers htr' k s ↔ refers htr k s) ∧ (∀ k, global_key htr' k ↔ global_key htr k).
Proof.
  intros He (_ & Hp & _)%proc_step_frame. unfold refers, global_key, htr'. cbn.
  split; intros k; [intros s|]; (destruct (decide (key = k)) as [<-|Hne];
    [rewrite lookup_insert_eq, He, !exists_Some; cbn; unfold e_global, e_test; cbn; by rewrite ?Hp
    |by rewrite lookup_insert_ne]).
Qed.

(** What a step does to the mutex that an operation holds. *)
Lemma busy_step_mutex ref todo a b :
  busy_step a b → runner_inv a → holding ref todo (htr_mutex a) →
  htr_mutex b = htr_mutex a ∧ (∀ k s, refers b k s ↔ refers a k s) ∧ (∀ k, global_key b k ↔ global_key a k) ∨
  (∃ key todo', todo = key :: todo' ∧ htr_mutex a = Visiting ref todo ∧ b = visit a key ref todo') ∨
  (∃ key, htr_mutex a = Stopping key ref todo ∧ htr_mutex b = go_on ref todo ∧
     (∀ k s, refers b k s ↔ refers a k s) ∧ (∀ k, k ≠ key → global_key b k ↔ global_key a k)).
Proof.
  intros [Hbusy Hstep] Hinv Hh. destruct Hstep as [htr i store x HN|htr ht ref' now r htr' r' Hu|htr ht ref' htr' ht' Hu
    |htr ref' add keys Hu|htr key ref' todo' Hm|htr key e store p lab He Hs Hrun
    |htr key ref' todo' e store p lab Hm He Hs Hrun]; try done.
  - by left.
  - right; left. exists key, todo'. rewrite Hm in Hh. destruct Hh as [E|(k & E & _)]; [|done].
    destruct todo as [|k todo]; [done|]. injection E as -> -> ->. done.
  - left. split; [done|]. by eapply test_step_same.
  - right; right. exists key. rewrite Hm in Hh. destruct Hh as [E|(k & E & _)]; [by destruct todo|].
    injection E as -> -> ->. split_and!; [done|done| |].
    + intros k' s. unfold refers, after_Stop. cbn. destruct (decide (k = k')) as [<-|Hne].
      * rewrite lookup_delete_eq, He, exists_None, exists_Some.
        assert (e_references e = ∅) as -> by (apply (ri_stopping _ Hinv k e He); by eauto). set_solver.
      * by rewrite lookup_delete_ne.
    + intros k' Hne. unfold global_key, after_Stop. cbn. by rewrite lookup_delete_ne.
Qed.

Lemma dropped_step ref htr todo a todo1 b :
  dropped ref htr todo a todo1 → runner_inv a → busy_step a b →
  ∃ todo2, dropped ref htr todo b todo2.
Proof.
  intros [Hh Hnd Hsub Hg Hr] Hinv Hstep.
  destruct (busy_step_mutex ref todo1 a b Hstep Hinv Hh)
    as [(Hm & Hr1 & Hg1)|[(key & todo' & -> & Hm & ->)|(key & Hm & Hm' & Hr1 & Hg1)]].
  - exists todo1. split; [by rewrite Hm|done|done| |].
    + intros k Hk. rewrite Hg1. by apply Hg.
    + intros k s. rewrite Hr1. apply Hr.
  - apply NoDup_cons in Hnd as [Hkey Hnd]. exists todo'. split; [|done|set_solver| |].
    + unfold visit. destruct (htr_entries a !! key) as [t|]; [|by left]. destruct (e_global t); [|by left].
      unfold drop_reference. cbn. case_decide; [right; by exists key|by left].
    + intros k Hk. rewrite <-Hg by set_solver. unfold global_key.
      pose proof (visit_procs a key ref todo' k) as Hv.
      destruct (htr_entries (visit a key ref todo') !! k) as [e|], (htr_entries a !! k) as [e'|];
        cbn in Hv; try done.
      injection Hv as Hv. rewrite !exists_Some. unfold e_global, e_test. by rewrite Hv.
    + intros k s. rewrite visit_refers, Hr, (Hg key) by set_solver. destruct (decide (k = key)) as [->|Hne].
      * assert (key ∈ todo) by set_solver. set_solver.
      * rewrite not_elem_of_cons. naive_solver.
  - destruct Hh as [E|(k & E & Hk)]; [rewrite Hm in E; by destruct todo1|]. rewrite Hm in E. injection E as <-.
    exists todo1. split; [by left|done|done| |].
    + intros k Hk'. rewrite Hg1 by (by intros ->). by apply Hg.
    + intros k s. rewrite Hr1. apply Hr.
Qed.

Lemma dropped_run ref htr todo a b todo1 :
  rtc busy_step a b → dropped ref htr todo a todo1 → runner_inv a →
  ∃ todo2, dropped ref htr todo b todo2.
Proof.
  intros Hrun. revert todo1. induction Hrun as [a|a a' b Hstep _ IH]; intros todo1 Hd Hinv; [by exists todo1|].
  destruct (dropped_step _ _ _ _ _ _ Hd Hinv Hstep) as [todo2 Hd2].
  eapply IH; [done|]. eapply runner_step_inv; [apply Hstep|done].
Qed.

(** When the operation is done, all it had to visit has been visited. *)
Lemma dropped_done ref htr todo htr' todo' k s :
  dropped ref htr todo htr' todo' → htr_mutex htr' = Unlocked →
  refers htr' k s ↔ refers htr k s ∧ ¬ (s = ref ∧ k ∈ todo ∧ global_key htr k).
Proof.
  intros [Hh _ _ _ Hr] Hu. rewrite Hr. rewrite Hu in Hh. destruct Hh as [E|(? & E & _)]; [|done].
  destruct todo'; [|done]. assert (k ∉ @nil string) by (apply not_elem_of_nil). tauto.
Qed.
(** An entry only goes when its test is stopped. *)
Lemma entry_gone htr htr' k e :
  runner_inv htr → runner_step htr htr' → htr_entries htr !! k = Some e → htr_entries htr' !! k = None →
  (∀ s, ¬ refers htr k s) ∧
  ∃ lab store p, proc_step (htr_testers htr, e_proc e) lab (store, p) ∧ ht_running (p_test p) = false.
Proof.
  intros Hinv Hstep He Hgone.
  destruct Hstep as [htr i store x HN|htr ht ref now r htr' r' Hu Hok Ha|htr ht ref htr' ht' Hu Hr
    |htr ref add keys Hu|htr key ref todo Hm|htr key e' store p lab He' Hs Hrun
    |htr key ref todo e' store p lab Hm He' Hs Hrun]; cbn in Hgone.
  - congruence.
  - destruct (String_ok _ _ (to_tester _ _ Hok)) as [key Hkey].
    destruct (addTest_spec htr ht ref now r key Hinv Hu Hok Hkey) as (htr1 & r1 & E & _ & _ & _ & Hgrow & _).
    rewrite Ha in E. injection E as -> ->. specialize (Hgrow k). rewrite He, Hgone in Hgrow.
    by destruct Hgrow as [? ?]; [by eexists|].
  - destruct (HealthTest_String (htr_testers htr) ht) as [key| |] eqn:Hkey;
      [|unfold removeTest in Hr; rewrite Hkey in Hr; done..].
    destruct (removeTest_spec htr ht ref key Hinv Hu Hkey) as (htr1 & ht1 & E & _ & _ & Hp & _).
    rewrite Hr in E. injection E as -> ->. specialize (Hp k). by rewrite He, Hgone in Hp.
  - unfold refAllGlobalHealthChecks in Hgone. destruct add; cbn in Hgone; [|congruence].
    by rewrite lookup_fmap, He in Hgone.
  - pose proof (visit_procs htr key ref todo k) as Hp. by rewrite He, Hgone in Hp.
  - rewrite lookup_insert in Hgone. case_decide; [done|congruence].
  - apply lookup_delete_None in Hgone as [<-|?]; [|congruence]. rewrite He in He'. injection He' as <-. split.
    + intros s (e' & He2 & Hs2). rewrite He in He2. injection He2 as <-.
      assert (e_references e = ∅) as Hemp by (apply (ri_stopping _ Hinv key e He); by eauto).
      rewrite Hemp in Hs2. by apply elem_of_empty in Hs2.
    + by exists lab, store, p.
Qed.

Lemma removeTest_holding htr ht ref htr' ht' :
  htr_mutex htr = Unlocked → removeTest htr ht ref = Ret (htr', ht') → holding ref [] (htr_mutex htr').
Proof.
  intros Hu Hr. unfold removeTest in Hr. apply bind_Ret in Hr as (key & _ & Hr).
  destruct (htr_entries htr !! key) as [t|]; injection Hr as <- _; [|by left].
  unfold drop_reference. cbn. case_decide; [right; exists key; split; [done|apply not_elem_of_nil]|by left].
Qed.
End runner.

(** ** Executions

    An execution is a sequence of states; from one to the next the runner makes
    a step or other parts of the program do. *)

Section executions.
Context `{GoFormatMap} `{GoFormat} `{GoArch} `{GoRand rng}.

Definition execution (e : nat → HealthTestRunner) : Prop :=
  runner_reachable (e 0%nat) ∧ ∀ n, runner_step (e n) (e (S n)) ∨ e (S n) = e n.

(** The polls of the test of an entry. *)
Definition polls_of (htr : HealthTestRunner) (k : string) : list (option bool) :=
  from_option (λ e, p_pollers (e_proc e)) [] (htr_entries htr !! k).

(** The [select] of the loop of a test could receive the request of [Stop]. *)
Definition stop_ready (htr : HealthTestRunner) (k : string) : Prop :=
  ∃ e lab store p, htr_entries htr !! k = Some e ∧
    proc_step (htr_testers htr, e_proc e) lab (store, p) ∧ ht_running (p_test p) = false.

(** What the scheduler and the world owe an execution:
    - the testers return: no poll runs its tester for ever;
    - the loop of a test does not leave a result that is offered to it for ever;
    - the operation that holds the mutex goes on with its loop;
    - the [select] is fair to [Stop]: a request is received, unless from some
      time on it can never be received. *)
Record fair (e : nat → HealthTestRunner) : Prop := {
  fair_testers : ∀ n k, polls_of (e n) k = [None] →
    ∃ m, (n ≤ m)%nat ∧ polls_of (e m) k ≠ [None];
  fair_results : ∀ n k h, polls_of (e n) k = [Some h] →
    ∃ m, (n ≤ m)%nat ∧ polls_of (e m) k ≠ [Some h];
  fair_loop : ∀ n ref todo, htr_mutex (e n) = Visiting ref todo →
    ∃ m, (n ≤ m)%nat ∧ htr_mutex (e m) ≠ Visiting ref todo;
  fair_select : ∀ n k ref todo, htr_mutex (e n) = Stopping k ref todo →
    ∃ m, (n ≤ m)%nat ∧
      (htr_mutex (e m) ≠ Stopping k ref todo ∨ ∀ m', (m ≤ m')%nat → ¬ stop_ready (e m') k)
}.

(** Something that stops to hold does so in some step. *)
Lemma first_change (P : nat → Prop) `{∀ n, Decision (P n)} n m :
  (n ≤ m)%nat → P n → ¬ P m → ∃ i, (n ≤ i < m)%nat ∧ P i ∧ ¬ P (S i).
Proof.
  intros Hle. induction Hle as [|m Hle IH]; intros Hn Hm; [done|].
  destruct (decide (P m)) as [HP|HP]; [exists m; split; [lia|done]|].
  destruct (IH Hn HP) as (i & ? & ? & ?). exists i. split; [lia|done].
Qed.

Context (e : nat → HealthTestRunner) (Hexec : execution e) (Hfair : fair e).

Lemma exec_inv n : runner_inv (e n).
Proof.
  destruct Hexec as [Hre Hstep]. induction n as [|n IH]; [by apply runner_reachable_inv|].
  destruct (Hstep n) as [Hs|E]; [by eapply runner_step_inv|by rewrite E].
Qed.

(** An operation that holds the mutex gets further with every step that
    changes the holder. *)
Definition work (h : holder) : nat :=
  match h with
  | Unlocked => 0
  | Stopping _ _ todo => 2 * length todo + 1
  | Visiting _ todo => 2 * length todo
  end.

Lemma work_go_on ref todo : work (go_on ref todo) = (2 * length todo)%nat.
Proof. by destruct todo. Qed.

Lemma work_decreases n :
  htr_mutex (e n) ≠ Unlocked → htr_mutex (e (S n)) ≠ htr_mutex (e n) →
  (work (htr_mutex (e (S n))) < work (htr_mutex (e n)))%nat.
Proof.
  intros Hb Hc. destruct (proj2 Hexec n) as [Hs|E]; [|by rewrite E in Hc].
  destruct Hs as [htr i store x HN|htr ht ref now r htr' r' Hu|htr ht ref htr' ht' Hu
    |htr ref add keys Hu|htr key ref todo Hm|htr key en store p lab He Hs Hrun
    |htr key ref todo en store p lab Hm He Hs Hrun]; try done.
  - rewrite Hm. unfold visit, drop_reference. repeat case_match; cbn; try case_decide; cbn;
      rewrite ?work_go_on; cbn; lia.
  - rewrite Hm. cbn. rewrite work_go_on. lia.
Qed.

(** A test without a poll can be stopped. *)
Lemma idle_ready n k en :
  htr_entries (e n) !! k = Some en → p_pollers (e_proc en) = [] → stop_ready (e n) k.
Proof.
  intros He Hp. destruct (ri_entries _ (exec_inv n) k en He) as [Hrun Hpi _ _].
  unfold proc_inv in Hpi. destruct en as [[ht [np [ps|] fc] ps'] refs]; cbn in *.
  { destruct Hpi as [_ [x Hx]]. by rewrite Hx in Hp. }
  eexists _, None, _, _. split; [done|]. split; [by apply step_stop|done].
Qed.

(** A step that ends the offer of a result leaves the test without a poll. *)
Lemma result_taken n k en en' h :
  htr_entries (e n) !! k = Some en → htr_entries (e (S n)) !! k = Some en' →
  p_pollers (e_proc en) = [Some h] → p_pollers (e_proc en') ≠ [Some h] →
  htr_mutex (e n) ≠ Unlocked → p_pollers (e_proc en') = [].
Proof.
  intros He He' Hp Hp' Hb. pose proof (ri_entries _ (exec_inv n) k en He) as [_ Hpi _ _].
  assert (Hsame : e_proc en' = e_proc en → p_pollers (e_proc en') = []) by congruence.
  destruct (proj2 Hexec n) as [Hs|E]; [|rewrite E in He'; apply Hsame; congruence].
  revert He He'. destruct Hs as [htr i store x HN|htr ht ref now r htr' r' Hu|htr ht ref htr' ht' Hu
    |htr ref add keys Hu|htr key ref todo Hm|htr key en1 store p lab He1 Hs Hrun
    |htr key ref todo en1 store p lab Hm He1 Hs Hrun]; intros He He'; try done.
  - apply Hsame. cbn in He'. congruence.
  - pose proof (visit_procs htr key ref todo k) as Hv. rewrite He, He' in Hv. apply Hsame. by injection Hv.
  - cbn in He'. apply lookup_insert_Some in He' as [[-> <-]|[_ ?]]; [|apply Hsame; congruence].
    rewrite He in He1. injection He1 as <-. destruct en as [[ht0 rs0 ps0] refs0].
    cbn in Hp, Hp', Hpi, Hs |- *. subst ps0. unfold proc_inv in Hpi. cbn in Hpi.
    inversion Hs; subst; cbn in *; try done.
    all: match goal with Hi : [Some _] !! _ = Some _ |- _ => apply list_lookup_singleton_Some in Hi as [-> ?] end.
    all: done.
  - cbn in He'. apply lookup_delete_Some in He' as [_ ?]. apply Hsame. congruence.
Qed.

(** [Stop] returns. *)
Lemma stop_released n k ref todo :
  htr_mutex (e n) = Stopping k ref todo →
  ∃ m, (n ≤ m)%nat ∧ htr_mutex (e m) ≠ Stopping k ref todo.
Proof.
  intros Hn. destruct (fair_select _ Hfair n k ref todo Hn) as (m0 & H0' & [?|Hnever]); [by exists m0|].
  (* At any later time the operation is done, or the test has a poll. *)
  assert (Hpoll : ∀ m, (m0 ≤ m)%nat → htr_mutex (e m) ≠ Stopping k ref todo ∨
    ∃ en x, htr_entries (e m) !! k = Some en ∧ p_pollers (e_proc en) = [x]).
  { intros m Hm. destruct (decide (htr_mutex (e m) = Stopping k ref todo)) as [Hs|]; [right|by left].
    destruct (ri_stopped _ (exec_inv m) k ref todo Hs) as [en He].
    destruct (ri_entries _ (exec_inv m) k en He) as [_ Hpi _ _]. unfold proc_inv in Hpi.
    destruct (rs_pollStart _); [destruct Hpi as [_ [x Hx]]; by exists en, x|].
    destruct (Hnever m Hm). by eapply idle_ready. }
  (* So a result is offered at some time. *)
  assert (∃ m1, (m0 ≤ m1)%nat ∧ (htr_mutex (e m1) ≠ Stopping k ref todo ∨
    ∃ en h, htr_entries (e m1) !! k = Some en ∧ p_pollers (e_proc en) = [Some h])) as (m1 & Hm1 & Hoffer).
  { destruct (Hpoll m0 (le_n _)) as [?|(en & [h|] & He & Hp)]; [exists m0; by eauto|exists m0; by eauto 7|].
    destruct (fair_testers _ Hfair m0 k) as (m1 & Hm1 & Hne); [unfold polls_of; by rewrite He|].
    exists m1. split; [done|]. destruct (Hpoll m1 Hm1) as [?|(en1 & [h|] & He1 & Hp1)]; [by left|by eauto 6|].
    unfold polls_of in Hne. by rewrite He1 in Hne. }
  destruct Hoffer as [?|(en & h & He & Hp)]; [exists m1; split; [lia|done]|].
  (* And when it is taken the test has no poll. *)
  destruct (fair_results _ Hfair m1 k h) as (m2 & Hm2 & Hne); [unfold polls_of; by rewrite He|].
  destruct (first_change (λ i, polls_of (e i) k = [Some h]) m1 m2 Hm2) as (i & Hi & Hpi & Hpn);
    [unfold polls_of; by rewrite He|done|].
  destruct (decide (htr_mutex (e i) = Stopping k ref todo)) as [Hsi|?]; [|exists i; split; [lia|done]].
  destruct (Hpoll (S i)) as [?|(en2 & x & He2 & Hp2)]; [lia|exists (S i); split; [lia|done]|].
  destruct (ri_stopped _ (exec_inv i) k ref todo Hsi) as [en1 He1].
  unfold polls_of in Hpi, Hpn. rewrite He1 in Hpi. rewrite He2 in Hpn. cbn in Hpi, Hpn.
  exfalso. assert (p_pollers (e_proc en2) = []) as E; [|by rewrite E in Hp2].
  eapply result_taken; [exact He1|exact He2|exact Hpi|exact Hpn|by rewrite Hsi].
Qed.

(** Whoever holds the mutex releases it. *)
Lemma mutex_released n : ∃ m, (n ≤ m)%nat ∧ htr_mutex (e m) = Unlocked.
Proof.
  remember (work (htr_mutex (e n))) as w eqn:Ew. revert n Ew.
  induction (lt_wf w) as [w _ IH]. intros n ->.
  destruct (decide (htr_mutex (e n) = Unlocked)) as [?|Hb]; [by exists n|].
  assert (∃ m, (n ≤ m)%nat ∧ htr_mutex (e m) ≠ htr_mutex (e n)) as (m & Hm & Hne).
  { destruct (htr_mutex (e n)) eqn:E; [done|by apply stop_released|by apply (fair_loop _ Hfair)]. }
  destruct (first_change (λ i, htr_mutex (e i) = htr_mutex (e n)) n m Hm) as (i & Hi & Hs & Hc); [done..|].
  rewrite <-Hs in Hc. assert (Hlt := work_decreases i ltac:(by rewrite Hs) Hc). rewrite Hs in Hlt.
  destruct (IH _ Hlt (S i) eq_refl) as (m' & ? & ?). exists m'. split; [lia|done].
Qed.
End executions.

(** ** Properties *)

(** C17: the runner runs a test exactly as long as it is referred to.  In every
    reachable state every entry is a running test, with a reference unless an
    operation is just stopping it; and an entry only goes in the step in which
    its loop receives the request of [Stop], when nobody refers to it.  When
    no operation holds the mutex, adding a reference returns and adds it;
    removing one removes it and nothing else, returns when there are others,
    and waits in [Stop] when it was the last.  Adding a reference to all global
    tests adds just that, and when dropping it from all of them has returned it
    is gone from all global tests and nothing else is. *)
Theorem runner_counts_references `{GoFormatMap} `{GoFormat} `{GoArch} `{GoRand rng}
    (htr : HealthTestRunner) :
  runner_reachable htr →
  (∀ k e, htr_entries htr !! k = Some e → ht_running (e_test e) = true ∧
     ((∃ s, refers htr k s) ∨ ∃ ref todo, htr_mutex htr = Stopping k ref todo)) ∧
  (∀ htr' k e, runner_step htr htr' → htr_entries htr !! k = Some e → htr_entries htr' !! k = None →
     (∀ s, ¬ refers htr k s) ∧
     ∃ lab store p, proc_step (htr_testers htr, e_proc e) lab (store, p) ∧
       ht_running (p_test p) = false) ∧
  (htr_mutex htr = Unlocked → ∀ ht ref key,
     test_ok (htr_testers htr) ht → HealthTest_String (htr_testers htr) ht = Ret key →
     (∀ now (r : rng), ∃ htr' r', addTest htr ht ref now r = Ret (htr', r') ∧
        htr_mutex htr' = Unlocked ∧
        ∀ k s, refers htr' k s ↔ refers htr k s ∨ (k = key ∧ s = ref)) ∧
     (∃ htr1 ht', removeTest htr ht ref = Ret (htr1, ht') ∧
        (last_reference htr key ref → htr_mutex htr1 = Stopping key ref []) ∧
        (¬ last_reference htr key ref → htr_mutex htr1 = Unlocked) ∧
        ∀ htr', rtc busy_step htr1 htr' →
          ∀ k s, refers htr' k s ↔ refers htr k s ∧ ¬ (k = key ∧ s = ref))) ∧
  (htr_mutex htr = Unlocked → ∀ ref keys, keys ≡ₚ (map_to_list (htr_entries htr)).*1 →
     (∀ k s, refers (refAllGlobalHealthChecks htr ref true keys) k s ↔
        refers htr k s ∨ (global_key htr k ∧ s = ref)) ∧
     (∀ htr', rtc busy_step (refAllGlobalHealthChecks htr ref false keys) htr' →
        htr_mutex htr' = Unlocked →
        ∀ k s, refers htr' k s ↔ refers htr k s ∧ ¬ (global_key htr k ∧ s = ref))).
Proof.
  intros Hre. apply runner_reachable_inv in Hre as Hinv. split_and!.
  - intros k e He. split; [by apply (ri_entries _ Hinv k e He)|].
    destruct (decide (e_references e = ∅)) as [Hemp|Hne].
    + right. by apply (ri_stopping _ Hinv k e He).
    + left. apply set_choose_L in Hne as [s Hs]. by exists s, e.
  - intros htr' k e Hstep He Hgone. by eapply entry_gone.
  - intros Hu ht ref key Hok Hkey. split.
    + intros now r. destruct (addTest_spec htr ht ref now r key Hinv Hu Hok Hkey)
        as (htr' & r' & E & _ & _ & Hm & _ & Hrefs). eauto.
    + destruct (removeTest_spec htr ht ref key Hinv Hu Hkey)
        as (htr1 & ht' & E & Hinv1 & _ & _ & Hrefs & Hlast & Hother).
      exists htr1, ht'. split_and!; [done..|]. intros htr' Hrun k s. rewrite <-Hrefs.
      assert (Hd : dropped ref htr1 [] htr1 []).
      { apply dropped_refl; [|constructor]. eapply removeTest_holding; [done|exact E]. }
      destruct (dropped_run _ _ _ _ _ _ Hrun Hd Hinv1) as [todo2 Hd2].
      rewrite (dr_refers _ _ _ _ _ Hd2). set_solver.
  - intros Hu ref keys Hkeys. split; [by apply refAll_add_spec|]. intros htr' Hrun Hm k s.
    set (htr1 := refAllGlobalHealthChecks htr ref false keys) in *.
    assert (Hinv1 : runner_inv htr1).
    { eapply runner_step_inv; [by apply (rstep_all htr ref false keys Hu)|done]. }
    assert (Hd : dropped ref htr1 keys htr1 keys).
    { apply dropped_refl; [by left|]. rewrite Hkeys. apply NoDup_fst_map_to_list. }
    destruct (dropped_run _ _ _ _ _ _ Hrun Hd Hinv1) as [todo2 Hd2].
    rewrite (dropped_done _ _ _ _ _ k s Hd2 Hm).
    change (refers htr1 k s) with (refers htr k s). change (global_key htr1 k) with (global_key htr k).
    assert (Hin : global_key htr k → k ∈ keys).
    { intros (e & He & _). rewrite Hkeys. apply list_elem_of_fmap. exists (k, e). by rewrite elem_of_map_to_list. }
    tauto.
Qed.

(** C24: no operation of the runner waits for ever.  In every fair execution,
    in which the testers return, whoever holds the mutex of the runner releases
    it: the removal of a last reference waits in [Stop] until the poll that is
    under way has ended and its result has been received, then the loop can
    receive the request, and it can do so again and again until it does.  (The
    execution may go on polling meanwhile; fairness only demands that a request
    that can be received over and over is received.) *)
Theorem operations_complete `{GoFormatMap} `{GoFormat} `{GoArch} `{GoRand rng}
    (e : nat → HealthTestRunner) (n : nat) :
  execution e → fair e → ∃ m, (n ≤ m)%nat ∧ htr_mutex (e m) = Unlocked.
Proof. intros. by apply mutex_released. Qed.

(** As long as the tester does not return, nothing releases the mutex: no step
    ends the [Stop] of a test with a poll under way. *)
Theorem stop_waits_for_poll `{GoFormatMap} `{GoFormat} `{GoArch} `{GoRand rng}
    (htr htr' : HealthTestRunner) (k ref : string) (todo : list string) :
  runner_reachable htr → htr_mutex htr = Stopping k ref todo → polls_of htr k = [None] →
  runner_step htr htr' → htr_mutex htr' = Stopping k ref todo.
Proof.
  intros Hre%runner_reachable_inv Hm Hp Hstep. destruct (ri_stopped _ Hre _ _ _ Hm) as [en He].
  unfold polls_of in Hp. rewrite He in Hp. cbn in Hp.
  destruct (ri_entries _ Hre k en He) as [_ Hpi _ _]. unfold proc_inv in Hpi.
  destruct Hstep as [htr i store x HN|htr ht ref' now r htr' r' Hu|htr ht ref' htr' ht' Hu
    |htr ref' add keys Hu|htr key ref' todo' Hv|htr key en1 store p lab He1 Hs Hrun
    |htr key ref' todo' en1 store p lab Hm1 He1 Hs Hrun]; try (cbn; congruence).
  rewrite Hm in Hm1. injection Hm1 as <- <- <-. rewrite He in He1. injection He1 as <-. exfalso.
  destruct en as [[ht0 rs0 ps0] refs0]. cbn in Hp, Hpi, Hs. subst ps0.
  inversion Hs as [| ? ? ? ? ? ? ? ? ? ? ? ? HT| |]; subst; cbn in *; try done.
  - apply Test_frame in HT as [[g ->] _]. destruct (rs_pollStart rs0); [|done]. cbn in Hrun.
    destruct Hpi as [Hr _]. congruence.
  - match goal with Hi : [None] !! _ = Some _ |- _ => apply list_lookup_singleton_Some in Hi as [_ ?] end. done.
Qed.

(** A file test that is stopped and started again forgets what the file
    says.  The first run reads the map of the file; the tester, which the
    tests share, remembers that it has read the file; after a restart the test
    passes, but its map stays empty as long as the file does not change, and
    every address is reported with the default of its test. *)
Theorem file_test_restart `{GoFormatMap} `{GoFormat} `{GoRand rng} (out : outside)
    (path bytes : string) (modTime : Z) (m : gmap string bool) (ht : HealthTest) :
  path ≠ "" → os_file out path = FileBytes modTime bytes →
  UnmarshalBools out bytes = Some m → sha256_hex out bytes ≠ "" →
  htp_global (ht_params ht) = true →
  ∃ t, Test out (FileHealthTester path "" None) ht = Ret (true, t, setGlobal ht m) ∧
    ∀ htr key ref now (r : rng) htr' r',
      htr_testers htr !! ht_tester ht = Some t →
      HealthTest_String (htr_testers htr) ht = Ret key → htr_entries htr !! key = None →
      addTest htr ht ref now r = Ret (htr', r') →
      ∃ e, htr_entries htr' !! key = Some e ∧
        Test out t (e_test e) = Ret (true, t, e_test e) ∧
        ∀ ht', HealthTest_String (htr_testers htr') ht' = Ret key →
          runner_isHealthy htr' ht' = Ret (ht_healthy ht').
Proof.
  intros Hp Hf Hm Hh Hg. exists (FileHealthTester path (sha256_hex out bytes) (Some modTime)).
  assert (HT : ∀ q, Test out (FileHealthTester path (sha256_hex out bytes) (Some modTime)) q
    = Ret (true, FileHealthTester path (sha256_hex out bytes) (Some modTime), q)).
  { intros q. unfold Test, File_Test. rewrite slen_eqb_zero, bool_decide_eq_false_2, Hf by done.
    by rewrite bool_decide_eq_true_2. }
  split.
  - unfold Test, File_Test. rewrite slen_eqb_zero, bool_decide_eq_false_2, Hf by done.
    by rewrite !bool_decide_eq_false_2, Hm by done.
  - intros htr key ref now r htr' r' Ht Hkey Hnone Ha. unfold addTest in Ha.
    rewrite Hkey in Ha. cbn [mbind res_bind] in Ha. rewrite Hnone in Ha.
    change (setHealthy _ _) with (started ht) in Ha.
    apply bind_Ret in Ha as ([p r1] & Hs & Ha). simplify_eq.
    destruct (start_spec _ _ _ _ _ Hs) as (Htest & _).
    assert (Hmap : ht_globalMap (p_test p) = ∅ ∧ htp_global (ht_params (p_test p)) = true).
    { rewrite Htest. unfold started. cbn. by rewrite Hg. }
    eexists. split; [apply lookup_insert_eq|]. split; [apply HT|]. intros ht' Hkey'.
    unfold runner_isHealthy. rewrite Hkey'. cbn. rewrite lookup_insert_eq. unfold e_global, e_test, getGlobal.
    destruct Hmap as [Hmap Hgl]. cbn [e_proc]. by rewrite Hgl, Hmap, lookup_empty.
Qed.

(** ** Examples *)

Definition example_runner : HealthTestRunner := mkRunner [TcpHealthTester 53] ∅ Unlocked.

Lemma example_runner_reachable :
  @runner_reachable blank_map blank_format arch_amd64 _ GoRand_replay example_runner.
Proof. exists [TcpHealthTester 53]. apply rtc_refl. Qed.

Lemma runner_counts_references_witness :
  ∃ htr' r', @addTest blank_map _ GoRand_replay example_runner tcp_test_v4 "zone" 1000 [5]
      = Ret (htr', r') ∧ htr_mutex htr' = Unlocked ∧
    ∀ k s, refers htr' k s ↔ refers example_runner k s ∨ (k = tcp_key ∧ s = "zone").
Proof.
  destruct (@runner_counts_references blank_map blank_format arch_amd64 _ GoRand_replay
    example_runner example_runner_reachable) as (_ & _ & Hops & _).
  exact (proj1 (Hops eq_refl tcp_test_v4 "zone" tcp_key (tcp_test_ok _ example_v4_bytes) tcp_key_ok)
    1000 [5]).
Defined.

(** The test is added, its only reference is removed, and its loop receives the
    request to stop. *)
Definition added_runner : HealthTestRunner :=
  match @addTest blank_map _ GoRand_replay example_runner tcp_test_v4 "zone" 1000 [5] with
  | Ret (htr, _) => htr
  | _ => example_runner
  end.

Definition stopping_runner : HealthTestRunner :=
  match @removeTest blank_map added_runner tcp_test_v4 "zone" with
  | Ret (htr, _) => htr
  | _ => example_runner
  end.

Definition example_execution (n : nat) : HealthTestRunner :=
  match n with
  | O => stopping_runner
  | S _ => after_Stop stopping_runner [TcpHealthTester 53] tcp_key "zone" []
  end.

Definition added_proc : proc :=
  match @start _ GoRand_replay (started tcp_test_v4) 1000 [5] with
  | Ret (p, _) => p
  | _ => tcp_proc
  end.

Lemma added_runner_ok :
  @addTest blank_map _ GoRand_replay example_runner tcp_test_v4 "zone" 1000 [5] = Ret (added_runner, []).
Proof. vm_compute. reflexivity. Qed.

Lemma stopping_runner_ok :
  @removeTest blank_map added_runner tcp_test_v4 "zone" =
    Ret (stopping_runner, setHealthy tcp_test_v4 false).
Proof. vm_compute. reflexivity. Qed.

Lemma stopping_runner_mutex : htr_mutex stopping_runner = Stopping tcp_key "zone" [].
Proof. vm_compute. reflexivity. Qed.

Lemma stopping_runner_polls k : polls_of stopping_runner k = [].
Proof.
  unfold polls_of. destruct (htr_entries stopping_runner !! k) as [en|] eqn:E; [|done].
  assert (Hall : map_Forall (λ _ en, p_pollers (e_proc en) = []) (htr_entries stopping_runner)).
  { apply (bool_decide_unpack _). vm_compute. exact I. }
  exact (Hall k en E).
Qed.

Lemma example_execution_ok :
  @execution blank_map blank_format arch_amd64 _ GoRand_replay example_execution.
Proof.
  split.
  - exists [TcpHealthTester 53]. eapply rtc_l.
    { eapply (rstep_add example_runner tcp_test_v4 "zone" 1000 [5]); [done| |exact added_runner_ok].
      apply (tcp_test_ok _ example_v4_bytes). }
    eapply rtc_l; [|apply rtc_refl].
    eapply (rstep_remove added_runner tcp_test_v4 "zone"); [vm_compute; reflexivity|exact stopping_runner_ok].
  - intros [|n]; [left|by right]. cbn [example_execution].
    destruct (htr_entries stopping_runner !! tcp_key) as [en|] eqn:E; [|vm_compute in E; discriminate E].
    assert (Hen : en = mkRunnerEntry (mkProc (p_test added_proc)
      (mkRun (rs_nextPoll (p_loop added_proc)) None 0) []) ∅).
    { apply (inj Some). rewrite <-E. vm_compute. reflexivity. }
    eapply rstep_stop; [exact stopping_runner_mutex|exact E| |].
    + rewrite Hen. cbn [e_proc]. change (htr_testers stopping_runner) with [TcpHealthTester 53].
      apply step_stop. vm_compute. reflexivity.
    + reflexivity.
Qed.

Lemma example_execution_fair : @fair blank_format example_execution.
Proof.
  split.
  - intros [|n] k Hp; [by rewrite stopping_runner_polls in Hp|]. exfalso. revert Hp. cbn.
    unfold polls_of, after_Stop. cbn. rewrite lookup_delete. case_decide; [done|].
    pose proof (stopping_runner_polls k) as Hk. unfold polls_of in Hk. by rewrite Hk.
  - intros [|n] k h Hp; [by rewrite stopping_runner_polls in Hp|]. exfalso. revert Hp. cbn.
    unfold polls_of, after_Stop. cbn. rewrite lookup_delete. case_decide; [done|].
    pose proof (stopping_runner_polls k) as Hk. unfold polls_of in Hk. by rewrite Hk.
  - intros [|n] ref todo Hm; [|done]. cbn in Hm. by rewrite stopping_runner_mutex in Hm.
  - intros [|n] k ref todo Hm; [|done]. exists 1%nat. split; [lia|]. by left.
Qed.

Lemma operations_complete_witness :
  htr_mutex (example_execution 0) ≠ Unlocked ∧
  ∃ m, (0 ≤ m)%nat ∧ htr_mutex (example_execution m) = Unlocked.
Proof.
  split; [vm_compute; discriminate|].
  exact (@operations_complete blank_map blank_format arch_amd64 _ GoRand_replay example_execution 0
    example_execution_ok (example_execution_fair)).
Defined.

Definition file_test : HealthTest :=
  NewTest (IPv4 192 0 2 1)
    (mkParams (30 * Second) (5 * Second) (5 * Second) 3 false "file" true) 0.

Lemma file_test_restart_witness :
  ∃ t, @Test blank_format example_outside (FileHealthTester "hosts.json" "" None) file_test
    = Ret (true, t, setGlobal file_test {["192.0.2.1" := true]}).
Proof.
  destruct (@file_test_restart blank_map blank_format _ GoRand_replay example_outside "hosts.json"
    "{192.0.2.1: true}" 7 {["192.0.2.1" := true]} file_test) as (t & E & _);
    [done|reflexivity|reflexivity|done|reflexivity|].
  exists t. exact E.
Defined.
