(* ===== verification/DnsScan.v ===== *)
(** * The zone file parser of the vendored github.com/miekg/dns

    [dns.NewRR] (scan.go, scan_rr.go) as the server uses it: the lexer in full,
    the state machine of [ZoneParser.Next], and the data of an SOA record.  The
    data of the other types, [$INCLUDE] and [$GENERATE] are the class
    [ZoneScan].  Of an error the text is kept and not the position, and reading
    cannot fail, for the input is a string. *)

From S2P Require Import Prelude GoStrings DnsNames DnsMsg.
Local Open Scope Z_scope.

(** ** Tables *)

Definition TypeToString : list (Z * string) :=
  [(1, "A"); (28, "AAAA"); (18, "AFSDB"); (255, "ANY"); (34, "ATMA"); (258, "AVC");
    (252, "AXFR"); (257, "CAA"); (60, "CDNSKEY"); (59, "CDS"); (37, "CERT"); (5, "CNAME");
    (62, "CSYNC"); (49, "DHCID"); (32769, "DLV"); (39, "DNAME"); (48, "DNSKEY"); (43, "DS");
    (31, "EID"); (108, "EUI48"); (109, "EUI64"); (102, "GID"); (27, "GPOS"); (13, "HINFO");
    (55, "HIP"); (20, "ISDN"); (251, "IXFR"); (25, "KEY"); (36, "KX"); (105, "L32"); (106, "L64");
    (29, "LOC"); (107, "LP"); (254, "MAILA"); (253, "MAILB"); (7, "MB"); (3, "MD"); (4, "MF");
    (8, "MG"); (14, "MINFO"); (9, "MR"); (15, "MX"); (35, "NAPTR"); (104, "NID"); (32, "NIMLOC");
    (56, "NINFO"); (2, "NS"); (47, "NSEC"); (50, "NSEC3"); (51, "NSEC3PARAM"); (10, "NULL");
    (30, "NXT"); (0, "None"); (61, "OPENPGPKEY"); (41, "OPT"); (12, "PTR"); (26, "PX");
    (57, "RKEY"); (17, "RP"); (46, "RRSIG"); (21, "RT"); (65535, "Reserved"); (24, "SIG");
    (53, "SMIMEA"); (6, "SOA"); (99, "SPF"); (33, "SRV"); (44, "SSHFP"); (32768, "TA");
    (58, "TALINK"); (249, "TKEY"); (52, "TLSA"); (250, "TSIG"); (16, "TXT"); (101, "UID");
    (100, "UINFO"); (103, "UNSPEC"); (256, "URI"); (19, "X25"); (23, "NSAP-PTR")].

Definition ClassToString : list (Z * string) :=
  [(1, "IN"); (2, "CS"); (3, "CH"); (4, "HS"); (254, "NONE"); (255, "ANY")].

Definition reverseInt16 (m : list (Z * string)) : gmap string Z :=
  list_to_map ((λ e, (e.2, e.1)) <$> m).

Definition StringToType : gmap string Z := reverseInt16 TypeToString.
Definition StringToClass : gmap string Z := reverseInt16 ClassToString.

(** ** Tokens *)

Inductive zvalue :=
| zEOF | zString | zBlank | zQuote | zNewline | zRrtpe | zOwner | zClass
| zDirOrigin | zDirTTL | zDirInclude | zDirGenerate.

#[export] Instance zvalue_eq_dec : EqDecision zvalue.
Proof. solve_decision. Defined.

Record lex := mkLex { lx_token : string; lx_err : bool; lx_value : zvalue; lx_torc : Z }.

(** [lex{}], also [lex{value: zEOF}] *)
Definition lex_zero : lex := mkLex "" false zEOF 0.

(** [l.value, l.token = v, t] and [l.torc = t] on the token the lexer keeps. *)
Definition put_token (l : lex) (v : zvalue) (t : string) : lex := mkLex t (lx_err l) v (lx_torc l).
Definition put_torc (l : lex) (v : zvalue) (torc : Z) : lex := mkLex (lx_token l) (lx_err l) v torc.
Definition put_err (l : lex) (t : string) : lex := mkLex t true (lx_value l) (lx_torc l).

Record zlexer := mkLexer {
  zl_input : string;
  zl_comBuf : string;
  zl_comment : string;
  zl_l : lex;
  zl_brace : Z;
  zl_quote : bool;
  zl_space : bool;
  zl_commt : bool;
  zl_rrtype : bool;
  zl_owner : bool;
  zl_nextL : bool
}.

Definition set_input (z : zlexer) (s : string) : zlexer :=
  mkLexer s (zl_comBuf z) (zl_comment z) (zl_l z) (zl_brace z) (zl_quote z) (zl_space z)
    (zl_commt z) (zl_rrtype z) (zl_owner z) (zl_nextL z).
Definition set_comments (z : zlexer) (comBuf comment : string) : zlexer :=
  mkLexer (zl_input z) comBuf comment (zl_l z) (zl_brace z) (zl_quote z) (zl_space z)
    (zl_commt z) (zl_rrtype z) (zl_owner z) (zl_nextL z).
Definition set_l (z : zlexer) (l : lex) : zlexer :=
  mkLexer (zl_input z) (zl_comBuf z) (zl_comment z) l (zl_brace z) (zl_quote z) (zl_space z)
    (zl_commt z) (zl_rrtype z) (zl_owner z) (zl_nextL z).
Definition set_brace (z : zlexer) (b : Z) : zlexer :=
  mkLexer (zl_input z) (zl_comBuf z) (zl_comment z) (zl_l z) b (zl_quote z) (zl_space z)
    (zl_commt z) (zl_rrtype z) (zl_owner z) (zl_nextL z).
Definition set_quote (z : zlexer) (b : bool) : zlexer :=
  mkLexer (zl_input z) (zl_comBuf z) (zl_comment z) (zl_l z) (zl_brace z) b (zl_space z)
    (zl_commt z) (zl_rrtype z) (zl_owner z) (zl_nextL z).
Definition set_space (z : zlexer) (b : bool) : zlexer :=
  mkLexer (zl_input z) (zl_comBuf z) (zl_comment z) (zl_l z) (zl_brace z) (zl_quote z) b
    (zl_commt z) (zl_rrtype z) (zl_owner z) (zl_nextL z).
Definition set_commt (z : zlexer) (b : bool) : zlexer :=
  mkLexer (zl_input z) (zl_comBuf z) (zl_comment z) (zl_l z) (zl_brace z) (zl_quote z) (zl_space z)
    b (zl_rrtype z) (zl_owner z) (zl_nextL z).
Definition set_rrtype (z : zlexer) (b : bool) : zlexer :=
  mkLexer (zl_input z) (zl_comBuf z) (zl_comment z) (zl_l z) (zl_brace z) (zl_quote z) (zl_space z)
    (zl_commt z) b (zl_owner z) (zl_nextL z).
Definition set_owner (z : zlexer) (b : bool) : zlexer :=
  mkLexer (zl_input z) (zl_comBuf z) (zl_comment z) (zl_l z) (zl_brace z) (zl_quote z) (zl_space z)
    (zl_commt z) (zl_rrtype z) b (zl_nextL z).
Definition set_nextL (z : zlexer) (b : bool) : zlexer :=
  mkLexer (zl_input z) (zl_comBuf z) (zl_comment z) (zl_l z) (zl_brace z) (zl_quote z) (zl_space z)
    (zl_commt z) (zl_rrtype z) (zl_owner z) b.

Definition newZLexer (s : string) : zlexer :=
  mkLexer s "" "" lex_zero 0 false false false false true false.

(** ** The lexer *)

Definition maxTok : Z := 2048.

Definition upper_ascii (a : ascii) : ascii :=
  if (97 <=? byte_val a) && (byte_val a <=? 122) then ascii_of_nat (Z.to_nat (byte_val a - 32)) else a.

Fixpoint ToUpper (s : string) : string :=
  match s with
  | EmptyString => EmptyString
  | String a s => String (upper_ascii a) (ToUpper s)
  end.

(** [strconv.ParseUint(s, 10, bits)] *)
Definition ParseUint (s : string) (bits : Z) : option Z :=
  v ← read_nonempty s;
  if v <? 2 ^ bits then Some v else None.

(** [classToInt] and [typeToInt], which differ in the offset. *)
Definition torc_to_int (offset : nat) (token : string) : option Z :=
  if slen token <? Z.of_nat offset + 1 then None else ParseUint (sdrop offset token) 16.
Definition classToInt (token : string) : option Z := torc_to_int 5 token.
Definition typeToInt (token : string) : option Z := torc_to_int 4 token.

(** The first word of a line is an owner name or a directive. *)
Definition owner_value (token : string) : zvalue :=
  let u := ToUpper token in
  if decide (u = "$TTL") then zDirTTL
  else if decide (u = "$ORIGIN") then zDirOrigin
  else if decide (u = "$INCLUDE") then zDirInclude
  else if decide (u = "$GENERATE") then zDirGenerate
  else zOwner.

(** A word before the type of the record is known: [inl] is the token of an
    error, [inr] the token and whether it is the type. *)
Definition word_type (l : lex) : lex + lex * bool :=
  let u := ToUpper (lx_token l) in
  match StringToType !! u with
  | Some t => inr (put_torc l zRrtpe t, true)
  | None =>
      if HasPrefix u "TYPE" then
        match typeToInt (lx_token l) with
        | Some t => inr (put_torc l zRrtpe t, true)
        | None => inl (put_err l "unknown RR type")
        end
      else inr (l, false)
  end.

Definition word_class (l : lex) : lex + lex :=
  let u := ToUpper (lx_token l) in
  match StringToClass !! u with
  | Some t => inr (put_torc l zClass t)
  | None =>
      if HasPrefix u "CLASS" then
        match classToInt (lx_token l) with
        | Some t => inr (put_torc l zClass t)
        | None => inl (put_err l "unknown class")
        end
      else inr l
  end.

Definition lexed : Type := lex * bool * zlexer.

(** [return *l, true] after a change of the token the lexer keeps. *)
Definition return_l (zl : zlexer) (l : lex) : lexed := (l, true, set_l zl l).

(** The pending word, if any, and then the token [l]: the word is returned and
    [l] kept for the next call. *)
Definition return_then (zl : zlexer) (retL : option lex) (l : lex) : lexed :=
  match retL with
  | Some w => (w, true, set_nextL (set_l zl l) true)
  | None => return_l zl l
  end.

(** A blank ends the pending word [str]: [inl] is what is returned, [inr] the
    lexer with which the loop goes on. *)
Definition end_word (zl : zlexer) (str : string) : lexed + zlexer * option lex :=
  if slen str =? 0 then inr (zl, None)
  else if zl_owner zl then
    let l := put_token (zl_l zl) (owner_value str) str in inr (set_l zl l, Some l)
  else
    let l := put_token (zl_l zl) zString str in
    if zl_rrtype zl then inr (set_l zl l, Some l)
    else
      match word_type l with
      | inl l => inl (return_l zl l)
      | inr (l, is_type) =>
          let zl := if (is_type : bool) then set_rrtype zl true else zl in
          match word_class l with
          | inl l => inl (return_l zl l)
          | inr l => inr (set_l zl l, Some l)
          end
      end.

Definition on_blank (zl : zlexer) (str : string) : lexed + zlexer :=
  match end_word zl str with
  | inl r => inl r
  | inr (zl, retL) =>
      let zl := set_owner zl false in
      if zl_space zl then
        match retL with
        | Some w => inl (w, true, zl)
        | None => inr zl
        end
      else inl (return_then (set_space zl true) retL (put_token (zl_l zl) zBlank " "))
  end.

Definition newline : string := String "010" "".

(** A newline outside of quotes, comments and braces. *)
Definition on_newline (zl : zlexer) (str : string) : lexed :=
  let '(l, retL) :=
    if slen str =? 0 then (zl_l zl, None)
    else
      let l := put_token (zl_l zl) zString str in
      let l := if zl_rrtype zl then l
        else match StringToType !! ToUpper str with Some t => put_torc l zRrtpe t | None => l end in
      (l, Some l) in
  let zl := set_owner (set_rrtype (set_comments zl "" (zl_comBuf zl)) false) true in
  return_then zl retL (put_token l zNewline newline).

(** The end of the input. *)
Definition on_end (zl : zlexer) (str com : string) : lexed :=
  let retL := if slen str =? 0 then None else Some (put_token (zl_l zl) zString str) in
  let zl := match retL with Some l => set_l zl l | None => zl end in
  match retL with
  | Some l =>
      if slen com =? 0 then (l, true, zl)
      else return_then (set_comments zl (zl_comBuf zl) com) retL (put_token l zNewline newline)
  | None =>
      if negb (slen com =? 0) then
        return_l (set_comments zl (zl_comBuf zl) com) (put_token (zl_l zl) zNewline newline)
      else if negb (zl_brace zl =? 0) then return_l zl (put_err (zl_l zl) "unbalanced brace")
      else (lex_zero, false, zl)
  end.

Definition snoc (s : string) (a : ascii) : string := s +:+ String a "".

(** The loop of [zlexer.Next]: the input, the lexer, the buffers of the word
    and of the comment, and whether the last byte was a backslash. *)
Fixpoint lex_loop (input : string) (zl : zlexer) (str com : string) (escape : bool) : res lexed :=
  match input with
  | EmptyString => Ret (on_end (set_input zl "") str com)
  | String x rest =>
      let zl := set_input zl rest in
      let l := zl_l zl in
      if maxTok <=? slen str then
        Ret (return_l zl (put_err l "token length insufficient for parsing"))
      else if maxTok <=? slen com then
        Ret (return_l zl (put_err l "comment length insufficient for parsing"))
      else if bool_decide (x ∈ [" "; "009"]%char) then
        if escape || zl_quote zl then lex_loop rest zl (snoc str x) com false
        else if zl_commt zl then lex_loop rest zl str (snoc com x) escape
        else
          match on_blank zl str with
          | inl r => Ret r
          | inr zl => lex_loop rest zl str com escape
          end
      else if bool_decide (x = ";"%char) then
        if escape || zl_quote zl then lex_loop rest zl (snoc str x) com false
        else
          let zl := set_comments (set_commt zl true) "" (zl_comment zl) in
          let com := if 1 <? slen com then snoc com " " else com in
          if maxTok <=? slen com then Panic "index out of range"
          else
            let com := snoc com ";" in
            if slen str =? 0 then lex_loop rest zl str com escape
            else Ret (return_l (set_comments zl com (zl_comment zl)) (put_token l zString str))
      else if bool_decide (x = "013"%char) then
        lex_loop rest zl (if zl_quote zl then snoc str x else str) com false
      else if bool_decide (x = "010"%char) then
        if zl_quote zl then lex_loop rest zl (snoc str x) com false
        else if zl_commt zl then
          let zl := set_rrtype (set_commt zl false) false in
          if zl_brace zl =? 0 then
            Ret (return_l (set_comments (set_owner zl true) (zl_comBuf zl) com)
                   (put_token l zNewline newline))
          else lex_loop rest (set_comments zl com (zl_comment zl)) str com false
        else if zl_brace zl =? 0 then Ret (on_newline zl str)
        else lex_loop rest zl str com false
      else if bool_decide (x = "\"%char) then
        if zl_commt zl then lex_loop rest zl str (snoc com x) escape
        else if escape then lex_loop rest zl (snoc str x) com false
        else lex_loop rest zl (snoc str x) com true
      else if bool_decide (x = "034"%char) then
        if zl_commt zl then lex_loop rest zl str (snoc com x) escape
        else if escape then lex_loop rest zl (snoc str x) com false
        else
          let retL := if slen str =? 0 then None else Some (put_token l zString str) in
          Ret (return_then (set_quote (set_space zl false) (negb (zl_quote zl))) retL
                 (put_token l zQuote (String x "")))
      else if bool_decide (x ∈ ["("; ")"]%char) then
        if zl_commt zl then lex_loop rest zl str (snoc com x) escape
        else if escape || zl_quote zl then lex_loop rest zl (snoc str x) com false
        else if bool_decide (x = ")"%char) then
          let zl := set_brace zl (zl_brace zl -! 1) in
          if zl_brace zl <? 0 then Ret (return_l zl (put_err l "extra closing brace"))
          else lex_loop rest zl str com escape
        else lex_loop rest (set_brace zl (zl_brace zl +! 1)) str com escape
      else if zl_commt zl then lex_loop rest zl str (snoc com x) false
      else lex_loop rest (set_space zl false) (snoc str x) com false
  end.

(** [zlexer.Next]: the token, whether there was one, and the lexer. *)
Definition lexer_Next (zl : zlexer) : res lexed :=
  if zl_nextL zl then Ret (zl_l zl, true, set_nextL zl false)
  else if lx_err (zl_l zl) then Ret (lex_zero, false, zl)
  else
    let com := stake (Z.to_nat maxTok) (zl_comBuf zl) in
    lex_loop (zl_input zl) (set_comments zl "" "") "" com false.

(** ** Names and times in the text *)

Definition isDigit (a : ascii) : bool := (48 <=? byte_val a) && (byte_val a <=? 57).

(** The loop of [IsDomainName] on the rest of the name from offset [i] on. *)
Fixpoint domain_loop (s : string) (i begin off : Z) (wasDot : bool) : bool :=
  match s with
  | EmptyString => true
  | String a s1 =>
      if Ascii.eqb a "\" then
        if 256 <? off + 1 then false
        else
          match s1 with
          | EmptyString => true
          | String d1 s2 =>
              match s2 with
              | String d2 (String d3 s4) =>
                  if isDigit d1 && isDigit d2 && isDigit d3
                  then domain_loop s4 (i + 4) (begin + 3) off false
                  else domain_loop s2 (i + 2) (begin + 1) off false
              | _ => domain_loop s2 (i + 2) (begin + 1) off false
              end
          end
      else if Ascii.eqb a "." then
        if wasDot then false
        else
          let labelLen := i - begin in
          if 64 <=? labelLen then false
          else if 256 <? off + (1 + labelLen) then false
          else domain_loop s1 (i + 1) (i + 1) (off + (1 + labelLen)) true
      else domain_loop s1 (i + 1) begin off false
  end.

Definition IsDomainName (s : string) : bool :=
  if slen s =? 0 then false else domain_loop (Fqdn s) 0 0 0 false.

Definition appendOrigin (name origin : string) : string :=
  if decide (origin = ".") then name +:+ origin else name +:+ "." +:+ origin.

Definition toAbsoluteName (name origin : string) : option string :=
  if decide (name = "@") then if decide (origin = "") then None else Some origin
  else if negb (IsDomainName name) || bool_decide (name = "") then None
  else if IsFqdn name then Some name
  else if decide (origin = "") then None
  else Some (appendOrigin name origin).

(** [stringToTTL]: numbers with units, in 32-bit arithmetic. *)
Fixpoint ttl_loop (token : string) (s i : Z) : option Z :=
  match token with
  | EmptyString => Some (uint32 (s + i))
  | String c token =>
      if bool_decide (c ∈ ["s"; "S"]%char) then ttl_loop token (uint32 (s + i)) 0
      else if bool_decide (c ∈ ["m"; "M"]%char) then ttl_loop token (uint32 (s + uint32 (i * 60))) 0
      else if bool_decide (c ∈ ["h"; "H"]%char) then ttl_loop token (uint32 (s + uint32 (i * 3600))) 0
      else if bool_decide (c ∈ ["d"; "D"]%char) then ttl_loop token (uint32 (s + uint32 (i * 86400))) 0
      else if bool_decide (c ∈ ["w"; "W"]%char) then ttl_loop token (uint32 (s + uint32 (i * 604800))) 0
      else
        match digit_val c with
        | Some d => ttl_loop token s (uint32 (uint32 (i * 10) + d))
        | None => None
        end
  end.

Definition stringToTTL (token : string) : option Z := ttl_loop token 0 0.

(** ** The parser *)

Record ttlState := mkTtlState { ts_ttl : Z; ts_isByDirective : bool }.

Record ZoneParser := mkZoneParser {
  zp_c : zlexer;
  zp_origin : string;
  zp_defttl : option ttlState;
  zp_h : RR_Header
}.

(** What [Next] and [Err] give together: the text of an error, or the record,
    or no record when the input ends. *)
Definition parsed : Type := string + option RR.

(** The parts of the parser that the server does not use: the data of the
    types other than SOA, and the two directives that start another parser. *)
Class ZoneScan := {
  parse_rdata : RR_Header → zlexer → string → res (string + RR);
  parse_include : ZoneParser → lex → res parsed;
  parse_generate : ZoneParser → lex → res parsed
}.

(** The states of [ZoneParser.Next]. *)
Inductive zexpect :=
| zExpectOwnerDir | zExpectOwnerBl | zExpectAny | zExpectAnyNoClass | zExpectAnyNoClassBl
| zExpectAnyNoTTL | zExpectAnyNoTTLBl | zExpectRrtype | zExpectRrtypeBl | zExpectRdata
| zExpectDirTTLBl | zExpectDirTTL | zExpectDirOriginBl | zExpectDirOrigin
| zExpectDirIncludeBl | zExpectDirInclude | zExpectDirGenerate | zExpectDirGenerateBl.

(** [slurpRemainder]: the error, if the line does not end here. *)
Definition slurpRemainder (c : zlexer) : res (option string * zlexer) :=
  '(l, _, c) ← lexer_Next c;
  match lx_value l with
  | zBlank =>
      '(l, _, c) ← lexer_Next c;
      match lx_value l with
      | zNewline | zEOF => Ret (None, c)
      | _ => Ret (Some "garbage after rdata", c)
      end
  | zNewline | zEOF => Ret (None, c)
  | _ => Ret (Some "garbage after rdata", c)
  end.

(** The five numbers of an SOA record, [n] of which are to come; the serial,
    the first, has no units. *)
Fixpoint soa_numbers (n : nat) (first : bool) (vs : list Z) (c : zlexer) :
    res ((string + list Z) * zlexer) :=
  match n with
  | O => Ret (inr vs, c)
  | S n =>
      '(l, _, c) ← lexer_Next c;
      if lx_err l then Ret (inl "bad SOA zone parameter", c)
      else
        let v := match ParseUint (lx_token l) 32 with
          | Some v => Some v
          | None => if first then None else stringToTTL (lx_token l)
          end in
        match v with
        | None => Ret (inl "bad SOA zone parameter", c)
        | Some v =>
            c ← match n with
                | O => Ret c
                | _ => '(_, _, c) ← lexer_Next c; Ret c
                end;
            soa_numbers n false (vs ++ [v]) c
        end
  end.

(** [SOA.parse], from the mailbox on. *)
Definition SOA_rest (h : RR_Header) (c : zlexer) (o ns : string) : res (string + RR) :=
  '(l, _, c) ← lexer_Next c;
  match toAbsoluteName (lx_token l) o, lx_err l with
  | Some mbox, false =>
      '(_, _, c) ← lexer_Next c;
      '(vs, c) ← soa_numbers 5 true [] c;
      match vs with
      | inr [serial; refresh; retry; expire; minttl] =>
          '(err, _) ← slurpRemainder c;
          Ret (match err with
               | Some e => inl e
               | None => inr (mkRR h (RD_SOA ns mbox serial refresh retry expire minttl))
               end)
      | inr _ => Ret (inl "")
      | inl e => Ret (inl e)
      end
  | _, _ => Ret (inl "bad SOA Mbox")
  end.

Definition SOA_parse (h : RR_Header) (c : zlexer) (o : string) : res (string + RR) :=
  '(l, _, c) ← lexer_Next c;
  if slen (lx_token l) =? 0 then
    '(err, _) ← slurpRemainder c;
    Ret (match err with Some e => inl e | None => inr (mkRR h (RD_SOA "" "" 0 0 0 0 0)) end)
  else
    match toAbsoluteName (lx_token l) o, lx_err l with
    | Some ns, false => '(_, _, c) ← lexer_Next c; SOA_rest h c o ns
    | _, _ => Ret (inl "bad SOA Ns")
    end.

Section parser.
Context `{ZoneScan}.

Definition setRR (h : RR_Header) (c : zlexer) (o : string) : res (string + RR) :=
  if h_Rrtype h =? TypeSOA then SOA_parse h c o else parse_rdata h c o.

(** One turn of the loop: the result, or the parser and the state in which it
    expects the next token. *)
Definition turn : Type := parsed + ZoneParser * zexpect.

Definition failed (msg : string) : res turn := Ret (inl (inl msg)).
Definition goes (zp : ZoneParser) (st : zexpect) : res turn := Ret (inr (zp, st)).

Definition set_c (zp : ZoneParser) (c : zlexer) : ZoneParser :=
  mkZoneParser c (zp_origin zp) (zp_defttl zp) (zp_h zp).
Definition set_h (zp : ZoneParser) (h : RR_Header) : ZoneParser :=
  mkZoneParser (zp_c zp) (zp_origin zp) (zp_defttl zp) h.
Definition h_set_name (h : RR_Header) (name : string) : RR_Header :=
  mkHdr name (h_Rrtype h) (h_Class h) (h_Ttl h) (h_Rdlength h).
Definition h_set_type (h : RR_Header) (t : Z) : RR_Header :=
  mkHdr (h_Name h) t (h_Class h) (h_Ttl h) (h_Rdlength h).
Definition h_set_class (h : RR_Header) (c : Z) : RR_Header :=
  mkHdr (h_Name h) (h_Rrtype h) c (h_Ttl h) (h_Rdlength h).
Definition h_set_ttl (h : RR_Header) (ttl : Z) : RR_Header :=
  mkHdr (h_Name h) (h_Rrtype h) (h_Class h) ttl (h_Rdlength h).

(** A token that has to be a TTL. *)
Definition take_ttl (zp : ZoneParser) (l : lex) (st : zexpect) : res turn :=
  match stringToTTL (lx_token l) with
  | None => failed "not a TTL"
  | Some ttl =>
      let defttl := match zp_defttl zp with
        | Some (mkTtlState t true) => Some (mkTtlState t true)
        | _ => Some (mkTtlState ttl false)
        end in
      goes (mkZoneParser (zp_c zp) (zp_origin zp) defttl (h_set_ttl (zp_h zp) ttl)) st
  end.

(** A blank that has to be there. *)
Definition take_blank (zp : ZoneParser) (l : lex) (st : zexpect) (msg : string) : res turn :=
  if decide (lx_value l = zBlank) then goes zp st else failed msg.

Definition take_type (zp : ZoneParser) (l : lex) : res turn :=
  goes (set_h zp (h_set_type (zp_h zp) (lx_torc l))) zExpectRdata.

Definition take_class (zp : ZoneParser) (l : lex) (st : zexpect) : res turn :=
  goes (set_h zp (h_set_class (zp_h zp) (lx_torc l))) st.

(** The start of a line. *)
Definition take_owner (zp : ZoneParser) (l : lex) : res turn :=
  let h := zp_h zp in
  let h := match zp_defttl zp with Some d => h_set_ttl h (ts_ttl d) | None => h end in
  let zp := set_h zp (h_set_class h ClassINET) in
  match lx_value l with
  | zNewline => goes zp zExpectOwnerDir
  | zOwner =>
      match toAbsoluteName (lx_token l) (zp_origin zp) with
      | None => failed "bad owner name"
      | Some name => goes (set_h zp (h_set_name (zp_h zp) name)) zExpectOwnerBl
      end
  | zDirTTL => goes zp zExpectDirTTLBl
  | zDirOrigin => goes zp zExpectDirOriginBl
  | zDirInclude => goes zp zExpectDirIncludeBl
  | zDirGenerate => goes zp zExpectDirGenerateBl
  | zRrtpe => take_type zp l
  | zClass => take_class zp l zExpectAnyNoClassBl
  | zBlank => goes zp zExpectOwnerDir
  | zString => take_ttl zp l zExpectAnyNoTTLBl
  | _ => failed "syntax error at beginning"
  end.

Definition lift_turn (r : res parsed) : res turn := inl <$> r.

(** The body of the loop, for a token without an error. *)
Definition zp_step (zp : ZoneParser) (st : zexpect) (l : lex) : res turn :=
  let has v := bool_decide (lx_value l = v) in
  match st with
  | zExpectOwnerDir => take_owner zp l
  | zExpectDirIncludeBl => take_blank zp l zExpectDirInclude "no blank after $INCLUDE-directive"
  | zExpectDirInclude =>
      if negb (has zString) then failed "expecting $INCLUDE value, not this..."
      else lift_turn (parse_include zp l)
  | zExpectDirTTLBl => take_blank zp l zExpectDirTTL "no blank after $TTL-directive"
  | zExpectDirTTL =>
      if negb (has zString) then failed "expecting $TTL value, not this..."
      else
        '(err, c) ← slurpRemainder (zp_c zp);
        match err with
        | Some e => failed e
        | None =>
            match stringToTTL (lx_token l) with
            | None => failed "expecting $TTL value, not this..."
            | Some ttl =>
                goes (mkZoneParser c (zp_origin zp) (Some (mkTtlState ttl true)) (zp_h zp))
                  zExpectOwnerDir
            end
        end
  | zExpectDirOriginBl => take_blank zp l zExpectDirOrigin "no blank after $ORIGIN-directive"
  | zExpectDirOrigin =>
      if negb (has zString) then failed "expecting $ORIGIN value, not this..."
      else
        '(err, c) ← slurpRemainder (zp_c zp);
        match err with
        | Some e => failed e
        | None =>
            match toAbsoluteName (lx_token l) (zp_origin zp) with
            | None => failed "bad origin name"
            | Some name => goes (mkZoneParser c name (zp_defttl zp) (zp_h zp)) zExpectOwnerDir
            end
        end
  | zExpectDirGenerateBl => take_blank zp l zExpectDirGenerate "no blank after $GENERATE-directive"
  | zExpectDirGenerate =>
      if negb (has zString) then failed "expecting $GENERATE value, not this..."
      else lift_turn (parse_generate zp l)
  | zExpectOwnerBl => take_blank zp l zExpectAny "no blank after owner"
  | zExpectAny =>
      match lx_value l with
      | zRrtpe =>
          match zp_defttl zp with
          | None => failed "missing TTL with no previous value"
          | Some _ => take_type zp l
          end
      | zClass => take_class zp l zExpectAnyNoClassBl
      | zString => take_ttl zp l zExpectAnyNoTTLBl
      | _ => failed "expecting RR type, TTL or class, not this..."
      end
  | zExpectAnyNoClassBl => take_blank zp l zExpectAnyNoClass "no blank before class"
  | zExpectAnyNoTTLBl => take_blank zp l zExpectAnyNoTTL "no blank before TTL"
  | zExpectAnyNoTTL =>
      match lx_value l with
      | zClass => take_class zp l zExpectRrtypeBl
      | zRrtpe => take_type zp l
      | _ => failed "expecting RR type or class, not this..."
      end
  | zExpectAnyNoClass =>
      match lx_value l with
      | zString => take_ttl zp l zExpectRrtypeBl
      | zRrtpe => take_type zp l
      | _ => failed "expecting RR type or TTL, not this..."
      end
  | zExpectRrtypeBl => take_blank zp l zExpectRrtype "no blank before RR type"
  | zExpectRrtype => if negb (has zRrtpe) then failed "unknown RR type" else take_type zp l
  | zExpectRdata =>
      r ← setRR (zp_h zp) (zp_c zp) (zp_origin zp);
      Ret (inl (match r with inl e => inl e | inr rr => inr (Some rr) end))
  end.

Fixpoint zp_loop (fuel : nat) (zp : ZoneParser) (st : zexpect) : res parsed :=
  match fuel with
  | O => OutOfFuel
  | S fuel =>
      '(l, ok, c) ← lexer_Next (zp_c zp);
      if negb ok then Ret (inr None)
      else if lx_err l then Ret (inl (lx_token l))
      else
        t ← zp_step (set_c zp c) st l;
        match t with
        | inl r => Ret r
        | inr (zp, st) => zp_loop fuel zp st
        end
  end.

(** What is left for the lexer: every token it gives costs at least one. *)
Definition lexer_measure (zl : zlexer) : nat :=
  4 * String.length (zl_input zl) + (if decide (zl_comBuf zl = "") then 0 else 2) +
  (if zl_nextL zl then 1 else 0) + (if lx_err (zl_l zl) then 0 else 1).

Definition zp_Next (zp : ZoneParser) : res parsed :=
  zp_loop (S (lexer_measure (zp_c zp))) zp zExpectOwnerDir.

Definition zero_header : RR_Header := mkHdr "" 0 0 0 0.

(** [ReadRR] with the origin "." and the default TTL of an hour. *)
Definition ReadRR (s : string) : res parsed :=
  zp_Next (mkZoneParser (newZLexer s) "." (Some (mkTtlState 3600 false)) zero_header).

Definition dns_NewRR (s : string) : res parsed :=
  ReadRR (if HasSuffix s newline || (slen s =? 0) then s else s +:+ newline).
End parser.

(** A parser that knows no other type, for the examples. *)
Definition ZoneScan_none : ZoneScan := {|
  parse_rdata _ _ _ := Ret (inl "");
  parse_include _ _ := Ret (inl "");
  parse_generate _ _ := Ret (inl "")
|}.

(** ** Termination *)

(** A pending text counts [n] unless it is empty. *)
Definition weight (s : string) (n : nat) : nat := if decide (s = "") then 0 else n.

Lemma weight_le s n : (weight s n ≤ n)%nat.
Proof. unfold weight. case_decide; lia. Qed.

Lemma weight_pos s n : s ≠ "" → weight s n = n.
Proof. intros. unfold weight. by rewrite decide_False. Qed.

Lemma slen_eq0 s : (slen s =? 0) = bool_decide (s = "").
Proof.
  destruct s; [done|]. rewrite slen_cons. rewrite bool_decide_false by done.
  apply Z.eqb_neq. pose proof (slen_nonneg s). lia.
Qed.

Lemma lexer_measure_unfold zl : lexer_measure zl =
  (4 * String.length (zl_input zl) + weight (zl_comBuf zl) 2 +
   (if zl_nextL zl then 1 else 0) + (if lx_err (zl_l zl) then 0 else 1))%nat.
Proof. done. Qed.

(** What is left after a token has been returned in the middle of the input. *)
Lemma measure_le zl : (lexer_measure zl ≤ 4 * String.length (zl_input zl) + 4)%nat.
Proof.
  rewrite lexer_measure_unfold. pose proof (weight_le (zl_comBuf zl) 2).
  destruct (zl_nextL zl), (lx_err (zl_l zl)); lia.
Qed.

(** None of the operations on the lexer touches the input. *)
Lemma return_then_input zl r l : zl_input (return_then zl r l).2 = zl_input zl.
Proof. by destruct r. Qed.

Lemma end_word_input zl str :
  match end_word zl str with
  | inl r => zl_input r.2 = zl_input zl
  | inr (zl', w) => zl_input zl' = zl_input zl ∧ (w = None → zl' = zl)
  end.
Proof.
  unfold end_word. destruct (slen str =? 0); [done|]. destruct (zl_owner zl); [done|].
  destruct (zl_rrtype zl); [done|]. destruct (word_type _) as [l|[l b]]; [done|].
  destruct (word_class l), b; done.
Qed.

Lemma on_blank_input zl str :
  match on_blank zl str with
  | inl r => zl_input r.2 = zl_input zl
  | inr zl' => zl' = set_owner zl false
  end.
Proof.
  unfold on_blank. pose proof (end_word_input zl str) as He.
  destruct (end_word zl str) as [r|[zl' w]]; [done|]. destruct He as [Hi Hw].
  destruct (zl_space _); [|by rewrite return_then_input]. destruct w; [done|]. by rewrite Hw.
Qed.

(** Every token the lexer gives leaves it with less to do. *)
Lemma on_end_measure zl str com l b zl' :
  on_end zl str com = (l, b, zl') → zl_nextL zl = false → lx_err (zl_l zl) = false →
  (Nat.b2n b + lexer_measure zl' ≤ 4 * String.length (zl_input zl) + weight str 4 + weight com 2 +
     weight (zl_comBuf zl) 2 + 1)%nat.
Proof.
  unfold on_end. rewrite !slen_eq0. intros He Hn Herr.
  pose proof (weight_le (zl_comBuf zl) 2). rewrite !lexer_measure_unfold.
  destruct (bool_decide_reflect (str = "")) as [->|Hs];
    destruct (bool_decide_reflect (com = "")) as [->|Hc]; cbn [negb] in He;
    try rewrite (weight_pos str 4) by done; try rewrite (weight_pos com 2) by done.
  - destruct (zl_brace zl =? 0); cbn [negb] in He; injection He as _ <- <-; cbn; rewrite Hn, ?Herr; lia.
  - injection He as _ <- <-. cbn. rewrite Hn, Herr. lia.
  - injection He as _ <- <-. cbn. rewrite Hn, Herr. lia.
  - injection He as _ <- <-. cbn. rewrite Herr. lia.
Qed.

Lemma on_newline_input zl str : zl_input (on_newline zl str).2 = zl_input zl.
Proof. unfold on_newline. destruct (slen str =? 0); by rewrite return_then_input. Qed.

Lemma lex_loop_measure input : ∀ zl str com escape l b zl',
  lex_loop input zl str com escape = Ret (l, b, zl') →
  zl_nextL zl = false → lx_err (zl_l zl) = false →
  (Nat.b2n b + lexer_measure zl' ≤ 4 * String.length input + weight str 4 + weight com 2 +
     weight (zl_comBuf zl) 2 + 1)%nat.
Proof.
  induction input as [|x rest IH]; intros zl str com escape l b zl'; cbn [lex_loop].
  { intros [= He] Hn Herr. by apply on_end_measure in He. }
  cbn [String.length]. intros Hr Hn Herr.
  assert (Hret : ∀ r : lexed, Ret r = Ret (l, b, zl') → zl_input r.2 = rest →
    (Nat.b2n b + lexer_measure zl' ≤ 4 * S (String.length rest) + weight str 4 + weight com 2 +
      weight (zl_comBuf zl) 2 + 1)%nat).
  { intros r [= ->]. cbn [snd]. intros Hi. pose proof (measure_le zl') as Hm. rewrite Hi in Hm.
    destruct b; cbn [Nat.b2n]; lia. }
  assert (Hrec : ∀ zl1 str1 com1 escape1, lex_loop rest zl1 str1 com1 escape1 = Ret (l, b, zl') →
    zl_nextL zl1 = false → lx_err (zl_l zl1) = false →
    (weight str1 4 + weight com1 2 + weight (zl_comBuf zl1) 2 ≤
      weight str 4 + weight com 2 + weight (zl_comBuf zl) 2 + 4)%nat →
    (Nat.b2n b + lexer_measure zl' ≤ 4 * S (String.length rest) + weight str 4 + weight com 2 +
      weight (zl_comBuf zl) 2 + 1)%nat).
  { intros zl1 str1 com1 escape1 H1 H2 H3 H4. specialize (IH _ _ _ _ _ _ _ H1 H2 H3). lia. }
  clear IH.
  pose proof (weight_le (snoc str x) 4). pose proof (weight_le (snoc com x) 2).
  pose proof (weight_le com 2). pose proof (weight_le str 4).
  pose proof (on_blank_input (set_input zl rest) str) as Hb.
  repeat match type of Hr with
  | Ret _ = Ret _ => eapply Hret; [exact Hr|]; cbn; by rewrite ?return_then_input
  | lex_loop _ _ _ _ _ = _ => eapply Hrec; [exact Hr|done|done|]; cbn; unfold weight; repeat case_decide; lia
  | match on_blank _ _ with _ => _ end = _ => destruct (on_blank (set_input zl rest) str) as [r|zl1]
  | (if ?b then _ else _) = _ => destruct b
  | Panic _ = _ => done
  end.
  - subst zl1. eapply Hrec; [exact Hr|done|done|]. cbn. lia.
  - eapply Hret; [exact Hr|]. apply on_newline_input.
Qed.

Lemma lexer_Next_measure zl l b zl' :
  lexer_Next zl = Ret (l, b, zl') → (Nat.b2n b + lexer_measure zl' ≤ lexer_measure zl)%nat.
Proof.
  unfold lexer_Next. destruct (zl_nextL zl) eqn:En.
  { intros [= <- <- <-]. rewrite !lexer_measure_unfold, En. cbn. lia. }
  destruct (lx_err (zl_l zl)) eqn:Ee; [by intros [= _ <- <-]|]. intros Hr%lex_loop_measure; [|done|done].
  rewrite (lexer_measure_unfold zl), En, Ee.
  assert (weight (stake (Z.to_nat maxTok) (zl_comBuf zl)) 2 ≤ weight (zl_comBuf zl) 2)%nat.
  { unfold weight. destruct (decide (zl_comBuf zl = "")) as [->|]; [|case_decide; lia]. done. }
  cbn [set_comments zl_comBuf] in Hr. change (weight "" 4) with 0%nat in Hr.
  change (weight "" 2) with 0%nat in Hr. lia.
Qed.

(** *** Comments that fit *)

(** The computation returns a value, and the value satisfies [P]. *)
Definition yields {A} (P : A → Prop) (r : res A) : Prop := ∃ a, r = Ret a ∧ P a.

Lemma yields_Ret {A} (P : A → Prop) a : P a → yields P (Ret a).
Proof. intros. by exists a. Qed.

Lemma yields_bind {A B} (P : A → Prop) (Q : B → Prop) (m : res A) (k : A → res B) :
  yields P m → (∀ a, m = Ret a → P a → yields Q (k a)) → yields Q (m ≫= k).
Proof. intros (a & -> & Ha) Hk. by apply Hk. Qed.

Fixpoint semicolons (s : string) : Z :=
  match s with
  | EmptyString => 0
  | String a s => (if Ascii.eqb a ";" then 1 else 0) + semicolons s
  end.

Lemma semicolons_nonneg s : 0 ≤ semicolons s.
Proof. induction s as [|a s IH]; cbn; [lia|]. destruct (Ascii.eqb a ";"); lia. Qed.

Lemma semicolons_app s t : semicolons (s +:+ t) = semicolons s + semicolons t.
Proof. induction s as [|a s IH]; [done|]. rewrite sapp_cons. cbn [semicolons]. rewrite IH. lia. Qed.

(** The most that reading [s] can add to the buffer of the comment: a byte for
    a byte, and a blank for a semicolon. *)
Definition comment_bytes (s : string) : Z := slen s + semicolons s.

(** The comment read so far and the rest of the text fit the buffer of the
    comment; or there is no comment at all. *)
Definition comment_fits (com input : string) (commt : bool) : Prop :=
  slen com + comment_bytes input < maxTok ∨
  ContainsByte input ";" = false ∧ commt = false ∧ com = "".

Definition lexer_fits (zl : zlexer) : Prop :=
  comment_fits (zl_comBuf zl) (zl_input zl) (zl_commt zl).

Lemma comment_fits_rest com x rest commt :
  comment_fits com (String x rest) commt → comment_fits com rest commt.
Proof.
  unfold comment_fits, comment_bytes. cbn [ContainsByte semicolons]. rewrite slen_cons.
  intros [Hb|(Hc & ? & ?)]; [left; destruct (Ascii.eqb x ";"); lia|right].
  by apply orb_false_iff in Hc as [_ ?].
Qed.

(** A byte of a comment. *)
Lemma comment_fits_snoc com x y rest :
  comment_fits com (String x rest) true → comment_fits (snoc com y) rest true.
Proof.
  unfold comment_fits, comment_bytes, snoc. cbn [semicolons]. rewrite slen_cons, slen_app.
  change (slen (String y "")) with 1. intros [Hb|(_ & ? & _)]; [|done].
  left. destruct (Ascii.eqb x ";"); lia.
Qed.

(** A semicolon that starts a comment. *)
Lemma comment_fits_semicolon com rest commt (com' := if 1 <? slen com then snoc com " " else com) :
  comment_fits com (String ";" rest) commt →
  slen com' < maxTok ∧ comment_fits (snoc com' ";") rest true.
Proof.
  unfold comment_fits, comment_bytes. cbn [ContainsByte semicolons Ascii.eqb Bool.eqb]. rewrite slen_cons.
  intros [Hb|(? & _)]; [|done]. pose proof (slen_nonneg rest). pose proof (semicolons_nonneg rest).
  assert (slen com' ≤ slen com + 1).
  { unfold com', snoc. case_match; [|lia]. rewrite slen_app. change (slen (String " " "")) with 1. lia. }
  split; [lia|]. left. unfold snoc. rewrite slen_app. change (slen (String ";" "")) with 1. lia.
Qed.

(** What the operations of the lexer leave alone. *)
Definition same_text (zl zl' : zlexer) : Prop :=
  zl_input zl' = zl_input zl ∧ zl_comBuf zl' = zl_comBuf zl ∧ zl_commt zl' = zl_commt zl.

Lemma same_text_fits zl zl' : same_text zl zl' → lexer_fits zl → lexer_fits zl'.
Proof. unfold lexer_fits. by intros (-> & -> & ->). Qed.

Lemma return_then_text zl r l : same_text zl (return_then zl r l).2.
Proof. by destruct r. Qed.

Lemma end_word_text zl str :
  match end_word zl str with inl r => same_text zl r.2 | inr (zl', _) => same_text zl zl' end.
Proof.
  unfold end_word. destruct (slen str =? 0); [done|]. destruct (zl_owner zl); [done|].
  destruct (zl_rrtype zl); [done|]. destruct (word_type _) as [l|[l b]]; [done|].
  destruct (word_class l), b; done.
Qed.

Lemma on_blank_text zl str :
  match on_blank zl str with inl r => same_text zl r.2 | inr zl' => same_text zl zl' end.
Proof.
  unfold on_blank. pose proof (end_word_text zl str) as He.
  destruct (end_word zl str) as [r|[zl' w]]; [done|].
  destruct (zl_space _); [by destruct w|]. destruct w; exact He.
Qed.

Lemma on_end_fits zl str com : lexer_fits zl → lexer_fits (on_end zl str com).2.
Proof. unfold on_end. repeat case_match; done. Qed.

Lemma on_newline_fits zl str : lexer_fits zl → lexer_fits (on_newline zl str).2.
Proof.
  intros Hf. unfold on_newline.
  assert (Hz : comment_fits "" (zl_input zl) (zl_commt zl)).
  { destruct Hf as [Hb|(? & ? & _)]; [left|by right]. pose proof (slen_nonneg (zl_comBuf zl)).
    change (slen "") with 0. lia. }
  destruct (slen str =? 0); exact Hz.
Qed.

(** The loop of the lexer returns when the comments fit, and they still do. *)
Lemma lex_loop_fits input : ∀ zl str com escape,
  comment_fits com input (zl_commt zl) → comment_fits (zl_comBuf zl) input (zl_commt zl) →
  yields (λ r, lexer_fits r.2) (lex_loop input zl str com escape).
Proof.
  induction input as [|x rest IH]; intros zl str com escape Hc Hb; cbn [lex_loop].
  { by apply yields_Ret, on_end_fits. }
  pose proof (comment_fits_rest _ _ _ _ Hc) as Hc'. pose proof (comment_fits_rest _ _ _ _ Hb) as Hb'.
  assert (Hin : zl_commt zl = true → ∀ y, comment_fits (snoc com y) rest (zl_commt zl)).
  { intros E y. rewrite E in *. by eapply comment_fits_snoc. }
  assert (Hz : ∀ commt, comment_fits com rest commt → comment_fits "" rest commt).
  { intros commt [Hl|(? & ? & _)]; [left|by right]. pose proof (slen_nonneg com).
    change (slen "") with 0. lia. }
  assert (Hoff : ∀ s, comment_fits s rest (zl_commt zl) → comment_fits s rest false).
  { intros s [?|(? & _ & ?)]; [by left|by right]. }
  repeat match goal with
  | |- yields _ (if bool_decide (?y = ";"%char) then _ else _) => destruct (bool_decide_reflect (y = ";"%char))
  | |- yields _ (Ret (return_l _ _)) => apply yields_Ret; cbn; auto
  | |- yields _ (Ret (return_then _ _ _)) =>
      apply yields_Ret; eapply same_text_fits; [apply return_then_text|done]
  | |- yields _ (Ret (on_newline _ _)) => by apply yields_Ret, on_newline_fits
  | |- yields _ (lex_loop _ _ _ _ _) => apply IH; cbn; auto
  | |- yields _ (match on_blank ?z ?s with _ => _ end) =>
      pose proof (on_blank_text z s) as Ht; destruct (on_blank z s) as [r|zl1]
  | |- yields _ (if zl_commt ?z then _ else _) => destruct (zl_commt z) eqn:Ecommt; cbn in Ecommt
  | |- yields _ (if maxTok <=? slen (if _ then _ else _) then _ else _) => fail 1
  | |- yields _ (if ?b then _ else _) => destruct b
  end.
  - apply yields_Ret. by eapply same_text_fits.
  - by destruct Ht as (_ & _ & ->).
  - by destruct Ht as (_ & -> & ->).
  - subst x. apply comment_fits_semicolon in Hc as [Hlt Hfit]. rewrite (proj2 (Z.leb_gt _ _)) by done.
    assert (Hzero : comment_fits "" rest true).
    { destruct Hfit as [Hl|(_ & ? & _)]; [left|done]. revert Hl. unfold snoc. rewrite slen_app.
      pose proof (slen_nonneg (if 1 <? slen com then com +:+ " " else com)).
      change (slen (String ";" "")) with 1. change (slen "") with 0. lia. }
    destruct (slen str =? 0); [by apply IH|]. by apply yields_Ret.
  - by apply Hoff.
Qed.

Lemma slen_stake n s : slen (stake n s) ≤ slen s.
Proof.
  revert s. induction n as [|n IH]; intros [|a s]; cbn [stake]; rewrite ?slen_cons; try done.
  - pose proof (slen_nonneg s). change (slen "") with 0. lia.
  - specialize (IH s). lia.
Qed.

Lemma lexer_Next_fits zl : lexer_fits zl → yields (λ r, lexer_fits r.2) (lexer_Next zl).
Proof.
  intros Hf. unfold lexer_Next. destruct (zl_nextL zl); [by apply yields_Ret|].
  destruct (lx_err (zl_l zl)); [by apply yields_Ret|].
  apply lex_loop_fits; cbn.
  - destruct Hf as [Hl|(? & ? & ->)]; [|by right]. left.
    pose proof (slen_stake (Z.to_nat maxTok) (zl_comBuf zl)). lia.
  - destruct Hf as [Hl|(? & ? & _)]; [|by right]. left. pose proof (slen_nonneg (zl_comBuf zl)).
    change (slen "") with 0. lia.
Qed.

Ltac next_token :=
  eapply yields_bind; [by apply lexer_Next_fits|]; intros [[? ?] ?] _; cbn [snd]; intros.

Lemma slurpRemainder_fits c : lexer_fits c → yields (λ r, lexer_fits r.2) (slurpRemainder c).
Proof.
  intros Hf. unfold slurpRemainder. next_token. destruct (lx_value _); try by apply yields_Ret.
  next_token. by destruct (lx_value _); apply yields_Ret.
Qed.

Ltac end_of_line := eapply yields_bind; [by apply slurpRemainder_fits|]; intros [? ?] _; cbn [snd]; intros.


Lemma slurpRemainder_measure c err c' :
  slurpRemainder c = Ret (err, c') → (lexer_measure c' ≤ lexer_measure c)%nat.
Proof.
  unfold slurpRemainder. intros Hr. apply bind_Ret in Hr as ([[l b] c1] & H1%lexer_Next_measure & Hr).
  destruct (lx_value l); try (injection Hr as <- <-; lia).
  apply bind_Ret in Hr as ([[l2 b2] c2] & H2%lexer_Next_measure & Hr).
  destruct (lx_value l2); injection Hr as <- <-; lia.
Qed.

Lemma soa_numbers_fits n : ∀ first vs c,
  lexer_fits c → yields (λ r, lexer_fits r.2) (soa_numbers n first vs c).
Proof.
  induction n as [|n IH]; intros first vs c Hf; cbn [soa_numbers]; [by apply yields_Ret|].
  next_token. case_match; [by apply yields_Ret|]. case_match; [|by apply yields_Ret].
  apply (yields_bind lexer_fits); [|intros; by apply IH].
  destruct n; [by apply yields_Ret|]. next_token. by apply yields_Ret.
Qed.

Lemma SOA_rest_fits h c o ns : lexer_fits c → yields (λ _, True) (SOA_rest h c o ns).
Proof.
  intros Hf. unfold SOA_rest. next_token. repeat case_match; try by apply yields_Ret.
  next_token. eapply yields_bind; [by apply soa_numbers_fits|]. intros [vs c5] _ Hf5.
  repeat case_match; try by apply yields_Ret. end_of_line. by apply yields_Ret.
Qed.

Lemma SOA_parse_fits h c o : lexer_fits c → yields (λ _, True) (SOA_parse h c o).
Proof.
  intros Hf. unfold SOA_parse. next_token. case_match; [end_of_line; by apply yields_Ret|].
  repeat case_match; try by apply yields_Ret. next_token. by apply SOA_rest_fits.
Qed.

(** The parts that are not modelled return, as long as the comments fit. *)
Class ScanReturns `{ZoneScan} : Prop := {
  rdata_returns : ∀ h c o, lexer_fits c → yields (λ _, True) (parse_rdata h c o);
  include_returns : ∀ zp l, lexer_fits (zp_c zp) → yields (λ _, True) (parse_include zp l);
  generate_returns : ∀ zp l, lexer_fits (zp_c zp) → yields (λ _, True) (parse_generate zp l)
}.

Section termination.
Context `{ScanReturns}.

Definition turn_fits (t : turn) : Prop :=
  match t with inl _ => True | inr (zp, _) => lexer_fits (zp_c zp) end.

Lemma lift_turn_fits r : yields (λ _, True) r → yields turn_fits (lift_turn r).
Proof. intros (p & -> & _). by apply yields_Ret. Qed.

Lemma zp_step_fits zp st l : lexer_fits (zp_c zp) → yields turn_fits (zp_step zp st l).
Proof.
  intros Hf.
  destruct st; cbn [zp_step]; unfold take_owner, take_blank, take_ttl, take_class, take_type, failed, goes;
    repeat case_match; try by apply yields_Ret.
  all: try (end_of_line; repeat case_match; by apply yields_Ret).
  all: try by apply lift_turn_fits, include_returns.
  all: try by apply lift_turn_fits, generate_returns.
  apply (yields_bind (λ _, True)); [|intros [] _ _; by apply yields_Ret].
  unfold setRR. case_match; [by apply SOA_parse_fits|by apply rdata_returns].
Qed.

Lemma zp_step_measure zp st l zp' st' :
  zp_step zp st l = Ret (inr (zp', st')) → (lexer_measure (zp_c zp') ≤ lexer_measure (zp_c zp))%nat.
Proof.
  intros Hs. destruct st; cbn [zp_step] in Hs;
    unfold take_owner, take_blank, take_ttl, take_class, take_type, failed, goes, lift_turn in Hs;
    repeat (case_match; try done); try (injection Hs as <- _; cbn; lia).
  all: lazymatch type of Hs with
  | (inl <$> ?m) = _ => by destruct m
  | slurpRemainder _ ≫= _ = _ =>
      apply bind_Ret in Hs as ([[e|] c] & Hm%slurpRemainder_measure & Hs); [done|];
      first [injection Hs as <- _; exact Hm|done]
  | _ => by apply bind_Ret in Hs as (r & _ & Hs)
  end.
Qed.

Lemma zp_loop_fits fuel : ∀ zp st,
  lexer_fits (zp_c zp) → (lexer_measure (zp_c zp) < fuel)%nat → yields (λ _, True) (zp_loop fuel zp st).
Proof.
  induction fuel as [|fuel IH]; intros zp st Hfit Hf; [lia|]. cbn [zp_loop].
  eapply yields_bind; [by apply lexer_Next_fits|]. intros [[l b] c] Hn%lexer_Next_measure Hfc. cbn [snd] in Hfc.
  destruct b; [|by apply yields_Ret]. cbn [negb]. case_match; [by apply yields_Ret|].
  eapply yields_bind; [by apply (zp_step_fits (set_c zp c))|].
  intros [r|[zp' st']] Hs Hft; [by apply yields_Ret|].
  apply IH; [exact Hft|]. apply zp_step_measure in Hs. cbn in *. lia.
Qed.

(** C22: the zone file parser returns a record or an error for every text
    without comments, and for every text that fits the buffer for comments (a
    byte for every byte and one more for every semicolon; 2048 bytes in all,
    with the newline), provided the parts it shares with other records do:
    every token makes the rest of the text shorter, so that the number of turns
    is bounded by its length, and no buffer overflows.  Longer comments can
    make it panic ([NewRR_comment_panics]). *)
Theorem NewRR_returns (s : string) :
  ContainsByte s ";" = false ∨ slen s + semicolons s + 1 < maxTok →
  ∃ v, dns_NewRR s = Ret v.
Proof.
  intros Hs. unfold dns_NewRR, ReadRR, zp_Next. set (text := if HasSuffix s newline || (slen s =? 0) then s else s +:+ newline).
  destruct (zp_loop_fits (S (lexer_measure (newZLexer text)))
    (mkZoneParser (newZLexer text) "." (Some (mkTtlState 3600 false)) zero_header) zExpectOwnerDir)
    as (v & Hv & _); [|cbn; lia|by exists v].
  unfold lexer_fits, comment_fits, comment_bytes, text. cbn [zp_c newZLexer zl_comBuf zl_input zl_commt].
  change (slen "") with 0. case_match; [destruct Hs; [by right|left; lia]|].
  rewrite ContainsByte_app, slen_app, semicolons_app. change (slen newline) with 1.
  change (semicolons newline) with 0. destruct Hs as [->|Hs]; [by right|left; lia].
Qed.
End termination.

(** The parser panics on a comment of 2047 bytes that is followed by a
    semicolon: the blank that is put between the two takes the last byte of the
    buffer. *)
Theorem NewRR_comment_panics `{ZoneScan} :
  dns_NewRR (String ";" (String.concat "" (replicate 2046 "a") +:+ ";")) = Panic "index out of range".
Proof. vm_compute. reflexivity. Qed.

(** ** Plain lines

    A line of words with one blank between them: what the lexer makes of it. *)

(** A byte that the lexer copies to the word. *)
Definition plain_byte (a : ascii) : bool :=
  bool_decide (a ∉ [" "; "009"; ";"; "013"; "010"; "\"; "034"; "("; ")"]%char).

Fixpoint plain_bytes (s : string) : bool :=
  match s with
  | EmptyString => true
  | String a s => plain_byte a && plain_bytes s
  end.

(** A word that fits the lexer's buffer. *)
Definition word (s : string) : Prop := s ≠ "" ∧ plain_bytes s = true ∧ slen s < maxTok.

Lemma plain_bytes_app s t : plain_bytes (s +:+ t) = plain_bytes s && plain_bytes t.
Proof. induction s as [|a s IH]; [done|]. rewrite sapp_cons. cbn. by rewrite IH, andb_assoc. Qed.

(** The lexer outside of quotes, comments and braces. *)
Definition plain_lexer (input : string) (l : lex) (space rrtype owner nextL : bool) : zlexer :=
  mkLexer input "" "" l 0 false space false rrtype owner nextL.

Lemma lex_loop_plain w : ∀ rest input l space rrtype owner str,
  plain_bytes w = true → slen str + slen w ≤ maxTok → rest ≠ "" →
  lex_loop (w +:+ rest) (plain_lexer input l space rrtype owner false) str "" false =
  lex_loop rest (plain_lexer input l (space && bool_decide (w = "")) rrtype owner false) (str +:+ w) "" false.
Proof.
  induction w as [|a w IH]; intros rest input l space rrtype owner str Hw Hlen Hrest.
  { by rewrite sapp_nil_l, sapp_nil_r, andb_true_r. }
  rewrite sapp_cons. cbn [lex_loop]. cbn in Hw. apply andb_true_iff in Hw as [Ha Hw].
  rewrite slen_cons in Hlen. pose proof (slen_nonneg w). pose proof (slen_nonneg str).
  rewrite (proj2 (Z.leb_gt maxTok (slen str))) by lia.
  change (maxTok <=? slen "") with false. cbn match.
  apply bool_decide_eq_true in Ha. rewrite !not_elem_of_cons in Ha.
  destruct Ha as (A1 & A2 & A3 & A4 & A5 & A6 & A7 & A8 & A9 & _).
  rewrite !bool_decide_false by (rewrite ?elem_of_cons, ?elem_of_nil; tauto || done).
  cbn [zl_commt set_input plain_lexer]. unfold set_space. cbn.
  change (mkLexer (w +:+ rest) "" "" l 0 false false false rrtype owner false)
    with (plain_lexer (w +:+ rest) l false rrtype owner false).
  rewrite IH; [|done| |done].
  - rewrite andb_false_r. cbn [andb].
    unfold snoc. rewrite sapp_assoc, sapp_cons, sapp_nil_l.
    destruct rest as [|r rest]; [done|]. done.
  - unfold snoc. rewrite slen_app. change (slen (String a "")) with 1. lia.
Qed.

(** A word and the blank after it. *)
Lemma lexer_Next_blank w rest l space rrtype owner :
  word w → lx_err l = false →
  lexer_Next (plain_lexer (w +:+ String " " rest) l space rrtype owner false) =
  match on_blank (plain_lexer rest l false rrtype owner false) w with
  | inl r => Ret r
  | inr zl => lex_loop rest zl w "" false
  end.
Proof.
  intros (Hne & Hw & Hlen) He. unfold lexer_Next. cbn [zl_nextL zl_l plain_lexer]. rewrite He.
  change (set_comments (plain_lexer (w +:+ String " " rest) l space rrtype owner false) "" "")
    with (plain_lexer (w +:+ String " " rest) l space rrtype owner false).
  cbn [zl_comBuf plain_lexer zl_input]. change (stake (Z.to_nat maxTok) "") with "". 
  rewrite lex_loop_plain; [|done|change (slen "") with 0; lia|done].
  rewrite sapp_nil_l, bool_decide_false, andb_false_r by done. cbn [lex_loop].
  rewrite (proj2 (Z.leb_gt maxTok (slen w))) by lia. done.
Qed.

Lemma word_slen w : word w → (slen w =? 0) = false.
Proof. intros (Hne & _). rewrite slen_eq0. by apply bool_decide_false. Qed.

Definition blank_after (l : lex) : lex := put_token l zBlank " ".

(** The first word of a line. *)
Lemma lexer_Next_owner w rest l space :
  word w → lx_err l = false →
  let tok := put_token l (owner_value w) w in
  lexer_Next (plain_lexer (w +:+ String " " rest) l space false true false) =
    Ret (tok, true, plain_lexer rest (blank_after tok) true false false true).
Proof.
  intros Hw He tok. rewrite lexer_Next_blank by done. unfold on_blank, end_word.
  by rewrite (word_slen w Hw).
Qed.

(** A word of the data. *)
Lemma lexer_Next_data w rest l space :
  word w → lx_err l = false →
  let tok := put_token l zString w in
  lexer_Next (plain_lexer (w +:+ String " " rest) l space true false false) =
    Ret (tok, true, plain_lexer rest (blank_after tok) true true false true).
Proof.
  intros Hw He tok. rewrite lexer_Next_blank by done. unfold on_blank, end_word.
  by rewrite (word_slen w Hw).
Qed.

(** A word between the owner and the data. *)
Lemma lexer_Next_middle w rest l space t b c :
  word w → lx_err l = false →
  word_type (put_token l zString w) = inr (t, b) → word_class t = inr c →
  lexer_Next (plain_lexer (w +:+ String " " rest) l space false false false) =
    Ret (c, true, plain_lexer rest (blank_after c) true b false true).
Proof.
  intros Hw He Ht Hc. rewrite lexer_Next_blank by done. unfold on_blank, end_word.
  rewrite (word_slen w Hw). cbn [zl_owner plain_lexer zl_rrtype zl_l]. rewrite Ht, Hc. by destruct b.
Qed.

(** The last word of a line. *)
Lemma lexer_Next_last w l space :
  word w → lx_err l = false →
  let tok := put_token l zString w in
  lexer_Next (plain_lexer (w +:+ newline) l space true false false) =
    Ret (tok, true, plain_lexer "" (put_token tok zNewline newline) false false true true).
Proof.
  intros (Hne & Hw & Hlen) He tok. unfold lexer_Next. cbn [zl_nextL zl_l plain_lexer]. rewrite He.
  change (set_comments (plain_lexer (w +:+ newline) l space true false false) "" "")
    with (plain_lexer (w +:+ newline) l space true false false).
  cbn [zl_comBuf plain_lexer zl_input]. change (stake (Z.to_nat maxTok) "") with "". 
  rewrite lex_loop_plain; [|done|change (slen "") with 0; lia|done].
  rewrite sapp_nil_l, bool_decide_false, andb_false_r by done. cbn [lex_loop newline].
  rewrite (proj2 (Z.leb_gt maxTok (slen w))) by lia. cbn. unfold on_newline.
  rewrite (word_slen w) by done. done.
Qed.

(** The token kept for the next call. *)
Lemma lexer_Next_kept input l space rrtype owner :
  lexer_Next (plain_lexer input l space rrtype owner true) =
    Ret (l, true, plain_lexer input l space rrtype owner false).
Proof. done. Qed.

(** ** Numbers in the text *)

Lemma digit_cases (P : Z → Prop) d :
  P 0 → P 1 → P 2 → P 3 → P 4 → P 5 → P 6 → P 7 → P 8 → P 9 → 0 ≤ d < 10 → P d.
Proof.
  intros. assert (d = 0 ∨ d = 1 ∨ d = 2 ∨ d = 3 ∨ d = 4 ∨ d = 5 ∨ d = 6 ∨ d = 7 ∨ d = 8 ∨ d = 9)
    as Hcases by lia. by destruct_or! Hcases; subst.
Qed.

Lemma digit_char_plain d : 0 ≤ d < 10 → plain_byte (digit_char d) = true.
Proof. by apply (digit_cases (λ d, plain_byte (digit_char d) = true)). Qed.

Lemma put_digits_plain fuel : ∀ z acc, plain_bytes acc = true → plain_bytes (put_digits fuel z acc) = true.
Proof.
  induction fuel as [|fuel IH]; intros z acc Hacc; [done|]. cbn [put_digits].
  assert (Hp : plain_bytes (String (digit_char (z `mod` 10)) acc) = true).
  { cbn. rewrite digit_char_plain; [done|]. apply Z.mod_pos_bound. lia. }
  case_match; [done|]. by apply IH.
Qed.

Lemma put_digits_len fuel : ∀ z acc, slen (put_digits fuel z acc) ≤ Z.of_nat fuel + slen acc.
Proof.
  induction fuel as [|fuel IH]; intros z acc; [cbn; lia|]. cbn [put_digits].
  case_match; [rewrite slen_cons; lia|]. rewrite IH, slen_cons. lia.
Qed.

(** A number starts with a digit or a sign. *)
Definition number_byte (a : ascii) : bool := isDigit a || bool_decide (a = "-"%char).

Lemma Itoa_head z : ∃ a s, Itoa z = String a s ∧ number_byte a = true.
Proof.
  unfold Itoa. destruct (Z.ltb_spec z 0); [by eexists _, _|].
  destruct (put_digits_head (digit_fuel z) z "") as (d & s & Hd & ->); [done|unfold digit_fuel; lia|].
  eexists _, _. split; [done|]. by apply (digit_cases (λ d, number_byte (digit_char d) = true)).
Qed.

Lemma Itoa_word z : int_range z → word (Itoa z).
Proof.
  intros Hz. destruct (Itoa_head z) as (a & s & E & _). split_and!; [by rewrite E| |].
  - unfold Itoa. case_match; [|by apply put_digits_plain]. cbn [plain_bytes].
    change (plain_byte "-") with true. by apply put_digits_plain.
  - assert (Hf : ∀ n, 0 ≤ n ≤ 2 ^ 63 → slen (put_digits (digit_fuel n) n "") ≤ 64).
    { intros n Hn. rewrite put_digits_len. change (slen "") with 0. unfold digit_fuel.
      rewrite Nat2Z.inj_succ, Z2Nat.id by apply Z.log2_nonneg.
      assert (Z.log2 n ≤ Z.log2 (2 ^ 63)) by (apply Z.log2_le_mono; lia).
      change (Z.log2 (2 ^ 63)) with 63 in *. lia. }
    unfold Itoa, int_range, min_int, max_int in *. unfold maxTok.
    destruct (Z.ltb_spec z 0); [rewrite slen_cons; pose proof (Hf (- z) ltac:(lia)); lia|].
    pose proof (Hf z ltac:(lia)). lia.
Qed.

Lemma read_digits_ge s : ∀ v n, 0 ≤ v → read_digits v s = Some n → v ≤ n.
Proof.
  induction s as [|a s IH]; intros v n Hv; cbn; [intros [= ->]; lia|].
  destruct (digit_val a) as [d|] eqn:Ed; [|done]. cbn. intros Hr.
  unfold digit_val in Ed. case_match; [|done]. split_bools. injection Ed as <-.
  apply IH in Hr; lia.
Qed.

Lemma ttl_loop_digits s : ∀ v n, 0 ≤ v → n < 2 ^ 32 → read_digits v s = Some n → ttl_loop s 0 v = Some n.
Proof.
  induction s as [|a s IH]; intros v n Hv Hn; cbn [read_digits ttl_loop].
  { intros [= ->]. f_equal. unfold uint32. rewrite Z.add_0_l. apply Z.mod_small. lia. }
  destruct (digit_val a) as [d|] eqn:Ed; [|done]. cbn. intros Hr.
  rewrite !bool_decide_false by (rewrite !elem_of_cons, elem_of_nil; intros Ha; by destruct_or! Ha; subst).
  assert (0 ≤ d ≤ 9) by (unfold digit_val in Ed; case_match; [|done]; split_bools; simplify_eq; lia).
  pose proof (read_digits_ge s (10 * v + d) n ltac:(lia) Hr).
  unfold uint32. rewrite (Z.mod_small (v * 10)), Z.mod_small by lia.
  replace (v * 10 + d) with (10 * v + d) by lia. by apply IH; [lia| |].
Qed.

(** Reading back a printed number as a TTL, and as a 32-bit number. *)
Lemma stringToTTL_Itoa z : z < 2 ^ 32 → stringToTTL (Itoa z) = if 0 <=? z then Some z else None.
Proof.
  intros Hz. unfold stringToTTL, Itoa. destruct (Z.leb_spec 0 z).
  - rewrite (proj2 (Z.ltb_ge z 0)) by lia. apply ttl_loop_digits; [done|done|].
    apply read_put_digits. split; [done|by apply digit_fuel_enough].
  - by rewrite (proj2 (Z.ltb_lt z 0)).
Qed.

Lemma ParseUint_Itoa z bits : ParseUint (Itoa z) bits = if (0 <=? z) && (z <? 2 ^ bits) then Some z else None.
Proof.
  unfold ParseUint, Itoa. destruct (Z.leb_spec 0 z).
  - rewrite (proj2 (Z.ltb_ge z 0)) by lia. by rewrite read_nonempty_put.
  - by rewrite (proj2 (Z.ltb_lt z 0)).
Qed.

(** A number is neither a type nor a class. *)
Lemma upper_number a : number_byte a = true → upper_ascii a = a.
Proof.
  unfold number_byte. rewrite orb_true_iff. intros [Ha|Ha%bool_decide_eq_true]; [|by subst].
  unfold isDigit in Ha. split_bools. unfold upper_ascii. rewrite (proj2 (Z.leb_gt _ _)); [done|lia].
Qed.

Definition no_number (k : string) : bool :=
  match k with String a _ => negb (number_byte a) | EmptyString => true end.

Lemma types_no_number : map_Forall (λ k _, no_number k = true) StringToType.
Proof. apply (bool_decide_unpack _). by vm_compute. Qed.

Lemma classes_no_number : map_Forall (λ k _, no_number k = true) StringToClass.
Proof. apply (bool_decide_unpack _). by vm_compute. Qed.

Lemma number_word l a s :
  number_byte a = true → lx_token l = String a s →
  word_type l = inr (l, false) ∧ word_class l = inr l.
Proof.
  intros Ha Hl. unfold word_type, word_class. rewrite Hl. cbn [ToUpper]. rewrite upper_number by done.
  assert (Hno : ∀ k, no_number k = true → k ≠ String a (ToUpper s)).
  { intros k Hk ->. cbn in Hk. by rewrite Ha in Hk. }
  assert (HP : HasPrefix (String a (ToUpper s)) "TYPE" = false ∧
    HasPrefix (String a (ToUpper s)) "CLASS" = false).
  { split; cbn; apply andb_false_intro1; apply Ascii.eqb_neq; intros ->; by vm_compute in Ha. }
  destruct HP as [HP1 HP2].
  destruct (StringToType !! String a (ToUpper s)) as [t|] eqn:Et.
  { by apply types_no_number, Hno in Et. }
  destruct (StringToClass !! String a (ToUpper s)) as [t|] eqn:Ec.
  { by apply classes_no_number, Hno in Ec. }
  by rewrite HP1, HP2.
Qed.

(** ** Domain names *)

(** The octets of the labels on the wire: each with its length, without the
    final empty label. *)
Definition name_octets (ls : list string) : Z := sumZ ((λ w, slen w + 1) <$> ls).

Lemma name_octets_cons w ls : name_octets (w :: ls) = slen w + 1 + name_octets ls.
Proof. done. Qed.

Lemma name_octets_nonneg ls : 0 ≤ name_octets ls.
Proof.
  induction ls as [|w ls IH]; [done|]. rewrite name_octets_cons. pose proof (slen_nonneg w). lia.
Qed.

Lemma domain_loop_label w rest : ∀ i begin off wasDot,
  ContainsByte w "." = false → ContainsByte w "\" = false →
  domain_loop (w +:+ rest) i begin off wasDot =
  domain_loop rest (i + slen w) begin off (wasDot && bool_decide (w = "")).
Proof.
  induction w as [|a w IH]; intros i begin off wasDot H1 H2.
  { rewrite sapp_nil_l, andb_true_r. change (slen "") with 0. by rewrite Z.add_0_r. }
  cbn in H1, H2. apply orb_false_iff in H1 as [A1 H1], H2 as [A2 H2].
  rewrite sapp_cons. cbn [domain_loop]. rewrite Ascii.eqb_sym in A1. rewrite Ascii.eqb_sym in A2.
  rewrite ?A1, ?A2, (Ascii.eqb_sym a "."), (Ascii.eqb_sym a "\"), ?A1, ?A2.
  rewrite IH by done. rewrite slen_cons. cbn [andb]. f_equal; [lia|]. by rewrite andb_false_r.
Qed.

(** One label and its dot. *)
Lemma domain_loop_dot w rest i off wasDot :
  plain w →
  domain_loop (w +:+ String "." rest) i i off wasDot =
  (slen w <=? 63) && (off + (slen w + 1) <=? 256) &&
    domain_loop rest (i + slen w + 1) (i + slen w + 1) (off + (slen w + 1)) true.
Proof.
  intros (Hne & H1 & H2). rewrite domain_loop_label by done.
  rewrite bool_decide_false, andb_false_r by done. cbn [domain_loop].
  change (Ascii.eqb "." "\") with false. change (Ascii.eqb "." ".") with true. cbn match.
  replace (i + slen w - i) with (slen w) by lia. replace (1 + slen w) with (slen w + 1) by lia.
  destruct (Z.leb_spec 64 (slen w)), (Z.leb_spec (slen w) 63); try lia; try done.
  destruct (Z.ltb_spec 256 (off + (slen w + 1))), (Z.leb_spec (off + (slen w + 1)) 256); try lia; done.
Qed.

Lemma domain_loop_name ls : Forall plain ls → ∀ i off wasDot, ls ≠ [] →
  domain_loop (fqdn_of ls) i i off wasDot =
  bool_decide (Forall (λ w, slen w ≤ 63) ls) && (off + name_octets ls <=? 256).
Proof.
  induction 1 as [|w ls Hw Hls IH]; intros i off wasDot Hne; [done|]. clear Hne.
  rewrite name_octets_cons. pose proof (name_octets_nonneg ls) as Hn.
  assert (Hhead : bool_decide (Forall (λ w, slen w ≤ 63) (w :: ls)) =
    (slen w <=? 63) && bool_decide (Forall (λ w, slen w ≤ 63) ls)).
  { apply eq_bool_prop_intro. rewrite andb_True, !bool_decide_spec, Forall_cons, Is_true_true, Z.leb_le. done. }
  rewrite Hhead. destruct ls as [|w' ls].
  - change (fqdn_of [w]) with (w +:+ String "." ""). rewrite domain_loop_dot by done. cbn [domain_loop].
    change (bool_decide (Forall (λ w, slen w ≤ 63) [])) with true. rewrite !andb_true_r.
    change (name_octets []) with 0. by rewrite Z.add_0_r.
  - assert (fqdn_of (w :: w' :: ls) = w +:+ String "." (fqdn_of (w' :: ls))) as ->.
    { unfold fqdn_of. by rewrite dotted_name_cons, sapp_assoc, sapp_cons. }
    rewrite domain_loop_dot by done. rewrite IH by done.
    replace (off + (slen w + 1) + name_octets (w' :: ls)) with (off + (slen w + 1 + name_octets (w' :: ls))) by lia.
    destruct (Z.leb_spec (off + (slen w + 1 + name_octets (w' :: ls))) 256).
    + rewrite (proj2 (Z.leb_le (off + (slen w + 1)) 256)) by lia. rewrite andb_true_r. by rewrite andb_assoc.
    + by rewrite !andb_false_r.
Qed.

(** The check of domain names on names of plain labels, with or without
    the final dot: every label has at most 63 octets, and the labels with their
    lengths at most 256.  The final empty label is not counted, so that names
    of 256 and 257 octets on the wire pass. *)
Theorem IsDomainName_spec (dot : bool) (ls : list string) :
  ls ≠ [] → Forall plain ls →
  IsDomainName (name_of dot ls) =
    bool_decide (Forall (λ w, slen w ≤ 63) ls) && (name_octets ls <=? 256).
Proof.
  intros Hne Hp. unfold IsDomainName. rewrite Fqdn_name by done.
  destruct (name_of_long dot ls Hne Hp) as (a & s & E). rewrite E, slen_eq0, bool_decide_false by done.
  by rewrite domain_loop_name.
Qed.

(** ** Examples *)

Lemma ScanReturns_none : @ScanReturns ZoneScan_none.
Proof. split; intros; by apply yields_Ret. Qed.

Lemma NewRR_returns_witness :
  ∃ v, @dns_NewRR ZoneScan_none "a.example. 2h IN SOA ns. host. ( 7 1h 5400 ; retry" = Ret v.
Proof.
  apply (@NewRR_returns ZoneScan_none ScanReturns_none). right. vm_compute. reflexivity.
Defined.

Definition long_label : string := String.concat "" (replicate 63 "a").

(** A name of four labels of 63 octets has 257 octets on the wire. *)
Lemma IsDomainName_spec_witness :
  name_octets (replicate 4 long_label) = 256 ∧
  IsDomainName (name_of false (replicate 4 long_label)) = true.
Proof.
  assert (Hp : Forall plain (replicate 4 long_label)).
  { apply Forall_replicate. vm_compute. repeat split; discriminate. }
  split; [vm_compute; reflexivity|].
  rewrite (IsDomainName_spec false (replicate 4 long_label) ltac:(discriminate) Hp). vm_compute. reflexivity.
Defined.
