(* ===== verification/Zones.v ===== *)
(** * zones/zone.go: zones, labels and records

    A [*Label] in a zone and a [*Record] in a record list are shared only for
    reading once a zone is loaded, so both are values here; a nil pointer is
    [None].  The statistics of a zone are shared between a zone and its
    successor: the zone holds their location. *)

From S2P Require Import Prelude GoStrings GoNet Float64 TypeUtil Targeting.
From S2P Require Import DnsNames DnsMsg Health.
Local Open Scope Z_scope.

(** ** Data *)

Record ZoneOptions := mkOptions {
  o_Serial : Z;
  o_Ttl : Z;
  o_MaxHosts : Z;
  o_Contact : string;
  o_Targeting : Z;
  o_Closest : bool
}.

Record ZoneLogging := mkLogging { StatHat : bool; StatHatAPI : string }.

Record Record_ := mkRecord {
  rec_RR : RR;
  rec_Weight : Z;
  rec_Loc : option Location;
  rec_Test : string
}.

(** [type Records []*Record] *)
Abbreviation Records := (list (option Record_)).

(** [RecordsByWeight.Less] *)
Definition RecordsByWeight_Less (a b : Record_) : bool := rec_Weight b <? rec_Weight a.

Record Label := mkLabel {
  l_Label : string;
  l_MaxHosts : Z;
  l_Ttl : Z;
  l_Records : gmap Z Records;
  l_Weight : gmap Z Z;
  l_Closest : bool;
  l_Test : option HealthReference
}.

Record LabelMatch := mkMatch { lm_Label : option Label; lm_Type : Z }.

(** A [*zoneLabelStats]: its location in the store of statistics. *)
Abbreviation stats_loc := nat (only parsing).

Record ZoneMetrics := mkMetrics {
  LabelStats : option stats_loc;
  ClientStats : option stats_loc
}.

Record Zone := mkZone {
  z_Origin : string;
  z_Labels : gmap string Label;
  z_LabelCount : Z;
  z_Options : ZoneOptions;
  z_Logging : option ZoneLogging;
  z_Metrics : ZoneMetrics;
  z_HasClosest : bool;
  z_ParseIP : bool
}.

#[export] Instance Record_eq_dec : EqDecision Record_.
Proof. solve_decision. Defined.
#[export] Instance HealthReference_eq_dec : EqDecision HealthReference.
Proof. solve_decision. Defined.
#[export] Instance Label_eq_dec : EqDecision Label.
Proof. solve_decision. Defined.
#[export] Instance LabelMatch_eq_dec : EqDecision LabelMatch.
Proof. solve_decision. Defined.

(** Field updates. *)
Definition set_Labels (z : Zone) (ls : gmap string Label) : Zone :=
  mkZone (z_Origin z) ls (z_LabelCount z) (z_Options z) (z_Logging z) (z_Metrics z)
    (z_HasClosest z) (z_ParseIP z).
Definition set_Options (z : Zone) (o : ZoneOptions) : Zone :=
  mkZone (z_Origin z) (z_Labels z) (z_LabelCount z) o (z_Logging z) (z_Metrics z)
    (z_HasClosest z) (z_ParseIP z).
Definition set_HasClosest (z : Zone) (b : bool) : Zone :=
  mkZone (z_Origin z) (z_Labels z) (z_LabelCount z) (z_Options z) (z_Logging z) (z_Metrics z)
    b (z_ParseIP z).
Definition set_Metrics (z : Zone) (m : ZoneMetrics) : Zone :=
  mkZone (z_Origin z) (z_Labels z) (z_LabelCount z) (z_Options z) (z_Logging z) m
    (z_HasClosest z) (z_ParseIP z).
Definition set_Records (l : Label) (rs : gmap Z Records) : Label :=
  mkLabel (l_Label l) (l_MaxHosts l) (l_Ttl l) rs (l_Weight l) (l_Closest l) (l_Test l).
Definition set_LabelTest (l : Label) (t : option HealthReference) : Label :=
  mkLabel (l_Label l) (l_MaxHosts l) (l_Ttl l) (l_Records l) (l_Weight l) (l_Closest l) t.

(** ** Operations *)

Definition NewZone (name : string) : Zone :=
  mkZone name ∅ (CountLabel name)
    (mkOptions 0 120 2 ("hostmaster." +:+ name)
       (TargetGlobal + TargetCountry + TargetContinent) false)
    None (mkMetrics None None) false false.

(** [Label.FirstRR] *)
Definition FirstRR (l : Label) (dnsType : Z) : res RR :=
  r ← index (default [] (l_Records l !! dnsType)) 0;
  r ← deref r;
  Ret (rec_RR r).

Definition AddLabel (z : Zone) (k : string) : Zone :=
  let k := ToLower k in
  let label := mkLabel k (o_MaxHosts (z_Options z)) 0 ∅ ∅ (o_Closest (z_Options z)) None in
  set_Labels z (<[k := label]> (z_Labels z)).

Definition SoaRR (z : Zone) : res RR :=
  label ← deref (z_Labels z !! "");
  FirstRR label TypeSOA.

(** [dns.NewRR], as a zone uses it; [None] is the error result.  DnsScan models
    the parser and Soa makes it an instance. *)
Class RRParser := NewRR : string → option RR.

Definition soa_ttl (z : Zone) : Z :=
  let ttl := o_Ttl (z_Options z) *! 10 in
  let ttl := if 3600 <? ttl then 3600 else ttl in
  if ttl =? 0 then 600 else ttl.

(** The line that [addSOA] hands to the parser. *)
Definition soa_line (z : Zone) (primaryNs : string) : string :=
  z_Origin z +:+ ". " +:+ Itoa (soa_ttl z) +:+ " IN SOA " +:+ primaryNs +:+ " " +:+
  o_Contact (z_Options z) +:+ " " +:+ Itoa (o_Serial (z_Options z)) +:+
  " 5400 5400 1209600 3600".

Definition primary_ns (label : Label) : res string :=
  match l_Records label !! TypeNS with
  | None => Ret "ns"
  | Some _ =>
      rr ← FirstRR label TypeNS;
      match rr_Data rr with
      | RD_NS ns => Ret ns
      | _ => Panic "interface conversion: not *dns.NS"
      end
  end.

Definition addSOA `{RRParser} (z : Zone) : res Zone :=
  let z := match z_Labels z !! "" with Some _ => z | None => AddLabel z "" end in
  label ← deref (z_Labels z !! "");
  primaryNs ← primary_ns label;
  match NewRR (soa_line z primaryNs) with
  | None => Panic "Could not setup SOA"
  | Some rr =>
      let record := mkRecord rr 0 None "" in
      let label := set_Records label (<[TypeSOA := [Some record]]> (l_Records label)) in
      Ret (set_Labels z (<["" := label]> (z_Labels z)))
  end.

(** The name that [FindLabels] looks up for a target. *)
Definition target_name (s target : string) : string :=
  if decide (target = "@") then s
  else if 0 <? slen s then s +:+ "." +:+ target
  else target.

(** [label.FirstRR(dns.TypeMF).( *dns.MF).Mf] *)
Definition alias_target (label : Label) : res string :=
  rr ← FirstRR label TypeMF;
  match rr_Data rr with
  | RD_MF mf => Ret mf
  | _ => Panic "interface conversion: not *dns.MF"
  end.

(** The body of the loop over the query types, for the label found for one
    target; [find] is the recursive call for an alias. *)
Definition match_qtype (find : string → res (list LabelMatch)) (z : Zone) (s : string)
    (label : Label) (matches : list LabelMatch) (qtype : Z) : res (list LabelMatch) :=
  if qtype =? TypeANY then Ret (matches ++ [mkMatch (z_Labels z !! s) qtype])
  else if qtype =? TypeMF then
    match l_Records label !! TypeMF with
    | None => Ret matches
    | Some _ =>
        name ← alias_target label;
        aliases ← find name;
        Ret (matches ++ aliases)
    end
  else
    match l_Records label !! qtype with
    | Some (_ :: _) => Ret (matches ++ [mkMatch (Some label) qtype])
    | _ => Ret matches
    end.

Definition match_target (find : string → res (list LabelMatch)) (z : Zone) (s : string)
    (qts : list Z) (matches : list LabelMatch) (target : string) : res (list LabelMatch) :=
  match z_Labels z !! target_name s target with
  | None => Ret matches
  | Some label => foldM (match_qtype find z s label) matches qts
  end.

(** [FindLabels]; the recursion through aliases has no bound in the code, so
    the model takes fuel. *)
Fixpoint FindLabels (fuel : nat) (z : Zone) (s : string) (targets : list string) (qts : list Z) :
    res (list LabelMatch) :=
  match fuel with
  | O => OutOfFuel
  | S fuel =>
      matches ← foldM (match_target (λ name, FindLabels fuel z name targets qts) z s qts)
                  [] targets;
      match matches with
      | [] =>
          match z_Labels z !! s with
          | Some label => Ret [mkMatch (Some label) 0]
          | None => Ret []
          end
      | _ => Ret matches
      end
  end.

(** [findFirstLabel] *)
Definition findFirstLabel (fuel : nat) (z : Zone) (s : string) (targets : list string)
    (qts : list Z) : res (option LabelMatch) :=
  matches ← FindLabels fuel z s targets qts;
  Ret (head matches).

(** One record of [SetLocations]; [g] is [targeting.Geo()], nil when no
    provider is set up. *)
Definition locate_record (g : option Provider) (r : option Record_) : res (option Record_) :=
  r ← deref r;
  let set l := Some (mkRecord (rec_RR r) (rec_Weight r) l (rec_Test r)) in
  match rr_Data (rec_RR r) with
  | RD_A ip | RD_AAAA ip =>
      g ← deref g;
      '(location, err) ← GetLocation g ip;
      match err with
      | Some _ => Ret (set None)
      | None => Ret (set location)
      end
  | _ => Ret (set None)
  end.

Definition locate_records (g : option Provider) (qtype : Z) (rs : Records) : res Records :=
  if (qtype =? TypeA) || (qtype =? TypeAAAA) then mapM_res (locate_record g) rs else Ret rs.

Definition SetLocations (z : Zone) (g : option Provider) : res Zone :=
  ls ← gmap_traverse (λ _ l,
    if l_Closest l then
      rs ← gmap_traverse (locate_records g) (l_Records l);
      Ret (set_Records l rs)
    else Ret l) (z_Labels z);
  Ret (set_Labels z ls).

(** [addHealthReference] on the label; a reference that cannot be set up is
    logged and skipped. *)
Definition addHealthReference `{GoFormat} (l : Label) (data : value) : res Label :=
  match data with
  | VObj i =>
      tester ← NewReferenceFromMap i;
      match tester with
      | None => Ret l
      | Some t => Ret (set_LabelTest l (Some t))
      end
  | _ => Ret l
  end.

(** One record of [setupHealthTests]. *)
Definition default_test (r : Record_) : string :=
  match rr_Data (rec_RR r) with
  | RD_A ip => IP_String ip
  | RD_AAAA ip => IP_String ip
  | RD_MX _ mx => mx
  | _ => rec_Test r
  end.

Definition setup_record_test (r : option Record_) : res (option Record_) :=
  r ← deref r;
  if 0 <? slen (rec_Test r) then Ret (Some r)
  else Ret (Some (mkRecord (rec_RR r) (rec_Weight r) (rec_Loc r) (default_test r))).

Definition setupHealthTests (z : Zone) : res Zone :=
  ls ← gmap_traverse (λ _ l,
    match l_Test l with
    | None => Ret l
    | Some _ =>
        rs ← gmap_traverse (λ _ rs, mapM_res setup_record_test rs) (l_Records l);
        Ret (set_Records l rs)
    end) (z_Labels z);
  Ret (set_Labels z ls).

(** [HealthRR]: the status map is always empty, and encodes as "{}". *)
Definition HealthRR (label : string) : list RR :=
  [mkRR (mkHdr label TypeTXT ClassINET 1 0) (RD_TXT ["{}"])].

(** ** Specification of the lookup *)

Definition has_type (l : Label) (qtype : Z) : bool :=
  match l_Records l !! qtype with
  | Some (_ :: _) => true
  | _ => false
  end.

(** The labels and types that answer for [s], most specific target first and
    in the order of the query types for one target. *)
Definition direct_matches (z : Zone) (s : string) (targets : list string) (qts : list Z) :
    list LabelMatch :=
  targets ≫= λ target,
    match z_Labels z !! target_name s target with
    | None => []
    | Some l => mkMatch (Some l) <$> filter (λ q, has_type l q = true) qts
    end.

(** The match that marks an existing name without matching records. *)
Definition fallback_match (z : Zone) (s : string) : list LabelMatch :=
  match z_Labels z !! s with
  | Some l => [mkMatch (Some l) 0]
  | None => []
  end.

(** [s] resolves, for one of the targets, to a label that is an alias for
    [mf]. *)
Definition alias_edge (z : Zone) (targets : list string) (s mf : string) : Prop :=
  ∃ target l, target ∈ targets ∧ z_Labels z !! target_name s target = Some l ∧
    is_Some (l_Records l !! TypeMF) ∧ alias_target l = Ret mf.

(** Every alias entry has a first record, and it is an alias. *)
Definition aliases_ok (z : Zone) : Prop :=
  ∀ k l, z_Labels z !! k = Some l → is_Some (l_Records l !! TypeMF) → ok (alias_target l).

(** What a match is about: a label with records of one of the query types
    (never the aliases, which are followed), the bare name of a label found for
    ANY and a target, or an existing label for the answer without records. *)
Definition match_sound (z : Zone) (targets : list string) (qts : list Z) (m : LabelMatch) : Prop :=
  ∃ k,
    (lm_Type m ∈ qts ∧ lm_Type m ≠ TypeMF ∧ ∃ l, lm_Label m = Some l ∧ z_Labels z !! k = Some l ∧
       has_type l (lm_Type m) = true) ∨
    (lm_Type m = TypeANY ∧ TypeANY ∈ qts ∧ lm_Label m = z_Labels z !! k ∧
       ∃ target, target ∈ targets ∧ is_Some (z_Labels z !! target_name k target)) ∨
    (lm_Type m = 0 ∧ is_Some (z_Labels z !! k) ∧ lm_Label m = z_Labels z !! k).

(** ** Lemmas *)

Lemma foldM_mono {A B} (f g : B → A → res B) l b r :
  (∀ b a r, f b a = Ret r → g b a = Ret r) → foldM f b l = Ret r → foldM g b l = Ret r.
Proof.
  intros Hfg. revert b. induction l as [|a l IH]; intros b; cbn [foldM]; [done|].
  intros H. apply bind_Ret in H as (b' & H1 & H2). rewrite (Hfg _ _ _ H1). simpl. auto.
Qed.

Lemma match_target_mono f g z s qts ms t r :
  (∀ name ms, f name = Ret ms → g name = Ret ms) →
  match_target f z s qts ms t = Ret r → match_target g z s qts ms t = Ret r.
Proof.
  intros Hfg. unfold match_target. case_match; [|done].
  apply foldM_mono. intros b q r'. unfold match_qtype.
  repeat (case_match; try done). intros H'. res_inv. rewrite Hr. simpl.
  by rewrite (Hfg _ _ Hr0).
Qed.

(** More fuel does not change a result. *)
Lemma FindLabels_fuel fuel fuel' z s targets qts ms :
  (fuel ≤ fuel')%nat →
  FindLabels fuel z s targets qts = Ret ms → FindLabels fuel' z s targets qts = Ret ms.
Proof.
  revert fuel' s ms. induction fuel as [|fuel IH]; intros fuel' s ms Hle; [done|].
  destruct fuel' as [|fuel']; [lia|]. cbn [FindLabels]. intros H.
  apply bind_Ret in H as (ms' & H1 & H2).
  eapply (foldM_mono _ (match_target (λ name, FindLabels fuel' z name targets qts) z s qts))
    in H1; [by rewrite H1|].
  intros b t r. apply match_target_mono. intros name ms'' Hf. apply IH; [lia|done].
Qed.

Lemma match_target_ok f z s qts ms t :
  aliases_ok z →
  (∀ l mf, z_Labels z !! target_name s t = Some l → is_Some (l_Records l !! TypeMF) →
     alias_target l = Ret mf → ok (f mf)) →
  ok (match_target f z s qts ms t).
Proof.
  intros Hok Hf. unfold match_target. destruct (z_Labels z !! _) as [l|] eqn:El; [|by eexists].
  destruct (foldM_ok (match_qtype f z s l) (λ _, True) qts ms) as (b & -> & _); [done| |by eexists].
  intros b q _ _. unfold match_qtype. repeat case_match; try (by eexists).
  destruct (Hok _ _ El) as [mf Hmf]; [by eexists|]. rewrite Hmf. simpl.
  destruct (Hf l mf eq_refl) as [r ->]; [by eexists|done|]. by eexists.
Qed.

Lemma FindLabels_returns z targets qts (rank : string → nat) fuel s :
  aliases_ok z →
  (∀ s mf, alias_edge z targets s mf → (rank mf < rank s)%nat) →
  (rank s < fuel)%nat → ok (FindLabels fuel z s targets qts).
Proof.
  intros Hok Hrank. revert s. induction fuel as [|fuel IH]; intros s Hlt; [lia|].
  cbn [FindLabels].
  destruct (foldM_ok (match_target (λ name, FindLabels fuel z name targets qts) z s qts)
    (λ _, True) targets []) as (ms & -> & _); [done| |].
  - intros b t Ht _. destruct (match_target_ok (λ name, FindLabels fuel z name targets qts)
      z s qts b t Hok) as [r Hr]; [|by exists r].
    intros l mf Hl HMF Hmf. apply IH.
    assert (rank mf < rank s)%nat; [|lia]. apply Hrank. exists t, l. done.
  - simpl. repeat case_match; by eexists.
Qed.

Lemma match_sound_qtype f z s l targets t qts ms q ms' :
  z_Labels z !! target_name s t = Some l → t ∈ targets → q ∈ qts →
  (∀ name ms, f name = Ret ms → Forall (match_sound z targets qts) ms) →
  Forall (match_sound z targets qts) ms → match_qtype f z s l ms q = Ret ms' →
  Forall (match_sound z targets qts) ms'.
Proof.
  intros Hl Htg Hq Hf Hms. unfold match_qtype.
  destruct (Z.eqb_spec q TypeANY) as [->|]; [|destruct (Z.eqb_spec q TypeMF) as [->|]].
  - intros [= <-]. apply Forall_app. split; [done|]. apply Forall_singleton.
    exists s. right; left. split_and!; [done..|]. exists t. split; [done|]. by eexists.
  - destruct (l_Records l !! TypeMF); intros H'; res_inv; [|done].
    apply Forall_app. eauto.
  - destruct (l_Records l !! q) as [[|r rs]|] eqn:E; intros [= <-]; [done| |done].
    apply Forall_app. split; [done|]. apply Forall_singleton.
    exists (target_name s t). left. split_and!; [done..|]. exists l. split_and!; [done..|].
    unfold has_type. simpl. by rewrite E.
Qed.

Lemma FindLabels_sound_lemma fuel z s targets qts ms :
  FindLabels fuel z s targets qts = Ret ms → Forall (match_sound z targets qts) ms.
Proof.
  revert s ms. induction fuel as [|fuel IH]; intros s ms; [done|]. cbn [FindLabels].
  intros H. apply bind_Ret in H as (ms' & H1 & H2).
  assert (Hms : Forall (match_sound z targets qts) ms').
  { eapply (foldM_invariant _ (Forall (match_sound z targets qts))); [| |exact H1]; [done|].
    intros b t b' Ht Hb. unfold match_target.
    destruct (z_Labels z !! target_name s t) as [l|] eqn:El; [|by intros [= <-]].
    apply (foldM_invariant _ (Forall (match_sound z targets qts))); [done|].
    intros b1 q b2 Hq Hb1. eapply match_sound_qtype; eauto. }
  destruct ms' as [|m ms']; [|by res_inv].
  destruct (z_Labels z !! s) as [l|] eqn:El; res_inv; [|done].
  apply Forall_singleton. exists s. right; right. rewrite El. eauto.
Qed.

Lemma filter_has_type_cons l q qts :
  filter (λ q, has_type l q = true) (q :: qts) =
    (if has_type l q then [q] else []) ++ filter (λ q, has_type l q = true) qts.
Proof. rewrite filter_cons. by destruct (has_type l q). Qed.

Lemma match_qtypes_direct f z s l qts ms :
  TypeANY ∉ qts → l_Records l !! TypeMF = None →
  foldM (match_qtype f z s l) ms qts =
    Ret (ms ++ (mkMatch (Some l) <$> filter (λ q, has_type l q = true) qts)).
Proof.
  intros Hany Hmf. revert ms. induction qts as [|q qts IH]; intros ms.
  { cbn. by rewrite app_nil_r. }
  apply not_elem_of_cons in Hany as [Hq Hany]. specialize (IH Hany).
  cbn [foldM]. rewrite filter_has_type_cons, fmap_app.
  assert (match_qtype f z s l ms q =
    Ret (ms ++ (mkMatch (Some l) <$> if has_type l q then [q] else []))) as ->.
  { unfold match_qtype, has_type. destruct (Z.eqb_spec q TypeANY); [congruence|].
    destruct (Z.eqb_spec q TypeMF) as [->|].
    - rewrite Hmf. simpl. by rewrite app_nil_r.
    - destruct (l_Records l !! q) as [[|r rs]|]; simpl; by rewrite ?app_nil_r. }
  cbn [mbind res_bind]. by rewrite IH, app_assoc.
Qed.

Lemma match_qtype_keeps f z s l ms q ms' m :
  m ∈ ms → match_qtype f z s l ms q = Ret ms' → m ∈ ms'.
Proof.
  intros Hm. unfold match_qtype. repeat case_match; intros Hr; res_inv; set_solver.
Qed.

Lemma foldM_keeps {A B} (f : list B → A → res (list B)) (m : B) l b b' :
  (∀ b a b', m ∈ b → f b a = Ret b' → m ∈ b') →
  m ∈ b → foldM f b l = Ret b' → m ∈ b'.
Proof. intros Hf Hb. apply (foldM_invariant _ (λ b, m ∈ b)); [done|]. eauto. Qed.

(** What one iteration adds is still there at the end of the loop. *)
Lemma foldM_collects {A B} (f : list B → A → res (list B)) (m : B) l a b b' :
  (∀ b a b', m ∈ b → f b a = Ret b' → m ∈ b') →
  (∀ b b', f b a = Ret b' → m ∈ b') →
  a ∈ l → foldM f b l = Ret b' → m ∈ b'.
Proof.
  intros Hkeep Hadd Hin. revert b. induction Hin as [l|x l Hin IH]; intros b; cbn [foldM];
    intros Hr; res_inv; eauto using foldM_keeps.
Qed.

Lemma match_target_collects f z s qts l q t ms ms' :
  q ∈ qts → q ≠ TypeANY → q ≠ TypeMF →
  z_Labels z !! target_name s t = Some l → has_type l q = true →
  match_target f z s qts ms t = Ret ms' → mkMatch (Some l) q ∈ ms'.
Proof.
  intros Hq Hany Hmf Hl Hhas. unfold match_target. rewrite Hl.
  apply (foldM_collects _ _ _ q); [|clear -Hany Hmf Hhas|done].
  - intros b q' b'. apply match_qtype_keeps.
  - intros b b'. unfold match_qtype. rewrite (proj2 (Z.eqb_neq q _)), (proj2 (Z.eqb_neq q _)) by done.
    unfold has_type in Hhas. repeat case_match; try done. intros; res_inv. set_solver.
Qed.

Lemma match_target_keeps f z s qts ms t ms' m :
  m ∈ ms → match_target f z s qts ms t = Ret ms' → m ∈ ms'.
Proof.
  intros Hm. unfold match_target. case_match; [|by intros [= <-]].
  apply foldM_keeps; [|done]. eauto using match_qtype_keeps.
Qed.

Lemma match_targets_direct f z s targets qts ms :
  TypeANY ∉ qts →
  (∀ t l, t ∈ targets → z_Labels z !! target_name s t = Some l → l_Records l !! TypeMF = None) →
  foldM (match_target f z s qts) ms targets = Ret (ms ++ direct_matches z s targets qts).
Proof.
  intros Hany. revert ms. induction targets as [|t targets IH]; intros ms Hmf.
  { cbn. by rewrite app_nil_r. }
  cbn [foldM]. assert (Hdir : direct_matches z s (t :: targets) qts =
    direct_matches z s [t] qts ++ direct_matches z s targets qts).
  { unfold direct_matches. cbn. by rewrite app_nil_r. }
  rewrite Hdir, app_assoc, <-IH by (intros; eapply Hmf; [by right|done]).
  enough (match_target f z s qts ms t = Ret (ms ++ direct_matches z s [t] qts)) as -> by done.
  unfold match_target, direct_matches. cbn [mbind list_bind]. rewrite app_nil_r.
  destruct (z_Labels z !! target_name s t) as [l|] eqn:El; [|by rewrite app_nil_r].
  rewrite match_qtypes_direct; [done..|]. by eapply Hmf; [left|].
Qed.

(** A name that exists always has a match. *)
Lemma FindLabels_nonempty fuel z s targets qts ms :
  FindLabels fuel z s targets qts = Ret ms → is_Some (z_Labels z !! s) → ms ≠ [].
Proof.
  destruct fuel as [|fuel]; [done|]. cbn [FindLabels]. intros Hr [l Hl].
  apply bind_Ret in Hr as (ms' & _ & Hr). rewrite Hl in Hr. destruct ms'; by res_inv.
Qed.

(** ** Properties of the lookup *)

(** C11: the lookup returns: when every alias entry has a target and following
    an alias decreases some rank (the aliases have no cycle), any amount of
    fuel above the rank of the name gives one and the same list of matches. *)
Theorem FindLabels_terminates (z : Zone) (targets : list string) (qts : list Z)
    (rank : string → nat) (s : string) :
  aliases_ok z →
  (∀ s mf, alias_edge z targets s mf → (rank mf < rank s)%nat) →
  ∃ ms, ∀ fuel, (rank s < fuel)%nat → FindLabels fuel z s targets qts = Ret ms.
Proof.
  intros Hok Hrank.
  destruct (FindLabels_returns z targets qts rank (S (rank s)) s) as [ms Hms]; [done|done|lia|].
  exists ms. intros fuel Hf. eapply FindLabels_fuel; [|done]. lia.
Qed.

(** When the aliases do have a cycle the lookup never returns: a label
    whose first target is itself an alias for itself uses up any fuel. *)
Theorem FindLabels_alias_loop (z : Zone) (l : Label) (s : string) (targets : list string)
    (qts : list Z) (fuel : nat) :
  z_Labels z !! s = Some l → is_Some (l_Records l !! TypeMF) → alias_target l = Ret s →
  FindLabels fuel z s ("@" :: targets) (TypeMF :: qts) = OutOfFuel.
Proof.
  intros Hl [rs Hmf] Ht. induction fuel as [|fuel IH]; [done|].
  cbn [FindLabels foldM].
  enough (match_target (λ name, FindLabels fuel z name ("@" :: targets) (TypeMF :: qts))
    z s (TypeMF :: qts) [] "@" = OutOfFuel) as -> by done.
  unfold match_target, target_name. rewrite decide_True, Hl by done. cbn [foldM].
  enough (match_qtype (λ name, FindLabels fuel z name ("@" :: targets) (TypeMF :: qts))
    z s l [] TypeMF = OutOfFuel) as -> by done.
  unfold match_qtype. rewrite (proj2 (Z.eqb_neq TypeMF TypeANY)), Z.eqb_refl, Hmf, Ht by done.
  cbn [mbind res_bind]. by rewrite IH.
Qed.

(** What the lookup returns is sound: every match is a label of the zone
    that has records of one of the query types (aliases are followed, never
    returned), or the match of an ANY query for a name that exists for one of
    the targets, or marks a name that exists. *)
Theorem FindLabels_sound (fuel : nat) (z : Zone) (s : string) (targets : list string)
    (qts : list Z) (ms : list LabelMatch) :
  FindLabels fuel z s targets qts = Ret ms → Forall (match_sound z targets qts) ms.
Proof. apply FindLabels_sound_lemma. Qed.

(** C12: the lookup misses nothing: each label found for a target and each of
    the query types it has records of (ANY and alias apart) is a match, and a
    name that exists in the zone always gives some match, so that it is not
    answered with NXDOMAIN.  The comment of [FindLabels] promises only the
    first available type at each targeting level; the code matches every type,
    as stated here. *)
Theorem FindLabels_complete (fuel : nat) (z : Zone) (s : string) (targets : list string)
    (qts : list Z) (ms : list LabelMatch) :
  FindLabels fuel z s targets qts = Ret ms →
  (∀ t l q, t ∈ targets → q ∈ qts → q ≠ TypeANY → q ≠ TypeMF →
     z_Labels z !! target_name s t = Some l → has_type l q = true →
     mkMatch (Some l) q ∈ ms) ∧
  (is_Some (z_Labels z !! s) → ms ≠ []).
Proof.
  intros Hr. split; [|by eapply FindLabels_nonempty].
  destruct fuel as [|fuel]; [done|]. cbn [FindLabels] in Hr.
  apply bind_Ret in Hr as (ms' & Hf & Hr). intros t l q Ht Hq Hany Hmf Hl Hhas.
  assert (mkMatch (Some l) q ∈ ms') as Hin.
  { revert Hf. apply (foldM_collects _ _ _ t); [|eauto using match_target_collects|done].
    eauto using match_target_keeps. }
  destruct ms'; [by apply elem_of_nil in Hin|]. by res_inv.
Qed.

(** C27: without aliases, and for types other than ANY, the answer is exactly
    the specification's list: the targets in their order and, for one target,
    all the query types its label has records of, in theirs (and not only the
    first of them, as the comment of [FindLabels] has it); or the marker of an
    existing name when there is none. *)
Theorem FindLabels_direct (fuel : nat) (z : Zone) (s : string) (targets : list string)
    (qts : list Z) :
  TypeANY ∉ qts →
  (∀ t l, t ∈ targets → z_Labels z !! target_name s t = Some l → l_Records l !! TypeMF = None) →
  FindLabels (S fuel) z s targets qts =
    Ret (match direct_matches z s targets qts with
         | [] => fallback_match z s
         | ms => ms
         end).
Proof.
  intros Hany Hmf. cbn [FindLabels]. rewrite match_targets_direct, app_nil_l by done.
  cbn [mbind res_bind]. unfold fallback_match. by repeat case_match.
Qed.

(** An example zone: [www] with an address of its own and one for Europe,
    [al], an alias for [www], and [loop], an alias for itself. *)
Definition example_record (d : RData) (t w : Z) : option Record_ :=
  Some (mkRecord (mkRR (mkHdr "www.example.com." t ClassINET 120 0) d) w None "").
Definition example_label (name : string) (rs : gmap Z Records) : Label :=
  mkLabel name 2 0 rs ∅ false None.
Definition example_labels : gmap string Label :=
  <["www" := example_label "www" {[TypeA := [example_record (RD_A [10; 0; 0; 1]) TypeA 1]]}]>
  (<["www.europe" :=
     example_label "www.europe" {[TypeA := [example_record (RD_A [10; 0; 0; 2]) TypeA 1]]}]>
  (<["al" := example_label "al" {[TypeMF := [example_record (RD_MF "www") TypeMF 0]]}]> ∅)).
Definition example_zone : Zone := set_Labels (NewZone "example.com") example_labels.
Definition example_loop_zone : Zone :=
  set_Labels example_zone
    (<["loop" := example_label "loop" {[TypeMF := [example_record (RD_MF "loop") TypeMF 0]]}]>
       example_labels).

Lemma example_aliases_ok : aliases_ok example_zone.
Proof.
  intros k l Hl HMF. cbn in Hl. unfold example_labels in Hl.
  repeat (apply lookup_insert_Some in Hl as [[<- <-]|[_ Hl]]; 
    [vm_compute in HMF |- *; first [by eexists | destruct HMF; discriminate]|]).
  by rewrite lookup_empty in Hl.
Qed.

Lemma FindLabels_terminates_witness :
  ∃ ms, ∀ fuel, (1 < fuel)%nat →
    FindLabels fuel example_zone "al" ["@"] [TypeMF; TypeCNAME; TypeA] = Ret ms.
Proof.
  apply (FindLabels_terminates example_zone ["@"] [TypeMF; TypeCNAME; TypeA]
    (λ s, if String.eqb s "al" then 1%nat else 0%nat) "al").
  - apply example_aliases_ok.
  - intros s mf (t & l & ->%list_elem_of_singleton & Hl & HMF & Hmf).
    unfold target_name in Hl. rewrite decide_True in Hl by done. cbn in Hl.
    unfold example_labels in Hl.
    repeat (apply lookup_insert_Some in Hl as [[<- <-]|[_ Hl]];
      [vm_compute in Hmf; first [injection Hmf as <-; vm_compute; lia | discriminate Hmf]|]).
    by rewrite lookup_empty in Hl.
Defined.

Lemma FindLabels_alias_loop_witness :
  FindLabels 1000 example_loop_zone "loop" ["@"] [TypeMF; TypeCNAME; TypeA] = OutOfFuel.
Proof.
  eapply (FindLabels_alias_loop example_loop_zone _ "loop" [] [TypeCNAME; TypeA] 1000);
    [reflexivity|by eexists|reflexivity].
Defined.

Definition example_matches : list LabelMatch :=
  [mkMatch (example_labels !! "www.europe") TypeA; mkMatch (example_labels !! "www") TypeA].

Lemma FindLabels_sound_witness :
  Forall (match_sound example_zone ["europe"; "@"] [TypeMF; TypeCNAME; TypeA]) example_matches.
Proof.
  apply (FindLabels_sound 2 example_zone "al" ["europe"; "@"] [TypeMF; TypeCNAME; TypeA]).
  vm_compute. reflexivity.
Defined.

Lemma FindLabels_complete_witness :
  is_Some (z_Labels example_zone !! "www") ∧ example_matches ≠ [].
Proof.
  split; [by eexists|].
  apply (FindLabels_complete 1 example_zone "www" ["europe"; "@"] [TypeMF; TypeCNAME; TypeA]);
    [vm_compute; reflexivity|by eexists].
Defined.

Lemma FindLabels_direct_witness :
  FindLabels 1 example_zone "www" ["europe"; "@"] [TypeMF; TypeCNAME; TypeA] = Ret example_matches.
Proof.
  rewrite (FindLabels_direct 0 example_zone "www" ["europe"; "@"] [TypeMF; TypeCNAME; TypeA]);
    [reflexivity|by vm_compute; set_solver|].
  intros t l Ht Hl. repeat (apply elem_of_cons in Ht as [->|Ht]).
  - vm_compute in Hl. injection Hl as <-. reflexivity.
  - vm_compute in Hl. injection Hl as <-. reflexivity.
  - by apply elem_of_nil in Ht.
Defined.

(** ** The SOA record *)

Lemma lookup_AddLabel_ne z k k' : k' ≠ ToLower k → z_Labels (AddLabel z k) !! k' = z_Labels z !! k'.
Proof. intros. unfold AddLabel, set_Labels. cbn. by rewrite lookup_insert_ne. Qed.

Lemma lookup_AddLabel z k :
  z_Labels (AddLabel z k) !! ToLower k =
    Some (mkLabel (ToLower k) (o_MaxHosts (z_Options z)) 0 ∅ ∅ (o_Closest (z_Options z)) None).
Proof. unfold AddLabel, set_Labels. cbn. by rewrite lookup_insert_eq. Qed.

(** When [addSOA] returns, the zone has the SOA record that the parser made
    of the zone's SOA line and [SoaRR] gives it; every other label, and every
    other record type of the apex, is as it was.  The TTL in that line is
    never 0 and at most an hour, and lies in [1, 3600] for a zone TTL that is
    not negative and small enough not to overflow. *)
Theorem addSOA_SoaRR `{RRParser} (z z' : Zone) :
  addSOA z = Ret z' →
  (∃ rr ns, NewRR (soa_line z ns) = Some rr ∧ SoaRR z' = Ret rr) ∧
  (∀ k, k ≠ "" → z_Labels z' !! k = z_Labels z !! k) ∧
  (∀ l t, z_Labels z !! "" = Some l → t ≠ TypeSOA →
     ∃ l', z_Labels z' !! "" = Some l' ∧ l_Records l' !! t = l_Records l !! t) ∧
  soa_ttl z ≠ 0 ∧ soa_ttl z ≤ 3600 ∧
  (0 ≤ o_Ttl (z_Options z) ≤ 2 ^ 59 → 1 ≤ soa_ttl z).
Proof.
  intros Hadd. unfold addSOA in Hadd.
  set (z1 := match z_Labels z !! "" with Some _ => z | None => _ end) in Hadd.
  assert (Hline : ∀ ns, soa_line z1 ns = soa_line z ns) by (intros; unfold z1; by case_match).
  assert (Hother : ∀ k, k ≠ "" → z_Labels z1 !! k = z_Labels z !! k).
  { intros k Hk. unfold z1. case_match; [done|]. by apply lookup_AddLabel_ne. }
  assert (Hapex : ∀ l, z_Labels z !! "" = Some l → z1 = z) by (intros l Hl; unfold z1; by rewrite Hl).
  clearbody z1. res_inv. destruct (NewRR (soa_line z1 r0)) as [rr|] eqn:Enew; [|done]. res_inv.
  split_and!.
  - exists rr, r0. rewrite <-Hline. split; [done|]. unfold SoaRR. cbn.
    rewrite lookup_insert_eq. cbn. unfold FirstRR. cbn. by rewrite lookup_insert_eq.
  - intros k Hk'. cbn. rewrite lookup_insert_ne by done. by apply Hother.
  - intros l t Hl Ht. cbn. rewrite lookup_insert_eq. eexists. split; [done|]. cbn.
    rewrite lookup_insert_ne by done. rewrite (Hapex l Hl), Hl in Hr. cbn in Hr. by res_inv.
  - unfold soa_ttl. destruct (Z.eqb_spec (if 3600 <? o_Ttl (z_Options z) *! 10 then 3600
      else o_Ttl (z_Options z) *! 10) 0); lia.
  - unfold soa_ttl. destruct (Z.ltb_spec 3600 (o_Ttl (z_Options z) *! 10)); [done|].
    case_match; lia.
  - intros Httl. unfold soa_ttl.
    rewrite wrap64_id by (unfold int_range, min_int, max_int; lia).
    repeat case_match; split_bools; lia.
Qed.

Lemma addSOA_SoaRR_witness :
  let rr := mkRR (mkHdr "example.com." TypeSOA ClassINET 1200 0)
    (RD_SOA "ns" "hostmaster.example.com" 0 5400 5400 1209600 3600) in
  let _ : RRParser := λ _, Some rr in
  ∃ z', addSOA (NewZone "example.com") = Ret z' ∧ soa_ttl (NewZone "example.com") = 1200 ∧
    1 ≤ soa_ttl (NewZone "example.com").
Proof.
  intros rr P. destruct (addSOA (NewZone "example.com")) as [z'| |] eqn:E; [|discriminate E..].
  exists z'. split; [done|]. split; [reflexivity|].
  apply (addSOA_SoaRR (NewZone "example.com") z' E). cbn. lia.
Defined.

(** ** Locations and health tests of the records *)

(** The location the provider has for the address of a record. *)
Definition located (p : Provider) (r : Record_) : option Location :=
  match rr_Data (rec_RR r) with
  | RD_A ip | RD_AAAA ip =>
      match GetLocation p ip with
      | Ret (location, None) => location
      | _ => None
      end
  | _ => None
  end.

Definition relocated (p : Provider) (r : Record_) : Record_ :=
  mkRecord (rec_RR r) (rec_Weight r) (located p r) (rec_Test r).

Definition relocated_all (p : Provider) (rs : list (option Record_)) : list (option Record_) :=
  (λ r : option Record_, option_map (relocated p) r) <$> rs.

(** No record list of the zone has a hole. *)
Definition no_nil_records (rs : Records) : Prop := Forall (λ r, is_Some r) rs.
Definition zone_no_nil (z : Zone) : Prop :=
  ∀ k l t rs, z_Labels z !! k = Some l → l_Records l !! t = Some rs → no_nil_records rs.

Lemma locate_records_spec p t rs :
  provider_total p → no_nil_records rs →
  locate_records (Some p) t rs =
    Ret (if (t =? TypeA) || (t =? TypeAAAA) then relocated_all p rs else rs).
Proof.
  intros Hp Hrs. unfold locate_records. case_match; [|done]. apply mapM_res_Forall2.
  induction Hrs as [|r rs [r' ->] Hrs IH]; constructor; [|done].
  cbn [deref mbind res_bind locate_record fmap option_fmap option_map].
  unfold locate_record, relocated, located. cbn [deref mbind res_bind].
  destruct (rr_Data (rec_RR r')) as [ip|ip| | | | | | | | | |]; try done;
    destruct (Hp ip) as (_ & _ & [[loc [e|]] ->]); done.
Qed.

(** [SetLocations] succeeds with any provider that answers, and locates
    exactly the A and AAAA records of the labels marked "closest": each gets
    the provider's location for its address, or none when the lookup fails,
    and nothing else changes. *)
Theorem SetLocations_spec (p : Provider) (z : Zone) :
  provider_total p → zone_no_nil z →
  ∃ z', SetLocations z (Some p) = Ret z' ∧
    ∀ k, match z_Labels z !! k with
         | None => z_Labels z' !! k = None
         | Some l => ∃ l', z_Labels z' !! k = Some l' ∧
             if l_Closest l then
               ∀ t, l_Records l' !! t =
                 (if (t =? TypeA) || (t =? TypeAAAA)
                  then relocated_all p <$> l_Records l !! t
                  else l_Records l !! t)
             else l' = l
         end.
Proof.
  intros Hp Hz. unfold SetLocations. set (F := λ (_ : string) (l : Label), _).
  assert (Hrec : ∀ k l, z_Labels z !! k = Some l →
    ok (gmap_traverse (locate_records (Some p)) (l_Records l))).
  { intros k l Hl. apply gmap_traverse_ok. intros t rs Hrs.
    rewrite locate_records_spec; [by eexists|done|by eapply Hz]. }
  destruct (gmap_traverse_ok F (z_Labels z)) as [ls Hls].
  { intros k l Hl. unfold F. case_match; [|by eexists].
    destruct (Hrec k l Hl) as [rs ->]. by eexists. }
  rewrite Hls. eexists. split; [done|]. intros k. cbn.
  pose proof (gmap_traverse_lookup F _ _ k Hls) as Hk. unfold F in Hk.
  destruct (z_Labels z !! k) as [l|] eqn:El; [|done]. destruct Hk as (l' & Hl' & Hk).
  exists l'. split; [done|]. destruct (l_Closest l); res_inv; [|done].
  intros t. cbn. pose proof (gmap_traverse_lookup _ _ _ t Hr) as Ht.
  destruct (l_Records l !! t) as [rs|] eqn:Ers; [|rewrite Ht; by case_match].
  destruct Ht as (rs' & Hrs' & ->).
  rewrite locate_records_spec in Hrs' by eauto. res_inv. by case_match.
Qed.

Lemma example_zone_no_nil : zone_no_nil example_zone.
Proof.
  intros k l t rs Hl Hrs. cbn in Hl. unfold example_labels in Hl.
  repeat (apply lookup_insert_Some in Hl as [[<- <-]|[_ Hl]];
    [cbn in Hrs; apply lookup_singleton_Some in Hrs as [<- <-]; by repeat constructor|]).
  by rewrite lookup_empty in Hl.
Qed.

Definition example_provider : Provider :=
  mkProvider (true, None) (λ _, Ret ("us", "north-america", 0)) (true, None)
    (λ _, Ret ("", 0, None)) (true, None)
    (λ _, Ret (Some (mkLocation "us" "north-america" "" "" f_zero f_zero 0), None)).

Lemma SetLocations_spec_witness :
  ∃ z', SetLocations example_zone (Some example_provider) = Ret z'.
Proof.
  destruct (SetLocations_spec example_provider example_zone) as (z' & Hz' & _).
  - intros ip. split_and!; by eexists.
  - apply example_zone_no_nil.
  - by exists z'.
Defined.

(** [setupHealthTests] names the test of an address record after the bare
    address, without the name of a status file; such a test is unknown to
    every registry of statuses, so the record is never healthy. *)
Theorem setupHealthTests_default_unknown (z z' : Zone) (k : string) (l : Label)
    (ref : HealthReference) (t : Z) (rs : Records) (i : nat) (r : Record_) (ip : IP) :
  setupHealthTests z = Ret z' →
  z_Labels z !! k = Some l → l_Test l = Some ref → l_Records l !! t = Some rs →
  rs !! i = Some (Some r) → rec_Test r = "" →
  rr_Data (rec_RR r) = RD_A ip ∨ rr_Data (rec_RR r) = RD_AAAA ip → Forall is_byte ip →
  ∃ l' rs' r', z_Labels z' !! k = Some l' ∧ l_Test l' = Some ref ∧
    l_Records l' !! t = Some rs' ∧ rs' !! i = Some (Some r') ∧
    rec_RR r' = rec_RR r ∧ rec_Test r' = IP_String ip ∧
    ∀ reg, GetStatus reg (rec_Test r') = Ret StatusUnknown.
Proof.
  intros Hset Hl Href Ht Hi Hempty Hip Hb. unfold setupHealthTests in Hset. res_inv.
  pose proof (gmap_traverse_lookup _ _ _ k Hr) as Hk. rewrite Hl in Hk.
  destruct Hk as (l' & Hl' & Hk). rewrite Href in Hl'. res_inv.
  pose proof (gmap_traverse_lookup _ _ _ t Hr0) as Hrs. rewrite Ht in Hrs.
  destruct Hrs as (rs' & Hrs & Ers'). apply mapM_res_Forall2 in Hrs.
  destruct (Forall2_lookup_l _ _ _ _ _ Hrs Hi) as (r' & Hr' & Hstep).
  unfold setup_record_test in Hstep. cbn in Hstep. rewrite Hempty in Hstep.
  change (0 <? slen "") with false in Hstep. cbn iota in Hstep. res_inv.
  eexists _, rs', _. split_and!; [exact Hk|done|exact Ers'|exact Hr'|done| |].
  - cbn. unfold default_test. by destruct Hip as [->| ->].
  - intros reg. cbn. unfold default_test, GetStatus.
    assert (match rr_Data (rec_RR r) with RD_A ip | RD_AAAA ip => IP_String ip
      | RD_MX _ mx => mx | _ => rec_Test r end = IP_String ip) as ->
      by (by destruct Hip as [->| ->]).
    by rewrite SplitN2_no_sep by (by apply IP_String_no_slash).
Qed.

Lemma setupHealthTests_default_unknown_witness :
  let r := mkRecord (mkRR (mkHdr "www.example.com." TypeA ClassINET 120 0)
    (RD_A [10; 0; 0; 1])) 1 None "" in
  let l := mkLabel "www" 2 0 {[TypeA := [Some r]]} ∅ false (Some (mkReference "test")) in
  let z := set_Labels (NewZone "example.com") {["www" := l]} in
  ∃ z' l' rs' r', setupHealthTests z = Ret z' ∧ z_Labels z' !! "www" = Some l' ∧
    l_Records l' !! TypeA = Some rs' ∧ rs' !! 0%nat = Some (Some r') ∧
    rec_Test r' = "10.0.0.1" ∧ ∀ reg, GetStatus reg (rec_Test r') = Ret StatusUnknown.
Proof.
  intros r l z.
  assert (E : setupHealthTests z = Ret (match setupHealthTests z with Ret z' => z' | _ => z end))
    by (vm_compute; reflexivity).
  destruct (setupHealthTests_default_unknown z _ "www" l (mkReference "test") TypeA [Some r] 0 r
    [10; 0; 0; 1] E eq_refl eq_refl eq_refl eq_refl eq_refl (or_introl eq_refl))
    as (l' & rs' & r' & H1 & _ & H2 & H3 & _ & H4 & H5); [by repeat constructor|].
  eexists _, l', rs', r'. split_and!; [exact E|exact H1|exact H2|exact H3|exact H4|exact H5].
Defined.
