(* ===== verification/Soa.v ===== *)
(** * The SOA record of a zone

    The composition of [addSOA] (zones/zone.go), which prints the fields of the
    zone into a line of text, with the parser of the dns library (DnsScan),
    which reads the record back. *)

From S2P Require Import Prelude GoStrings GoNet Targeting DnsNames DnsMsg DnsScan Health Zones.
Local Open Scope Z_scope.

(** The parser as [addSOA] sees it.  A text without any record, for which the
    library gives nil and no error, and a text on which the library panics
    count as an error here.  An error of the parser is a panic of [addSOA], and
    the reader turns every panic into the same failure to load the zone; a nil
    record does not occur for the lines considered below. *)
Definition dns_parser `{ZoneScan} : RRParser := λ s,
  match dns_NewRR s with
  | Ret (inr (Some rr)) => Some rr
  | _ => None
  end.

(** The words of the line, with the newline that [NewRR] adds. *)
Definition soa_data (ns contact : string) (serial : Z) : string :=
  ns +:+ String " " (contact +:+ String " " (Itoa serial +:+ String " " ("5400" +:+ String " "
  ("5400" +:+ String " " ("1209600" +:+ String " " ("3600" +:+ newline)))))).

Definition data_parsed (ns contact : string) (serial : Z) (h : RR_Header) : string + RR :=
  match toAbsoluteName ns ".", toAbsoluteName contact "." with
  | None, _ => inl "bad SOA Ns"
  | _, None => inl "bad SOA Mbox"
  | Some n, Some c =>
      if (0 <=? serial) && (serial <? 2 ^ 32)
      then inr (mkRR h (RD_SOA n c serial 5400 5400 1209600 3600))
      else inl "bad SOA zone parameter"
  end.

Lemma word_literal s : s ≠ "" → plain_bytes s = true → (slen s <? maxTok) = true → word s.
Proof. intros ? ? ?%Z.ltb_lt. done. Qed.

(** One of the numbers of the data, and the last one. *)
Lemma soa_numbers_word n first vs w rest l v :
  word w → lx_err l = false → ParseUint w 32 = Some v →
  soa_numbers (S (S n)) first vs (plain_lexer (w +:+ String " " rest) l true true false false) =
  soa_numbers (S n) false (vs ++ [v])
    (plain_lexer rest (blank_after (put_token l zString w)) true true false false).
Proof.
  intros Hw Hl Ev. remember (S n) as k eqn:Ek. cbn [soa_numbers].
  rewrite lexer_Next_data by done. cbn [mbind res_bind put_token lx_err lx_token]. rewrite Hl, Ev.
  rewrite Ek at 1. by rewrite lexer_Next_kept.
Qed.

Lemma soa_numbers_last first vs w l v :
  word w → lx_err l = false → ParseUint w 32 = Some v →
  soa_numbers 1 first vs (plain_lexer (w +:+ newline) l true true false false) =
  Ret (inr (vs ++ [v]),
    plain_lexer "" (put_token (put_token l zString w) zNewline newline) false false true true).
Proof.
  intros Hw Hl Ev. cbn [soa_numbers]. rewrite lexer_Next_last by done.
  cbn [mbind res_bind put_token lx_err lx_token]. by rewrite Hl, Ev.
Qed.

Lemma soa_numbers_serial w rest l :
  word w → lx_err l = false → ParseUint w 32 = None →
  ∃ c, soa_numbers 5 true [] (plain_lexer (w +:+ String " " rest) l true true false false) =
    Ret (inl "bad SOA zone parameter", c).
Proof.
  intros Hw Hl Ev. cbn [soa_numbers]. rewrite lexer_Next_data by done.
  cbn [mbind res_bind put_token lx_err lx_token]. rewrite Hl, Ev. by eexists.
Qed.

(** The constants of the line. *)
Lemma constant_word : word "5400" ∧ word "1209600" ∧ word "3600" ∧ word "IN" ∧ word "SOA".
Proof. split_and!; by apply word_literal. Qed.

Lemma constant_value :
  ParseUint "5400" 32 = Some 5400 ∧ ParseUint "1209600" 32 = Some 1209600 ∧ ParseUint "3600" 32 = Some 3600.
Proof. by vm_compute. Qed.

Section parse.
Context `{ZoneScan}.

(** The name server, and the blank after it. *)
Lemma SOA_parse_ns h ns rest l :
  word ns → lx_err l = false →
  SOA_parse h (plain_lexer (ns +:+ String " " rest) l true true false false) "." =
  match toAbsoluteName ns "." with
  | None => Ret (inl "bad SOA Ns")
  | Some n => SOA_rest h (plain_lexer rest (blank_after (put_token l zString ns)) true true false false) "." n
  end.
Proof.
  intros Hns Hl. unfold SOA_parse. rewrite lexer_Next_data by done. cbn [mbind res_bind put_token lx_token lx_err].
  rewrite (word_slen ns Hns), Hl. destruct (toAbsoluteName ns ".") as [n|]; [|done].
  by rewrite lexer_Next_kept.
Qed.

(** The mailbox, the numbers and the end of the line. *)
Lemma SOA_rest_mbox h mbox rest l n vs l' space rrtype owner nextL :
  word mbox → lx_err l = false →
  soa_numbers 5 true [] (plain_lexer rest (blank_after (put_token l zString mbox)) true true false false) =
    Ret (vs, plain_lexer "" l' space rrtype owner nextL) →
  slurpRemainder (plain_lexer "" l' space rrtype owner nextL) =
    Ret (None, plain_lexer "" l' space rrtype owner false) →
  SOA_rest h (plain_lexer (mbox +:+ String " " rest) l true true false false) "." n =
  Ret (match toAbsoluteName mbox ".", vs with
       | None, _ => inl "bad SOA Mbox"
       | Some c, inl e => inl e
       | Some c, inr [serial; refresh; retry; expire; minttl] =>
           inr (mkRR h (RD_SOA n c serial refresh retry expire minttl))
       | Some c, inr _ => inl ""
       end).
Proof.
  intros Hm Hl Hv He. unfold SOA_rest. rewrite lexer_Next_data by done.
  cbn [mbind res_bind put_token lx_token lx_err]. rewrite Hl.
  destruct (toAbsoluteName mbox ".") as [c|]; [|done]. rewrite lexer_Next_kept. cbn [mbind res_bind].
  rewrite Hv. cbn [mbind res_bind]. repeat (case_match; try done); simplify_eq; by rewrite He.
Qed.

Lemma slurp_newline l space rrtype owner :
  lx_value l = zNewline →
  slurpRemainder (plain_lexer "" l space rrtype owner true) =
    Ret (None, plain_lexer "" l space rrtype owner false).
Proof. intros Hv. unfold slurpRemainder. rewrite lexer_Next_kept. cbn [mbind res_bind]. by rewrite Hv. Qed.

(** The data of the record, from the name server on. *)
Lemma SOA_parse_words h ns contact serial l :
  word ns → word contact → int_range serial → lx_err l = false →
  SOA_parse h (plain_lexer (soa_data ns contact serial) l true true false false) "." =
  Ret (data_parsed ns contact serial h).
Proof.
  intros Hns Hc Hs Hl. unfold soa_data, data_parsed. rewrite SOA_parse_ns by done.
  destruct (toAbsoluteName ns ".") as [n|]; [|done].
  destruct constant_word as (W1 & W2 & W3 & _), constant_value as (V1 & V2 & V3).
  pose proof (ParseUint_Itoa serial 32) as Hv.
  destruct ((0 <=? serial) && (serial <? 2 ^ 32)).
  - erewrite SOA_rest_mbox; [|done|done|..].
    2: { erewrite soa_numbers_word; [|by apply Itoa_word|done|exact Hv].
         do 2 (erewrite soa_numbers_word; [|exact W1|done|exact V1]).
         erewrite soa_numbers_word; [|exact W2|done|exact V2].
         erewrite soa_numbers_last; [reflexivity|exact W3|done|exact V3]. }
    2: by apply slurp_newline.
    by destruct (toAbsoluteName contact ".").
  - unfold SOA_rest. rewrite lexer_Next_data by done. cbn [mbind res_bind put_token lx_token lx_err blank_after].
    rewrite Hl. destruct (toAbsoluteName contact ".") as [c|]; [|done].
    rewrite lexer_Next_kept. cbn [mbind res_bind].
    edestruct (soa_numbers_serial (Itoa serial)) as [c' ->]; [by apply Itoa_word|done|done|]. done.
Qed.

Lemma zp_goes k c o d h st l c' zp' st' :
  lexer_Next c = Ret (l, true, c') → lx_err l = false →
  zp_step (mkZoneParser c' o d h) st l = goes zp' st' →
  zp_loop (S k) (mkZoneParser c o d h) st = zp_loop k zp' st'.
Proof. intros Hn He Hs. cbn [zp_loop zp_c]. rewrite Hn. cbn [mbind res_bind negb]. rewrite He.
  unfold set_c. cbn [zp_origin zp_defttl zp_h]. by rewrite Hs. Qed.

Lemma zp_stops k c o d h st l c' r :
  lexer_Next c = Ret (l, true, c') → lx_err l = false →
  zp_step (mkZoneParser c' o d h) st l = Ret (inl r) →
  zp_loop (S k) (mkZoneParser c o d h) st = Ret r.
Proof. intros Hn He Hs. cbn [zp_loop zp_c]. rewrite Hn. cbn [mbind res_bind negb]. rewrite He.
  unfold set_c. cbn [zp_origin zp_defttl zp_h]. by rewrite Hs. Qed.

Lemma step_owner c o d h l :
  lx_value l = zOwner →
  zp_step (mkZoneParser c o (Some d) h) zExpectOwnerDir l =
  match toAbsoluteName (lx_token l) o with
  | None => failed "bad owner name"
  | Some name => goes (mkZoneParser c o (Some d)
      (mkHdr name (h_Rrtype h) ClassINET (ts_ttl d) (h_Rdlength h))) zExpectOwnerBl
  end.
Proof. intros Hv. unfold zp_step, take_owner. by rewrite Hv. Qed.

Lemma step_ttl c o t h l :
  lx_value l = zString →
  zp_step (mkZoneParser c o (Some (mkTtlState t false)) h) zExpectAny l =
  match stringToTTL (lx_token l) with
  | None => failed "not a TTL"
  | Some ttl => goes (mkZoneParser c o (Some (mkTtlState ttl false)) (h_set_ttl h ttl)) zExpectAnyNoTTLBl
  end.
Proof. intros Hv. cbn [zp_step]. by rewrite Hv. Qed.

Lemma step_class c o d h l :
  lx_value l = zClass →
  zp_step (mkZoneParser c o d h) zExpectAnyNoTTL l =
  goes (mkZoneParser c o d (h_set_class h (lx_torc l))) zExpectRrtypeBl.
Proof. intros Hv. cbn [zp_step]. by rewrite Hv. Qed.

Lemma step_type c o d h l :
  lx_value l = zRrtpe →
  zp_step (mkZoneParser c o d h) zExpectRrtype l =
  goes (mkZoneParser c o d (h_set_type h (lx_torc l))) zExpectRdata.
Proof. intros Hv. cbn [zp_step]. by rewrite Hv. Qed.

(** The line of an SOA record, up to its data. *)
Definition soa_head (owner : string) (ttl : Z) (data : string) : string :=
  owner +:+ String " " (Itoa ttl +:+ String " " ("IN" +:+ String " " ("SOA" +:+ String " " data))).

Definition head_parsed (owner : string) (ttl : Z) (data : RR_Header → parsed) : parsed :=
  match toAbsoluteName owner "." with
  | None => inl "bad owner name"
  | Some name => if ttl <? 0 then inl "not a TTL" else data (mkHdr name TypeSOA ClassINET ttl 0)
  end.

Lemma zp_loop_head k owner ttl rest data :
  word owner → owner_value owner = zOwner → int_range ttl → ttl < 2 ^ 32 →
  (∀ h l, lx_err l = false → SOA_parse h (plain_lexer rest l true true false false) "." = Ret (data h)) →
  zp_loop (8 + k) (mkZoneParser (newZLexer (soa_head owner ttl rest)) "."
    (Some (mkTtlState 3600 false)) zero_header) zExpectOwnerDir =
  Ret (head_parsed owner ttl (λ h, match data h with inl e => inl e | inr rr => inr (Some rr) end)).
Proof.
  intros Ho Hov Ht Httl Hdata. unfold soa_head, head_parsed.
  destruct constant_word as (_ & _ & _ & WIN & WSOA).
  destruct (toAbsoluteName owner ".") as [name|] eqn:Ename.
  2: { eapply zp_stops; [by apply lexer_Next_owner|done|]. rewrite step_owner by done.
    cbn [lx_token put_token]. by rewrite Ename. }
  cbn [Nat.add].
  erewrite zp_goes; [|by apply lexer_Next_owner|done|].
  2: { rewrite step_owner by done. cbn [lx_token put_token]. by rewrite Ename. }
  erewrite zp_goes; [|apply lexer_Next_kept|done|done].
  destruct (Itoa_head ttl) as (a & s & Ea & Ha).
  edestruct (number_word (mkLex (Itoa ttl) false zString 0)) as [N1 N2]; [exact Ha|exact Ea|].
  pose proof (stringToTTL_Itoa ttl Httl) as Hst.
  destruct (Z.ltb_spec ttl 0) as [Hneg|Hpos].
  { rewrite (proj2 (Z.leb_gt 0 ttl)) in Hst by lia.
    eapply zp_stops; [eapply lexer_Next_middle; [by apply Itoa_word|done|exact N1|exact N2]|done|].
    rewrite step_ttl by done. cbn [lx_token]. by rewrite Hst. }
  rewrite (proj2 (Z.leb_le 0 ttl)) in Hst by lia.
  erewrite zp_goes; [|eapply lexer_Next_middle; [by apply Itoa_word|done|exact N1|exact N2]|done|].
  2: { rewrite step_ttl by done. cbn [lx_token]. by rewrite Hst. }
  erewrite zp_goes; [|apply lexer_Next_kept|done|done].
  erewrite zp_goes; [|eapply lexer_Next_middle; [exact WIN|done|done|done]|done|by apply step_class].
  erewrite zp_goes; [|apply lexer_Next_kept|done|done].
  erewrite zp_goes; [|eapply lexer_Next_middle; [exact WSOA|done|done|done]|done|by apply step_type].
  eapply zp_stops; [apply lexer_Next_kept|done|]. cbn [zp_step]. unfold setRR. cbn [zp_h zp_c zp_origin].
  match goal with |- context [h_Rrtype ?h =? TypeSOA] => change (h_Rrtype h =? TypeSOA) with true end.
  by rewrite Hdata.
Qed.

(** The text that [NewRR] reads: the line, with a newline. *)
Lemma last_byte u v a b : u +:+ String a "" = v +:+ String b "" → a = b.
Proof.
  revert v. induction u as [|c u IH]; intros [|d v]; rewrite ?sapp_nil_l, ?sapp_cons; [by intros [= ->]|..].
  - intros [= -> E]. by destruct v.
  - intros [= -> E]. by destruct u.
  - intros [= -> E]. by apply IH in E.
Qed.

Lemma soa_line_words z ns :
  soa_line z ns +:+ newline = soa_head (z_Origin z +:+ ".") (soa_ttl z)
    (soa_data ns (o_Contact (z_Options z)) (o_Serial (z_Options z))).
Proof. unfold soa_line, soa_head, soa_data. rewrite !sapp_assoc. done. Qed.

Lemma soa_line_newline z ns : HasSuffix (soa_line z ns) newline = false.
Proof.
  destruct (HasSuffix (soa_line z ns) newline) eqn:E; [|done]. apply HasSuffix_inv in E as [u Hu].
  unfold soa_line in Hu. change " 5400 5400 1209600 3600" with (" 5400 5400 1209600 360" +:+ "0") in Hu.
  rewrite <-!sapp_assoc in Hu. by apply last_byte in Hu.
Qed.

Lemma soa_head_long owner ttl data : (2 ≤ String.length (soa_head owner ttl data))%nat.
Proof.
  enough (2 ≤ slen (soa_head owner ttl data)) by (unfold slen in *; lia).
  unfold soa_head. rewrite slen_app, slen_cons, slen_app, slen_cons.
  match goal with |- context [slen (Itoa ttl) + (slen ?x + 1) + 1] => pose proof (slen_nonneg x) end.
  pose proof (slen_nonneg owner). pose proof (slen_nonneg (Itoa ttl)). lia.
Qed.

(** The words of the line of a zone fit the lexer. *)
Record soa_plain (z : Zone) (ns : string) : Prop := {
  sp_origin : word (z_Origin z +:+ ".");
  sp_ns : word ns;
  sp_contact : word (o_Contact (z_Options z));
  sp_serial : int_range (o_Serial (z_Options z))
}.

Lemma soa_ttl_range z : int_range (soa_ttl z) ∧ soa_ttl z < 2 ^ 32.
Proof.
  unfold soa_ttl. pose proof (wrap64_range (o_Ttl (z_Options z) * 10)) as Hr.
  unfold int_range, min_int, max_int in *. repeat case_match; split_bools; lia.
Qed.

(** An owner name with a final dot is not a directive. *)
Lemma ToUpper_app s t : ToUpper (s +:+ t) = ToUpper s +:+ ToUpper t.
Proof. induction s as [|a s IH]; [done|]. rewrite !sapp_cons. cbn. by rewrite IH, sapp_cons. Qed.

Lemma owner_value_dot s : owner_value (s +:+ ".") = zOwner.
Proof.
  unfold owner_value. rewrite ToUpper_app. change (ToUpper ".") with (String "." "").
  rewrite !decide_False; [done|..]; intros E.
  - change "$GENERATE" with ("$GENERAT" +:+ "E") in E. by apply last_byte in E.
  - change "$INCLUDE" with ("$INCLUD" +:+ "E") in E. by apply last_byte in E.
  - change "$ORIGIN" with ("$ORIGI" +:+ "N") in E. by apply last_byte in E.
  - change "$TTL" with ("$TT" +:+ "L") in E. by apply last_byte in E.
Qed.

(** What the parser makes of the line of a zone. *)
Lemma NewRR_head z ns data :
  word (z_Origin z +:+ ".") →
  (∀ h l, lx_err l = false →
    SOA_parse h (plain_lexer (soa_data ns (o_Contact (z_Options z)) (o_Serial (z_Options z)))
      l true true false false) "." = Ret (data h)) →
  dns_NewRR (soa_line z ns) = Ret (head_parsed (z_Origin z +:+ ".") (soa_ttl z)
    (λ h, match data h with inl e => inl e | inr rr => inr (Some rr) end)).
Proof.
  intros Ho Hdata. unfold dns_NewRR. rewrite soa_line_newline. cbn [orb].
  destruct (slen (soa_line z ns) =? 0) eqn:E.
  { rewrite slen_eq0 in E. apply bool_decide_eq_true in E. unfold soa_line in E.
    destruct (z_Origin z); rewrite ?sapp_nil_l, ?sapp_cons in E; done. }
  rewrite soa_line_words. unfold ReadRR, zp_Next. cbn [zp_c].
  set (w := soa_head _ _ _). assert (∃ k, S (lexer_measure (newZLexer w)) = (8 + k)%nat) as [k ->].
  { exists (S (lexer_measure (newZLexer w)) - 8)%nat. rewrite lexer_measure_unfold. cbn [newZLexer zl_input].
    assert (2 ≤ String.length w)%nat by apply soa_head_long. cbn. lia. }
  destruct (soa_ttl_range z). by apply zp_loop_head; auto using owner_value_dot.
Qed.

Lemma NewRR_soa_line z ns :
  soa_plain z ns →
  dns_NewRR (soa_line z ns) = Ret (head_parsed (z_Origin z +:+ ".") (soa_ttl z)
    (λ h, match data_parsed ns (o_Contact (z_Options z)) (o_Serial (z_Options z)) h with
          | inl e => inl e | inr rr => inr (Some rr) end)).
Proof.
  intros [Ho Hns Hc Hs]. apply NewRR_head; [done|]. intros h l Hl. by apply SOA_parse_words.
Qed.

(** *** An empty contact *)

(** A second blank is skipped. *)
Lemma lexer_Next_skip rest l rrtype :
  lx_err l = false →
  lexer_Next (plain_lexer (String " " rest) l true rrtype false false) =
  lexer_Next (plain_lexer rest l true rrtype false false).
Proof.
  intros He. unfold lexer_Next. cbn [zl_nextL zl_l plain_lexer zl_comBuf zl_input]. rewrite He.
  change (stake (Z.to_nat maxTok) "") with "". cbn [lex_loop].
  unfold on_blank, end_word. change (slen "" =? 0) with true. cbn. by destruct rest.
Qed.

Lemma lexer_Next_end l space rrtype owner :
  lx_err l = false →
  lexer_Next (plain_lexer "" l space rrtype owner false) =
    Ret (lex_zero, false, plain_lexer "" l space rrtype owner false).
Proof. intros He. unfold lexer_Next. cbn [zl_nextL zl_l plain_lexer]. by rewrite He. Qed.

Lemma SOA_rest_skip h rest l n :
  lx_err l = false →
  SOA_rest h (plain_lexer (String " " rest) l true true false false) "." n =
  SOA_rest h (plain_lexer rest l true true false false) "." n.
Proof. intros Hl. unfold SOA_rest. by rewrite lexer_Next_skip. Qed.

Lemma slurp_end l space rrtype owner :
  lx_err l = false →
  slurpRemainder (plain_lexer "" l space rrtype owner false) =
    Ret (None, plain_lexer "" l space rrtype owner false).
Proof. intros Hl. unfold slurpRemainder. by rewrite lexer_Next_end. Qed.

(** The numbers when one is missing. *)
Lemma soa_numbers_short vs w l v :
  word w → lx_err l = false → ParseUint w 32 = Some v →
  ∃ l', lx_err l' = false ∧
  soa_numbers 2 false vs (plain_lexer (w +:+ newline) l true true false false) =
  Ret (inr ((vs ++ [v]) ++ [0]), plain_lexer "" l' false false true false).
Proof.
  intros Hw Hl Ev. exists (put_token (put_token l zString w) zNewline newline). split; [done|].
  assert (Hz : ParseUint "" 32 = None ∧ stringToTTL "" = Some 0) by done. destruct Hz as [Hz1 Hz2].
  cbn [soa_numbers]. rewrite lexer_Next_last by done. cbn [mbind res_bind lx_err put_token lx_token].
  rewrite Hl, Ev, lexer_Next_kept. cbn [mbind res_bind]. rewrite lexer_Next_end by done.
  cbn [mbind res_bind lex_zero lx_err lx_token]. by rewrite Hz1, Hz2.
Qed.

(** The data when the contact is missing: every field takes the place of the
    one before it, and the last number is the end of the input, which counts
    as the TTL 0. *)
Lemma SOA_parse_empty h ns serial l :
  word ns → int_range serial → lx_err l = false →
  SOA_parse h (plain_lexer (soa_data ns "" serial) l true true false false) "." =
  Ret (match toAbsoluteName ns ".", toAbsoluteName (Itoa serial) "." with
       | None, _ => inl "bad SOA Ns"
       | _, None => inl "bad SOA Mbox"
       | Some n, Some c => inr (mkRR h (RD_SOA n c 5400 5400 1209600 3600 0))
       end).
Proof.
  intros Hns Hs Hl. unfold soa_data. rewrite SOA_parse_ns by done.
  destruct (toAbsoluteName ns ".") as [n|]; [|done]. rewrite sapp_nil_l, SOA_rest_skip by done.
  destruct constant_word as (W1 & W2 & W3 & _), constant_value as (V1 & V2 & V3).
  match goal with |- SOA_rest _ (plain_lexer _ ?l _ _ _ _) _ _ = _ =>
    destruct (soa_numbers_short [5400; 5400; 1209600] "3600"
      (blank_after (put_token (blank_after (put_token (blank_after (put_token (blank_after
        (put_token l zString (Itoa serial))) zString "5400")) zString "5400")) zString "1209600"))
      3600 W3 Hl V3) as (l' & Hl' & Hshort) end.
  erewrite SOA_rest_mbox; [|by apply Itoa_word|done|..].
  2: { do 2 (erewrite soa_numbers_word; [|exact W1|done|exact V1]).
       erewrite soa_numbers_word; [|exact W2|done|exact V2]. exact Hshort. }
  2: by apply slurp_end.
  by destruct (toAbsoluteName (Itoa serial) ".").
Qed.
End parse.

(** ** The record of a zone *)

(** The name server that [addSOA] puts into the record. *)
Definition apex_ns (z : Zone) : res string :=
  match z_Labels z !! "" with
  | Some label => primary_ns label
  | None => Ret "ns"
  end.

(** What the fields of the zone have to be. *)
Definition soa_fields (z : Zone) (ns : string) (o n c : string) : Prop :=
  toAbsoluteName (z_Origin z +:+ ".") "." = Some o ∧ toAbsoluteName ns "." = Some n ∧
  toAbsoluteName (o_Contact (z_Options z)) "." = Some c ∧
  0 ≤ soa_ttl z ∧ 0 ≤ o_Serial (z_Options z) < 2 ^ 32.

Section addSOA.
Context `{ZoneScan}.
Local Existing Instance dns_parser.

Lemma addSOA_apex z ns :
  apex_ns z = Ret ns →
  match NewRR (soa_line z ns) with
  | None => addSOA z = Panic "Could not setup SOA"
  | Some rr => ∃ z', addSOA z = Ret z' ∧ SoaRR z' = Ret rr
  end.
Proof.
  unfold apex_ns, addSOA. intros Hns.
  set (z1 := match z_Labels z !! "" with Some _ => z | None => AddLabel z "" end).
  assert (∃ l, z_Labels z1 !! "" = Some l ∧ primary_ns l = Ret ns ∧ soa_line z1 ns = soa_line z ns)
    as (l & El & Hl & Hline).
  { unfold z1. destruct (z_Labels z !! "") as [l|] eqn:El; [by exists l|]. injection Hns as <-.
    eexists. split; [exact (lookup_AddLabel z "")|]. done. }
  clearbody z1. rewrite El. cbn [deref mbind res_bind]. rewrite Hl. cbn [mbind res_bind]. rewrite Hline.
  destruct (NewRR (soa_line z ns)) as [rr|]; [|done]. eexists. split; [reflexivity|].
  unfold SoaRR, FirstRR. cbn. rewrite lookup_insert_eq. cbn. by rewrite lookup_insert_eq.
Qed.

(** C21: what is printed is read back.  For a zone whose name, name server and
    contact are words, [addSOA] with the parser of the dns library succeeds
    exactly when the three are domain names, the TTL is not negative and the
    serial fits 32 bits; and then the SOA record of the zone has these very
    fields, the names made absolute. *)
Theorem addSOA_record (z : Zone) (ns : string) :
  soa_plain z ns → apex_ns z = Ret ns →
  (∃ o n c z', soa_fields z ns o n c ∧ addSOA z = Ret z' ∧
     SoaRR z' = Ret (mkRR (mkHdr o TypeSOA ClassINET (soa_ttl z) 0)
       (RD_SOA n c (o_Serial (z_Options z)) 5400 5400 1209600 3600))) ∨
  (¬ (∃ o n c, soa_fields z ns o n c)) ∧ addSOA z = Panic "Could not setup SOA".
Proof.
  intros Hp Hns%addSOA_apex. unfold NewRR, dns_parser in Hns. rewrite NewRR_soa_line in Hns by done.
  unfold head_parsed, data_parsed in Hns. unfold soa_fields.
  destruct (toAbsoluteName (z_Origin z +:+ ".") ".") as [o|]; [|right; naive_solver].
  destruct (Z.ltb_spec (soa_ttl z) 0); [right; split; [|done]; intros (? & ? & ? & ? & ? & ? & ? & ?); lia|].
  destruct (toAbsoluteName ns ".") as [n|]; [|right; naive_solver].
  destruct (toAbsoluteName (o_Contact (z_Options z)) ".") as [c|]; [|right; naive_solver].
  destruct ((0 <=? o_Serial (z_Options z)) && (o_Serial (z_Options z) <? 2 ^ 32)) eqn:E.
  - left. destruct Hns as (z' & ? & ?). exists o, n, c, z'. split_bools. by split_and!; try lia.
  - right. split; [|done]. intros (? & ? & ? & ? & ? & ? & ? & ? & ?).
    apply andb_false_iff in E as [E|E]; [apply Z.leb_gt in E|apply Z.ltb_ge in E]; lia.
Qed.

(** A zone file with an empty contact loads, and its SOA record is wrong: the
    mailbox is the serial number, and the serial number is 5400 whatever the
    file says, so that secondaries never see a change. *)
Theorem addSOA_empty_contact (z : Zone) (ns o n c : string) :
  word (z_Origin z +:+ ".") → word ns → o_Contact (z_Options z) = "" → apex_ns z = Ret ns →
  0 ≤ o_Serial (z_Options z) ≤ max_int → 0 ≤ soa_ttl z →
  toAbsoluteName (z_Origin z +:+ ".") "." = Some o → toAbsoluteName ns "." = Some n →
  toAbsoluteName (Itoa (o_Serial (z_Options z))) "." = Some c →
  ∃ z', addSOA z = Ret z' ∧
    SoaRR z' = Ret (mkRR (mkHdr o TypeSOA ClassINET (soa_ttl z) 0) (RD_SOA n c 5400 5400 1209600 3600 0)).
Proof.
  intros Ho Hns Hc Hapex%addSOA_apex Hs Httl Eo En Ec. unfold NewRR, dns_parser in Hapex.
  erewrite NewRR_head in Hapex; [|done|].
  2: { intros h l Hl. rewrite Hc. apply SOA_parse_empty; try done.
       unfold int_range, min_int, max_int in *. lia. }
  unfold head_parsed in Hapex. rewrite Eo, En, Ec, (proj2 (Z.ltb_ge _ _)) in Hapex by done. exact Hapex.
Qed.

(** The zone of the server itself always gets its record. *)
Lemma pgeodns_SOA : ok (addSOA (set_Labels (NewZone "pgeodns") {["" := mkLabel "" 0 0 ∅ ∅ false None]})).
Proof. vm_compute. by eexists. Qed.
End addSOA.

(** ** Examples *)

Definition example_soa_zone (contact : string) (serial : Z) : Zone :=
  set_Options (NewZone "example.com")
    (mkOptions serial 120 2 contact (TargetGlobal + TargetCountry + TargetContinent) false).

Lemma example_soa_plain : soa_plain (example_soa_zone "hostmaster.example.com" 1700000000) "ns".
Proof. split; [by apply word_literal..|done]. Qed.

Lemma addSOA_record_witness :
  let _ := @dns_parser ZoneScan_none in
  ∃ z', addSOA (example_soa_zone "hostmaster.example.com" 1700000000) = Ret z' ∧
    SoaRR z' = Ret (mkRR (mkHdr "example.com." TypeSOA ClassINET 1200 0)
      (RD_SOA "ns." "hostmaster.example.com." 1700000000 5400 5400 1209600 3600)).
Proof.
  intros P.
  destruct (@addSOA_record ZoneScan_none _ _ example_soa_plain eq_refl)
    as [(o & n & c & z' & (Eo & En & Ec & _) & E & Hrr)|[Hno _]].
  - exists z'. split; [exact E|]. vm_compute in Eo, En, Ec. injection Eo as <-. injection En as <-.
    injection Ec as <-. exact Hrr.
  - destruct Hno. exists "example.com.", "ns.", "hostmaster.example.com.". vm_compute.
    repeat split; discriminate.
Defined.

Lemma addSOA_empty_contact_witness :
  let _ := @dns_parser ZoneScan_none in
  ∃ z', addSOA (example_soa_zone "" 1700000000) = Ret z' ∧
    SoaRR z' = Ret (mkRR (mkHdr "example.com." TypeSOA ClassINET 1200 0)
      (RD_SOA "ns." "1700000000." 5400 5400 1209600 3600 0)).
Proof.
  intros P.
  apply (@addSOA_empty_contact ZoneScan_none (example_soa_zone "" 1700000000) "ns" "example.com." "ns."
    "1700000000."); try reflexivity; try (by apply word_literal); by vm_compute.
Defined.
