(* ===== verification/Picker.v ===== *)
(** * zones/picker.go: choosing the records of an answer

    The records of a label are filtered by health, narrowed to the closest
    ones when the client's location is known, and drawn at random by weight.
    The code reuses the backing array of its own copy of the record list; it
    writes an element only after having read it, so the lists here are values. *)

From S2P Require Import Prelude GoRuntime GoStrings GoNet Float64 TypeUtil Targeting.
From S2P Require Import DnsNames DnsMsg Health Zones.
Local Open Scope Z_scope.

(** [AlwaysWeighted], and the set [alwaysWeighted] that [init] makes of it. *)
Definition AlwaysWeighted : list Z := [TypeA; TypeAAAA; TypeCNAME].
Definition alwaysWeighted : gset Z := list_to_set AlwaysWeighted.

(** ** Health *)

(** The condition of the loop of [filterHealth]. *)
Definition healthy (reg : registry) (s : option Record_) : res bool :=
  s ← deref s;
  if slen (rec_Test s) =? 0 then Ret true
  else status ← GetStatus reg (rec_Test s); Ret (status =? StatusHealthy).

Definition filterHealth (reg : registry) (servers : Records) : res (Records * Z) :=
  foldM (λ '(tmpServers, sum) s,
    h ← healthy reg s;
    if (h : bool) then s' ← deref s; Ret (tmpServers ++ [s], sum +! rec_Weight s')
    else Ret (tmpServers, sum)) ([], 0) servers.

(** ** The closest servers *)

Section closest.
Context `{GreatCircle}.

Definition server_distances (location : Location) (servers : Records) : res (list float64) :=
  mapM_res (λ s, s ← deref s; Ret (Distance location (rec_Loc s))) servers.

(** The least distance of the servers not yet chosen. *)
Definition min_distance (minDist : float64) (choose : list bool) (distances : list float64) :
    float64 :=
  foldl (λ m cd, if negb cd.1 && fle cd.2 m then cd.2 else m) minDist (zip choose distances).

Definition newly_chosen (threshold : float64) (choose : list bool) (distances : list float64) : Z :=
  len (filter (λ cd, negb cd.1 && fle cd.2 threshold = true) (zip choose distances)).

Definition choose_within (threshold : float64) (choose : list bool) (distances : list float64) :
    list bool :=
  zip_with (λ c d, c || fle d threshold) choose distances.

(** The loop [for chosen < max]. *)
Fixpoint choose_closest (fuel : nat) (location : Location) (max : Z) (distances : list float64)
    (chosen : Z) (choose : list bool) : res (list bool) :=
  match fuel with
  | O => OutOfFuel
  | S fuel =>
      if chosen <? max then
        let minDist := min_distance (MaxDistance location) choose distances in
        let minDist := fmul minDist f_105 in
        choose_closest fuel location max distances
          (chosen + newly_chosen minDist choose distances)
          (choose_within minDist choose distances)
      else Ret choose
  end.

(** The servers that were chosen, and their total weight. *)
Definition keep_chosen (choose : list bool) (servers : Records) : res (Records * Z) :=
  foldM (λ '(tmpServers, sum) cs,
    if (cs.1 : bool) then s' ← deref cs.2; Ret (tmpServers ++ [cs.2], sum +! rec_Weight s')
    else Ret (tmpServers, sum)) ([], 0) (zip choose servers).

(** The whole block; the fuel is the number of servers and one pass more,
    which [choose_closest_spec] shows to be enough. *)
Definition closest_servers (location : Location) (max : Z) (servers : Records) :
    res (Records * Z) :=
  distances ← server_distances location servers;
  choose ← choose_closest (S (length servers)) location max distances 0
             (replicate (length servers) false);
  keep_chosen choose servers.
End closest.

(** ** Weighted draws *)

(** The inner loop of a draw: the first server whose running weight reaches
    [n], and the servers without it. *)
Fixpoint pick_from (n s : Z) (servers : Records) : res (option (Record_ * Records)) :=
  match servers with
  | [] => Ret None
  | r :: servers =>
      r' ← deref r;
      let s := s +! rec_Weight r' in
      if n <=? s then Ret (Some (r', servers))
      else
        p ← pick_from n s servers;
        Ret (match p with Some (x, rest) => Some (x, r :: rest) | None => None end)
  end.

(** The loop [for si := 0; si < max; si++]; a draw that reaches no server
    leaves a nil in the result. *)
Fixpoint draw_servers `{GoRand rng} (k : nat) (sum : Z) (servers : Records) (g : rng) :
    res (Records * rng) :=
  match k with
  | O => Ret ([], g)
  | S k =>
      '(n, g) ← Intn (sum +! 1) g;
      p ← pick_from n 0 servers;
      match p with
      | None => '(rest, g) ← draw_servers k sum servers g; Ret (None :: rest, g)
      | Some (x, servers) =>
          '(rest, g) ← draw_servers k (sum -! rec_Weight x) servers g;
          Ret (Some x :: rest, g)
      end
  end.

(** ** Picker *)

Section picker.
Context `{GreatCircle} `{GoRand rng}.

(** From [rrCount := len(servers)] on. *)
Definition pick_weighted (qtype max : Z) (location : option Location) (servers : Records)
    (sum : Z) (g : rng) : res (option Records * rng) :=
  let rrCount := len servers in
  let max := if rrCount <? max then rrCount else max in
  if max <? 0 then Panic "makeslice: len out of range"
  else
    '(servers, sum) ←
      match location with
      | Some location =>
          if ((qtype =? TypeA) || (qtype =? TypeAAAA)) && (max <? rrCount)
          then closest_servers location max servers
          else Ret (servers, sum)
      | None => Ret (servers, sum)
      end;
    '(result, g) ← draw_servers (Z.to_nat max) sum servers g;
    Ret (Some result, g).

(** [Picker] for a type other than ANY; [None] is the nil result. *)
Definition Picker_type (reg : registry) (label : Label) (qtype max : Z)
    (location : option Location) (g : rng) : res (option Records * rng) :=
  match l_Records label !! qtype with
  | None => Ret (None, g)
  | Some labelRR =>
      '(servers, sum) ←
        match l_Test label with
        | Some _ => filterHealth reg labelRR
        | None => Ret (labelRR, map_get 0 (l_Weight label) qtype)
        end;
      if bool_decide (is_Some (l_Test label)) && (sum =? 0) then Ret (Some servers, g)
      else if map_get 0 (l_Weight label) qtype =? 0 then Ret (Some servers, g)
      else
        let max := if (qtype =? TypeCNAME) || (qtype =? TypeMF) then 1 else max in
        pick_weighted qtype max location servers sum g
  end.

(** [Picker]; for ANY the types in the order in which [range] visits them.
    Records stored under the type ANY itself would make the code recurse
    without end. *)
Definition Picker `{GoRange} (reg : registry) (label : Label) (qtype max : Z)
    (location : option Location) (g : rng) : res (option Records * rng) :=
  if qtype =? TypeANY then
    foldM (λ '(result, g) e,
      if e.1 =? TypeANY then OutOfFuel
      else
        '(rtypeRecords, g) ← Picker_type reg label e.1 max location g;
        Ret (Some (default [] result ++ default [] rtypeRecords), g))
      (None, g) (go_range (l_Records label))
  else Picker_type reg label qtype max location g.
End picker.

(** ** Specification *)

Definition weight_of (s : option Record_) : Z := default 0 (rec_Weight <$> s).

Definition total (servers : Records) : Z := sumZ (weight_of <$> servers).

(** Servers the weighted draw works on: no nil, no negative weight, and a
    total that leaves room for the [+ 1] of the draw. *)
Definition weights_ok (servers : Records) : Prop :=
  Forall (λ s, is_Some s ∧ 0 ≤ weight_of s) servers ∧ total servers < max_int.

Definition healthy_b (reg : registry) (s : option Record_) : bool :=
  match healthy reg s with Ret b => b | _ => false end.

(** The statuses of all tests can be looked up. *)
Definition statuses_ok (reg : registry) (servers : Records) : Prop :=
  Forall (λ s, ok (healthy reg s)) servers.

(** The servers of a label that may be part of an answer. *)
Definition eligible (reg : registry) (label : Label) (servers : Records) : Records :=
  match l_Test label with
  | Some _ => filter (λ s, healthy_b reg s = true) servers
  | None => servers
  end.

Definition count_true (l : list bool) : Z := len (filter (λ c, c = true) l).

(** A choice of servers for a query with room for [max]: enough servers, no
    server passed over for one farther away, and only servers within 5% of one
    that has fewer than [max] servers closer than it. *)
Record closest_set (max : Z) (ds : list float64) (choose : list bool) : Prop := {
  cs_length : length choose = length ds;
  cs_enough : max ≤ count_true choose;
  cs_down : ∀ i j di dj, choose !! i = Some true → ds !! i = Some di → ds !! j = Some dj →
    fle dj di → choose !! j = Some true;
  cs_near : ∀ i di, choose !! i = Some true → ds !! i = Some di →
    ∃ d, d ∈ ds ∧ fle di (fmul d f_105) ∧ len (filter (λ e, fle d e = false) ds) < max
}.

(** ** Lemmas: weighted draws *)

Lemma total_nonneg servers :
  Forall (λ s, is_Some s ∧ 0 ≤ weight_of s) servers → 0 ≤ total servers.
Proof.
  intros Hall. apply sumZ_nonneg, Forall_fmap. eapply Forall_impl; [done|].
  intros x [_ Hx]. exact Hx.
Qed.

Lemma weights_ok_cons s servers :
  weights_ok (s :: servers) →
  ∃ r, s = Some r ∧ 0 ≤ rec_Weight r ∧ weights_ok servers ∧ 0 ≤ total servers ∧
    total (s :: servers) = rec_Weight r + total servers ∧ total (s :: servers) < max_int.
Proof.
  intros [Hall Ht]. apply Forall_cons in Hall as [[[r ->] Hw] Hall].
  pose proof (total_nonneg servers Hall) as Hn.
  assert (Htot : total (Some r :: servers) = rec_Weight r + total servers) by done.
  cbn in Hw. exists r. split_and!; try done. split; [done|lia].
Qed.

Lemma weights_ok_perm l l' : l ≡ₚ l' → weights_ok l → weights_ok l'.
Proof.
  intros Hp [H1 H2]. split; [by rewrite <-Hp|]. unfold total. by rewrite <-Hp.
Qed.

Lemma weights_ok_sublist l l' : l ⊆+ l' → weights_ok l' → weights_ok l ∧ total l ≤ total l'.
Proof.
  intros [k Hk]%submseteq_Permutation Hw. apply (weights_ok_perm _ (l ++ k)) in Hw as Hlk; [|done].
  destruct Hlk as [Hall Ht]. apply Forall_app in Hall as [H1 H2].
  pose proof (total_nonneg k H2) as Hk0.
  assert (Htot : total l' = total l + total k).
  { unfold total. by rewrite Hk, fmap_app, sumZ_app. }
  assert (total (l ++ k) = total l + total k) by (unfold total; by rewrite fmap_app, sumZ_app).
  split; [split; [done|lia]|lia].
Qed.

(** The interval of numbers for which a draw picks the server after [pre]. *)
Lemma pick_from_at pre r post n s :
  weights_ok (pre ++ Some r :: post) → 0 ≤ s →
  s + total (pre ++ Some r :: post) ≤ max_int →
  (pre = [] ∨ s + total pre < n) → n ≤ s + total pre + rec_Weight r →
  pick_from n s (pre ++ Some r :: post) = Ret (Some (r, pre ++ post)).
Proof.
  revert s. induction pre as [|x pre IH]; intros s Hok Hs Hmax Hlo Hhi.
  - cbn [app pick_from deref mbind res_bind].
    apply weights_ok_cons in Hok as (r0 & [= <-] & Hw & _ & Ht & Htot & _).
    rewrite wrap64_id by (unfold int_range, min_int, max_int in *; cbn in *; lia).
    cbn in Hhi. by rewrite (proj2 (Z.leb_le n _)) by lia.
  - destruct Hlo as [?|Hlo]; [done|].
    cbn [app] in *. apply weights_ok_cons in Hok as (x0 & -> & Hw & Hok & Ht & Htot & Hlt).
    assert (Htx : total (Some x0 :: pre) = rec_Weight x0 + total pre) by done.
    assert (Hpre : 0 ≤ total pre).
    { apply (weights_ok_sublist pre) in Hok as [[Hp _] _]; [|apply submseteq_inserts_r; done].
      by apply total_nonneg. }
    cbn [pick_from deref mbind res_bind].
    rewrite wrap64_id by (unfold int_range, min_int, max_int in *; lia).
    destruct (Z.leb_spec n (s + rec_Weight x0)); [lia|].
    rewrite IH; [done|done|lia|lia|right; lia|lia].
Qed.

(** A draw within the total weight finds a server. *)
Lemma pick_from_finds n s servers :
  weights_ok servers → 0 ≤ s → s + total servers ≤ max_int →
  servers ≠ [] → n ≤ s + total servers →
  ∃ pre r post, servers = pre ++ Some r :: post ∧
    (pre = [] ∨ s + total pre < n) ∧ n ≤ s + total pre + rec_Weight r.
Proof.
  revert s. induction servers as [|x servers IH]; intros s Hok Hs Hmax Hne Hn; [done|].
  apply weights_ok_cons in Hok as (r & -> & Hw & Hok & Ht & Htot & Hlt).
  destruct (decide (n ≤ s + rec_Weight r)).
  { exists [], r, servers. split_and!; [done|by left|]. cbn. lia. }
  destruct servers as [|y servers]; [change (total []) with 0 in *; lia|].
  destruct (IH (s + rec_Weight r)) as (pre & r' & post & -> & Hlo & Hhi); [done|lia|lia|done|lia|].
  exists (Some r :: pre), r', post.
  assert (total (Some r :: pre) = rec_Weight r + total pre) as -> by done.
  split_and!; [done| |lia]. right. destruct Hlo as [->|Hlo]; [|lia]. cbn. lia.
Qed.

Lemma draw_servers_spec `{GoRand rng} k sum servers (g : rng) :
  weights_ok servers → sum = total servers → (k ≤ length servers)%nat →
  ∃ result g', draw_servers k sum servers g = Ret (result, g') ∧
    length result = k ∧ result ⊆+ servers.
Proof.
  revert sum servers g. induction k as [|k IH]; intros sum servers g Hok -> Hk.
  { exists [], g. split_and!; [done|done|]. apply submseteq_nil_l. }
  assert (Hpos : 0 ≤ total servers) by apply total_nonneg, Hok.
  assert (Hmax : total servers < max_int) by apply Hok.
  cbn [draw_servers].
  rewrite (wrap64_id (total servers + 1)) by (unfold int_range, min_int, max_int in *; lia).
  destruct (Intn_ok (total servers + 1) g) as (n & g1 & -> & Hn); [lia|]. cbn [mbind res_bind].
  destruct (pick_from_finds n 0 servers) as (pre & r & post & -> & Hlo & Hhi);
    [done|lia|lia|by intros ->; cbn in Hk; lia|lia|].
  rewrite (pick_from_at pre r post n 0) by (done || lia). cbn [mbind res_bind].
  assert (Hp : pre ++ Some r :: post ≡ₚ Some r :: (pre ++ post)) by (by rewrite Permutation_middle).
  apply (weights_ok_perm _ _ Hp) in Hok as Hok'.
  apply weights_ok_cons in Hok' as (r0 & [= <-] & Hw & Hok' & Ht & Htot & Hlt).
  assert (Htp : total (pre ++ Some r :: post) = rec_Weight r + total (pre ++ post)).
  { unfold total at 1. rewrite Hp. done. }
  destruct (IH (total (pre ++ post)) (pre ++ post) g1) as (result & g' & E & Hlen & Hsub);
    [done|done|rewrite length_app in *; cbn in Hk; lia|].
  rewrite (wrap64_id (total (pre ++ Some r :: post) - rec_Weight r))
    by (unfold int_range, min_int, max_int in *; lia).
  replace (total (pre ++ Some r :: post) - rec_Weight r) with (total (pre ++ post)) by lia.
  rewrite E. cbn [mbind res_bind]. exists (Some r :: result), g'.
  split_and!; [done|by cbn; rewrite Hlen|]. rewrite Hp. by apply submseteq_skip.
Qed.

(** ** Lemmas: the closest servers *)

(** What the provider's distances satisfy. *)
Definition dist_ok (d : float64) : Prop :=
  SpecFloat.valid_binary 53 1024 d = true ∧ nonneg_finite d ∧ fle d f_360.

Lemma Distance_ok `{GreatCircle} l to : dist_ok (Distance l to).
Proof.
  destruct to as [l'|]; cbn; [|by vm_compute].
  split_and!; [apply angle_valid|apply angle_nonneg|apply angle_bound].
Qed.

Lemma within_own_threshold d : dist_ok d → fle d (fmul d f_105).
Proof. intros (? & ? & ?). by apply fle_fmul_105. Qed.

Lemma dist_total d e : dist_ok d → dist_ok e → fle d e = false → fle e d.
Proof. intros (_ & ? & _) (_ & ? & _). by apply fle_total. Qed.

Lemma dist_trans d e f : dist_ok d → dist_ok e → fle d e → fle e f → fle d f.
Proof. intros (_ & ? & _) (_ & ? & _). by apply fle_trans. Qed.

(** The distances of the servers that are not chosen. *)
Definition unchosen (choose : list bool) (ds : list float64) : list float64 :=
  (filter (λ cd, cd.1 = false) (zip choose ds)).*2.

Definition min_list (m : float64) (l : list float64) : float64 :=
  foldl (λ m d, if fle d m then d else m) m l.

Lemma min_distance_unchosen m choose ds :
  min_distance m choose ds = min_list m (unchosen choose ds).
Proof.
  unfold min_distance, unchosen. generalize (zip choose ds). intros l. revert m.
  induction l as [|[[] d] l IH]; intros m; cbn; [done|apply IH|apply IH].
Qed.

Lemma min_list_spec m l :
  dist_ok m → Forall dist_ok l →
  dist_ok (min_list m l) ∧ (min_list m l = m ∨ min_list m l ∈ l) ∧ fle (min_list m l) m ∧
  Forall (λ d, fle (min_list m l) d) l.
Proof.
  intros Hm Hl. revert m Hm. induction Hl as [|d l Hd Hl IH]; intros m Hm; cbn.
  { split_and!; [done|by left|apply fle_refl; apply Hm|done]. }
  fold (min_list (if fle d m then d else m) l).
  destruct (IH (if fle d m then d else m)) as (H1 & H2 & H3 & H4); [by case_match|].
  set (x := min_list _ l) in *.
  destruct (fle d m) eqn:E; split_and!; try done.
  - destruct H2 as [->|H2]; [right; left|by right; right].
  - eapply dist_trans; [exact H1|exact Hd|done|by apply Is_true_true].
  - by constructor.
  - destruct H2 as [->|H2]; [by left|by right; right].
  - constructor; [|done]. eapply dist_trans; [exact H1|exact Hm|done|]. by apply dist_total.
Qed.

(** Starting from the largest distance, the minimum is the distance of a
    server. *)
Lemma min_list_attained l :
  Forall dist_ok l → l ≠ [] → min_list f_360 l ∈ l.
Proof.
  destruct l as [|d l]; [done|]. intros Hl _. apply Forall_cons in Hl as [Hd Hl]. cbn.
  destruct Hd as (Hv & Hn & Hb). rewrite (Is_true_true_1 _ Hb).
  fold (min_list d l).
  destruct (min_list_spec d l) as (_ & [->|H2] & _); [done|done|left|by right].
Qed.

Lemma chosen_count t choose ds :
  length choose = length ds →
  count_true (choose_within t choose ds) = count_true choose + newly_chosen t choose ds.
Proof.
  unfold count_true, newly_chosen, choose_within, len. rewrite <-Nat2Z.inj_add.
  intros Hlen. f_equal. revert ds Hlen.
  induction choose as [|c choose IH]; intros [|d ds] Hlen; try done.
  cbn [zip zip_with]. injection Hlen as Hlen. rewrite !filter_cons. specialize (IH ds Hlen).
  destruct c, (fle d t) eqn:E; cbn [orb negb andb fst snd]; rewrite ?E; repeat case_decide;
    try done; cbn [length]; lia.
Qed.

Lemma newly_chosen_pos t choose ds d :
  d ∈ unchosen choose ds → fle d t → 0 < newly_chosen t choose ds.
Proof.
  unfold unchosen, newly_chosen, len. intros Hd Ht.
  apply list_elem_of_fmap in Hd as ([c d'] & -> & [Hc Hin]%list_elem_of_filter).
  cbn in Hc, Ht. subst c.
  assert ((false, d') ∈ filter (λ cd : bool * float64, negb cd.1 && fle cd.2 t = true)
    (zip choose ds)) as Hin'.
  { apply list_elem_of_filter. cbn. by rewrite (Is_true_true_1 _ Ht). }
  destruct (filter _ _); [by apply elem_of_nil in Hin'|]. cbn. lia.
Qed.

Lemma elem_of_zip_lookup {A B} (l : list A) (k : list B) a b :
  (a, b) ∈ zip l k ↔ ∃ i, l !! i = Some a ∧ k !! i = Some b.
Proof.
  rewrite list_elem_of_lookup. apply exist_proper. intros i.
  rewrite lookup_zip_with. destruct (l !! i), (k !! i); cbn; naive_solver.
Qed.

Lemma elem_of_unchosen choose ds d :
  d ∈ unchosen choose ds ↔ ∃ i, choose !! i = Some false ∧ ds !! i = Some d.
Proof.
  unfold unchosen. rewrite list_elem_of_fmap. split.
  - intros ([c d'] & -> & [Hc Hin]%list_elem_of_filter). cbn in *. subst.
    by apply elem_of_zip_lookup.
  - intros Hi%elem_of_zip_lookup. exists (false, d). split; [done|]. by apply list_elem_of_filter.
Qed.

(** When only chosen servers satisfy [P], no more of them do than are chosen. *)
Lemma filter_le_chosen (P : float64 → Prop) `{!∀ d, Decision (P d)} choose ds :
  length choose = length ds → (∀ d, d ∈ unchosen choose ds → ¬ P d) →
  len (filter P ds) ≤ count_true choose.
Proof.
  unfold len, count_true, len. intros Hlen HP. apply Nat2Z.inj_le. revert ds Hlen HP.
  induction choose as [|c choose IH]; intros [|d ds] Hlen HP; try done.
  injection Hlen as Hlen. rewrite !filter_cons.
  assert (length (filter P ds) ≤ length (filter (λ c, c = true) choose))%nat.
  { apply IH; [done|]. intros e He. apply HP. unfold unchosen in *.
    cbn [zip zip_with]. rewrite filter_cons. destruct (decide _); [by right|done]. }
  destruct c.
  - repeat case_decide; try done; cbn; lia.
  - rewrite (decide_False (P := false = true)) by done.
    destruct (decide (P d)) as [HPd|]; [|done]. exfalso. apply (HP d); [|done].
    unfold unchosen. cbn [zip zip_with]. rewrite filter_cons_True by done. left.
Qed.

Lemma unchosen_exists choose ds :
  length choose = length ds → count_true choose < len ds → unchosen choose ds ≠ [].
Proof.
  intros Hlen Hlt Hnil.
  pose proof (filter_le_chosen (λ _, True) choose ds Hlen) as Hle.
  rewrite Hnil in Hle.
  assert (Hall : filter (λ _, True) ds = ds).
  { clear. induction ds; [done|]. rewrite filter_cons_True by done. congruence. }
  rewrite Hall in Hle.
  assert (len ds ≤ count_true choose); [|lia]. apply Hle. intros d Hd.
  by apply elem_of_nil in Hd.
Qed.

Definition near_enough (max : Z) (ds : list float64) (di : float64) : Prop :=
  ∃ d, d ∈ ds ∧ fle di (fmul d f_105) ∧ len (filter (λ e, fle d e = false) ds) < max.

(** The invariant of the loop over the passes. *)
Record closest_inv (max : Z) (ds : list float64) (choose : list bool) : Prop := {
  ci_length : length choose = length ds;
  ci_down : ∀ i j di dj, choose !! i = Some true → choose !! j = Some false →
    ds !! i = Some di → ds !! j = Some dj → fle dj di = false;
  ci_near : ∀ i di, choose !! i = Some true → ds !! i = Some di → near_enough max ds di
}.

Lemma closest_inv_start max ds : closest_inv max ds (replicate (length ds) false).
Proof.
  split; [apply length_replicate|..].
  - by intros i j di dj [? _]%lookup_replicate.
  - by intros i di [? _]%lookup_replicate.
Qed.

Lemma lookup_choose_within t choose ds i :
  length choose = length ds →
  choose_within t choose ds !! i =
    match choose !! i, ds !! i with Some c, Some d => Some (c || fle d t) | _, _ => None end.
Proof.
  intros. unfold choose_within. rewrite lookup_zip_with.
  destruct (choose !! i), (ds !! i); done.
Qed.

Lemma closest_inv_pass max ds choose :
  Forall dist_ok ds → closest_inv max ds choose →
  count_true choose < max → count_true choose < len ds →
  let t := fmul (min_distance f_360 choose ds) f_105 in
  closest_inv max ds (choose_within t choose ds) ∧ 0 < newly_chosen t choose ds.
Proof.
  intros Hds [Hlen Hdown Hnear] Hmax Hlt t.
  assert (Hdist : ∀ i d, ds !! i = Some d → dist_ok d) by (intros; by eapply Forall_lookup).
  assert (Hun : Forall dist_ok (unchosen choose ds)).
  { apply Forall_forall. intros d (i & _ & Hi)%elem_of_unchosen. eauto. }
  set (m := min_distance f_360 choose ds) in *.
  assert (Hm : m ∈ unchosen choose ds).
  { unfold m. rewrite min_distance_unchosen. by apply min_list_attained, unchosen_exists. }
  assert (Hmok : dist_ok m) by (by eapply Forall_forall).
  assert (Hmin : ∀ d, d ∈ unchosen choose ds → fle m d).
  { intros d Hd. destruct (min_list_spec f_360 (unchosen choose ds)) as (_ & _ & _ & Hall);
      [by vm_compute|done|]. rewrite <-min_distance_unchosen in Hall. fold m in Hall.
    rewrite Forall_forall in Hall. by apply Hall. }
  split; [split|].
  - unfold choose_within. rewrite length_zip_with. lia.
  - intros i j di dj Hi Hj Hdi Hdj. rewrite lookup_choose_within in Hi, Hj by done.
    rewrite Hdi in Hi. rewrite Hdj in Hj.
    destruct (choose !! i) as [ci|] eqn:Eci; [|done]. destruct (choose !! j) as [cj|] eqn:Ecj; [|done].
    injection Hi as Hi. injection Hj as [-> Hj]%orb_false_iff. destruct ci; [by eapply Hdown|].
    apply not_true_iff_false. intros Hle. cbn in Hi.
    assert (fle dj t); [|by rewrite Hj in *]. apply (dist_trans dj di t);
      [by eapply Hdist|by eapply Hdist|by apply Is_true_true|by apply Is_true_true].
  - intros i di Hi Hdi. rewrite lookup_choose_within, Hdi in Hi by done.
    destruct (choose !! i) as [ci|] eqn:Eci; [|done]. injection Hi as Hi.
    destruct ci; [by eapply Hnear|]. cbn in Hi. exists m. split_and!.
    + apply elem_of_unchosen in Hm as (j & _ & Hj). by eapply list_elem_of_lookup_2.
    + by apply Is_true_true.
    + eapply Z.le_lt_trans; [|exact Hmax]. apply filter_le_chosen; [done|].
      intros d Hd%Hmin Hf. by rewrite Hf in Hd.
  - apply (newly_chosen_pos t choose ds m); [done|]. by apply within_own_threshold.
Qed.

Lemma count_true_le choose : count_true choose ≤ len choose.
Proof. unfold count_true, len. apply Nat2Z.inj_le, length_filter. Qed.

(** The passes end: one for each server and the last test are enough. *)
Lemma choose_closest_returns `{GreatCircle} fuel loc max ds choose :
  Forall dist_ok ds → max ≤ len ds → closest_inv max ds choose →
  len ds - count_true choose < Z.of_nat fuel →
  ∃ choose', choose_closest fuel loc max ds (count_true choose) choose = Ret choose' ∧
    closest_inv max ds choose' ∧ max ≤ count_true choose'.
Proof.
  intros Hds Hmax. revert choose. induction fuel as [|fuel IH]; intros choose Hinv Hfuel.
  { pose proof (count_true_le choose). destruct Hinv as [Hlen _ _].
    assert (len choose = len ds) by (unfold len; lia). lia. }
  cbn [choose_closest]. destruct (Z.ltb_spec (count_true choose) max); [|by exists choose].
  change (MaxDistance loc) with f_360.
  destruct (closest_inv_pass max ds choose) as [Hinv' Hpos]; [done|done|lia|lia|].
  rewrite <-chosen_count by apply Hinv. apply IH; [done|].
  rewrite chosen_count by apply Hinv. lia.
Qed.

Lemma choose_closest_spec `{GreatCircle} loc max ds :
  Forall dist_ok ds → max ≤ len ds →
  ∃ choose, choose_closest (S (length ds)) loc max ds 0 (replicate (length ds) false) = Ret choose ∧
    closest_set max ds choose.
Proof.
  intros Hds Hmax.
  assert (Hzero : count_true (replicate (length ds) false) = 0).
  { unfold count_true. generalize (length ds). intros n. induction n as [|n IH]; [done|].
    cbn [replicate]. by rewrite filter_cons_False. }
  destruct (choose_closest_returns (S (length ds)) loc max ds (replicate (length ds) false))
    as (choose & E & [Hlen Hdown Hnear] & Henough);
    [done|done|apply closest_inv_start|rewrite Hzero; unfold len; lia|].
  rewrite Hzero in E. exists choose. split; [done|]. split; [done|done| |done].
  intros i j di dj Hi Hdi Hdj Hle.
  destruct (lookup_lt_is_Some_2 choose j) as [[] Hj]; [|done|].
  { rewrite Hlen. by eapply lookup_lt_Some. }
  rewrite (Hdown i j di dj) in Hle by done. done.
Qed.

(** ** Lemmas: filtering *)

(** Both filters of the code: the kept servers and their total weight. *)
Lemma filter_sum_loop {A} (f : A → res bool) (server : A → option Record_) (keep : A → bool)
    (l : list A) acc sum :
  Forall (λ a, f a = Ret (keep a)) l →
  weights_ok (server <$> l) → 0 ≤ sum → sum + total (server <$> l) ≤ max_int →
  foldM (λ '(tmp, sum) a, h ← f a;
      if (h : bool) then s' ← deref (server a); Ret (tmp ++ [server a], sum +! rec_Weight s')
      else Ret (tmp, sum)) (acc, sum) l =
    Ret (acc ++ (server <$> filter (λ a, keep a = true) l),
         sum + total (server <$> filter (λ a, keep a = true) l)).
Proof.
  intros Hf. revert acc sum. induction Hf as [|a l Ha Hf IH]; intros acc sum Hok Hs Hmax.
  { cbn. by rewrite app_nil_r, Z.add_0_r. }
  cbn [fmap list_fmap] in Hok, Hmax.
  apply weights_ok_cons in Hok as (r & Er & Hw & Hok & Ht & Htot & Hlt).
  cbn [foldM]. rewrite Ha. cbn [mbind res_bind]. rewrite filter_cons.
  destruct (keep a); cbn [mbind res_bind].
  - rewrite decide_True by done. rewrite Er at 1. cbn [deref mbind res_bind].
    rewrite wrap64_id by (unfold int_range, min_int, max_int in *; lia).
    rewrite IH by (done || lia). rewrite fmap_cons, <-app_assoc. f_equal. f_equal.
    assert (∀ k, total (server a :: k) = rec_Weight r + total k) as ->
      by (intros; unfold total; rewrite Er; done).
    lia.
  - rewrite decide_False by done. apply IH; [done|lia|lia].
Qed.

Lemma filterHealth_spec reg servers :
  statuses_ok reg servers → weights_ok servers →
  filterHealth reg servers =
    Ret (filter (λ s, healthy_b reg s = true) servers,
         total (filter (λ s, healthy_b reg s = true) servers)).
Proof.
  intros Hst Hok. unfold filterHealth.
  rewrite (filter_sum_loop (healthy reg) id (healthy_b reg)).
  - by rewrite !list_fmap_id.
  - eapply Forall_impl; [exact Hst|]. intros s [b Hb]. unfold healthy_b. by rewrite Hb.
  - by rewrite list_fmap_id.
  - done.
  - rewrite list_fmap_id. pose proof (proj2 Hok). lia.
Qed.

Lemma filter_submseteq {A} (P : A → Prop) `{!∀ x, Decision (P x)} l : filter P l ⊆+ l.
Proof. apply sublist_submseteq, sublist_filter. Qed.

Definition chosen_servers (choose : list bool) (servers : Records) : Records :=
  (filter (λ cs, cs.1 = true) (zip choose servers)).*2.

Lemma keep_chosen_spec choose servers :
  length choose = length servers → weights_ok servers →
  keep_chosen choose servers =
    Ret (chosen_servers choose servers, total (chosen_servers choose servers)).
Proof.
  intros Hlen Hok. unfold keep_chosen, chosen_servers.
  assert (Hsnd : (zip choose servers).*2 = servers) by (apply snd_zip; lia).
  rewrite <-(app_nil_l (snd <$> _)), <-(Z.add_0_l (total _)).
  rewrite <-(filter_sum_loop (λ cs, Ret cs.1) snd fst); [done|..]; rewrite ?Hsnd; try done.
  - by apply Forall_forall.
  - pose proof (proj2 Hok). lia.
Qed.

Lemma chosen_servers_sub choose servers :
  length choose = length servers → chosen_servers choose servers ⊆+ servers.
Proof.
  intros Hlen. unfold chosen_servers. rewrite <-(snd_zip choose servers) at 2 by lia.
  apply fmap_submseteq, filter_submseteq.
Qed.

Lemma chosen_servers_length choose servers :
  length choose = length servers → len (chosen_servers choose servers) = count_true choose.
Proof.
  unfold len, count_true, len, chosen_servers. intros Hlen. rewrite length_fmap. f_equal.
  revert servers Hlen. induction choose as [|c choose IH]; intros [|s servers] Hlen; try done.
  cbn [zip zip_with]. injection Hlen as Hlen. rewrite !filter_cons. cbn [fst].
  case_decide; cbn [length]; by rewrite IH.
Qed.

Section closest_spec.
Context `{GreatCircle}.

Definition server_dist (loc : Location) (s : option Record_) : float64 :=
  Distance loc (s ≫= rec_Loc).

Lemma server_distances_spec loc servers :
  weights_ok servers → server_distances loc servers = Ret (server_dist loc <$> servers).
Proof.
  intros [Hall _]. apply mapM_res_Forall2.
  induction Hall as [|s servers [[r ->] _] Hall IH]; by constructor.
Qed.

Lemma closest_servers_spec loc max servers :
  weights_ok servers → max ≤ len servers →
  ∃ cand, closest_servers loc max servers = Ret (cand, total cand) ∧
    cand ⊆+ servers ∧ max ≤ len cand ∧
    Forall (λ s, near_enough max (server_dist loc <$> servers) (server_dist loc s)) cand.
Proof.
  intros Hok Hmax. unfold closest_servers. rewrite server_distances_spec by done.
  cbn [mbind res_bind]. set (ds := server_dist loc <$> servers).
  assert (Hl : length servers = length ds) by (unfold ds; by rewrite length_fmap).
  destruct (choose_closest_spec loc max ds) as (choose & E & [Hlen Henough Hdown Hnear]).
  { apply Forall_fmap, Forall_forall. intros s _. apply Distance_ok. }
  { unfold len in *. lia. }
  rewrite Hl, E. cbn [mbind res_bind]. rewrite keep_chosen_spec by (done || lia).
  exists (chosen_servers choose servers). split_and!; [done|by apply chosen_servers_sub; lia| |].
  - by rewrite chosen_servers_length by lia.
  - apply Forall_forall. intros s ([c s'] & -> & [Hc Hin]%list_elem_of_filter)%list_elem_of_fmap.
    cbn in Hc. subst c. apply elem_of_zip_lookup in Hin as (i & Hi & Hs).
    apply (Hnear i); [done|]. unfold ds. by rewrite list_lookup_fmap, Hs.
Qed.
End closest_spec.

(** ** Properties *)

Section properties.
Context `{GreatCircle} `{GoRand rng} `{GoRange}.

(** The number of records an answer has room for. *)
Definition answer_size (qtype max : Z) (servers : Records) : Z :=
  Z.min (if (qtype =? TypeCNAME) || (qtype =? TypeMF) then 1 else max) (len servers).

(** The condition under which only the closest servers take part. *)
Definition by_distance (qtype max : Z) (servers : Records) : bool :=
  ((qtype =? TypeA) || (qtype =? TypeAAAA)) && (max <? len servers).

Lemma pick_weighted_spec qtype max location servers (g : rng) :
  weights_ok servers → 0 ≤ max →
  ∃ result g', pick_weighted qtype max location servers (total servers) g = Ret (Some result, g') ∧
    len result = Z.min max (len servers) ∧ result ⊆+ servers ∧
    (∀ loc, location = Some loc → by_distance qtype max servers = true →
       Forall (λ s, near_enough max (server_dist loc <$> servers) (server_dist loc s)) result).
Proof.
  intros Hok Hmax. unfold pick_weighted, by_distance.
  set (max' := if len servers <? max then len servers else max).
  assert (Hmin : max' = Z.min max (len servers)) by (unfold max'; case_match; split_bools; lia).
  assert (Hlen0 : 0 ≤ len servers) by (unfold len; lia).
  rewrite (proj2 (Z.ltb_ge max' 0)) by lia.
  assert (Hfar : ∀ cand, weights_ok cand → max' ≤ len cand → ∃ result g',
    ('(result, g) ← draw_servers (Z.to_nat max') (total cand) cand g; Ret (Some result, g)) =
      Ret (Some result, g') ∧ len result = max' ∧ result ⊆+ cand).
  { intros cand Hc Hlc. destruct (draw_servers_spec (Z.to_nat max') (total cand) cand g)
      as (result & g' & -> & Hlr & Hsub); [done|done|unfold len in *; lia|].
    exists result, g'. split_and!; [done|unfold len in *; lia|done]. }
  assert (Hall : ∃ result g',
    ('(result, g) ← draw_servers (Z.to_nat max') (total servers) servers g; Ret (Some result, g)) =
      Ret (Some result, g') ∧ len result = max' ∧ result ⊆+ servers).
  { apply Hfar; [done|lia]. }
  rewrite <-Hmin. destruct location as [loc|]; [|by destruct Hall as (res & g' & ? & ? & ?);
    exists res, g'; split_and!].
  destruct (((qtype =? TypeA) || (qtype =? TypeAAAA)) && (max' <? len servers)) eqn:Ecl.
  - destruct (closest_servers_spec loc max' servers) as (cand & -> & Hsub & Hlc & Hnear); [done|lia|].
    cbn [mbind res_bind].
    destruct (Hfar cand) as (res & g' & E & Hlr & Hsub'); [by apply (weights_ok_sublist cand servers)|done|].
    exists res, g'. split_and!; [done|done|by trans cand|].
    intros loc' [= <-] Hby. split_bools. replace max with max' by lia.
    apply Forall_forall. intros s Hs. rewrite Forall_forall in Hnear. apply Hnear.
    by eapply elem_of_submseteq.
  - destruct Hall as (res & g' & ? & ? & ?). exists res, g'. split_and!; [done..|].
    intros loc' _ [Hty Hby]%andb_true_iff. rewrite Hty in Ecl. cbn [andb] in Ecl.
    split_bools. lia.
Qed.

Lemma eligible_ok reg label rs :
  weights_ok rs → eligible reg label rs ⊆+ rs ∧ weights_ok (eligible reg label rs).
Proof.
  intros Hok. assert (eligible reg label rs ⊆+ rs) as Hsub.
  { unfold eligible. case_match; [apply filter_submseteq|done]. }
  split; [done|]. by apply (weights_ok_sublist _ rs).
Qed.

(** The records of a label and type are fit for a draw: the label's total
    weight is that of its records. *)
Definition label_ok (reg : registry) (label : Label) (qtype : Z) (rs : Records) : Prop :=
  l_Records label !! qtype = Some rs ∧ weights_ok rs ∧
  map_get 0 (l_Weight label) qtype = total rs ∧ statuses_ok reg rs.

Lemma Picker_type_eligible reg label qtype max location (g : rng) rs :
  label_ok reg label qtype rs →
  Picker_type reg label qtype max location g =
    let servers := eligible reg label rs in
    if total servers =? 0 then Ret (Some servers, g)
    else pick_weighted qtype (if (qtype =? TypeCNAME) || (qtype =? TypeMF) then 1 else max)
           location servers (total servers) g.
Proof.
  intros (Hrs & Hok & Hw & Hst). unfold Picker_type, eligible. rewrite Hrs.
  destruct (l_Test label) as [t|] eqn:Et.
  - rewrite filterHealth_spec by done. cbn [mbind res_bind].
    rewrite bool_decide_true by (by eexists). cbn [andb]. rewrite Hw.
    case_match; [done|]. destruct (Z.eqb_spec (total rs) 0) as [Hz|]; [|done]. split_bools.
    destruct (weights_ok_sublist (filter (λ s, healthy_b reg s = true) rs) rs)
      as [[Hn _] Hle]; [apply filter_submseteq|done|]. apply total_nonneg in Hn. lia.
  - cbn [mbind res_bind]. rewrite Hw. rewrite bool_decide_false by (by intros [? ?]). done.
Qed.

(** What a pick from [servers] may give. *)
Definition picks (qtype max : Z) (servers result : Records) : Prop :=
  result ⊆+ servers ∧
  (if total servers =? 0 then result = servers
   else len result = answer_size qtype max servers).

Lemma Picker_type_picks reg label qtype max location (g : rng) rs :
  0 ≤ max → label_ok reg label qtype rs →
  ∃ result g', Picker_type reg label qtype max location g = Ret (Some result, g') ∧
    picks qtype max (eligible reg label rs) result.
Proof.
  intros Hmax Hl. rewrite (Picker_type_eligible _ _ _ _ _ _ rs) by done. cbn zeta.
  destruct (eligible_ok reg label rs) as [_ Hok]; [apply Hl|]. unfold picks.
  destruct (total (eligible reg label rs) =? 0); [by eexists _, _|].
  unfold answer_size.
  edestruct pick_weighted_spec as (result & g' & E & Hlen & Hsub & _);
    [exact Hok| |exists result, g'; split_and!; [exact E|done|exact Hlen]].
  case_match; lia.
Qed.

(** C9: for every type but ANY, a limit that is not negative, and a label whose
    weights are not negative and add up to an [int] ([label_ok]), [Picker]
    returns, for every generator: only records of the label that pass the
    health filter, each at most as often as the label has it, no nil among
    them; all of them when their weights sum to 0, and otherwise exactly as
    many as the limit and the number of eligible records allow (one for CNAME
    and alias).  (With a negative weight or limit the code can panic, and for
    ANY the limit holds for each type by itself.) *)
Theorem Picker_picks (reg : registry) (label : Label) (qtype max : Z)
    (location : option Location) (g : rng) (rs : Records) :
  qtype ≠ TypeANY → 0 ≤ max → label_ok reg label qtype rs →
  ∃ result g', Picker reg label qtype max location g = Ret (Some result, g') ∧
    result ⊆+ eligible reg label rs ∧ Forall is_Some result ∧
    (if total (eligible reg label rs) =? 0 then result = eligible reg label rs
     else len result = answer_size qtype max (eligible reg label rs)).
Proof.
  intros Hq Hmax Hl. unfold Picker. rewrite (proj2 (Z.eqb_neq qtype TypeANY)) by done.
  destruct (Picker_type_picks reg label qtype max location g rs) as (result & g' & E & Hsub & Hsz);
    [done..|].
  exists result, g'. split_and!; [done..| |done].
  destruct (eligible_ok reg label rs) as [_ Hok]; [apply Hl|].
  apply (weights_ok_sublist result) in Hok as [[Hall _] _]; [|done].
  eapply Forall_impl; [exact Hall|]. by intros s [? _].
Qed.

(** For ANY the answer is the picks of all the types of the label, one
    after the other in the visiting order; it is nil only when the label has
    no records at all. *)
Theorem Picker_any (reg : registry) (label : Label) (max : Z)
    (location : option Location) (g : rng) :
  0 ≤ max →
  (∀ t rs, l_Records label !! t = Some rs → t ≠ TypeANY ∧ label_ok reg label t rs) →
  ∃ result g' parts, Picker reg label TypeANY max location g = Ret (result, g') ∧
    Forall2 (λ e, picks e.1 max (eligible reg label e.2)) (go_range (l_Records label)) parts ∧
    result = match parts with [] => None | _ => Some (concat parts) end.
Proof.
  intros Hmax Hl. unfold Picker. rewrite Z.eqb_refl.
  assert (Hin : Forall (λ e, e.1 ≠ TypeANY ∧ label_ok reg label e.1 e.2)
    (go_range (l_Records label))).
  { apply Forall_forall. intros [t rs] Hin%elem_of_go_range. by apply Hl. }
  revert Hin. generalize (go_range (l_Records label)). intros l Hin.
  assert (Hgen : ∀ acc g, ∃ g' parts, foldM (λ '(result, g) e,
      if e.1 =? TypeANY then OutOfFuel
      else '(rtypeRecords, g) ← Picker_type reg label e.1 max location g;
           Ret (Some (default [] result ++ default [] rtypeRecords), g)) (acc, g) l =
      Ret (match parts with [] => acc | _ => Some (default [] acc ++ concat parts) end, g') ∧
    Forall2 (λ e, picks e.1 max (eligible reg label e.2)) l parts).
  { clear g. induction Hin as [|[t rs] l [Hany Hok] Hin IH]; intros acc g.
    { exists g, []. split; [done|constructor]. }
    cbn [foldM fst snd]. rewrite (proj2 (Z.eqb_neq t TypeANY)) by done.
    destruct (Picker_type_picks reg label t max location g rs) as (part & g1 & -> & Hp); [done..|].
    cbn [mbind res_bind]. destruct (IH (Some (default [] acc ++ default [] (Some part))) g1)
      as (g' & parts & -> & Hparts).
    exists g', (part :: parts). split; [|by constructor].
    destruct parts; cbn; by rewrite ?app_nil_r, ?app_assoc. }
  destruct (Hgen None g) as (g' & parts & -> & Hparts). by eexists _, g', parts.
Qed.

(** C10: for an address query with a known location and more eligible records
    than the limit, every record of the answer is close: it lies within 5% of
    the distance of a record that has fewer than the limit closer than it. *)
Theorem Picker_closest (reg : registry) (label : Label) (qtype max : Z)
    (loc : Location) (g : rng) (rs : Records) :
  qtype = TypeA ∨ qtype = TypeAAAA → 0 ≤ max → label_ok reg label qtype rs →
  total (eligible reg label rs) ≠ 0 → max < len (eligible reg label rs) →
  ∃ result g', Picker reg label qtype max (Some loc) g = Ret (Some result, g') ∧
    len result = max ∧
    ∀ s, s ∈ result → ∃ d, d ∈ server_dist loc <$> eligible reg label rs ∧
      fle (server_dist loc s) (fmul d f_105) ∧
      len (filter (λ e, fle d e = false) (server_dist loc <$> eligible reg label rs)) < max.
Proof.
  intros Hq Hmax Hl Htot Hlt. unfold Picker.
  rewrite (proj2 (Z.eqb_neq qtype TypeANY)) by (by destruct Hq as [-> | ->]).
  rewrite (Picker_type_eligible _ _ _ _ _ _ rs) by done. cbn zeta.
  destruct (eligible_ok reg label rs) as [_ Hok]; [apply Hl|].
  rewrite (proj2 (Z.eqb_neq _ 0)) by done.
  assert ((qtype =? TypeCNAME) || (qtype =? TypeMF) = false) as ->
    by (by destruct Hq as [-> | ->]).
  destruct (pick_weighted_spec qtype max (Some loc) (eligible reg label rs) g)
    as (result & g' & E & Hlen & _ & Hnear); [done|done|].
  exists result, g'. split_and!; [done|lia|].
  apply Forall_forall. apply (Hnear loc eq_refl). unfold by_distance.
  rewrite (proj2 (Z.ltb_lt _ _) Hlt). by destruct Hq as [-> | ->].
Qed.

(** A draw of [n] picks exactly the server whose interval of the running
    weights holds [n] and removes it: the server after [pre] answers for the
    numbers from [total pre + 1] to [total pre + weight], as many as its
    weight, and the first server for 0 as well. *)
Theorem pick_from_interval (pre post : Records) (r : Record_) (n : Z) :
  weights_ok (pre ++ Some r :: post) →
  total pre < n ≤ total pre + rec_Weight r ∨ n = 0 ∧ pre = [] →
  pick_from n 0 (pre ++ Some r :: post) = Ret (Some (r, pre ++ post)).
Proof.
  intros Hok Hn. assert (Hmax : total (pre ++ Some r :: post) < max_int) by apply Hok.
  apply pick_from_at; [done|done|lia|destruct Hn as [?|[_ ->]]; [right; lia|by left]|].
  destruct Hn as [?|[-> ->]]; [lia|]. cbn.
  apply weights_ok_cons in Hok as (r0 & [= <-] & Hw & _). lia.
Qed.

(** A negative limit makes [Picker] panic as soon as the label has weights,
    and so does a total weight below zero. *)
Theorem Picker_negative (reg : registry) (label : Label) (qtype max : Z) (g : rng)
    (rs : Records) :
  qtype = TypeA → l_Records label !! qtype = Some rs → l_Test label = None →
  map_get 0 (l_Weight label) qtype ≠ 0 →
  (max < 0 → Picker reg label qtype max None g = Panic "makeslice: len out of range") ∧
  (0 < max → 0 < len rs → min_int ≤ map_get 0 (l_Weight label) qtype < 0 →
     Picker reg label qtype max None g = Panic "invalid argument to Intn").
Proof.
  intros -> Hrs Ht Hw. unfold Picker. change (TypeA =? TypeANY) with false. cbn iota.
  unfold Picker_type. rewrite Hrs, Ht. cbn [mbind res_bind].
  rewrite bool_decide_false by (by intros [? ?]). cbn [andb].
  rewrite (proj2 (Z.eqb_neq _ 0)) by done. cbn [orb]. unfold pick_weighted.
  change ((TypeA =? TypeCNAME) || (TypeA =? TypeMF)) with false. cbn iota. split.
  - intros Hmax. assert (0 ≤ len rs) by (unfold len; lia).
    rewrite (proj2 (Z.ltb_ge (len rs) max)), (proj2 (Z.ltb_lt max 0)) by lia. done.
  - intros Hmax Hlen Hneg. set (m := if len rs <? max then len rs else max).
    assert (0 < m) by (unfold m; case_match; lia).
    rewrite (proj2 (Z.ltb_ge m 0)) by lia. cbn [mbind res_bind].
    destruct (Z.to_nat m) as [|k] eqn:Em; [lia|]. cbn [draw_servers].
    unfold Intn. rewrite wrap64_id by (unfold int_range, min_int, max_int in *; lia).
    by rewrite (proj2 (Z.leb_le _ 0)) by lia.
Qed.
End properties.

(** ** Examples *)

(** A toy geometry: points on one latitude are at the same place, others are
    opposite. *)
Definition toy_angle (l l' : Location) : float64 :=
  if decide (loc_Latitude l = loc_Latitude l') then f_zero else f_360.

Lemma toy_angle_ok l l' : dist_ok (toy_angle l l').
Proof. unfold toy_angle. case_decide; by vm_compute. Qed.

Definition GreatCircle_toy : GreatCircle := {|
  angle_degrees := toy_angle;
  angle_valid := λ l l', proj1 (toy_angle_ok l l');
  angle_nonneg := λ l l', proj1 (proj2 (toy_angle_ok l l'));
  angle_bound := λ l l', proj2 (proj2 (toy_angle_ok l l'))
|}.

Definition toy_location (lat : float64) : Location :=
  mkLocation "us" "north-america" "" "" lat f_zero 0.

Definition toy_server (w : Z) (loc : option Location) (d : Z) : option Record_ :=
  Some (mkRecord (mkRR (mkHdr "www.example.com." TypeA ClassINET 120 0) (RD_A [10; 0; 0; d]))
    w loc "").

Definition toy_servers : Records :=
  [toy_server 10 (Some (toy_location f_zero)) 1; toy_server 5 None 2;
   toy_server 0 (Some (toy_location f_zero)) 3].

Definition toy_label (test : option HealthReference) : Label :=
  mkLabel "www" 2 0 {[TypeA := toy_servers]} {[TypeA := 15]} true test.

Lemma toy_weights_ok : weights_ok toy_servers.
Proof. split; [by repeat constructor|by vm_compute]. Qed.

Lemma toy_label_ok test : label_ok ∅ (toy_label test) TypeA toy_servers.
Proof.
  split_and!; [reflexivity|apply toy_weights_ok|reflexivity|].
  repeat constructor; by eexists.
Qed.

Lemma Picker_picks_witness :
  let _ := GreatCircle_toy in let _ := GoRand_replay in let _ := GoRange_list in
  ∃ result g', Picker ∅ (toy_label None) TypeA 2 None [12; 3] = Ret (Some result, g') ∧
    result ⊆+ toy_servers ∧ len result = 2.
Proof.
  intros GC GR RG.
  destruct (Picker_picks ∅ (toy_label None) TypeA 2 None [12; 3] toy_servers)
    as (result & g' & E & Hsub & _ & Hlen); [done|done|apply toy_label_ok|].
  exists result, g'. split_and!; [exact E|exact Hsub|exact Hlen].
Defined.

Lemma Picker_any_witness :
  let _ := GreatCircle_toy in let _ := GoRand_replay in let _ := GoRange_list in
  ∃ result g', Picker ∅ (toy_label None) TypeANY 2 None [12; 3] = Ret (result, g').
Proof.
  intros GC GR RG.
  destruct (Picker_any ∅ (toy_label None) 2 None [12; 3]) as (result & g' & _ & E & _); [done| |].
  - intros t rs Hrs. cbn in Hrs. apply lookup_singleton_Some in Hrs as [<- <-]. split; [done|apply toy_label_ok].
  - by exists result, g'.
Defined.

Lemma Picker_closest_witness :
  let _ := GreatCircle_toy in let _ := GoRand_replay in let _ := GoRange_list in
  ∃ result g', Picker ∅ (toy_label None) TypeA 1 (Some (toy_location f_zero)) [7] =
      Ret (Some result, g') ∧ len result = 1.
Proof.
  intros GC GR RG.
  destruct (Picker_closest ∅ (toy_label None) TypeA 1 (toy_location f_zero) [7] toy_servers)
    as (result & g' & E & Hlen & _);
    [by left|done|apply toy_label_ok|by vm_compute|by vm_compute|].
  exists result, g'. split; [exact E|exact Hlen].
Defined.

Lemma pick_from_interval_witness :
  ∃ r, toy_server 5 None 2 = Some r ∧
    pick_from 12 0 toy_servers =
      Ret (Some (r, [toy_server 10 (Some (toy_location f_zero)) 1;
                     toy_server 0 (Some (toy_location f_zero)) 3])).
Proof.
  eexists. split; [reflexivity|].
  apply (pick_from_interval [toy_server 10 (Some (toy_location f_zero)) 1]
    [toy_server 0 (Some (toy_location f_zero)) 3]); [apply toy_weights_ok|left; cbn; lia].
Defined.

Lemma Picker_negative_witness :
  let _ := GreatCircle_toy in let _ := GoRand_replay in let _ := GoRange_list in
  Picker ∅ (toy_label None) TypeA (-1) None [12] = Panic "makeslice: len out of range".
Proof.
  intros GC GR RG.
  apply (Picker_negative ∅ (toy_label None) TypeA (-1) [12] toy_servers); [done..|lia].
Defined.
