(* ===== verification/Reader.v ===== *)
(** * zones/reader.go: reading a zone file

    The decoded JSON object is a [value]; the entries of an object come in the
    order in which [range] visits them, so every theorem holds for every
    order.  A label is updated while its entries are read and is in the zone
    under its lower-case name; nothing reads the zone's labels in between, so
    the model stores the finished label. *)

From S2P Require Import Prelude GoRuntime GoStrings GoNet Float64 TypeUtil Targeting.
From S2P Require Import DnsNames DnsMsg DnsScan Health Zones Soa Picker.
Local Open Scope Z_scope.

Section reader.
Context `{GoFormat} `{GoArch} `{GoSort} `{GoRange} `{RRParser}.

Definition getStringWeight (rec : list value) : res (string * Z) :=
  v ← index rec 0;
  str ← as_string v;
  if 1 <? len rec then
    w ← index rec 1;
    match w with
    | VStr s =>
        match Atoi s with
        | Some weight => Ret (str, weight)
        | None => Panic "Error converting weight to integer"
        end
    | VNum f => Ret (str, int_of_float f)
    | _ => Ret (str, 0)
    end
  else Ret (str, 0).

Definition recordTypes : gmap string Z :=
  list_to_map [("a", TypeA); ("aaaa", TypeAAAA); ("alias", TypeMF); ("cname", TypeCNAME);
               ("mx", TypeMX); ("ns", TypeNS); ("txt", TypeTXT); ("spf", TypeSPF);
               ("srv", TypeSRV); ("ptr", TypePTR)].

(** [rec[k]] on a map: the zero value is nil. *)
Definition obj_at (r : list (string * value)) (k : string) : value := default VNil (obj_get r k).

(** [if rec[k] != nil { x = uint16(typeutil.ToInt(rec[k])) }] *)
Definition opt_uint16 (r : list (string * value)) (k : string) : res Z :=
  match obj_at r k with
  | VNil => Ret 0
  | v => i ← ToInt v; Ret (uint16 i)
  end.

(** [if w, ok := r[k]; ok { weight = typeutil.ToInt(w) }] *)
Definition opt_weight (r : list (string * value)) (k : string) : res Z :=
  match obj_get r k with
  | Some w => ToInt w
  | None => Ret 0
  end.

(** The health test of a single record: the string under "health". *)
Definition record_test (rec : value) : string :=
  match rec with
  | VObj r => match obj_get r "health" with Some (VStr h) => h | _ => "" end
  | _ => ""
  end.

Definition opt_test (r : list (string * value)) (test : string) : res string :=
  match obj_get r "health" with
  | Some h => ToString h
  | None => Ret test
  end.

Definition header (zone : Zone) (label : Label) (dnsType : Z) : RR_Header :=
  let name :=
    if slen (l_Label label) =? 0 then z_Origin zone +:+ "."
    else l_Label label +:+ "." +:+ z_Origin zone +:+ "." in
  mkHdr name dnsType ClassINET 0 0.

(** A, AAAA and PTR records: the address or name, the weight and the test. *)
Definition address_fields (dnsType : Z) (rec : value) : res (string * Z * string) :=
  match rec with
  | VArr l => '(str, weight) ← getStringWeight l; Ret (str, weight, record_test rec)
  | VObj r =>
      ip ← match obj_get r "ip" with Some v => as_string v | None => Ret "" end;
      ip ← (if (slen ip =? 0) || (dnsType =? TypePTR) then
              if dnsType =? TypeA then as_string (obj_at r "a")
              else if dnsType =? TypeAAAA then as_string (obj_at r "aaaa")
              else as_string (obj_at r "ptr")
            else Ret ip);
      weight ← opt_weight r "weight";
      test ← opt_test r (record_test rec);
      Ret (ip, weight, test)
  | _ => Ret ("", 0, record_test rec)
  end.

Definition address_record (h : RR_Header) (dnsType : Z) (dk : string) (rec : value) :
    res (option Record_) :=
  '(ip, weight, test) ← address_fields dnsType rec;
  if dnsType =? TypePTR then Ret (Some (mkRecord (mkRR h (RD_PTR ip)) weight None test))
  else if dnsType =? TypeA then
    match ParseIP ip with
    | [] => Panic ("Bad A record " +:+ ip +:+ " for " +:+ dk)
    | x => Ret (Some (mkRecord (mkRR h (RD_A x)) weight None test))
    end
  else
    match ParseIP ip with
    | [] => Panic ("Bad AAAA record " +:+ ip +:+ " for " +:+ dk)
    | x => Ret (Some (mkRecord (mkRR h (RD_AAAA x)) weight None test))
    end.

Definition mx_record (h : RR_Header) (rec : value) : res (option Record_) :=
  r ← as_obj rec;
  mx ← as_string (obj_at r "mx");
  let mx := if HasSuffix mx "." then mx else mx +:+ "." in
  weight ← match obj_at r "weight" with VNil => Ret 0 | v => ToInt v end;
  pref ← opt_uint16 r "preference";
  Ret (Some (mkRecord (mkRR h (RD_MX pref mx)) weight None (record_test rec))).

Definition srv_record (origin : string) (h : RR_Header) (rec : value) : res (option Record_) :=
  r ← as_obj rec;
  target ← as_string (obj_at r "target");
  let target := if IsFqdn target then target else target +:+ "." +:+ origin in
  srv_weight ← opt_uint16 r "srv_weight";
  port ← opt_uint16 r "port";
  priority ← opt_uint16 r "priority";
  Ret (Some (mkRecord (mkRR h (RD_SRV priority srv_weight port target)) 0 None (record_test rec))).

Definition cname_record (origin : string) (h : RR_Header) (rec : value) : res (option Record_) :=
  '(target, weight, test) ←
    match rec with
    | VStr s => Ret (s, 0, record_test rec)
    | VArr l => '(target, weight) ← getStringWeight l; Ret (target, weight, record_test rec)
    | VObj r =>
        target ← match obj_get r "cname" with Some t => ToString t | None => Ret "" end;
        weight ← opt_weight r "weight";
        test ← opt_test r (record_test rec);
        Ret (target, weight, test)
    | _ => Ret ("", 0, record_test rec)
    end;
  let target := if IsFqdn target then target else target +:+ "." +:+ origin in
  Ret (Some (mkRecord (mkRR h (RD_CNAME (Fqdn target))) weight None test)).

Definition mf_record (h : RR_Header) (rec : value) : res (option Record_) :=
  mf ← as_string rec;
  Ret (Some (mkRecord (mkRR h (RD_MF mf)) 0 None (record_test rec))).

Definition ns_record (h : RR_Header) (rec : value) : res (option Record_) :=
  ns ← match rec with
       | VStr s => Ret s
       | VStrs recl => ns ← index recl 0; _ ← index recl 1; Ret ns
       | _ => Panic "Unrecognized NS format/syntax"
       end;
  Ret (Some (mkRecord (mkRR h (RD_NS (Fqdn ns))) 0 None (record_test rec))).

(** TXT and SPF, which differ in the key and the type; an empty text is
    skipped, which leaves the nil of the fresh slice in its place. *)
Definition text_record (mk : list string → RData) (key : string) (h : RR_Header) (rec : value) :
    res (option Record_) :=
  '(txt, weight) ←
    match rec with
    | VStr s => Ret (s, 0)
    | VObj r =>
        weight ← opt_weight r "weight";
        txt ← match obj_get r key with Some t => as_string t | None => Ret "" end;
        Ret (txt, weight)
    | _ => Ret ("", 0)
    end;
  if 0 <? slen txt then Ret (Some (mkRecord (mkRR h (mk [txt])) weight None (record_test rec)))
  else Ret None.

(** The body of the loop over the records of one type: the record, or [None]
    where the loop continues without storing one. *)
Definition make_record (zone : Zone) (label : Label) (dk : string) (dnsType : Z) (rec : value) :
    res (option Record_) :=
  let h := header zone label dnsType in
  if (dnsType =? TypeA) || (dnsType =? TypeAAAA) || (dnsType =? TypePTR)
  then address_record h dnsType dk rec
  else if dnsType =? TypeMX then mx_record h rec
  else if dnsType =? TypeSRV then srv_record (z_Origin zone) h rec
  else if dnsType =? TypeCNAME then cname_record (z_Origin zone) h rec
  else if dnsType =? TypeMF then mf_record h rec
  else if dnsType =? TypeNS then ns_record h rec
  else if dnsType =? TypeTXT then text_record RD_TXT "txt" h rec
  else if dnsType =? TypeSPF then text_record RD_SPF "spf" h rec
  else Panic "Don't know how to handle this type".

(** The list of records in the forms the file may give it: an object (the
    legacy NS syntax), a string, an array. *)
Definition record_list (rdata : value) : res (list value) :=
  match rdata with
  | VObj l =>
      mapM_res (λ e,
        v ← match e.2 with VNil => Ret "" | v => as_string v end;
        Ret (VStrs [e.1; v])) l
  | VStr s => Ret [VStr s]
  | v => as_arr v
  end.

Definition set_Weight (l : Label) (t w : Z) : Label :=
  mkLabel (l_Label l) (l_MaxHosts l) (l_Ttl l) (l_Records l) (<[t := w]> (l_Weight l))
    (l_Closest l) (l_Test l).

(** [label.Weight[dnsType] += w], which creates the entry. *)
Definition add_Weight (l : Label) (t w : Z) : Label :=
  set_Weight l t (map_get 0 (l_Weight l) t +! w).

(** [sort.Sort(RecordsByWeight)]: with two records or more every record takes
    part in a comparison, which dereferences it. *)
Definition sort_records (rs : Records) : res Records :=
  if 1 <? len rs then
    rs ← mapM_res deref rs;
    Ret (Some <$> go_sort RecordsByWeight_Less rs)
  else Ret rs.

(** The records of one type. *)
Definition setup_type (zone : Zone) (label : Label) (dk : string) (dnsType : Z)
    (recs : list value) : res Label :=
  '(label, rs) ← foldM (λ '(label, rs) rec,
      record ← make_record zone label dk dnsType rec;
      let label := match record with
        | Some r => add_Weight label dnsType (rec_Weight r)
        | None => label
        end in
      Ret (label, rs ++ [record])) (label, []) recs;
  rs ← (if 0 <? map_get 0 (l_Weight label) dnsType then sort_records rs else Ret rs);
  Ret (set_Records label (<[dnsType := rs]> (l_Records label))).

(** One entry of a label's object. *)
Definition setup_entry (dk : string) (st : Zone * Label) (e : string * value) :
    res (Zone * Label) :=
  let '(zone, label) := st in
  let '(rType, rdata) := e in
  if decide (rType = "max_hosts") then
    n ← ToInt rdata;
    Ret (zone, mkLabel (l_Label label) n (l_Ttl label) (l_Records label) (l_Weight label)
                 (l_Closest label) (l_Test label))
  else if decide (rType = "closest") then
    b ← as_bool rdata;
    Ret (if (b : bool) then set_HasClosest zone true else zone,
         mkLabel (l_Label label) (l_MaxHosts label) (l_Ttl label) (l_Records label)
           (l_Weight label) b (l_Test label))
  else if decide (rType = "ttl") then
    n ← ToInt rdata;
    Ret (zone, mkLabel (l_Label label) (l_MaxHosts label) n (l_Records label) (l_Weight label)
                 (l_Closest label) (l_Test label))
  else if decide (rType = "health") then
    label ← addHealthReference label rdata;
    Ret (zone, label)
  else
    match recordTypes !! rType with
    | None => Ret (zone, label)
    | Some dnsType =>
        match rdata with
        | VNil => Ret (zone, label)
        | _ =>
            recs ← record_list rdata;
            label ← setup_type zone label dk dnsType recs;
            Ret (zone, label)
        end
    end.

(** One label of the data. *)
Definition setup_label (zone : Zone) (e : string * value) : res Zone :=
  let '(dk, dv_inter) := e in
  dv ← as_obj dv_inter;
  let zone := AddLabel zone dk in
  label ← deref (z_Labels zone !! ToLower dk);
  '(zone, label) ← foldM (setup_entry dk) (zone, label) dv;
  Ret (set_Labels zone (<[ToLower dk := label]> (z_Labels zone))).

(** ** The pass over the labels of the zone *)

(** The names that follow the dots of [k]. *)
Fixpoint parents (subLabels : list string) : list string :=
  match subLabels with
  | [] => []
  | _ :: rest => match rest with [] => [] | _ => Join rest "." :: parents rest end
  end.

Definition add_missing (zone : Zone) (name : string) : Zone :=
  match z_Labels zone !! name with
  | Some _ => zone
  | None => AddLabel zone name
  end.

Definition add_parents (zone : Zone) (k : string) : Zone :=
  if ContainsByte k "."%char then foldl add_missing zone (parents (Split k "."%char)) else zone.

(** The TTL and, when the type is always weighted and has no weight yet, the
    weight of a record. *)
Definition default_ttl (zone : Zone) (l : Label) (rr : RR) : Z :=
  let ttl := if h_Rrtype (rr_Hdr rr) =? TypeNS then 86400 else uint32 (o_Ttl (z_Options zone)) in
  if 0 <? l_Ttl l then uint32 (l_Ttl l) else ttl.

Definition set_ttl (rr : RR) (ttl : Z) : RR :=
  let h := rr_Hdr rr in
  if h_Ttl h =? 0
  then mkRR (mkHdr (h_Name h) (h_Rrtype h) (h_Class h) ttl (h_Rdlength h)) (rr_Data rr)
  else rr.

Definition finish_record (zone : Zone) (l : Label) (setWeight : bool) (r : option Record_) :
    res (option Record_) :=
  r ← deref r;
  let w := if setWeight then 1 else rec_Weight r in
  Ret (Some (mkRecord (set_ttl (rec_RR r) (default_ttl zone l (rec_RR r))) w (rec_Loc r)
               (rec_Test r))).

Definition needs_weight (l : Label) (qtype : Z) : bool :=
  bool_decide (qtype ∈ alwaysWeighted) && (map_get 0 (l_Weight l) qtype =? 0).

Definition finish_type (zone : Zone) (l : Label) (qtype : Z) (records : Records) : res Label :=
  let setWeight := needs_weight l qtype in
  rs ← mapM_res (finish_record zone l setWeight) records;
  let l := if setWeight then foldl (λ l _, add_Weight l qtype 1) l records else l in
  Ret (set_Records l (<[qtype := rs]> (l_Records l))).

(** One label of the pass. *)
Definition finish_label (zone : Zone) (k : string) : res Zone :=
  let zone := add_parents zone k in
  l ← deref (z_Labels zone !! k);
  l' ← foldM (λ l' e, finish_type zone l' e.1 e.2) l (go_range (l_Records l));
  Ret (set_Labels zone (<[k := l']> (z_Labels zone))).

(** The pass.  The labels it adds itself have no records and only parents
    that are there already, so that it does not matter whether [range] visits
    them: the model visits the labels that are there at the start. *)
Definition finish_labels (zone : Zone) : res Zone :=
  foldM finish_label zone (go_range (z_Labels zone)).*1.

Definition setupZoneData (data : list (string * value)) (zone : Zone) : res Zone :=
  zone ← foldM setup_label zone data;
  zone ← finish_labels zone;
  addSOA zone.

(** ** ReadZoneFile *)

(** What the file system and the JSON decoder give for a file name: the file
    cannot be opened, or its modification time, if it has one, and the
    decoded object, if it parses. *)
Inductive zone_file :=
| OpenError (msg : string)
| ZoneFile (mtime : option Z) (json : option (list (string * value))).

Definition read_logger (logging : ZoneLogging) (e : string * value) : res ZoneLogging :=
  let '(logger, v) := e in
  if decide (logger = "stathat") then b ← ToBool v; Ret (mkLogging b (StatHatAPI logging))
  else if decide (logger = "stathat_api") then s ← ToString v; Ret (mkLogging true s)
  else Ret logging.

Definition set_Logging (z : Zone) (l : ZoneLogging) : Zone :=
  mkZone (z_Origin z) (z_Labels z) (z_LabelCount z) (z_Options z) (Some l) (z_Metrics z)
    (z_HasClosest z) (z_ParseIP z).
Definition set_ParseIP (z : Zone) (b : bool) : Zone :=
  mkZone (z_Origin z) (z_Labels z) (z_LabelCount z) (z_Options z) (z_Logging z) (z_Metrics z)
    (z_HasClosest z) b.

(** One top-level entry; [inl] is the early return with an error. *)
Definition read_option (st : Zone * list (string * value)) (e : string * value) :
    res (string + Zone * list (string * value)) :=
  let '(zone, data) := st in
  let '(k, v) := e in
  let o := z_Options zone in
  if decide (k = "ttl") then
    n ← ToInt v;
    Ret (inr (set_Options zone (mkOptions (o_Serial o) n (o_MaxHosts o) (o_Contact o)
      (o_Targeting o) (o_Closest o)), data))
  else if decide (k = "serial") then
    n ← ToInt v;
    Ret (inr (set_Options zone (mkOptions n (o_Ttl o) (o_MaxHosts o) (o_Contact o)
      (o_Targeting o) (o_Closest o)), data))
  else if decide (k = "contact") then
    s ← as_string v;
    Ret (inr (set_Options zone (mkOptions (o_Serial o) (o_Ttl o) (o_MaxHosts o) s
      (o_Targeting o) (o_Closest o)), data))
  else if decide (k = "max_hosts") then
    n ← ToInt v;
    Ret (inr (set_Options zone (mkOptions (o_Serial o) (o_Ttl o) n (o_Contact o)
      (o_Targeting o) (o_Closest o)), data))
  else if decide (k = "closest") then
    b ← as_bool v;
    let zone := set_Options zone (mkOptions (o_Serial o) (o_Ttl o) (o_MaxHosts o) (o_Contact o)
      (o_Targeting o) b) in
    Ret (inr (if (b : bool) then set_HasClosest zone true else zone, data))
  else if decide (k = "targeting") then
    s ← as_string v;
    let '(t, err) := ParseTargets s in
    match err with
    | Some err => Ret (inl ("parsing targeting '" +:+ s +:+ "': " +:+ err))
    | None =>
        Ret (inr (set_Options zone (mkOptions (o_Serial o) (o_Ttl o) (o_MaxHosts o) (o_Contact o)
          t (o_Closest o)), data))
    end
  else if decide (k = "logging") then
    l ← as_obj v;
    logging ← foldM read_logger (mkLogging false "") l;
    Ret (inr (set_Logging zone logging, data))
  else if decide (k = "data") then
    d ← as_obj v;
    Ret (inr (zone, d))
  else if decide (k = "parseIP") then
    b ← as_bool v;
    Ret (inr (set_ParseIP zone b, data))
  else Ret (inr (zone, data)).

Fixpoint read_options (st : Zone * list (string * value)) (objmap : list (string * value)) :
    res (string + Zone * list (string * value)) :=
  match objmap with
  | [] => Ret (inr st)
  | e :: objmap =>
      r ← read_option st e;
      match r with
      | inl err => Ret (inl err)
      | inr st => read_options st objmap
      end
  end.

(** From the options on; the provider's [Has...] methods only decide about
    log lines. *)
Definition load_object (g : option Provider) (zone : Zone) (objmap : list (string * value)) :
    res (string + Zone) :=
  r ← read_options (zone, []) objmap;
  match r with
  | inl err => Ret (inl err)
  | inr (zone, data) =>
      zone ← setupZoneData data zone;
      if (o_Targeting (z_Options zone) =? 0) && negb (z_HasClosest zone) then Ret (inr zone)
      else
        match g with
        | None => Ret (inr zone)
        | Some _ =>
            if z_HasClosest zone then zone ← SetLocations zone g; Ret (inr zone)
            else Ret (inr zone)
        end
  end.

(** [ReadZoneFile]: the error result, or the zone that was read.  The deferred
    function turns every panic into an error. *)
Definition ReadZoneFile (g : option Provider) (zone : Zone) (file : zone_file) : string + Zone :=
  let failed msg := "reading " +:+ z_Origin zone +:+ " failed: " +:+ msg in
  match file with
  | OpenError msg => inl (failed msg)
  | ZoneFile mtime json =>
      let zone :=
        match mtime with
        | Some t =>
            let o := z_Options zone in
            set_Options zone (mkOptions t (o_Ttl o) (o_MaxHosts o) (o_Contact o) (o_Targeting o)
              (o_Closest o))
        | None => zone
        end in
      match json with
      | None => inl "error parsing JSON object in config file"
      | Some objmap =>
          match load_object g zone objmap with
          | Ret r => r
          | Panic msg => inl (failed msg)
          | OutOfFuel => inl (failed "")
          end
      end
  end.
End reader.

(** ** The invariant of the loaded zone *)

(** The type of the data of a record. *)
Definition data_type (d : RData) : Z :=
  match d with
  | RD_A _ => TypeA
  | RD_AAAA _ => TypeAAAA
  | RD_PTR _ => TypePTR
  | RD_MX _ _ => TypeMX
  | RD_SRV _ _ _ _ => TypeSRV
  | RD_CNAME _ => TypeCNAME
  | RD_MF _ => TypeMF
  | RD_NS _ => TypeNS
  | RD_TXT _ => TypeTXT
  | RD_SPF _ => TypeSPF
  | RD_SOA _ _ _ _ _ _ _ => TypeSOA
  | RD_OPT _ => TypeOPT
  end.

(** A record of type [t], in its header and in its data. *)
Definition typed (t : Z) (rr : RR) : Prop :=
  h_Rrtype (rr_Hdr rr) = t ∧ h_Class (rr_Hdr rr) = ClassINET ∧ data_type (rr_Data rr) = t.

Definition slot_typed (t : Z) (s : option Record_) : Prop := ∀ r, s = Some r → typed t (rec_RR r).

(** The lists hold records of their type, and of the types a file can have
    (the SOA is not there yet). *)
Definition label_typed (l : Label) : Prop :=
  ∀ t rs, l_Records l !! t = Some rs →
    (∃ k, recordTypes !! k = Some t) ∧ Forall (slot_typed t) rs.

(** The weight of each type is the sum of its records' weights, wrapped to
    64 bits. *)
Definition label_weights (l : Label) : Prop :=
  (∀ t, map_get 0 (l_Weight l) t = wrap64 (total (default [] (l_Records l !! t)))) ∧
  label_typed l.

(** What the pass over the labels establishes for a type. *)
Definition type_done (l : Label) (t : Z) : Prop :=
  ∀ rs, l_Records l !! t = Some rs → no_nil_records rs ∧
    (t ∈ alwaysWeighted → 0 < len rs ≤ max_int → map_get 0 (l_Weight l) t ≠ 0).

(** The decoded object of each label has every key once, as Go maps do. *)
Definition data_ok (data : list (string * value)) : Prop :=
  Forall (λ e, ∀ dv, e.2 = VObj dv → NoDup dv.*1) data.

Lemma map_get_insert {V} `{Countable K} (d v : V) (m : gmap K V) k k' :
  map_get d (<[k := v]> m) k' = if decide (k = k') then v else map_get d m k'.
Proof. unfold map_get. rewrite lookup_insert. by case_decide. Qed.

Lemma wrap64_idemp_l a b : wrap64 (wrap64 a + b) = wrap64 (a + b).
Proof.
  unfold wrap64. f_equal.
  replace ((a + 2 ^ 63) `mod` 2 ^ 64 - 2 ^ 63 + b + 2 ^ 63)
    with ((a + 2 ^ 63) `mod` 2 ^ 64 + b) by lia.
  rewrite Zplus_mod_idemp_l. f_equal. lia.
Qed.

Lemma total_app rs rs' : total (rs ++ rs') = total rs + total rs'.
Proof. unfold total. by rewrite fmap_app, sumZ_app. Qed.

Lemma recordTypes_inj k k' t :
  recordTypes !! k = Some t → recordTypes !! k' = Some t → k = k'.
Proof.
  intros Hk Hk'. unfold recordTypes in *.
  apply elem_of_list_to_map_2 in Hk. apply elem_of_list_to_map_2 in Hk'.
  rewrite !elem_of_cons, elem_of_nil in Hk, Hk'.
  destruct_or! Hk; try done; injection Hk as -> ->; destruct_or! Hk'; try done;
    by injection Hk' as ->.
Qed.

Lemma recordTypes_not_SOA k : recordTypes !! k ≠ Some TypeSOA.
Proof.
  intros Hk. unfold recordTypes in Hk. apply elem_of_list_to_map_2 in Hk.
  rewrite !elem_of_cons, elem_of_nil in Hk. by destruct_or! Hk.
Qed.

Lemma label_typed_no_SOA l : label_typed l → l_Records l !! TypeSOA = None.
Proof.
  intros Hl. destruct (l_Records l !! TypeSOA) as [rs|] eqn:E; [|done].
  destruct (Hl _ _ E) as [[k Hk] _]. by apply recordTypes_not_SOA in Hk.
Qed.

Section invariant.
Context `{GoFormat} `{GoArch} `{GoSort} `{GoRange} `{RRParser}.

(** Every branch of the reader makes a record of the type it is asked for. *)
Lemma make_record_typed zone label dk t rec s :
  make_record zone label dk t rec = Ret s → slot_typed t s.
Proof.
  assert (Hmk : ∀ d w test, data_type d = t →
    slot_typed t (Some (mkRecord (mkRR (header zone label t) d) w None test))).
  { intros d w test Hd r [= <-]. by split_and!. }
  unfold make_record. intros Hr.
  destruct (_ || _ || _) eqn:Ea.
  { unfold address_record in Hr. apply bind_Ret in Hr as ([[ip weight] test] & _ & Hr).
    destruct (Z.eqb_spec t TypePTR) as [->|_]; [injection Hr as <-; by apply Hmk|].
    rewrite orb_false_r in Ea. destruct (Z.eqb_spec t TypeA) as [->|_].
    - case_match; [done|]. injection Hr as <-. by apply Hmk.
    - apply Z.eqb_eq in Ea as ->. case_match; [done|]. injection Hr as <-. by apply Hmk. }
  clear Ea. revert Hr. repeat lazymatch goal with
  | |- context [t =? ?k] => destruct (Z.eqb_spec t k) as [->|_]
  end; [..|done]; unfold mx_record, srv_record, cname_record, mf_record, ns_record, text_record;
    intros Hr;
    repeat (let x := fresh "x" in apply bind_Ret in Hr as (x & _ & Hr));
    repeat match goal with x : (_ * _)%type |- _ => destruct x end;
    try (case_match; [|by injection Hr as <-]); injection Hr as <-; by apply Hmk.
Qed.

Lemma sort_records_perm rs rs' : sort_records rs = Ret rs' → rs' ≡ₚ rs.
Proof.
  unfold sort_records. destruct (1 <? len rs); [|by intros [= <-]]. intros Hr. res_inv.
  rewrite go_sort_perm. apply mapM_res_Forall2 in Hr0.
  assert (Some <$> r = rs) as ->; [|done].
  induction Hr0 as [|s x rs r Hd Hr0 IH]; [done|]. destruct s; [|done]. cbn in Hd. res_inv.
  rewrite fmap_cons. by f_equal.
Qed.

(** The loop over the records of one type. *)
Lemma setup_type_loop zone dk t recs label rs label' rs' :
  foldM (λ '(label, rs) rec,
    record ← make_record zone label dk t rec;
    let label := match record with
      | Some r => add_Weight label t (rec_Weight r)
      | None => label
      end in
    Ret (label, rs ++ [record])) (label, rs) recs = Ret (label', rs') →
  map_get 0 (l_Weight label) t = wrap64 (total rs) → Forall (slot_typed t) rs →
  map_get 0 (l_Weight label') t = wrap64 (total rs') ∧ l_Records label' = l_Records label ∧
  Forall (slot_typed t) rs' ∧
  ∀ t', t' ≠ t → map_get 0 (l_Weight label') t' = map_get 0 (l_Weight label) t'.
Proof.
  revert label rs. induction recs as [|rec recs IH]; intros label rs; cbn [foldM].
  { intros [= <- <-]. done. }
  intros Hr Hw Htyped. apply bind_Ret in Hr as ([l1 rs1] & Hr & Hk).
  apply bind_Ret in Hr as (record & Hmk & Hr). injection Hr as <- <-.
  apply make_record_typed in Hmk.
  assert (Htyped' : Forall (slot_typed t) (rs ++ [record])).
  { apply Forall_app. split; [done|]. by constructor. }
  destruct record as [r|].
  - apply IH in Hk as (H1' & H2' & Hty & H3'); [| |done].
    + split_and!; [done|by rewrite H2'|done|]. intros t' Ht. rewrite H3' by done.
      unfold add_Weight, set_Weight. cbn. rewrite map_get_insert. by rewrite decide_False.
    + unfold add_Weight, set_Weight. cbn. rewrite map_get_insert, decide_True by done.
      rewrite Hw, wrap64_idemp_l, total_app. cbn. f_equal. unfold total. cbn. lia.
  - apply IH in Hk as (H1' & H2' & Hty & H3'); [by split_and!| |done].
    rewrite Hw, total_app. f_equal. unfold total. cbn. lia.
Qed.

Lemma setup_type_weights zone label dk t recs label' :
  setup_type zone label dk t recs = Ret label' → label_weights label →
  l_Records label !! t = None → (∃ k, recordTypes !! k = Some t) →
  label_weights label' ∧ ∀ t', t' ≠ t → l_Records label' !! t' = l_Records label !! t'.
Proof.
  intros Hs [Hw Hsoa] Ht Hne. unfold setup_type in Hs.
  apply bind_Ret in Hs as ([l1 rs1] & Hloop & Hs). res_inv.
  apply setup_type_loop in Hloop as (H1' & H2' & Hty & H3'); [|by rewrite Hw, Ht|done].
  assert (Hp : r ≡ₚ rs1) by (case_match; [by apply sort_records_perm|by res_inv]).
  cbn. rewrite H2'. split; [split|].
  - intros t'. cbn. rewrite lookup_insert. case_decide as Hd.
    + subst t'. cbn. rewrite H1'. unfold total. by rewrite Hp.
    + rewrite H3' by done. apply Hw.
  - intros t' rs'. cbn. intros [[<- <-]|[_ Hl]]%lookup_insert_Some; [|by apply Hsoa].
    split; [done|]. by rewrite Hp.
  - intros t' Ht'. by rewrite lookup_insert_ne.
Qed.

Lemma label_weights_same l l' :
  l_Records l' = l_Records l → l_Weight l' = l_Weight l → label_weights l → label_weights l'.
Proof. unfold label_weights, label_typed. by intros -> ->. Qed.

Lemma addHealthReference_same l v l' :
  addHealthReference l v = Ret l' → l_Records l' = l_Records l ∧ l_Weight l' = l_Weight l.
Proof.
  unfold addHealthReference. intros Hr. destruct v; res_inv; try done. by case_match; res_inv.
Qed.

Lemma setup_entry_weights dk zone label e zone' label' :
  setup_entry dk (zone, label) e = Ret (zone', label') → label_weights label →
  (∀ t, recordTypes !! e.1 = Some t → l_Records label !! t = None) →
  label_weights label' ∧ z_Labels zone' = z_Labels zone ∧
  ∀ t, recordTypes !! e.1 ≠ Some t → l_Records label' !! t = l_Records label !! t.
Proof.
  destruct e as [rType rdata]. cbn [fst]. unfold setup_entry. intros Hs Hw Hfresh.
  assert (Hsame : z_Labels zone' = z_Labels zone → l_Records label' = l_Records label →
    l_Weight label' = l_Weight label → label_weights label' ∧ z_Labels zone' = z_Labels zone ∧
    ∀ t, recordTypes !! rType ≠ Some t → l_Records label' !! t = l_Records label !! t).
  { intros Hz Hl Hlw. split_and!; [by eapply label_weights_same|done|]. by rewrite Hl. }
  destruct (decide (rType = "max_hosts")).
  { apply bind_Ret in Hs as (x & _ & Hs). injection Hs as <- <-. by apply Hsame. }
  destruct (decide (rType = "closest")).
  { apply bind_Ret in Hs as (x & _ & Hs). injection Hs as <- <-. apply Hsame; [by case_match|done..]. }
  destruct (decide (rType = "ttl")).
  { apply bind_Ret in Hs as (x & _ & Hs). injection Hs as <- <-. by apply Hsame. }
  destruct (decide (rType = "health")).
  { apply bind_Ret in Hs as (l1 & H1' & Hs). injection Hs as <- <-.
    apply addHealthReference_same in H1' as [? ?]. by apply Hsame. }
  destruct (recordTypes !! rType) as [t|] eqn:Et; [|by injection Hs as <- <-; apply Hsame].
  assert (Hty : ∀ recs, (label1 ← setup_type zone label dk t recs; Ret (zone, label1)) =
      Ret (zone', label') → label_weights label' ∧ z_Labels zone' = z_Labels zone ∧
      ∀ t', Some t ≠ Some t' → l_Records label' !! t' = l_Records label !! t').
  { intros recs Hr. apply bind_Ret in Hr as (l1 & H1' & Hr). injection Hr as <- <-.
    apply setup_type_weights in H1' as [? Hother]; [|done|by apply Hfresh|].
    - split_and!; [done..|]. intros t' Hne. apply Hother. congruence.
    - by exists rType. }
  destruct rdata; try (apply bind_Ret in Hs as (recs & _ & Hs); by apply Hty in Hs).
  injection Hs as <- <-. split_and!; done.
Qed.

Lemma setup_entries_weights dk dv zone label zone' label' :
  foldM (setup_entry dk) (zone, label) dv = Ret (zone', label') →
  NoDup dv.*1 → label_weights label →
  (∀ k t, k ∈ dv.*1 → recordTypes !! k = Some t → l_Records label !! t = None) →
  label_weights label' ∧ z_Labels zone' = z_Labels zone.
Proof.
  revert zone label. induction dv as [|e dv IH]; intros zone label; cbn [foldM].
  { by intros [= <- <-]. }
  intros Hr Hnd Hw Hfresh. apply bind_Ret in Hr as ([z1 l1] & Hs & Hr).
  cbn [fmap list_fmap] in Hnd, Hfresh. apply NoDup_cons in Hnd as [Hnin Hnd].
  apply setup_entry_weights in Hs as (Hw1 & Hz1 & Hother); [|done|].
  2: { intros t. apply Hfresh. left. }
  apply IH in Hr as [? ?]; [split; [done|congruence]|done|done|].
  intros k t Hk Ht. rewrite Hother; [eapply Hfresh; [by right|done]|].
  intros He. apply Hnin. by rewrite (recordTypes_inj e.1 k t).
Qed.

Definition zone_inv (P : Label → Prop) (z : Zone) : Prop :=
  ∀ k l, z_Labels z !! k = Some l → P l.

Lemma zone_inv_insert P z k l :
  zone_inv P z → P l → zone_inv P (set_Labels z (<[k := l]> (z_Labels z))).
Proof. intros Hz Hl k' l'. cbn. intros [[_ <-]|[_ ?]]%lookup_insert_Some; [done|by eapply Hz]. Qed.

Lemma new_label_weights k mh c : label_weights (mkLabel k mh 0 ∅ ∅ c None).
Proof. split; [done|]. by intros t rs. Qed.

Lemma setup_labels_weights data zone zone' :
  foldM setup_label zone data = Ret zone' → data_ok data →
  zone_inv label_weights zone → zone_inv label_weights zone'.
Proof.
  intros Hr Hd Hz. revert Hr. apply (foldM_invariant _ (zone_inv label_weights)); [done|].
  intros z1 [dk dv] z2 Hin Hz1 Hs. unfold setup_label in Hs.
  apply bind_Ret in Hs as (dv' & Hdv & Hs). destruct dv as [| | | | | |dv]; try done.
  injection Hdv as <-.
  apply bind_Ret in Hs as (l0 & Hl0 & Hs). apply bind_Ret in Hs as ([z3 l3] & Hloop & Hs).
  injection Hs as <-. unfold data_ok in Hd. rewrite Forall_forall in Hd.
  specialize (Hd _ Hin _ eq_refl). rewrite lookup_AddLabel in Hl0. injection Hl0 as <-.
  apply setup_entries_weights in Hloop as [Hl3 Hz3]; [|done|apply new_label_weights|done].
  apply zone_inv_insert; [|done]. intros k l. rewrite Hz3.
  unfold AddLabel, set_Labels. cbn.
  intros [[_ <-]|[_ Hl]]%lookup_insert_Some; [apply new_label_weights|by eapply Hz1].
Qed.

(** *** The pass over the labels *)

Definition label_done (l : Label) : Prop := ∀ t, type_done l t.

Lemma add_ones l t (rs : Records) w :
  map_get 0 (l_Weight l) t = wrap64 w →
  let l' := foldl (λ l _, add_Weight l t 1) l rs in
  map_get 0 (l_Weight l') t = wrap64 (w + len rs) ∧ l_Records l' = l_Records l ∧
  ∀ t', t' ≠ t → map_get 0 (l_Weight l') t' = map_get 0 (l_Weight l) t'.
Proof.
  revert l w. induction rs as [|r rs IH]; intros l w Hw l'.
  { unfold l', len. cbn. by rewrite Z.add_0_r. }
  destruct (IH (add_Weight l t 1) (w + 1)) as (H1' & H2' & H3').
  { unfold add_Weight, set_Weight. cbn. rewrite map_get_insert, decide_True by done.
    by rewrite Hw, wrap64_idemp_l. }
  unfold l'. cbn [foldl]. rewrite H1', H2'. split_and!; [f_equal; unfold len; cbn; lia|done|].
  intros t' Ht'. rewrite H3' by done. unfold add_Weight, set_Weight. cbn.
  by rewrite map_get_insert, decide_False.
Qed.

Lemma finish_records_spec zone l setWeight rs rs' :
  mapM_res (finish_record zone l setWeight) rs = Ret rs' →
  no_nil_records rs' ∧ len rs' = len rs ∧
  (∀ t, Forall (slot_typed t) rs → Forall (slot_typed t) rs') ∧
  total rs' = if setWeight then len rs else total rs.
Proof.
  intros Hr%mapM_res_Forall2. induction Hr as [|r r' rs rs' Hd Hr IH].
  { split_and!; [constructor|done|done|by destruct setWeight]. }
  destruct IH as (IH1 & IH2 & IHt & IH3). destruct r as [r|]; [|done].
  unfold finish_record in Hd. cbn in Hd. injection Hd as <-.
  split_and!; [by constructor|unfold len in *; cbn; lia| |].
  { intros t [Ht Hrest]%Forall_cons. constructor; [|by apply IHt].
    intros r' [= <-]. unfold typed. cbn. destruct (Ht r eq_refl) as (? & ? & ?). unfold set_ttl.
    by destruct (h_Ttl _ =? 0). }
  assert (∀ x k, total (Some x :: k) = rec_Weight x + total k) as Htot by done.
  rewrite !Htot, IH3. destruct setWeight; cbn; [unfold len; cbn; lia|done].
Qed.

Lemma finish_type_spec zone l t rs l' :
  finish_type zone l t rs = Ret l' → label_weights l → l_Records l !! t = Some rs →
  label_weights l' ∧ type_done l' t ∧
  ∀ t', t' ≠ t → l_Records l' !! t' = l_Records l !! t' ∧
    map_get 0 (l_Weight l') t' = map_get 0 (l_Weight l) t'.
Proof.
  intros Hf [Hw Hsoa] Ht. unfold finish_type in Hf. apply bind_Ret in Hf as (rs' & Hrs & Hf).
  injection Hf as <-. apply finish_records_spec in Hrs as (Hnil & Hlen & Hty & Htot).
  set (l1 := if needs_weight l t then _ else l).
  assert (Hl1 : map_get 0 (l_Weight l1) t = wrap64 (total rs') ∧ l_Records l1 = l_Records l ∧
    (∀ t', t' ≠ t → map_get 0 (l_Weight l1) t' = map_get 0 (l_Weight l) t')).
  { unfold l1. destruct (needs_weight l t) eqn:En.
    - unfold needs_weight in En. split_bools. rewrite Htot. apply (add_ones l t rs 0). done.
    - rewrite Htot. split_and!; [|done..]. rewrite Hw, Ht. done. }
  destruct Hl1 as (Hw1 & Hr1 & Ho1). split_and!.
  - split; cbn; rewrite Hr1.
    + intros t'. rewrite lookup_insert. case_decide as Hd; [by subst|].
      rewrite Ho1 by done. apply Hw.
    + intros t' rs1. cbn. intros [[<- <-]|[_ Hl]]%lookup_insert_Some; [|by apply Hsoa].
      destruct (Hsoa t rs Ht) as [? ?]. by split; [|apply Hty].
  - intros rs0. cbn. rewrite Hr1, lookup_insert_eq. intros [= <-]. split; [done|].
    intros Haw Hl. destruct (needs_weight l t) eqn:En.
    + rewrite Hw1, Htot, <-Hlen. rewrite wrap64_id; [lia|].
      unfold int_range, min_int, max_int in *. lia.
    + unfold l1. unfold needs_weight in En.
      rewrite bool_decide_true in En by done. cbn [andb] in En. by split_bools.
  - intros t' Ht'. cbn. rewrite Hr1, lookup_insert_ne by done. by rewrite Ho1.
Qed.

Lemma finish_types_spec zone es l l' :
  foldM (λ l' e, finish_type zone l' e.1 e.2) l es = Ret l' →
  NoDup es.*1 → label_weights l → (∀ e, e ∈ es → l_Records l !! e.1 = Some e.2) →
  label_weights l' ∧ (∀ t, t ∈ es.*1 → type_done l' t) ∧
  ∀ t, t ∉ es.*1 → l_Records l' !! t = l_Records l !! t ∧
    map_get 0 (l_Weight l') t = map_get 0 (l_Weight l) t.
Proof.
  revert l. induction es as [|[t rs] es IH]; intros l; cbn [foldM].
  { intros [= <-] _ Hw _. split_and!; [done|set_solver|done]. }
  intros Hr Hnd Hw Hin. apply bind_Ret in Hr as (l1 & Hs & Hr).
  cbn [fmap list_fmap fst] in *. apply NoDup_cons in Hnd as [Hnin Hnd].
  apply finish_type_spec in Hs as (Hw1 & Hd1 & Ho1); [|done|by apply (Hin (t, rs)); left].
  apply IH in Hr as (Hw' & Hd' & Ho'); [|done|done|].
  - split_and!; [done| |].
    + intros t' [->|Ht']%elem_of_cons; [|by apply Hd'].
      destruct (Ho' t Hnin) as [E1 E2]. intros rs0. rewrite E1, E2. apply Hd1.
    + intros t' [Hne Ht']%not_elem_of_cons. destruct (Ho' t' Ht') as [-> ->]. by apply Ho1.
  - intros e He. assert (e.1 ≠ t) as Hne.
    { intros E. apply Hnin. rewrite <-E. by apply list_elem_of_fmap_2. }
    destruct (Ho1 e.1 Hne) as [-> _]. apply Hin. by right.
Qed.

(** Adding the missing parents leaves the labels and adds empty ones. *)
Lemma add_parents_lookup zone k k' l :
  z_Labels (add_parents zone k) !! k' = Some l →
  z_Labels zone !! k' = Some l ∨ l_Records l = ∅ ∧ l_Weight l = ∅.
Proof.
  unfold add_parents. case_match; [|by left]. revert zone.
  induction (parents (Split k ".")) as [|n ns IH]; intros zone; cbn [foldl]; [by left|].
  intros [Hl|?]%IH; [|by right]. unfold add_missing in Hl.
  destruct (z_Labels zone !! n); [by left|]. unfold AddLabel, set_Labels in Hl. cbn in Hl.
  apply lookup_insert_Some in Hl as [[_ <-]|[_ Hl]]; [by right|by left].
Qed.

Lemma empty_label_ok l : l_Records l = ∅ → l_Weight l = ∅ → label_weights l ∧ label_done l.
Proof.
  unfold label_weights, label_typed, label_done, type_done. intros -> ->.
  split; [split|]; [done|by intros t rs|by intros t rs].
Qed.

Lemma finish_label_step zone k ks zone' :
  finish_label zone k = Ret zone' →
  (∀ k' l, z_Labels zone !! k' = Some l → label_weights l ∧ (label_done l ∨ k' ∈ k :: ks)) →
  ∀ k' l, z_Labels zone' !! k' = Some l → label_weights l ∧ (label_done l ∨ k' ∈ ks).
Proof.
  intros Hf Hinv. unfold finish_label in Hf.
  assert (Hinv1 : ∀ k' l, z_Labels (add_parents zone k) !! k' = Some l →
    label_weights l ∧ (label_done l ∨ k' ∈ k :: ks)).
  { intros k' l [Hl|[? ?]]%add_parents_lookup; [by apply Hinv|].
    destruct (empty_label_ok l) as [? ?]; [done..|]. by split; [|left]. }
  apply bind_Ret in Hf as (l & Hl & Hf). apply bind_Ret in Hf as (l' & Hloop & Hf).
  injection Hf as <-. destruct (z_Labels (add_parents zone k) !! k) as [l0|] eqn:El; [|done].
  injection Hl as <-. destruct (Hinv1 k l0 El) as [Hw _].
  apply finish_types_spec in Hloop as (Hw' & Hd' & Ho'); [|apply NoDup_go_range|done|].
  2: { intros [t rs] Hin. by apply elem_of_go_range. }
  intros k' l'' Hl''. cbn in Hl''. apply lookup_insert_Some in Hl'' as [[_ <-]|[Hne Hl'']].
  - split; [done|]. left. intros t. destruct (decide (t ∈ (go_range (l_Records l0)).*1)) as [|Hnin];
      [by apply Hd'|]. intros rs. destruct (Ho' t Hnin) as [-> _]. intros Hrs.
    exfalso. apply Hnin. apply list_elem_of_fmap. exists (t, rs). by rewrite elem_of_go_range.
  - destruct (Hinv1 k' l'' Hl'') as [? [?|[->|?]%elem_of_cons]]; [by split; [|left]|done|].
    by split; [|right].
Qed.

Lemma finish_labels_spec zone zone' :
  finish_labels zone = Ret zone' → zone_inv label_weights zone →
  zone_inv (λ l, label_weights l ∧ label_done l) zone'.
Proof.
  intros Hf Hw. unfold finish_labels in Hf.
  assert (Hgen : ∀ ks zone, foldM finish_label zone ks = Ret zone' →
    (∀ k l, z_Labels zone !! k = Some l → label_weights l ∧ (label_done l ∨ k ∈ ks)) →
    zone_inv (λ l, label_weights l ∧ label_done l) zone').
  { clear. intros ks. induction ks as [|k ks IH]; intros zone; cbn [foldM].
    - intros [= <-] Hinv k l Hl. destruct (Hinv k l Hl) as [? [?|?%elem_of_nil]]; done.
    - intros Hr Hinv. apply bind_Ret in Hr as (z1 & Hs & Hr). apply (IH z1 Hr).
      by eapply finish_label_step. }
  apply (Hgen _ _ Hf). intros k l Hl. split; [by eapply Hw|]. right.
  apply list_elem_of_fmap. exists (k, l). by rewrite elem_of_go_range.
Qed.
End invariant.

(** ** Parents of a name *)

Definition dot_parents (k : string) : list string := parents (Split k "."%char).

(** A name all of whose parents are labels of the zone. *)
Definition has_parents (z : Zone) (k : string) : Prop :=
  ∀ p, p ∈ dot_parents k → is_Some (z_Labels z !! p).

Lemma elem_of_parents p ws :
  p ∈ parents ws ↔ ∃ pre post, ws = pre ++ post ∧ pre ≠ [] ∧ post ≠ [] ∧ p = Join post ".".
Proof.
  induction ws as [|w ws IH]; cbn [parents].
  { rewrite elem_of_nil. split; [done|]. intros (pre & post & E & Hpre & _). by destruct pre. }
  destruct ws as [|w' ws].
  { rewrite elem_of_nil. split; [done|].
    intros ([|x [|y pre]] & [|z post] & E & ? & ? & _); done || discriminate E. }
  rewrite elem_of_cons, IH. split.
  - intros [->|(pre & post & -> & ? & ? & ->)].
    + exists [w], (w' :: ws). done.
    + exists (w :: pre), post. done.
  - intros (pre & post & E & Hpre & Hpost & ->). destruct pre as [|x pre]; [done|].
    injection E as <- E. destruct pre as [|y pre]; [left; by rewrite E|].
    right. by exists (y :: pre), post.
Qed.

Lemma Join_app_suffix pre post :
  pre ≠ [] → post ≠ [] → ∃ x, Join (pre ++ post) "." = x +:+ Join post ".".
Proof.
  intros Hpre Hpost. induction pre as [|w pre IH]; [done|].
  assert (∀ l, l ≠ [] → Join (w :: l) "." = w +:+ "." +:+ Join l ".") as HJ by (by intros []).
  cbn [app]. rewrite HJ by (by destruct pre, post). destruct pre as [|w' pre].
  - exists (w +:+ "."). by rewrite sapp_assoc.
  - destruct IH as [x Hx]; [done|]. rewrite Hx. exists (w +:+ "." +:+ x). by rewrite !sapp_assoc.
Qed.

Lemma lower_suffix x y : ToLower (x +:+ y) = x +:+ y → ToLower y = y.
Proof.
  induction x as [|a x IH]; [by rewrite !sapp_nil_l|]. rewrite !sapp_cons. cbn.
  intros [= _ E]. by apply IH.
Qed.

Lemma dot_parent_lower k p : p ∈ dot_parents k → ToLower k = k → ToLower p = p.
Proof.
  intros (pre & post & E & Hpre & Hpost & ->)%elem_of_parents Hk.
  destruct (Join_app_suffix pre post Hpre Hpost) as [x Hx].
  rewrite <-E in Hx. change "." with (String "." EmptyString) in Hx at 1.
  rewrite Join_Split in Hx. apply (lower_suffix x). by rewrite <-Hx.
Qed.

Lemma dot_parents_trans k p q : p ∈ dot_parents k → q ∈ dot_parents p → q ∈ dot_parents k.
Proof.
  intros (pre & post & E & Hpre & Hpost & ->)%elem_of_parents Hq.
  unfold dot_parents in Hq. change "." with (String "." EmptyString) in Hq.
  pose proof (Split_no_sep_words k "."%char) as Hws. rewrite E in Hws.
  apply Forall_app in Hws as [_ Hws]. rewrite Split_Join in Hq by done.
  apply elem_of_parents in Hq as (pre' & post' & -> & ? & ? & ->).
  apply elem_of_parents. exists (pre ++ pre'), post'. rewrite <-app_assoc.
  split_and!; [done|by destruct pre|done|done].
Qed.

Lemma add_missing_keys zone n k :
  ToLower n = n →
  is_Some (z_Labels (add_missing zone n) !! k) ↔ is_Some (z_Labels zone !! k) ∨ k = n.
Proof.
  intros Hn. unfold add_missing. destruct (z_Labels zone !! n) as [l|] eqn:E.
  - split; [by left|]. intros [?| ->]; [done|]. by eexists.
  - unfold AddLabel, set_Labels. cbn. rewrite Hn, lookup_insert_is_Some'. intuition congruence.
Qed.

Lemma add_parents_keys zone k k' :
  ToLower k = k →
  is_Some (z_Labels (add_parents zone k) !! k') ↔
    is_Some (z_Labels zone !! k') ∨ k' ∈ dot_parents k.
Proof.
  intros Hk. unfold add_parents, dot_parents. destruct (ContainsByte k ".") eqn:Ec.
  - assert (Hlow : ∀ n, n ∈ parents (Split k ".") → ToLower n = n).
    { intros n Hn. by apply (dot_parent_lower k). }
    revert zone Hlow. induction (parents (Split k ".")) as [|n ns IH]; intros zone Hlow; cbn [foldl].
    + rewrite elem_of_nil. naive_solver.
    + rewrite IH by (intros; apply Hlow; by right).
      rewrite add_missing_keys by (apply Hlow; left). rewrite elem_of_cons. naive_solver.
  - rewrite Split_no_sep by done. cbn. rewrite elem_of_nil. naive_solver.
Qed.

Section closure.
Context `{GoFormat} `{GoArch} `{GoSort} `{GoRange} `{RRParser}.

Definition lower_keys (z : Zone) : Prop :=
  ∀ k, is_Some (z_Labels z !! k) → ToLower k = k.

Lemma setup_entry_labels dk st e st' :
  setup_entry dk st e = Ret st' → z_Labels st'.1 = z_Labels st.1.
Proof.
  destruct st as [z l], e as [rType rdata]. unfold setup_entry. intros Hs.
  repeat (case_decide; [apply bind_Ret in Hs as (x & _ & Hs); injection Hs as <-; cbn;
    by repeat case_match|]).
  case_match; [|by injection Hs as <-].
  destruct rdata; try (by injection Hs as <-);
    apply bind_Ret in Hs as (recs & _ & Hs); apply bind_Ret in Hs as (l' & _ & Hs);
    by injection Hs as <-.
Qed.

Lemma setup_label_keys zone e zone' :
  setup_label zone e = Ret zone' →
  ∀ k, is_Some (z_Labels zone' !! k) ↔ is_Some (z_Labels zone !! k) ∨ k = ToLower e.1.
Proof.
  destruct e as [dk dv]. unfold setup_label. intros Hs k.
  apply bind_Ret in Hs as (dv' & _ & Hs). apply bind_Ret in Hs as (l0 & _ & Hs).
  apply bind_Ret in Hs as ([z3 l3] & Hloop & Hs). injection Hs as <-.
  assert (Hz3 : z_Labels z3 = z_Labels (AddLabel zone dk)).
  { apply (foldM_invariant _ (λ st : Zone * Label, z_Labels st.1 = z_Labels (AddLabel zone dk)))
      in Hloop; [done|done|]. intros st e st' _ <- He. by eapply setup_entry_labels. }
  cbn. rewrite Hz3. unfold AddLabel, set_Labels. cbn.
  rewrite !lookup_insert_is_Some'. intuition congruence.
Qed.

Lemma finish_label_keys zone k zone' :
  finish_label zone k = Ret zone' → ToLower k = k →
  ∀ k', is_Some (z_Labels zone' !! k') ↔ is_Some (z_Labels zone !! k') ∨ k' ∈ dot_parents k.
Proof.
  intros Hf Hk k'. unfold finish_label in Hf.
  apply bind_Ret in Hf as (l & Hl & Hf). apply bind_Ret in Hf as (l' & _ & Hf). injection Hf as <-.
  rewrite <-add_parents_keys by done. cbn. rewrite lookup_insert_is_Some'.
  destruct (z_Labels (add_parents zone k) !! k) eqn:E; [|done]. split; [|by right].
  intros [<-|?]; [by eexists|done].
Qed.

Lemma finish_labels_closed ks zone zone' :
  foldM finish_label zone ks = Ret zone' → lower_keys zone →
  (∀ k, k ∈ ks → is_Some (z_Labels zone !! k)) →
  (∀ k, is_Some (z_Labels zone !! k) → has_parents zone k ∨ k ∈ ks) →
  ∀ k, is_Some (z_Labels zone' !! k) → has_parents zone' k.
Proof.
  revert zone. induction ks as [|k ks IH]; intros zone; cbn [foldM].
  { intros [= <-] _ _ Hinv k Hk. by destruct (Hinv k Hk) as [?|?%elem_of_nil]. }
  intros Hr Hlow Hks Hinv. apply bind_Ret in Hr as (z1 & Hs & Hr).
  assert (Hk : ToLower k = k) by (apply Hlow, Hks; left).
  pose proof (finish_label_keys _ _ _ Hs Hk) as Hkeys. apply (IH z1 Hr).
  - intros k' [?|?]%Hkeys; [by apply Hlow|by eapply dot_parent_lower].
  - intros k' Hk'. apply Hkeys. left. apply Hks. by right.
  - intros k' [Hk'|Hk']%Hkeys.
    + destruct (Hinv k' Hk') as [Hp|[->|?]%elem_of_cons]; [left|left|by right].
      * intros p Hp'. apply Hkeys. left. by apply Hp.
      * intros p Hp'. apply Hkeys. by right.
    + left. intros p Hp. apply Hkeys. right. by eapply dot_parents_trans.
Qed.

Lemma addSOA_keys z z' : addSOA z = Ret z' →
  ∀ k, is_Some (z_Labels z' !! k) ↔ is_Some (z_Labels z !! k) ∨ k = "".
Proof.
  unfold addSOA. intros Hr k. apply bind_Ret in Hr as (l & Hl & Hr).
  apply bind_Ret in Hr as (ns & _ & Hr). destruct (NewRR _); [|done]. injection Hr as <-. cbn.
  destruct (z_Labels z !! "") eqn:E; rewrite !lookup_insert_is_Some'; [intuition congruence|].
  unfold AddLabel, set_Labels. cbn. rewrite lookup_insert_is_Some'. intuition congruence.
Qed.
End closure.

(** ** Properties *)

Section properties.
Context `{GoFormat} `{GoArch} `{GoSort} `{GoRange} `{RRParser}.

Lemma setupZoneData_inv data zone zone' :
  setupZoneData data zone = Ret zone' → z_Labels zone = ∅ → data_ok data →
  ∀ k l t rs, z_Labels zone' !! k = Some l → l_Records l !! t = Some rs →
    no_nil_records rs ∧ map_get 0 (l_Weight l) t = wrap64 (total rs) ∧
    (t ∈ alwaysWeighted → 0 < len rs ≤ max_int → map_get 0 (l_Weight l) t ≠ 0) ∧
    (t = TypeSOA ∨ (∃ key, recordTypes !! key = Some t) ∧ Forall (slot_typed t) rs).
Proof.
  intros Hs Hempty Hd. unfold setupZoneData in Hs.
  apply bind_Ret in Hs as (z1 & H1' & Hs). apply bind_Ret in Hs as (z2 & H2' & Hs).
  apply setup_labels_weights in H1'; [|done|by intros k l; rewrite Hempty].
  apply finish_labels_spec in H2'; [|done]. clear H1' Hempty.
  set (z3 := match z_Labels z2 !! "" with Some _ => z2 | None => AddLabel z2 "" end).
  assert (Hz3 : zone_inv (λ l, label_weights l ∧ label_done l) z3).
  { unfold z3. case_match; [done|]. apply (zone_inv_insert _ z2 ""); [done|].
    by apply empty_label_ok. }
  assert (Hall : ∀ l t rs, label_weights l → label_done l → l_Records l !! t = Some rs →
    no_nil_records rs ∧ map_get 0 (l_Weight l) t = wrap64 (total rs) ∧
    (t ∈ alwaysWeighted → 0 < len rs ≤ max_int → map_get 0 (l_Weight l) t ≠ 0) ∧
    (t = TypeSOA ∨ (∃ key, recordTypes !! key = Some t) ∧ Forall (slot_typed t) rs)).
  { intros l t rs [Hw Hty] Hdone Ht. destruct (Hdone t rs Ht) as [? ?].
    split_and!; [done|by rewrite Hw, Ht|done|right; by apply Hty]. }
  unfold addSOA in Hs. fold z3 in Hs. apply bind_Ret in Hs as (apex & Hapex & Hs).
  apply bind_Ret in Hs as (ns & _ & Hs). destruct (NewRR _) as [rr|]; [|done]. injection Hs as <-.
  intros k l t rs Hl Ht. cbn in Hl. apply lookup_insert_Some in Hl as [[_ <-]|[_ Hl]].
  2: { destruct (Hz3 k l Hl) as [? ?]. by apply Hall. }
  destruct (z_Labels z3 !! "") as [l0|] eqn:E; [|done]. injection Hapex as ->.
  destruct (Hz3 "" apex E) as [Hw Hdone]. cbn in Ht |- *.
  apply lookup_insert_Some in Ht as [[<- <-]|[Hne Ht]]; [|by apply Hall].
  split_and!; [by repeat constructor| | |by left].
  - destruct Hw as [Hw Hsoa%label_typed_no_SOA]. by rewrite Hw, Hsoa.
  - intros Hin. exfalso. revert Hin. by vm_compute.
Qed.

(** C20: when the data of a zone file are set up, no record list has a hole,
    the weight of every type of a label is the sum of the weights of its
    records (wrapped to 64 bits), and the types that are always weighted have
    a weight that is not 0, so that the limit on the answer applies to them,
    also when the file gives all of them weight 0 (the README says that all
    records are returned then; that holds of the other types only);
    and the records of a type, the SOA aside, have this type in their header
    and in their data. *)
Theorem setupZoneData_weights (data : list (string * value)) (zone zone' : Zone) :
  setupZoneData data zone = Ret zone' → z_Labels zone = ∅ → data_ok data →
  ∀ k l t rs, z_Labels zone' !! k = Some l → l_Records l !! t = Some rs →
    no_nil_records rs ∧ map_get 0 (l_Weight l) t = wrap64 (total rs) ∧
    (t ∈ alwaysWeighted → 0 < len rs ≤ max_int → map_get 0 (l_Weight l) t ≠ 0) ∧
    (t = TypeSOA ∨ (∃ key, recordTypes !! key = Some t) ∧ Forall (slot_typed t) rs).
Proof. apply setupZoneData_inv. Qed.

(** C23: in a zone that was set up every name below the origin exists whenever
    a name under it does: the parents of a label are labels, all in lower
    case. *)
Theorem setupZoneData_parents (data : list (string * value)) (zone zone' : Zone) :
  setupZoneData data zone = Ret zone' → z_Labels zone = ∅ →
  ∀ k p, is_Some (z_Labels zone' !! k) → p ∈ dot_parents k → is_Some (z_Labels zone' !! p).
Proof.
  intros Hs Hempty. unfold setupZoneData in Hs.
  apply bind_Ret in Hs as (z1 & H1' & Hs). apply bind_Ret in Hs as (z2 & H2' & Hs).
  assert (Hlow : lower_keys z1).
  { revert H1'. apply (foldM_invariant _ lower_keys).
    - intros k. rewrite Hempty, lookup_empty. by intros [? ?].
    - intros z e z' _ Hz Hr k [?| ->]%(setup_label_keys _ _ _ Hr); [by apply Hz|].
      apply ToLower_idem. }
  pose proof (finish_labels_closed _ _ _ H2' Hlow) as Hclosed.
  intros k p Hk Hp. apply (addSOA_keys _ _ Hs). left.
  apply (addSOA_keys _ _ Hs) in Hk as [Hk| ->]; [|by apply elem_of_nil in Hp].
  apply (Hclosed) with k; [| |done|done].
  - intros k' ([k'' l] & -> & Hin)%list_elem_of_fmap. apply elem_of_go_range in Hin. by eexists.
  - intros k' [l Hl]. right. apply list_elem_of_fmap. exists (k', l). by rewrite elem_of_go_range.
Qed.

(** The picker works on what the reader loads: for a label of a zone that
    was set up, with weights that are not negative and do not overflow, and
    with statuses that can be looked up, [Picker] returns eligible records,
    as many as the limit allows. *)
Theorem loaded_label_picks `{GreatCircle} `{GoRand rng} (data : list (string * value))
    (zone zone' : Zone) (k : string) (l : Label) (t max : Z) (rs : Records)
    (reg : registry) (location : option Location) (g : rng) :
  setupZoneData data zone = Ret zone' → z_Labels zone = ∅ → data_ok data →
  z_Labels zone' !! k = Some l → l_Records l !! t = Some rs → t ≠ TypeANY → 0 ≤ max →
  Forall (λ s, 0 ≤ weight_of s) rs → total rs < max_int → statuses_ok reg rs →
  ∃ result g', Picker reg l t max location g = Ret (Some result, g') ∧
    picks t max (eligible reg l rs) result.
Proof.
  intros Hs Hempty Hd Hl Ht Hany Hmax Hpos Htot Hst.
  destruct (setupZoneData_inv _ _ _ Hs Hempty Hd k l t rs Hl Ht) as (Hnil & Hw & _ & _).
  assert (Hok : weights_ok rs).
  { split; [|done]. apply Forall_and. split; [done|]. done. }
  unfold Picker. rewrite (proj2 (Z.eqb_neq t TypeANY)) by done.
  apply Picker_type_picks; [done|]. split_and!; [done|done| |done].
  rewrite Hw. apply wrap64_id. pose proof (total_nonneg rs (proj1 Hok)).
  unfold int_range, min_int, max_int in *. lia.
Qed.

Lemma add_parents_keeps zone k k' l :
  ToLower k = k → z_Labels zone !! k' = Some l → z_Labels (add_parents zone k) !! k' = Some l.
Proof.
  intros Hk. unfold add_parents. case_match; [|done].
  assert (Hlow : ∀ n, n ∈ parents (Split k ".") → ToLower n = n).
  { intros n Hn. by apply (dot_parent_lower k). }
  revert zone Hlow. induction (parents (Split k ".")) as [|n ns IH]; intros zone Hlow Hl; [done|].
  cbn [foldl]. apply IH; [intros; apply Hlow; by right|]. unfold add_missing.
  destruct (z_Labels zone !! n) eqn:E; [done|]. rewrite lookup_AddLabel_ne; [done|].
  rewrite Hlow by left. congruence.
Qed.

Lemma setup_empty_txt dk zone label :
  map_get 0 (l_Weight label) TypeTXT = 0 →
  setup_entry dk (zone, label) ("txt", VArr [VStr ""]) =
    Ret (zone, set_Records label (<[TypeTXT := [None]]> (l_Records label))).
Proof.
  intros Hw. unfold setup_entry. rewrite !decide_False by done.
  change (recordTypes !! "txt") with (Some TypeTXT).
  cbn [record_list as_arr mbind res_bind]. unfold setup_type. cbn [foldM].
  change (make_record zone label dk TypeTXT (VStr "")) with (@Ret (option Record_) None).
  cbn [mbind res_bind app]. by rewrite Hw.
Qed.

(** A zone file with an empty TXT record cannot be read, although the
    reader means to skip the record: the hole it leaves is dereferenced by
    the pass over the labels. *)
Theorem empty_txt_rejected (g : option Provider) (origin dk : string) (mtime : option Z) :
  ∃ err, ReadZoneFile g (NewZone origin)
    (ZoneFile mtime (Some [("data", VObj [(dk, VObj [("txt", VArr [VStr ""])])])])) = inl err.
Proof.
  unfold ReadZoneFile. set (z := match mtime with Some t => _ | None => _ end).
  assert (Hz : z_Labels z = ∅) by (unfold z; by case_match). clearbody z.
  enough (setupZoneData [(dk, VObj [("txt", VArr [VStr ""])])] z =
    Panic "nil pointer dereference") as E.
  { unfold load_object. cbn [read_options]. unfold read_option.
    rewrite !decide_False by done. rewrite decide_True by done.
    cbn [as_obj mbind res_bind]. rewrite E. by eexists. }
  unfold setupZoneData. cbn [foldM].
  set (l := mkLabel (ToLower dk) (o_MaxHosts (z_Options z)) 0 {[TypeTXT := [None]]} ∅
    (o_Closest (z_Options z)) None).
  assert (setup_label z (dk, VObj [("txt", VArr [VStr ""])]) =
    Ret (set_Labels z {[ToLower dk := l]})) as ->.
  { unfold setup_label. cbn [as_obj mbind res_bind]. rewrite lookup_AddLabel.
    cbn [deref mbind res_bind foldM]. rewrite setup_empty_txt by done. cbn [mbind res_bind].
    unfold AddLabel, set_Labels. cbn. rewrite Hz, insert_insert_eq. done. }
  cbn [mbind res_bind]. unfold finish_labels.
  change (z_Labels (set_Labels z {[ToLower dk := l]})) with ({[ToLower dk := l]} : gmap string Label).
  assert (go_range {[ToLower dk := l]} = [(ToLower dk, l)]) as ->.
  { apply Permutation_singleton_r. rewrite go_range_perm. by rewrite map_to_list_singleton. }
  cbn [fmap list_fmap fst foldM]. unfold finish_label.
  rewrite (add_parents_keeps _ _ _ l); [|apply ToLower_idem|apply lookup_singleton_eq].
  cbn [deref mbind res_bind l_Records l].
  assert (go_range {[TypeTXT := [None : option Record_]]} = [(TypeTXT, [None])]) as ->.
  { apply Permutation_singleton_r. rewrite go_range_perm. by rewrite map_to_list_singleton. }
  done.
Qed.

(** The logging options depend on the visiting order: with "stathat" off
    and a StatHat key given, one order switches StatHat on and the other off. *)
Theorem read_logger_order (key : string) :
  let off := ("stathat", VBool false) in
  let api := ("stathat_api", VStr key) in
  foldM read_logger (mkLogging false "") [off; api] = Ret (mkLogging true key) ∧
  foldM read_logger (mkLogging false "") [api; off] = Ret (mkLogging false key).
Proof. done. Qed.
End properties.

(** ** Examples *)

Definition example_data : list (string * value) :=
  [("", VObj [("ns", VArr [VStr "ns1.example.net"])]);
   ("www.Sub", VObj [("a", VArr [VArr [VStr "192.168.1.2"; VStr "10"];
                                 VArr [VStr "192.168.1.3"; VStr "5"]]);
                     ("max_hosts", VStr "1")])].

(** The parser of the dns library, for SOA records. *)
Definition example_parser : RRParser := @dns_parser ZoneScan_none.

Lemma example_data_ok : data_ok example_data.
Proof.
  repeat constructor; intros dv [= <-]; cbn; repeat constructor; set_solver.
Qed.

Definition GoFormat_blank : GoFormat := λ _, "".

Definition example_loaded_zone : Zone :=
  match @setupZoneData GoFormat_blank arch_amd64 GoSort_merge GoRange_list example_parser
    example_data (NewZone "example.com") with Ret z => z | _ => NewZone "" end.

Lemma example_loaded_ok :
  @setupZoneData GoFormat_blank arch_amd64 GoSort_merge GoRange_list example_parser
    example_data (NewZone "example.com") = Ret example_loaded_zone.
Proof. vm_compute. reflexivity. Qed.

Definition example_www (w d : Z) : option Record_ :=
  Some (mkRecord (mkRR (mkHdr "www.sub.example.com." TypeA ClassINET 120 0)
    (RD_A (IPv4 192 168 1 d))) w None "").

Definition example_www_label : Label :=
  mkLabel "www.sub" 1 0 {[TypeA := [example_www 10 2; example_www 5 3]]} {[TypeA := 15]} false None.

Lemma setupZoneData_weights_witness :
  z_Labels example_loaded_zone !! "www.sub" = Some example_www_label ∧
  map_get 0 (l_Weight example_www_label) TypeA = wrap64 (total [example_www 10 2; example_www 5 3]).
Proof.
  assert (Hl : z_Labels example_loaded_zone !! "www.sub" = Some example_www_label)
    by (vm_compute; reflexivity).
  split; [exact Hl|].
  apply (@setupZoneData_weights GoFormat_blank arch_amd64 GoSort_merge GoRange_list example_parser
    example_data (NewZone "example.com") example_loaded_zone example_loaded_ok eq_refl
    example_data_ok "www.sub" example_www_label TypeA [example_www 10 2; example_www 5 3] Hl).
  reflexivity.
Defined.

Lemma setupZoneData_parents_witness :
  is_Some (z_Labels example_loaded_zone !! "sub").
Proof.
  apply (@setupZoneData_parents GoFormat_blank arch_amd64 GoSort_merge GoRange_list example_parser
    example_data (NewZone "example.com") example_loaded_zone example_loaded_ok eq_refl
    "www.sub" "sub").
  - exists example_www_label. vm_compute. reflexivity.
  - left.
Defined.

Lemma loaded_label_picks_witness :
  let _ := GreatCircle_toy in let _ := GoRand_replay in let _ := GoRange_list in
  ∃ result g', Picker ∅ example_www_label TypeA 1 None [12] = Ret (Some result, g') ∧
    picks TypeA 1 [example_www 10 2; example_www 5 3] result.
Proof.
  intros GC GR RG.
  refine (@loaded_label_picks GoFormat_blank arch_amd64 GoSort_merge GoRange_list example_parser
    GC _ GR
    example_data (NewZone "example.com") example_loaded_zone "www.sub" example_www_label TypeA 1
    [example_www 10 2; example_www 5 3] ∅ None [12] example_loaded_ok eq_refl example_data_ok
    _ eq_refl _ _ _ _ _).
  - vm_compute. reflexivity.
  - done.
  - done.
  - by repeat constructor.
  - by vm_compute.
  - repeat constructor; by eexists.
Defined.
