(* ===== verification/ReaderSpec.v ===== *)
(** * What a zone file means

    The functional specification of the reader (zones/reader.go): for every
    label of the file and every type, the records that are served are those
    the file lists, each with the TTL and the weight it gets by default, and
    no others.  The file is a list of labels, a label a list of entries;
    [entry_for] is the entry of a type, [finished] a record as it is served. *)

From S2P Require Import Prelude GoRuntime GoStrings GoNet Float64 TypeUtil Targeting.
From S2P Require Import DnsNames DnsMsg Health Zones Picker Reader.
Local Open Scope Z_scope.

(** ** Specification *)

(** The entry of a label's object that gives the records of type [t]; an entry
    that is [null] gives none. *)
Fixpoint entry_for (dv : list (string * value)) (t : Z) : option value :=
  match dv with
  | [] => None
  | (k, v) :: dv =>
      if decide (recordTypes !! k = Some t) then match v with VNil => None | _ => Some v end
      else entry_for dv t
  end.

(** A record as it is served: with a TTL, and with the weight 1 when the
    records of its type have no weights and need some. *)
Definition finished (zone : Zone) (l : Label) (setWeight : bool) (r : Record_) : Record_ :=
  mkRecord (set_ttl (rec_RR r) (default_ttl zone l (rec_RR r)))
    (if setWeight then 1 else rec_Weight r) (rec_Loc r) (rec_Test r).

(** The records have no weights and need some. *)
Definition unweighted (t : Z) (made : list Record_) : bool :=
  bool_decide (t ∈ alwaysWeighted) && (wrap64 (sumZ (rec_Weight <$> made)) =? 0).

(** The list [o] is what the entry [v] of the label [l] says for type [t]. *)
Definition serves `{GoFormat} `{GoArch} (zone : Zone) (l : Label) (dk : string) (t : Z) (v : option value)
    (o : option Records) : Prop :=
  match v with
  | None => o = None
  | Some rdata => ∃ recs made rs, record_list rdata = Ret recs ∧
      Forall2 (λ rec r, make_record zone l dk t rec = Ret (Some r)) recs made ∧
      o = Some rs ∧ rs ≡ₚ Some <$> (finished zone l (unweighted t made) <$> made)
  end.

(** The value of an option of the label: the entry [key], converted, or the
    default. *)
Definition option_is {A} (dv : list (string * value)) (key : string) (conv : value → res A)
    (d a : A) : Prop :=
  match obj_get dv key with
  | Some v => conv v = Ret a
  | None => a = d
  end.

(** The reference to a health test in an entry "health". *)
Definition health_entry `{GoFormat} (v : value) : res (option HealthReference) :=
  match v with
  | VObj i => NewReferenceFromMap i
  | _ => Ret None
  end.

(** The options of the label [l] are those of its object [dv]. *)
Definition options_from `{GoFormat} `{GoArch} (zone : Zone) (dv : list (string * value)) (l : Label) : Prop :=
  option_is dv "max_hosts" ToInt (o_MaxHosts (z_Options zone)) (l_MaxHosts l) ∧
  option_is dv "ttl" ToInt 0 (l_Ttl l) ∧
  option_is dv "closest" as_bool (o_Closest (z_Options zone)) (l_Closest l) ∧
  option_is dv "health" health_entry None (l_Test l).

(** ** Lemmas: the records of a label *)

Section spec.
Context `{GoFormat} `{GoArch} `{GoSort} `{GoRange} `{RRParser}.

(** What a record depends on: the origin of the zone and the name of the label. *)
Definition same_names (zone zone' : Zone) (l l' : Label) : Prop :=
  z_Origin zone' = z_Origin zone ∧ l_Label l' = l_Label l.

Lemma make_record_names zone zone' l l' dk t rec :
  same_names zone zone' l l' → make_record zone' l' dk t rec = make_record zone l dk t rec.
Proof. intros [E1 E2]. unfold make_record, header. by rewrite E1, E2. Qed.

(** Like [serves], before the pass over the labels. *)
Definition made_from (zone : Zone) (l : Label) (dk : string) (t : Z) (v : option value)
    (o : option Records) : Prop :=
  match v with
  | None => o = None
  | Some rdata => ∃ recs made rs, record_list rdata = Ret recs ∧
      Forall2 (λ rec m, make_record zone l dk t rec = Ret m) recs made ∧
      o = Some rs ∧ rs ≡ₚ made
  end.

Lemma made_from_names zone zone' l l' dk t v o :
  same_names zone zone' l l' → made_from zone l dk t v o → made_from zone' l' dk t v o.
Proof.
  intros Hn. destruct v as [rdata|]; [|done]. intros (recs & made & rs & Hl & Hm & -> & Hp).
  exists recs, made, rs. split_and!; [done| |done|done].
  eapply Forall2_impl; [exact Hm|]. intros rec m. by rewrite (make_record_names zone zone' l l').
Qed.

(** The fields of a label that neither the entries for records nor the pass
    over the labels change. *)
Definition l_frame (l : Label) : string * Z * Z * bool * option HealthReference :=
  (l_Label l, l_MaxHosts l, l_Ttl l, l_Closest l, l_Test l).

Lemma setup_type_made zone label dk t recs label' :
  setup_type zone label dk t recs = Ret label' →
  l_frame label' = l_frame label ∧
  ∃ made rs, Forall2 (λ rec m, make_record zone label dk t rec = Ret m) recs made ∧ rs ≡ₚ made ∧
    l_Records label' = <[t := rs]> (l_Records label).
Proof.
  unfold setup_type. intros Hs. apply bind_Ret in Hs as ([l1 made] & Hloop & Hs). res_inv.
  assert (Hgen : ∀ recs label0 made0, l_frame label0 = l_frame label → l_Records label0 = l_Records label →
    foldM (λ '(label, rs) rec, record ← make_record zone label dk t rec;
      let label := match record with Some r => add_Weight label t (rec_Weight r) | None => label end in
      Ret (label, rs ++ [record])) (label0, made0) recs = Ret (l1, made) →
    l_frame l1 = l_frame label ∧ l_Records l1 = l_Records label ∧
    ∃ more, made = made0 ++ more ∧ Forall2 (λ rec m, make_record zone label dk t rec = Ret m) recs more).
  { clear. intros recs. induction recs as [|rec recs IH]; intros label0 made0 E1 E2; cbn [foldM].
    - intros [= <- <-]. split_and!; [done..|]. exists []. by rewrite app_nil_r.
    - intros Hr. apply bind_Ret in Hr as ([l2 made2] & Hr & Hk).
      apply bind_Ret in Hr as (m & Hm & Hr). injection Hr as <- <-.
      apply IH in Hk as (? & ? & more & -> & Hmore); [|by destruct m..].
      split_and!; [done..|]. exists (m :: more). rewrite <-app_assoc. split; [done|].
      constructor; [|done]. rewrite <-Hm. apply make_record_names. split; [done|]. by injection E1. }
  apply Hgen in Hloop as (E1 & E2 & more & -> & Hmore); [|done..]. cbn in *. rewrite E2.
  split; [done|]. exists more, r. split_and!; [done| |done].
  case_match; [by apply sort_records_perm|by res_inv].
Qed.

Lemma recordTypes_options :
  recordTypes !! "max_hosts" = None ∧ recordTypes !! "closest" = None ∧
  recordTypes !! "ttl" = None ∧ recordTypes !! "health" = None.
Proof. by vm_compute. Qed.

(** A reference to a health test changes nothing else. *)
Lemma addHealthReference_frame l v l' : addHealthReference l v = Ret l' →
  l_Label l' = l_Label l ∧ l_MaxHosts l' = l_MaxHosts l ∧ l_Ttl l' = l_Ttl l ∧
  l_Closest l' = l_Closest l.
Proof.
  unfold addHealthReference. intros Hr. destruct v; res_inv; try done. by case_match; res_inv.
Qed.

(** What one entry does to the records: nothing if it is an option, is not
    known or is [null], and else it sets the list of its type. *)
Inductive entry_records (zone : Zone) (label : Label) (dk : string) : string * value → gmap Z Records → Prop :=
| entry_option k v : recordTypes !! k = None → entry_records zone label dk (k, v) (l_Records label)
| entry_null k : entry_records zone label dk (k, VNil) (l_Records label)
| entry_list k v t recs made rs :
    recordTypes !! k = Some t → v ≠ VNil → record_list v = Ret recs →
    Forall2 (λ rec m, make_record zone label dk t rec = Ret m) recs made → rs ≡ₚ made →
    entry_records zone label dk (k, v) (<[t := rs]> (l_Records label)).

Lemma setup_entry_records dk zone label e zone' label' :
  setup_entry dk (zone, label) e = Ret (zone', label') →
  same_names zone zone' label label' ∧ z_Options zone' = z_Options zone ∧
  entry_records zone label dk e (l_Records label').
Proof.
  destruct e as [rType rdata]. unfold setup_entry, same_names. intros Hs.
  destruct recordTypes_options as (H1' & H2' & H3' & H4').
  destruct (decide (rType = "max_hosts")) as [->|].
  { apply bind_Ret in Hs as (x & _ & Hs). injection Hs as <- <-. split_and!; [done..|by apply (entry_option zone label)]. }
  destruct (decide (rType = "closest")) as [->|].
  { apply bind_Ret in Hs as (x & _ & Hs). injection Hs as <- <-.
    split_and!; [by destruct x|done|by destruct x|by apply (entry_option zone label)]. }
  destruct (decide (rType = "ttl")) as [->|].
  { apply bind_Ret in Hs as (x & _ & Hs). injection Hs as <- <-. split_and!; [done..|by apply (entry_option zone label)]. }
  destruct (decide (rType = "health")) as [->|].
  { apply bind_Ret in Hs as (l1 & Hl1 & Hs). injection Hs as <- <-.
    destruct (addHealthReference_same _ _ _ Hl1) as [-> _].
    destruct (addHealthReference_frame _ _ _ Hl1) as [-> _]. split_and!; [done..|by apply (entry_option zone label)]. }
  destruct (recordTypes !! rType) as [t0|] eqn:Et; [|injection Hs as <- <-; split_and!; [done..|by apply (entry_option zone label)]].
  destruct rdata; [injection Hs as <- <-; split_and!; [done..|apply entry_null]|..]; apply bind_Ret in Hs as (recs & Hrecs & Hs);
    apply bind_Ret in Hs as (l1 & Hl1 & Hs); injection Hs as <- <-;
    apply setup_type_made in Hl1 as (El & made & rs & Hm & Hp & ->);
    (split_and!; [done|by injection El|done|by eapply entry_list]).
Qed.

(** One entry: the records of its type, and nothing else. *)
Lemma setup_entry_made zone label dk e records :
  entry_records zone label dk e records → ∀ t, l_Records label !! t = None →
  if decide (recordTypes !! e.1 = Some t)
  then made_from zone label dk t (entry_for [e] t) (records !! t)
  else records !! t = None.
Proof.
  destruct 1 as [k v Ek|k|k v t0 recs made rs Ek Hnil Hrecs Hm Hp]; intros t Ht; cbn [fst entry_for].
  - by rewrite decide_False by congruence.
  - by case_decide.
  - rewrite Ek. destruct (decide (Some t0 = Some t)) as [[= <-]|Hne].
    + rewrite lookup_insert_eq.
      assert (match v with VNil => None | _ => Some v end = Some v) as -> by (by destruct v).
      by exists recs, made, rs.
    + rewrite lookup_insert_ne; [done|congruence].
Qed.

Lemma setup_entry_other zone label dk e records :
  entry_records zone label dk e records → ∀ t, recordTypes !! e.1 ≠ Some t →
  records !! t = l_Records label !! t.
Proof.
  destruct 1 as [| |k v t0 recs made rs Ek]; intros t Ht; [done..|].
  rewrite lookup_insert_ne; [done|]. intros ->. by apply Ht.
Qed.

Lemma entry_for_other dv t : (∀ k, k ∈ dv.*1 → recordTypes !! k ≠ Some t) → entry_for dv t = None.
Proof.
  induction dv as [|[k v] dv IH]; intros Hk; [done|]. cbn [entry_for].
  rewrite decide_False by (apply Hk; left). apply IH. intros k' Hk'. apply Hk. by right.
Qed.

(** All the entries of a label. *)
Lemma setup_entries_made dk dv : ∀ zone label zone' label',
  foldM (setup_entry dk) (zone, label) dv = Ret (zone', label') → NoDup dv.*1 →
  same_names zone zone' label label' ∧ z_Options zone' = z_Options zone ∧
  ∀ t, (l_Records label !! t = None →
          made_from zone label dk t (entry_for dv t) (l_Records label' !! t)) ∧
       (∀ rs, l_Records label !! t = Some rs → (∀ k, k ∈ dv.*1 → recordTypes !! k ≠ Some t) →
          l_Records label' !! t = Some rs).
Proof.
  induction dv as [|e dv IH]; intros zone label zone' label'; cbn [foldM].
  { intros [= <- <-] _. split_and!; [done..|]. by intros t. }
  intros Hr Hnd. apply bind_Ret in Hr as ([z1 l1] & Hs & Hr).
  cbn [fmap list_fmap] in Hnd. apply NoDup_cons in Hnd as [Hnin Hnd].
  apply setup_entry_records in Hs as ([En1 En2] & Eo & Hrec).
  pose proof (setup_entry_other _ _ _ _ _ Hrec) as Hother.
  pose proof (setup_entry_made _ _ _ _ _ Hrec) as Hmade.
  destruct (IH _ _ _ _ Hr Hnd) as ([En1' En2'] & Eo' & Hall).
  assert (Hn : same_names zone z1 label l1) by done.
  split; [split; congruence|]. split; [congruence|]. intros t. split.
  - intros Ht. specialize (Hmade t Ht). destruct e as [k v]. cbn [entry_for fst] in *.
    destruct (decide (recordTypes !! k = Some t)) as [Ek|Ek].
    + assert (Hrest : ∀ k', k' ∈ dv.*1 → recordTypes !! k' ≠ Some t).
      { intros k' Hk' Ek'. by rewrite (recordTypes_inj k k' t) in Hnin. }
      destruct (l_Records l1 !! t) as [rs|] eqn:E1.
      * by rewrite (proj2 (Hall t) rs E1 Hrest).
      * pose proof (proj1 (Hall t) E1) as Hno. rewrite (entry_for_other dv t Hrest) in Hno.
        cbn in Hno. by rewrite Hno.
    + eapply made_from_names; [|by apply Hall]. split; by symmetry.
  - intros rs Ht Hk. apply Hall; [|intros k Hk'; apply Hk; by right].
    rewrite <-Ht. apply Hother. apply Hk. left.
Qed.

(** *** The options of a label *)

(** What one entry does to a field of the label. *)
Definition sets_option {A} (dk key : string) (conv : value → res A) (get : Label → A) (d : A) : Prop :=
  ∀ zone label e zone' label', setup_entry dk (zone, label) e = Ret (zone', label') →
    (e.1 ≠ key → get label' = get label) ∧
    (e.1 = key → get label = d → conv e.2 = Ret (get label')).

Lemma option_from {A} dk key (conv : value → res A) get d :
  sets_option dk key conv get d → ∀ dv zone label zone' label',
  foldM (setup_entry dk) (zone, label) dv = Ret (zone', label') → NoDup dv.*1 →
  (get label = d → option_is dv key conv d (get label')) ∧
  (key ∉ dv.*1 → get label' = get label).
Proof.
  intros Hset dv. induction dv as [|e dv IH]; intros zone label zone' label'; cbn [foldM].
  { by intros [= <- <-] _. }
  intros Hr Hnd. apply bind_Ret in Hr as ([z1 l1] & Hs & Hr).
  cbn [fmap list_fmap] in Hnd. apply NoDup_cons in Hnd as [Hnin Hnd].
  destruct (Hset _ _ _ _ _ Hs) as [Ho Hk]. destruct (IH _ _ _ _ Hr Hnd) as [IH1 IH2]. split.
  - intros Hd. unfold option_is. destruct e as [k v]. cbn [obj_get fst snd] in *. case_decide as E.
    + subst k. rewrite IH2 by done. by apply Hk.
    + apply IH1. by rewrite Ho.
  - cbn [fmap list_fmap]. intros [Hne Hin]%not_elem_of_cons. rewrite IH2 by done. by apply Ho.
Qed.

(** The entries that are not options leave the options alone. *)
Lemma setup_entry_options dk zone label e zone' label' :
  setup_entry dk (zone, label) e = Ret (zone', label') →
  e.1 ≠ "max_hosts" → e.1 ≠ "closest" → e.1 ≠ "ttl" → e.1 ≠ "health" →
  l_frame label' = l_frame label.
Proof.
  destruct e as [rType rdata]. cbn [fst]. unfold setup_entry. intros Hs ? ? ? ?.
  rewrite !decide_False in Hs by done.
  destruct (recordTypes !! rType) as [t0|] eqn:Et; [|by injection Hs as <- <-].
  destruct rdata; try (by injection Hs as <- <-);
    apply bind_Ret in Hs as (recs & _ & Hs); apply bind_Ret in Hs as (l1 & Hl1 & Hs);
    injection Hs as <- <-; by apply setup_type_made in Hl1 as [? _].
Qed.

(** One proof for the four options: each has its own branch, the other
    branches set other fields. *)
Ltac solve_option :=
  intros zone label e zone' label' Hs; pose proof (setup_entry_options _ _ _ _ _ _ Hs) as Hframe;
  destruct e as [k v]; cbn [fst snd] in *; unfold setup_entry in Hs;
  destruct (decide (k = "max_hosts")) as [->|N1];
  [|destruct (decide (k = "closest")) as [->|N2];
  [|destruct (decide (k = "ttl")) as [->|N3];
  [|destruct (decide (k = "health")) as [->|N4];
  [|split; [intros _; by injection (Hframe N1 N2 N3 N4)|done]]]]];
  apply bind_Ret in Hs as (x & Hx & Hs); injection Hs as <- <-; split; try done;
  try (intros _; by apply addHealthReference_frame in Hx as (? & ? & ? & ?)).

Lemma max_hosts_option dk d : sets_option dk "max_hosts" ToInt l_MaxHosts d.
Proof. solve_option. Qed.

Lemma ttl_option dk d : sets_option dk "ttl" ToInt l_Ttl d.
Proof. solve_option. Qed.

Lemma closest_option dk d : sets_option dk "closest" as_bool l_Closest d.
Proof. solve_option. Qed.

Lemma health_option dk : sets_option dk "health" health_entry l_Test None.
Proof.
  solve_option. intros _ Hd. unfold addHealthReference in Hx. unfold health_entry.
  destruct v; res_inv; try by rewrite Hd. case_match; res_inv; [done|by rewrite Hd].
Qed.
(** *** The labels of the file *)

(** The label of the object [dv] under the name [dk], before the pass. *)
Definition label_made (zone : Zone) (dk : string) (dv : list (string * value)) (l : Label) : Prop :=
  l_Label l = ToLower dk ∧ options_from zone dv l ∧
  ∀ t, made_from zone l dk t (entry_for dv t) (l_Records l !! t).

(** The zone keeps its name and its options. *)
Definition same_zone (z z' : Zone) : Prop := z_Origin z' = z_Origin z ∧ z_Options z' = z_Options z.

Lemma label_made_zone zone zone' dk dv l :
  same_zone zone zone' → label_made zone dk dv l → label_made zone' dk dv l.
Proof.
  intros [E1 E2] (Hl & Ho & Hm). split_and!; [done|by unfold options_from; rewrite E2|].
  intros t. by eapply made_from_names; [|apply Hm].
Qed.

Lemma setup_label_made zone dk dv zone' :
  setup_label zone (dk, VObj dv) = Ret zone' → NoDup dv.*1 →
  same_zone zone zone' ∧
  (∃ l, z_Labels zone' !! ToLower dk = Some l ∧ label_made zone dk dv l) ∧
  ∀ k, k ≠ ToLower dk → z_Labels zone' !! k = z_Labels zone !! k.
Proof.
  unfold setup_label. intros Hs Hnd. apply bind_Ret in Hs as (dv' & Hdv & Hs). injection Hdv as <-.
  rewrite lookup_AddLabel in Hs. apply bind_Ret in Hs as (l0 & Hl0 & Hs). injection Hl0 as <-.
  apply bind_Ret in Hs as ([z3 l3] & Hloop & Hs). injection Hs as <-.
  assert (Hz3 : z_Labels z3 = z_Labels (AddLabel zone dk)).
  { apply (foldM_invariant _ (λ st : Zone * Label, z_Labels st.1 = z_Labels (AddLabel zone dk)))
      in Hloop; [done|done|]. intros st e st' _ <- He. by eapply setup_entry_labels. }
  pose proof (setup_entries_made _ _ _ _ _ _ Hloop Hnd) as ([En El] & Eo & Hm). split_and!.
  - by split.
  - exists l3. cbn. rewrite lookup_insert_eq. split; [done|]. split_and!; [done| |].
    + split_and!.
      * by eapply (option_from _ _ _ _ _ (max_hosts_option dk _)).
      * by eapply (option_from _ _ _ _ _ (ttl_option dk _)).
      * by eapply (option_from _ _ _ _ _ (closest_option dk _)).
      * by eapply (option_from _ _ _ _ _ (health_option dk)).
    + intros t. eapply made_from_names; [|by apply Hm]. by split.
  - intros k Hk. cbn. rewrite lookup_insert_ne by done. rewrite Hz3. by apply lookup_AddLabel_ne.
Qed.

Lemma setup_labels_made data : ∀ zone zone',
  foldM setup_label zone data = Ret zone' → data_ok data → NoDup (ToLower <$> data.*1) →
  same_zone zone zone' ∧
  (∀ dk dv, (dk, VObj dv) ∈ data →
    ∃ l, z_Labels zone' !! ToLower dk = Some l ∧ label_made zone dk dv l) ∧
  ∀ k, k ∉ ToLower <$> data.*1 → z_Labels zone' !! k = z_Labels zone !! k.
Proof.
  induction data as [|[dk v] data IH]; intros zone zone'; cbn [foldM].
  { intros [= <-] _ _. split_and!; [done| |done]. by intros dk dv ?%elem_of_nil. }
  intros Hr Hd Hnd. apply bind_Ret in Hr as (z1 & Hs & Hr).
  apply Forall_cons in Hd as [Hd1 Hd]. cbn [fmap list_fmap fst] in *.
  apply NoDup_cons in Hnd as [Hnin Hnd].
  destruct v as [| | | | | |dv]; try done.
  destruct (setup_label_made _ _ _ _ Hs (Hd1 dv eq_refl)) as ([E1 E2] & (l & Hl & Hm) & Ho).
  destruct (IH _ _ Hr Hd Hnd) as ([E1' E2'] & Hall & Ho').
  assert (Hsame : same_zone z1 zone) by by split; symmetry.
  split_and!; [split; congruence| |].
  - intros dk' dv' [E|Hin]%elem_of_cons.
    + injection E as -> ->. exists l. by rewrite Ho'.
    + destruct (Hall _ _ Hin) as (l' & ? & ?). exists l'. split; [done|]. by eapply label_made_zone.
  - intros k [Hne Hk]%not_elem_of_cons. rewrite Ho' by done. by apply Ho.
Qed.

(** *** The pass over the labels *)

(** The label [l'] is [l] with its records finished. *)
Definition label_finished (zone : Zone) (l l' : Label) : Prop :=
  l_frame l' = l_frame l ∧
  ∀ t, match l_Records l !! t with
       | None => l_Records l' !! t = None
       | Some rs => ∃ rs', l_Records l' !! t = Some rs' ∧
           mapM_res (finish_record zone l (needs_weight l t)) rs = Ret rs'
       end.

Lemma finish_record_ttl zone zone' l l' w r :
  z_Options zone' = z_Options zone → l_frame l' = l_frame l →
  finish_record zone' l' w r = finish_record zone l w r.
Proof.
  intros E1 E2. unfold finish_record, default_ttl. rewrite E1.
  by assert (l_Ttl l' = l_Ttl l) as -> by by injection E2.
Qed.

Lemma mapM_res_ext {A B} (f g : A → res B) l : (∀ x, f x = g x) → mapM_res f l = mapM_res g l.
Proof. intros E. induction l as [|x l IH]; [done|]. cbn. by rewrite E, IH. Qed.

Lemma add_ones_frame l t (rs : Records) : l_frame (foldl (λ l _, add_Weight l t 1) l rs) = l_frame l.
Proof. revert l. induction rs as [|r rs IH]; intros l; [done|]. cbn. by rewrite IH. Qed.

Lemma finish_types_made zone es : ∀ l l',
  foldM (λ l' e, finish_type zone l' e.1 e.2) l es = Ret l' →
  NoDup es.*1 → label_weights l → (∀ e, e ∈ es → l_Records l !! e.1 = Some e.2) →
  l_frame l' = l_frame l ∧
  ∀ e, e ∈ es → ∃ rs', l_Records l' !! e.1 = Some rs' ∧
    mapM_res (finish_record zone l (needs_weight l e.1)) e.2 = Ret rs'.
Proof.
  induction es as [|[t rs] es IH]; intros l l'; cbn [foldM].
  { intros [= <-] _ _ _. split; [done|]. by intros e ?%elem_of_nil. }
  intros Hr Hnd Hw Hin. apply bind_Ret in Hr as (l1 & Hs & Hr).
  cbn [fmap list_fmap fst] in Hnd. apply NoDup_cons in Hnd as [Hnin Hnd].
  pose proof (finish_type_spec _ _ _ _ _ Hs Hw (Hin (t, rs) ltac:(left))) as (Hw1 & _ & Ho1).
  assert (Hin1 : ∀ e, e ∈ es → e.1 ≠ t ∧ l_Records l1 !! e.1 = Some e.2).
  { intros e He. assert (e.1 ≠ t) as Hne.
    { intros E. apply Hnin. rewrite <-E. by apply list_elem_of_fmap_2. }
    split; [done|]. destruct (Ho1 e.1 Hne) as [-> _]. apply Hin. by right. }
  pose proof (finish_types_spec _ _ _ _ Hr Hnd Hw1 (λ e He, proj2 (Hin1 e He))) as (_ & _ & Ho').
  destruct (IH _ _ Hr Hnd Hw1 (λ e He, proj2 (Hin1 e He))) as [Ef Hall].
  unfold finish_type in Hs. apply bind_Ret in Hs as (rs' & Hrs & Hs).
  assert (Ef1 : l_frame l1 = l_frame l).
  { injection Hs as <-. unfold l_frame at 1. cbn. case_match; [|done]. apply (add_ones_frame l t rs). }
  split; [congruence|]. intros e [->|He]%elem_of_cons; cbn [fst snd].
  - exists rs'. destruct (Ho' t Hnin) as [-> _]. split; [|done]. injection Hs as <-. cbn.
    apply lookup_insert_eq.
  - destruct (Hall e He) as (rs1 & Hl & Hm). exists rs1. split; [done|]. rewrite <-Hm.
    destruct (Hin1 e He) as [Hne _]. unfold needs_weight. destruct (Ho1 e.1 Hne) as [_ ->].
    apply mapM_res_ext. intros r. by apply finish_record_ttl.
Qed.
Lemma add_parents_zone zone k : same_zone zone (add_parents zone k).
Proof.
  unfold add_parents. case_match; [|done]. revert zone.
  induction (parents (Split k ".")) as [|n ns IH]; intros zone; [done|]. cbn [foldl].
  unfold same_zone in *. destruct (IH (add_missing zone n)) as [-> ->].
  unfold add_missing. by case_match.
Qed.

Lemma finish_label_weights zone k zone' :
  finish_label zone k = Ret zone' → zone_inv label_weights zone → zone_inv label_weights zone'.
Proof.
  intros Hf Hw k' l Hl. eapply (finish_label_step zone k (k' :: (map_to_list (z_Labels zone)).*1)) in Hl as [? _];
    [done|done|].
  intros k2 l2 Hl2. split; [by eapply Hw|]. right. do 2 right.
  apply list_elem_of_fmap. exists (k2, l2). by rewrite elem_of_map_to_list.
Qed.

Lemma finish_label_made zone k zone' :
  finish_label zone k = Ret zone' → ToLower k = k → zone_inv label_weights zone →
  same_zone zone zone' ∧
  (∀ l, z_Labels zone !! k = Some l → ∃ l', z_Labels zone' !! k = Some l' ∧ label_finished zone l l') ∧
  (∀ k' l, k' ≠ k → z_Labels zone !! k' = Some l → z_Labels zone' !! k' = Some l) ∧
  (∀ k' l, k' ≠ k → z_Labels zone !! k' = None → z_Labels zone' !! k' = Some l → l_Records l = ∅).
Proof.
  intros Hf Hk Hw. unfold finish_label in Hf. destruct (add_parents_zone zone k) as [E1 E2].
  apply bind_Ret in Hf as (l0 & Hl0 & Hf). apply bind_Ret in Hf as (l1 & Hloop & Hf).
  injection Hf as <-. cbn [set_Labels z_Labels]. split_and!; [by split|..].
  - intros l Hl. rewrite lookup_insert_eq. exists l1. split; [done|].
    rewrite (add_parents_keeps _ _ _ l) in Hl0 by done. injection Hl0 as <-.
    pose proof (finish_types_spec _ _ _ _ Hloop) as Hspec.
    apply finish_types_made in Hloop as [Ef Hall]; [|apply NoDup_go_range|by eapply Hw|].
    2: { intros [t rs] Hin. by apply elem_of_go_range. }
    destruct Hspec as (_ & _ & Hother); [apply NoDup_go_range|by eapply Hw| |].
    { intros [t rs] Hin. by apply elem_of_go_range. }
    split; [done|]. intros t. destruct (l_Records l !! t) as [rs|] eqn:Ht.
    + destruct (Hall (t, rs)) as (rs' & ? & Hm); [by apply elem_of_go_range|].
      exists rs'. split; [done|]. rewrite <-Hm. apply mapM_res_ext. intros r.
      by apply finish_record_ttl.
    + destruct (Hother t) as [-> _]; [|done].
      intros ([t' rs] & -> & Hin)%list_elem_of_fmap. apply elem_of_go_range in Hin. cbn in Ht. congruence.
  - intros k' l Hne Hl. rewrite lookup_insert_ne by done. by apply add_parents_keeps.
  - intros k' l Hne Hl. rewrite lookup_insert_ne by done. intros [E|[? _]]%add_parents_lookup; [congruence|done].
Qed.

Lemma label_finished_zone zone zone' l l' :
  same_zone zone zone' → label_finished zone l l' → label_finished zone' l l'.
Proof.
  intros [_ E] [Ef Hall]. split; [done|]. intros t. specialize (Hall t). case_match; [|done].
  destruct Hall as (rs' & ? & Hm). exists rs'. split; [done|]. rewrite <-Hm.
  apply mapM_res_ext. intros r. by apply finish_record_ttl.
Qed.

Lemma finish_labels_made ks : ∀ zone zone',
  foldM finish_label zone ks = Ret zone' → NoDup ks → lower_keys zone →
  (∀ k, k ∈ ks → is_Some (z_Labels zone !! k)) → zone_inv label_weights zone →
  same_zone zone zone' ∧
  (∀ k l, z_Labels zone !! k = Some l → ∃ l', z_Labels zone' !! k = Some l' ∧
    (k ∈ ks → label_finished zone l l') ∧ (k ∉ ks → l' = l)) ∧
  (∀ k l, z_Labels zone !! k = None → z_Labels zone' !! k = Some l → l_Records l = ∅).
Proof.
  induction ks as [|k ks IH]; intros zone zone'; cbn [foldM].
  { intros [= <-] _ _ _ _. split_and!; [done| |congruence].
    intros k l Hl. exists l. split_and!; [done|by intros ?%elem_of_nil|done]. }
  intros Hr Hnd Hlow Hks Hw. apply bind_Ret in Hr as (z1 & Hs & Hr).
  apply NoDup_cons in Hnd as [Hnin Hnd].
  assert (Hk : ToLower k = k) by (apply Hlow, Hks; left).
  pose proof (finish_label_keys _ _ _ Hs Hk) as Hkeys.
  assert (Hw1 : zone_inv label_weights z1) by by eapply finish_label_weights.
  destruct (finish_label_made _ _ _ Hs Hk Hw) as ([E1 E2] & Hown & Hother & Hnew).
  destruct (IH _ _ Hr Hnd) as ([E1' E2'] & Hall & Hnone); [| |done|].
  { intros k' [?|?]%Hkeys; [by apply Hlow|by eapply dot_parent_lower]. }
  { intros k' Hk'. apply Hkeys. left. apply Hks. by right. }
  assert (Hback : same_zone z1 zone) by by split; symmetry.
  split_and!; [split; congruence| |].
  - intros k' l Hl. destruct (decide (k' = k)) as [->|Hne].
    + destruct (Hown l Hl) as (l1 & Hl1 & Hfin). destruct (Hall k l1 Hl1) as (l' & Hl' & _ & Hsame).
      exists l'. rewrite (Hsame Hnin) in *. split_and!; [done|done|]. intros Hn. by destruct Hn; left.
    + destruct (Hall k' l (Hother k' l Hne Hl)) as (l' & Hl' & Hin & Hout). exists l'.
      split_and!; [done| |].
      * intros [->|Hk']%elem_of_cons; [done|]. by eapply label_finished_zone, Hin.
      * intros [_ Hk']%not_elem_of_cons. by apply Hout.
  - intros k' l Hl Hl'. assert (Hne : k' ≠ k).
    { intros ->. destruct (Hks k) as [x Hx]; [left|congruence]. }
    assert (Hk' : k' ∉ ks).
    { intros Hin. destruct (Hks k') as [x Hx]; [by right|congruence]. }
    destruct (z_Labels z1 !! k') as [l1|] eqn:El1; [|by eapply Hnone].
    destruct (Hall k' l1 El1) as (l2 & Hl2 & _ & Hsame). rewrite Hl' in Hl2. injection Hl2 as <-.
    rewrite (Hsame Hk'). by apply (Hnew k').
Qed.
(** *** A label as it is served *)

Lemma l_frame_eq l l' : l_frame l' = l_frame l →
  l_Label l' = l_Label l ∧ l_MaxHosts l' = l_MaxHosts l ∧ l_Ttl l' = l_Ttl l ∧
  l_Closest l' = l_Closest l ∧ l_Test l' = l_Test l.
Proof. by intros [= -> -> -> -> ->]. Qed.

Lemma options_from_frame zone dv l l' :
  l_frame l' = l_frame l → options_from zone dv l → options_from zone dv l'.
Proof. unfold options_from. by intros (_ & -> & -> & -> & ->)%l_frame_eq. Qed.

Lemma serves_names zone zone' l l' dk t v o :
  same_zone zone zone' → l_frame l' = l_frame l → serves zone l dk t v o → serves zone' l' dk t v o.
Proof.
  intros [E1 E2] (El & _ & Et & _)%l_frame_eq. unfold serves. destruct v as [rdata|]; [|done].
  intros (recs & made & rs & Hr & Hm & Ho & Hp). exists recs, made, rs. split_and!; [done| |done|].
  - eapply Forall2_impl; [exact Hm|]. intros rec r. by rewrite (make_record_names zone zone' l l').
  - rewrite Hp. by unfold finished, default_ttl; rewrite E2, Et.
Qed.

(** The pass gives every record its TTL and its weight; there is no hole,
    or it would have panicked. *)
Lemma finish_records_finished zone l w rs rs' :
  mapM_res (finish_record zone l w) rs = Ret rs' →
  ∃ made, rs = Some <$> made ∧ rs' = Some <$> (finished zone l w <$> made).
Proof.
  intros Hr%mapM_res_Forall2. induction Hr as [|r r' rs rs' Hd _ (made & -> & ->)]; [by exists []|].
  destruct r as [r|]; [|done]. injection Hd as <-. by exists (r :: made).
Qed.

Lemma finished_serves zone l l' dk t v :
  made_from zone l dk t v (l_Records l !! t) → label_finished zone l l' → label_weights l →
  serves zone l' dk t v (l_Records l' !! t).
Proof.
  intros Hmade [Ef Hfin] [Hw _]. specialize (Hfin t). specialize (Hw t).
  apply (serves_names zone zone l l'); [done..|].
  destruct v as [rdata|]; cbn in Hmade |- *; [|by rewrite Hmade in Hfin].
  destruct Hmade as (recs & made & rs & Hrecs & Hm & Ho & Hp). rewrite Ho in Hfin, Hw.
  destruct Hfin as (rs' & Hl' & Hfin).
  apply finish_records_finished in Hfin as (rr & -> & ->).
  symmetry in Hp. apply Permutation_map_inv in Hp as (made' & -> & Hp).
  exists recs, made', (Some <$> (finished zone l (needs_weight l t) <$> rr)).
  split_and!; [done|by apply Forall2_fmap_r in Hm|done|].
  assert (needs_weight l t = unweighted t made') as ->; [|by rewrite Hp].
  unfold needs_weight, unweighted. rewrite Hw. do 3 f_equal.
  cbn [default from_option id]. unfold total. rewrite <-list_fmap_compose. by rewrite Hp.
Qed.

Lemma addSOA_made z z' : addSOA z = Ret z' →
  same_zone z z' ∧
  (∀ k l, z_Labels z !! k = Some l → ∃ l', z_Labels z' !! k = Some l' ∧ l_frame l' = l_frame l ∧
    ∀ t, t ≠ TypeSOA → l_Records l' !! t = l_Records l !! t) ∧
  (∀ k l t, z_Labels z !! k = None → z_Labels z' !! k = Some l → t ≠ TypeSOA → l_Records l !! t = None).
Proof.
  unfold addSOA. set (z1 := match z_Labels z !! "" with Some _ => z | None => AddLabel z "" end).
  intros Hr. apply bind_Ret in Hr as (apex & Hapex & Hr).
  apply bind_Ret in Hr as (ns & _ & Hr). destruct (NewRR _) as [rr|]; [|done]. injection Hr as <-.
  destruct (z_Labels z1 !! "") as [l1|] eqn:E1; [|done]. injection Hapex as ->. cbn.
  assert (Hz1 : same_zone z z1 ∧ ∀ k, k ≠ "" → z_Labels z1 !! k = z_Labels z !! k).
  { unfold z1. case_match; [done|]. split; [done|]. intros k Hk. by apply (lookup_AddLabel_ne z ""). }
  destruct Hz1 as [Hz1 Ho]. split_and!; [done|..].
  - intros k l Hl. destruct (decide (k = "")) as [->|Hne].
    + rewrite lookup_insert_eq. eexists. split; [reflexivity|]. unfold z1 in E1. rewrite Hl in E1.
      rewrite Hl in E1. injection E1 as <-. split; [done|]. intros t Ht. by apply lookup_insert_ne.
    + rewrite lookup_insert_ne, Ho by done. by exists l.
  - intros k l t Hl. destruct (decide (k = "")) as [->|Hne].
    + rewrite lookup_insert_eq. unfold z1 in E1. rewrite Hl in E1. intros [= <-] Ht. cbn.
      rewrite lookup_insert_ne by done. pose proof (lookup_AddLabel z "") as E.
      change (ToLower "") with "" in E. rewrite E in E1. by injection E1 as <-.
    + rewrite lookup_insert_ne, Ho by done. congruence.
Qed.
(** *** The file *)

Lemma setup_labels_keys data zone zone' :
  foldM setup_label zone data = Ret zone' → z_Labels zone = ∅ → lower_keys zone'.
Proof.
  intros Hr Hempty. revert Hr. apply (foldM_invariant _ lower_keys).
  - intros k. rewrite Hempty, lookup_empty. by intros [? ?].
  - intros z e z' _ Hz Hr k [?| ->]%(setup_label_keys _ _ _ Hr); [by apply Hz|]. apply ToLower_idem.
Qed.

(** C19: loading a zone file, the names of its labels distinct up to case,
    serves what the file says: every label of the file is in the zone under its
    lower-case name, its options (max_hosts, ttl, closest, health) are those of
    its object or the defaults, and for every type but the SOA its records are
    those of the entry for the type, one for each element of the list, in some
    order, with the TTL of the label or the zone and the weight 1 where the
    type needs weights and the file gives none; a type without an entry has no
    records, and neither has a label that the file does not list. *)
Theorem setupZoneData_serves (data : list (string * value)) (zone zone' : Zone) :
  setupZoneData data zone = Ret zone' → z_Labels zone = ∅ → data_ok data →
  NoDup (ToLower <$> data.*1) →
  (∀ dk dv, (dk, VObj dv) ∈ data → ∃ l, z_Labels zone' !! ToLower dk = Some l ∧
     l_Label l = ToLower dk ∧ options_from zone dv l ∧
     ∀ t, t ≠ TypeSOA → serves zone l dk t (entry_for dv t) (l_Records l !! t)) ∧
  (∀ k l t, z_Labels zone' !! k = Some l → k ∉ ToLower <$> data.*1 → t ≠ TypeSOA →
     l_Records l !! t = None).
Proof.
  intros Hs Hempty Hd Hnd. unfold setupZoneData in Hs.
  apply bind_Ret in Hs as (z1 & H1' & Hs). apply bind_Ret in Hs as (z2 & H2' & Hs).
  pose proof (setup_labels_keys _ _ _ H1' Hempty) as Hlow.
  assert (Hw : zone_inv label_weights z1).
  { eapply setup_labels_weights; [exact H1'|done|]. intros k l. by rewrite Hempty. }
  destruct (setup_labels_made _ _ _ H1' Hd Hnd) as ([E1 E2] & Hmade & Hother).
  destruct (finish_labels_made _ _ _ H2' (NoDup_go_range _) Hlow) as (_ & Hfin & Hnew); [|done|].
  { intros k ([k' l] & -> & Hin)%list_elem_of_fmap. apply elem_of_go_range in Hin. by eexists. }
  destruct (addSOA_made _ _ Hs) as (_ & Hsoa & Hsoanew).
  assert (Hback : same_zone z1 zone) by by split; symmetry. split.
  - intros dk dv Hin. destruct (Hmade dk dv Hin) as (l1 & Hl1 & Hn1 & Ho1 & Hm1).
    destruct (Hfin _ _ Hl1) as (l2 & Hl2 & Hf2 & _).
    assert (Hf : label_finished zone l1 l2).
    { eapply label_finished_zone; [exact Hback|]. apply Hf2. apply list_elem_of_fmap.
      exists (ToLower dk, l1). by rewrite elem_of_go_range. }
    destruct (Hsoa _ _ Hl2) as (l3 & Hl3 & Ef3 & Hr3). pose proof (proj1 Hf) as Ef2.
    assert (Ef : l_frame l3 = l_frame l1) by congruence. exists l3. split_and!; [done|..].
    + destruct (l_frame_eq _ _ Ef) as [-> _]. done.
    + by eapply options_from_frame.
    + intros t Ht. rewrite Hr3 by done. apply (serves_names zone zone l2 l3); [done..|].
      eapply finished_serves; [apply Hm1|done|by eapply Hw].
  - intros k l t Hl Hk Ht. destruct (z_Labels z2 !! k) as [l2|] eqn:El2; [|by eapply Hsoanew].
    destruct (Hsoa _ _ El2) as (l3 & Hl3 & _ & Hr3). rewrite Hl in Hl3. injection Hl3 as <-.
    rewrite Hr3 by done. assert (z_Labels z1 !! k = None) as El1 by (by rewrite Hother, Hempty).
    by rewrite (Hnew _ _ El1 El2).
Qed.
End spec.

(** ** Example *)

Lemma example_names_distinct : NoDup (ToLower <$> example_data.*1).
Proof. apply (bool_decide_unpack _). by vm_compute. Qed.

(** In the example the object gives the limit 1, two addresses with weights,
    and nothing for the other types. *)
Lemma setupZoneData_serves_witness :
  let _ := GoFormat_blank in let _ := arch_amd64 in
  ∃ l dv, z_Labels example_loaded_zone !! "www.sub" = Some l ∧
    options_from (NewZone "example.com") dv l ∧ l_MaxHosts l = 1 ∧
    (∀ t, t ≠ TypeSOA → serves (NewZone "example.com") l "www.Sub" t (entry_for dv t) (l_Records l !! t)) ∧
    l_Records l !! TypeMX = None.
Proof.
  intros F A.
  destruct (@setupZoneData_serves GoFormat_blank arch_amd64 GoSort_merge GoRange_list example_parser
    example_data (NewZone "example.com") example_loaded_zone example_loaded_ok eq_refl
    example_data_ok example_names_distinct) as [Hlisted _].
  destruct (Hlisted "www.Sub" _ ltac:(right; left)) as (l & Hl & _ & Ho & Hserves).
  eexists l, _. split; [exact Hl|]. split; [exact Ho|]. split.
  - destruct Ho as [Hmax _]. revert Hmax. generalize (l_MaxHosts l). vm_compute.
    intros n Hn. by injection Hn.
  - split; [exact Hserves|]. by apply (Hserves TypeMX).
Defined.
