(* ===== verification/QueryLog.v ===== *)
(** * querylog/querylog.go: the entries of the query log

    The server hands an entry to the logger for every query; the log
    statistics tool reads the entries back.  The encoding of [encoding/json]
    is a parameter. *)

From S2P Require Import Prelude GoStrings.
Local Open Scope Z_scope.

Record Entry := mkEntryLog {
  qle_Time : Z;
  qle_Origin : string;
  qle_Name : string;
  qle_Qtype : Z;
  qle_Rcode : Z;
  qle_Answers : Z;
  qle_Targets : list string;
  qle_LabelName : string;
  qle_RemoteAddr : string;
  qle_ClientAddr : string;
  qle_HasECS : bool
}.

Section logger.
(** [json.Marshal], and what the rotated file has been given so far; [None] is
    a write that fails. *)
Context (Marshal : Entry → option string).

Definition FileLogger_Write (can_append : bool) (file : string) (e : Entry) :
    string * option string :=
  match Marshal e with
  | None => (file, Some "json: cannot marshal")
  | Some js =>
      if can_append then (file +:+ js +:+ String "010" "", None)
      else (file, Some "write failed")
  end.
End logger.
