(* ===== verification/MuxManager.v ===== *)
(** * zones/muxmanager.go: keeping the zones in step with the directory

    The manager lists the zone directory, reads the files that are new or
    changed, and registers the zones with the server.  The zones of a name
    share their statistics across reloads, so the statistics live in a store
    and a zone holds their locations; the modification times and hashes, the
    decoded files and the listing of the directory come from the file system
    and are parameters. *)

From S2P Require Import Prelude GoRuntime GoStrings GoNet Float64 TypeUtil Targeting.
From S2P Require Import DnsNames DnsMsg Health ZoneStats Zones Picker Reader.
Local Open Scope Z_scope.

(** ** Statistics of a zone (zones/zone.go) *)

Abbreviation stats_store := (list zoneLabelStats).

(** A statistics buffer of 10000 entries, when there is none yet. *)
Definition setup_stats (heap : stats_store) (p : option stats_loc) :
    res (stats_store * option stats_loc) :=
  match p with
  | Some _ => Ret (heap, p)
  | None => s ← NewZoneLabelStats 10000; Ret (heap ++ [s], Some (length heap))
  end.

Definition SetupMetrics (heap : stats_store) (z : Zone) (old : option Zone) :
    res (stats_store * Zone) :=
  let m := match old with Some o => z_Metrics o | None => z_Metrics z end in
  '(heap, ls) ← setup_stats heap (LabelStats m);
  '(heap, cs) ← setup_stats heap (ClientStats m);
  Ret (heap, set_Metrics z (mkMetrics ls cs)).

Definition close_stats (heap : stats_store) (p : option stats_loc) : stats_store :=
  match p with
  | Some i => alter Close i heap
  | None => heap
  end.

Definition Zone_Close (heap : stats_store) (z : Zone) : stats_store :=
  close_stats (close_stats heap (LabelStats (z_Metrics z))) (ClientStats (z_Metrics z)).

(** The Add method of the statistics at a location. *)
Definition stats_Add (heap : stats_store) (p : option stats_loc) (l : string) : res stats_store :=
  i ← deref p;
  zs ← deref (heap !! i);
  zs ← add zs l;
  Ret (<[i := zs]> heap).

(** ** The registration interface *)

Class RegistrationAPI (R : Type) := {
  reg_Add : R → string → Zone → res R;
  reg_Remove : R → string → res R
}.

(** [NilReg] *)
#[export] Instance NilReg : RegistrationAPI unit := {
  reg_Add _ _ _ := Ret tt;
  reg_Remove _ _ := Ret tt
}.

(** The server's multiplexer (server/server.go, [Add] and [Remove]): the
    handler of a zone is the zone it serves. *)
Abbreviation mux_table := (gmap string Zone).
Definition Server_Add (mux : mux_table) (name : string) (zone : Zone) : res mux_table :=
  mux_Handle mux name zone.
Definition Server_Remove (mux : mux_table) (name : string) : res mux_table :=
  mux_HandleRemove mux name.
#[export] Instance ServerReg : RegistrationAPI mux_table := {
  reg_Add := Server_Add;
  reg_Remove := Server_Remove
}.

(** The default multiplexer of the dns package, which the server does not use;
    the handler for the root is registered there.  A handler is the message it
    writes for a request. *)
Abbreviation default_mux := (gmap string (Msg → Msg)).
Definition refuse (req : Msg) : Msg := SetRcode new_Msg req RcodeRefused.
Definition setupRootZone (dm : default_mux) : res default_mux := mux_Handle dm "." refuse.

(** ** The manager *)

Record zoneReadRecord := mkRead { zr_time : Z; zr_hash : string }.

Record MuxManager {R : Type} := mkManager {
  mm_reg : R;
  mm_zonelist : gmap string Zone;
  mm_path : string;
  mm_lastRead : gmap string zoneReadRecord;
  mm_stats : stats_store
}.
Arguments MuxManager : clear implicits.
Arguments mkManager {R}.

Section manager.
Context `{GoFormat} `{GoArch} `{GoSort} `{GoRange} `{RRParser} `{RegistrationAPI R}.
Context (path_Join : string → string → string).
Implicit Types mm : MuxManager R.

Definition addHandler mm (name : string) (zone : Zone) : res (MuxManager R) :=
  '(heap, zone) ← SetupMetrics (mm_stats mm) zone (mm_zonelist mm !! name);
  zone ← setupHealthTests zone;
  reg ← reg_Add (mm_reg mm) name zone;
  Ret (mkManager reg (<[name := zone]> (mm_zonelist mm)) (mm_path mm) (mm_lastRead mm) heap).

Definition removeHandler mm (name : string) : res (MuxManager R) :=
  reg ← reg_Remove (mm_reg mm) name;
  Ret (mkManager reg (delete name (mm_zonelist mm)) (mm_path mm)
         (delete name (mm_lastRead mm)) (mm_stats mm)).

Definition set_lastRead mm (name : string) (r : zoneReadRecord) : MuxManager R :=
  mkManager (mm_reg mm) (mm_zonelist mm) (mm_path mm) (<[name := r]> (mm_lastRead mm))
    (mm_stats mm).

(** What a reload sees of the world: the provider, the hash and the decoded
    contents of a file. *)
Context (geo : option Provider) (sha256File : string → string) (read : string → zone_file).

(** Whether a file is to be read: it is new, or newer than the last read. *)
Definition needs_read mm (zoneName : string) (f : dir_entry) : bool :=
  match mm_lastRead mm !! zoneName with
  | None => true
  | Some r => zr_time r <? f_ModTime f
  end.

(** A file that is to be read. *)
Definition read_zone mm (zoneName : string) (f : dir_entry) (parseErr : option string) :
    res (MuxManager R * option string) :=
  let hash := match mm_lastRead mm !! zoneName with Some r => zr_hash r | None => "" end in
  let mm := set_lastRead mm zoneName (mkRead (f_ModTime f) hash) in
  let filename := path_Join (mm_path mm) (f_Name f) in
  let sha256 := sha256File filename in
  if decide (hash = sha256) then Ret (mm, parseErr)
  else
    match ReadZoneFile geo (NewZone zoneName) (read filename) with
    | inl err => Ret (mm, Some ("Error reading zone '" +:+ zoneName +:+ "': " +:+ err))
    | inr zone =>
        mm ← addHandler (set_lastRead mm zoneName (mkRead (f_ModTime f) sha256)) zoneName zone;
        Ret (mm, parseErr)
    end.

(** One file of the listing. *)
Definition reload_file (st : MuxManager R * gset string * option string) (f : dir_entry) :
    res (MuxManager R * gset string * option string) :=
  let '(mm, seenZones, parseErr) := st in
  if negb (json_file f) then Ret st
  else
    zoneName ← base_name f;
    let seenZones := {[zoneName]} ∪ seenZones in
    if needs_read mm zoneName f then
      '(mm, parseErr) ← read_zone mm zoneName f parseErr;
      Ret (mm, seenZones, parseErr)
    else Ret (mm, seenZones, parseErr).

(** One zone of the list, when its file was not seen: the zone is closed
    first and then removed. *)
Definition prune_zone (seenZones : gset string) mm (e : string * Zone) : res (MuxManager R) :=
  let '(zoneName, zone) := e in
  if bool_decide (zoneName = "pgeodns") || bool_decide (zoneName ∈ seenZones) then Ret mm
  else
    let mm := mkManager (mm_reg mm) (mm_zonelist mm) (mm_path mm) (mm_lastRead mm)
                (Zone_Close (mm_stats mm) zone) in
    removeHandler mm zoneName.

(** [reload]; [None] is a directory that cannot be read. *)
Definition reload mm (listing : option (list dir_entry)) : res (MuxManager R * option string) :=
  match listing with
  | None => Ret (mm, Some ("could not read '" +:+ mm_path mm +:+ "'"))
  | Some dir =>
      '(mm, seenZones, parseErr) ← foldM reload_file (mm, ∅, None) dir;
      mm ← foldM (prune_zone seenZones) mm (go_range (mm_zonelist mm));
      Ret (mm, parseErr)
  end.

(** The zone of the server itself: an apex with a SOA record. *)
Definition setupPgeodnsZone mm : res (MuxManager R) :=
  let zone := NewZone "pgeodns" in
  let label := mkLabel "" 0 0 ∅ ∅ false None in
  zone ← addSOA (set_Labels zone {["" := label]});
  addHandler mm "pgeodns" zone.

(** The manager, and the default multiplexer [dm] it registers the root in. *)
Definition NewMuxManager (dm : default_mux) (path : string) (reg : R)
    (listing : option (list dir_entry)) : res (default_mux * MuxManager R * option string) :=
  let mm := mkManager reg ∅ path ∅ [] in
  dm ← setupRootZone dm;
  mm ← setupPgeodnsZone mm;
  '(mm, err) ← reload mm listing;
  Ret (dm, mm, err).
End manager.

(** ** Lemmas: a zone that was read has no holes *)

(** What the JSON decoder guarantees of a file: the keys of the object of each
    label are distinct. *)
Definition file_ok (f : zone_file) : Prop :=
  match f with
  | ZoneFile _ (Some objmap) => ∀ d, ("data", VObj d) ∈ objmap → data_ok d
  | _ => True
  end.

Section loaded.
Context `{GoFormat} `{GoArch} `{GoSort} `{GoRange} `{RRParser}.

Lemma read_option_spec zone data e zone' data' :
  read_option (zone, data) e = Ret (inr (zone', data')) →
  z_Labels zone' = z_Labels zone ∧ (data' = data ∨ e = ("data", VObj data')).
Proof.
  destruct e as [k v]. unfold read_option. intros Hr.
  repeat (case_decide; [
    first [ apply bind_Ret in Hr as (x & Hx & Hr)];
    first [ injection Hr as <- <-; split; [by repeat case_match|by left]
          | repeat case_match; simplify_eq; split; [done|by left]
          | apply bind_Ret in Hr as (x' & Hx' & Hr); injection Hr as <- <-; split; [done|by left]
          | subst k; injection Hr as <- <-; destruct v; try done; injection Hx as ->;
            split; [done|by right] ] |]).
  injection Hr as <- <-. by split; [|left].
Qed.

Lemma read_options_spec objmap zone data zone' data' :
  read_options (zone, data) objmap = Ret (inr (zone', data')) →
  z_Labels zone' = z_Labels zone ∧ (data' = data ∨ ("data", VObj data') ∈ objmap).
Proof.
  revert zone data. induction objmap as [|e objmap IH]; intros zone data; cbn [read_options].
  { intros [= <- <-]. by split; [|left]. }
  intros Hr. apply bind_Ret in Hr as ([err|[z1 d1]] & Hs & Hr); [done|].
  apply read_option_spec in Hs as [E1 Hd1]. apply IH in Hr as [E2 Hd2]. split; [congruence|].
  destruct Hd2 as [->|?]; [|right; by right]. destruct Hd1 as [->| ->]; [by left|right; left].
Qed.

Lemma SetLocations_no_nil z g z' :
  SetLocations z g = Ret z' → zone_no_nil z → zone_no_nil z'.
Proof.
  unfold SetLocations. intros Hr Hz. apply bind_Ret in Hr as (ls & Hls & Hr). injection Hr as <-.
  intros k l t rs. cbn. intros Hl Ht. pose proof (gmap_traverse_lookup _ _ _ k Hls) as Hk.
  destruct (z_Labels z !! k) as [l0|] eqn:E0; [|congruence].
  destruct Hk as (l1 & Hl1 & Hk). rewrite Hl in Hk. injection Hk as <-.
  destruct (l_Closest l0); [|injection Hl1 as <-; by eapply Hz].
  apply bind_Ret in Hl1 as (rs1 & Hrs1 & Hl1). injection Hl1 as <-. cbn in Ht.
  pose proof (gmap_traverse_lookup _ _ _ t Hrs1) as Hk.
  destruct (l_Records l0 !! t) as [rs0|] eqn:E1; [|congruence].
  destruct Hk as (rs2 & Hrs2 & Hk). rewrite Ht in Hk. injection Hk as <-.
  unfold locate_records in Hrs2. case_match; [|injection Hrs2 as <-; by eapply Hz].
  apply mapM_res_Forall2 in Hrs2. clear -Hrs2. induction Hrs2 as [|r r' ? ? Hr]; constructor; [|done].
  unfold locate_record in Hr. apply bind_Ret in Hr as (r0 & _ & Hr).
  destruct (rr_Data (rec_RR r0)); try (by injection Hr as <-; eexists);
    apply bind_Ret in Hr as (g' & _ & Hr); apply bind_Ret in Hr as ([loc err] & _ & Hr);
    destruct err; injection Hr as <-; by eexists.
Qed.

Lemma ReadZoneFile_no_nil g origin f zone :
  file_ok f → ReadZoneFile g (NewZone origin) f = inr zone → zone_no_nil zone.
Proof.
  unfold ReadZoneFile. destruct f as [|mtime [objmap|]]; [done| |done]. intros Hok.
  set (z := match mtime with Some t => _ | None => _ end).
  assert (Hz : z_Labels z = ∅) by (unfold z; by case_match). clearbody z.
  destruct (load_object g z objmap) as [r| |] eqn:E; [|done..]. intros ->.
  unfold load_object in E. apply bind_Ret in E as ([err|[z1 data]] & E1 & E); [done|].
  apply read_options_spec in E1 as [Hz1 Hd]. apply bind_Ret in E as (z2 & E2 & E).
  assert (Hnn : zone_no_nil z2).
  { intros k l t rs Hl Ht.
    eapply (setupZoneData_inv data z1 z2 E2 _ _ k l t rs Hl Ht). Unshelve.
    - congruence.
    - destruct Hd as [->|Hd]; [constructor|by apply Hok]. }
  repeat case_match; try (by injection E as <-).
  apply bind_Ret in E as (z3 & E3 & E). injection E as <-. by eapply SetLocations_no_nil.
Qed.
End loaded.

Lemma setupHealthTests_ok z : zone_no_nil z → ok (setupHealthTests z).
Proof.
  intros Hz. unfold setupHealthTests.
  destruct (gmap_traverse_ok (λ (_ : string) (l : Label), match l_Test l with
    | None => Ret l
    | Some _ => rs ← gmap_traverse (λ _ rs, mapM_res setup_record_test rs) (l_Records l);
        Ret (set_Records l rs) end) (z_Labels z)) as [ls ->]; [|by eexists].
  intros k l Hl. case_match; [|by eexists].
  destruct (gmap_traverse_ok (λ (_ : Z) rs, mapM_res setup_record_test rs) (l_Records l))
    as [rs ->]; [|by eexists].
  intros t rs Ht. specialize (Hz k l t rs Hl Ht). clear Ht.
  induction Hz as [|r rs [r0 ->] Hz IH]; [by eexists|]. cbn [mapM_res].
  assert (ok (setup_record_test (Some r0))) as [r' ->].
  { unfold setup_record_test. cbn. case_match; by eexists. }
  cbn [mbind res_bind]. destruct IH as [rs' ->]. by eexists.
Qed.

Lemma SetupMetrics_ok heap z old :
  ∃ heap' m, SetupMetrics heap z old = Ret (heap', set_Metrics z m) ∧
    is_Some (LabelStats m) ∧ is_Some (ClientStats m).
Proof.
  unfold SetupMetrics, setup_stats.
  destruct (match old with Some o => z_Metrics o | None => z_Metrics z end) as [[ls|] [cs|]];
    eexists _, _; split_and!; try done; by eexists.
Qed.

Lemma json_file_name_nonempty f n : json_file f = true → base_name f = Ret n → n ≠ "".
Proof.
  unfold json_file, base_name, slice_to. intros Hj Hb ->. split_bools.
  case_decide as Hd; [|done]. injection Hb as Hb.
  destruct (f_Name f) as [|a s]; [done|]. cbn [LastIndexByte] in *.
  destruct (Z.leb_spec 0 (LastIndexByte s "."%char)).
  - replace (Z.to_nat (LastIndexByte s "." + 1)) with (S (Z.to_nat (LastIndexByte s ".")))
      in Hb by lia. done.
  - destruct (Ascii.eqb_spec a "."%char) as [->|]; [|lia].
    match goal with Hp : HasPrefix _ _ = false |- _ => by destruct s end.
Qed.

(** ** The server's table mirrors the zone list *)

Definition with_dot (n : string) : string := n +:+ ".".

#[export] Instance with_dot_inj : Inj (=) (=) with_dot.
Proof.
  unfold with_dot. intros n. induction n as [|a n IH]; intros [|b m]; rewrite ?sapp_nil_l, ?sapp_cons.
  - done.
  - intros [= _ E]. by destruct m.
  - intros [= _ E]. by destruct n.
  - intros [= -> E]. f_equal. by apply IH.
Qed.

Definition name_ok (n : string) : Prop := n ≠ "" ∧ IsFqdn n = false.

(** The handlers of the server are those of the zones in the list, each under
    the fully qualified name of its zone. *)
Definition in_sync (mm : MuxManager mux_table) : Prop :=
  (∀ n, is_Some (mm_zonelist mm !! n) → name_ok n) ∧
  mm_reg mm = kmap with_dot (mm_zonelist mm).

Lemma name_ok_Fqdn n : name_ok n → Fqdn n = with_dot n.
Proof. intros [_ Hn]. unfold Fqdn. by rewrite Hn. Qed.

Lemma prune_sync seen l (mm : MuxManager mux_table) :
  in_sync mm → Forall (λ e, name_ok e.1) l →
  ∃ mm', foldM (prune_zone seen) mm l = Ret mm' ∧ in_sync mm' ∧
    ∀ k, mm_zonelist mm' !! k =
      if decide (k ∈ l.*1 ∧ k ≠ "pgeodns" ∧ k ∉ seen) then None else mm_zonelist mm !! k.
Proof.
  intros Hs Hl. revert mm Hs. induction Hl as [|[n z] l Hn Hl IH]; intros mm Hs; cbn [foldM].
  { exists mm. split_and!; [done|done|]. intros k. rewrite decide_False; [done|]. cbn. set_solver. }
  cbn [fst] in Hn.
  assert (∃ mm1, prune_zone seen mm (n, z) = Ret mm1 ∧ in_sync mm1 ∧
    ∀ k, mm_zonelist mm1 !! k =
      if decide (k = n ∧ k ≠ "pgeodns" ∧ k ∉ seen) then None else mm_zonelist mm !! k)
    as (mm1 & -> & Hs1 & H1').
  { unfold prune_zone. destruct (bool_decide (n = "pgeodns") || bool_decide (n ∈ seen)) eqn:E.
    - exists mm. split_and!; [done|done|]. intros k. rewrite decide_False; [done|].
      intros (-> & ? & ?). rewrite !bool_decide_false in E by done. done.
    - split_bools. unfold removeHandler. cbn [reg_Remove ServerReg mm_reg].
      unfold Server_Remove, mux_HandleRemove. rewrite decide_False by apply Hn.
      cbn [mbind res_bind]. eexists. split; [done|]. destruct Hs as [Hnames Hreg]. split; [split|]; cbn.
      + intros k [_ ?]%lookup_delete_is_Some. by apply Hnames.
      + rewrite name_ok_Fqdn, Hreg by done. by rewrite (kmap_delete with_dot).
      + intros k. rewrite lookup_delete. destruct (decide (n = k)) as [->|Hne].
        * by rewrite decide_True.
        * rewrite decide_False; [done|]. naive_solver. }
  cbn [mbind res_bind]. destruct (IH mm1 Hs1) as (mm' & -> & Hs' & H2'). exists mm'.
  split_and!; [done|done|]. intros k. rewrite H2', H1'. cbn [fmap list_fmap fst].
  repeat case_decide; set_solver.
Qed.
Section sync.
Context `{GoFormat} `{GoArch} `{GoSort} `{GoRange} `{RRParser}.
Context (path_Join : string → string → string).
Context (geo : option Provider) (sha256File : string → string) (read : string → zone_file).
Hypothesis read_ok : ∀ fn, file_ok (read fn).

Lemma addHandler_sync (mm : MuxManager mux_table) n zone :
  in_sync mm → name_ok n → zone_no_nil zone →
  ∃ mm' z', addHandler mm n zone = Ret mm' ∧ in_sync mm' ∧
    mm_zonelist mm' = <[n := z']> (mm_zonelist mm) ∧ mm_lastRead mm' = mm_lastRead mm.
Proof.
  intros [Hnames Hreg] Hn Hz. unfold addHandler.
  destruct (SetupMetrics_ok (mm_stats mm) zone (mm_zonelist mm !! n)) as (heap & m & -> & _).
  cbn [mbind res_bind]. destruct (setupHealthTests_ok (set_Metrics zone m)) as [z' ->]; [done|].
  cbn [mbind res_bind reg_Add ServerReg]. unfold Server_Add, mux_Handle.
  rewrite decide_False by apply Hn. cbn [mbind res_bind]. eexists _, z'. split; [done|].
  split_and!; [|done|done]. split; cbn.
  - intros k [<-|?]%lookup_insert_is_Some'; [done|by apply Hnames].
  - rewrite name_ok_Fqdn, Hreg by done. by rewrite (kmap_insert with_dot).
Qed.

Lemma read_zone_sync (mm : MuxManager mux_table) n f err :
  in_sync mm → name_ok n →
  ∃ mm' err', read_zone path_Join geo sha256File read mm n f err = Ret (mm', err') ∧ in_sync mm' ∧
    ∀ k, is_Some (mm_zonelist mm !! k) → is_Some (mm_zonelist mm' !! k).
Proof.
  intros Hs Hn. unfold read_zone. case_decide; [by eexists _, _|].
  destruct (ReadZoneFile geo (NewZone n) _) as [e|zone] eqn:E; [by eexists _, _|].
  match goal with |- context [addHandler ?m n zone] => set (mm1 := m) end.
  destruct (addHandler_sync mm1 n zone) as (mm' & z' & -> & Hs' & Hl' & _);
    [done|done|by eapply ReadZoneFile_no_nil|].
  cbn [mbind res_bind]. eexists _, _. split; [done|]. split; [done|].
  intros k Hk. rewrite Hl'. apply lookup_insert_is_Some'. by right.
Qed.

Lemma read_zone_new (mm : MuxManager mux_table) n f err mm' err' k :
  read_zone path_Join geo sha256File read mm n f err = Ret (mm', err') →
  is_Some (mm_zonelist mm' !! k) → is_Some (mm_zonelist mm !! k) ∨ k = n.
Proof.
  unfold read_zone. case_decide; [intros [= <- <-]; by left|].
  destruct (ReadZoneFile geo (NewZone n) _) as [e|zone]; [intros [= <- <-]; by left|].
  intros Hr. apply bind_Ret in Hr as (mm1 & Hadd & Hr). injection Hr as <- <-.
  unfold addHandler in Hadd. apply bind_Ret in Hadd as ([heap z1] & _ & Hadd).
  apply bind_Ret in Hadd as (z2 & _ & Hadd). apply bind_Ret in Hadd as (reg & _ & Hadd).
  injection Hadd as <-. cbn. intros [->|?]%lookup_insert_is_Some'; [by right|by left].
Qed.

Lemma reload_file_sync (mm : MuxManager mux_table) seen err f :
  in_sync mm → (∀ n, status_name f = Some n → IsFqdn n = false) →
  ∃ mm' err', reload_file path_Join geo sha256File read (mm, seen, err) f =
      Ret (mm', seen ∪ list_to_set (option_list (status_name f)), err') ∧ in_sync mm' ∧
    (∀ k, is_Some (mm_zonelist mm !! k) → is_Some (mm_zonelist mm' !! k)) ∧
    (∀ k, is_Some (mm_zonelist mm' !! k) →
       is_Some (mm_zonelist mm !! k) ∨ status_name f = Some k).
Proof.
  intros Hs Hname. unfold reload_file, status_name in *.
  destruct (json_file f) eqn:Ej; cbn [negb].
  2: { exists mm, err. assert (seen ∪ list_to_set (option_list None) = seen) as ->
      by (cbn; set_solver).
    split; [done|]. split; [done|]. split; auto. }
  destruct (json_file_base f Ej) as [n Hn]. rewrite Hn in *. cbn [mbind res_bind].
  assert (name_ok n) as Hok.
  { split; [by eapply json_file_name_nonempty|by apply Hname]. }
  assert ({[n]} ∪ seen = seen ∪ list_to_set (option_list (Some n))) as -> by (cbn; set_solver).
  destruct (needs_read mm n f); [|exists mm, err; split; [done|]; split; [done|]; split; auto].
  destruct (read_zone_sync mm n f err Hs Hok) as (mm1 & err1 & E & Hs1 & Hk1).
  rewrite E. cbn [mbind res_bind]. exists mm1, err1. split_and!; [done..|].
  intros k Hk. destruct (read_zone_new _ _ _ _ _ _ k E Hk) as [?| ->]; [by left|by right].
Qed.

Lemma reload_files_sync dir (mm : MuxManager mux_table) seen err :
  in_sync mm → (∀ n, n ∈ status_names dir → IsFqdn n = false) →
  ∃ mm' err', foldM (reload_file path_Join geo sha256File read) (mm, seen, err) dir =
      Ret (mm', seen ∪ list_to_set (status_names dir), err') ∧ in_sync mm' ∧
    (∀ k, is_Some (mm_zonelist mm !! k) → is_Some (mm_zonelist mm' !! k)) ∧
    (∀ k, is_Some (mm_zonelist mm' !! k) →
       is_Some (mm_zonelist mm !! k) ∨ k ∈ status_names dir).
Proof.
  revert mm seen err. induction dir as [|f dir IH]; intros mm seen err Hs Hnames; cbn [foldM].
  { exists mm, err. assert (seen ∪ list_to_set (status_names []) = seen) as -> by (cbn; set_solver).
    split; [done|]. split; [done|]. split; auto. }
  assert (Hcons : status_names (f :: dir) = option_list (status_name f) ++ status_names dir).
  { unfold status_names. cbn. by destruct (status_name f). }
  rewrite Hcons in *.
  destruct (reload_file_sync mm seen err f Hs) as (mm1 & err1 & -> & Hs1 & Hkeep1 & Hnew1).
  { intros n Hn. apply Hnames. rewrite Hn. left. }
  cbn [mbind res_bind].
  destruct (IH mm1 (seen ∪ list_to_set (option_list (status_name f))) err1 Hs1)
    as (mm' & err' & E & Hs' & Hkeep' & Hnew').
  { intros k Hk. apply Hnames. apply elem_of_app. by right. }
  exists mm', err'. rewrite E. split_and!; [|done|auto|].
  - by rewrite list_to_set_app_L, assoc_L by apply _.
  - intros k [Hk|?]%Hnew'; [|right; apply elem_of_app; by right].
    destruct (Hnew1 k Hk) as [?|Hn]; [by left|]. right. rewrite Hn. left.
Qed.

(** *** What a reload does with a file *)

(** The new contents of the zone [n], when its file is read: the file is new or
    newer than at the last look, its hash has changed, and it loads. *)
Definition file_update (mm : MuxManager mux_table) (n : string) (f : dir_entry) : option Zone :=
  let filename := path_Join (mm_path mm) (f_Name f) in
  let hash := match mm_lastRead mm !! n with Some r => zr_hash r | None => "" end in
  if needs_read mm n f && negb (bool_decide (hash = sha256File filename)) then
    match ReadZoneFile geo (NewZone n) (read filename) with
    | inr zone => Some zone
    | inl _ => None
    end
  else None.

(** The zone [n] of [mm'] has the new contents, with some statistics and the
    default tests, or is the one of [mm]. *)
Definition updated (mm mm' : MuxManager mux_table) (n : string) (f : dir_entry) : Prop :=
  match file_update mm n f with
  | Some zone => ∃ m z, mm_zonelist mm' !! n = Some z ∧ setupHealthTests (set_Metrics zone m) = Ret z
  | None => mm_zonelist mm' !! n = mm_zonelist mm !! n
  end.

(** What [updated] depends on. *)
Definition agrees (mm mm' : MuxManager mux_table) (n : string) : Prop :=
  mm_zonelist mm' !! n = mm_zonelist mm !! n ∧ mm_lastRead mm' !! n = mm_lastRead mm !! n ∧
  mm_path mm' = mm_path mm.

Lemma updated_agrees mm mm1 mm' n f : agrees mm mm1 n → updated mm1 mm' n f → updated mm mm' n f.
Proof.
  intros (E1 & E2 & E3). unfold updated, file_update, needs_read. by rewrite E1, E2, E3.
Qed.

Lemma addHandler_steps (mm : MuxManager mux_table) n zone mm' :
  addHandler mm n zone = Ret mm' →
  mm_lastRead mm' = mm_lastRead mm ∧ mm_path mm' = mm_path mm ∧
  ∃ m z, setupHealthTests (set_Metrics zone m) = Ret z ∧
    mm_zonelist mm' = <[n := z]> (mm_zonelist mm).
Proof.
  unfold addHandler. destruct (SetupMetrics_ok (mm_stats mm) zone (mm_zonelist mm !! n))
    as (heap & m & -> & _). cbn [mbind res_bind]. intros Hadd.
  apply bind_Ret in Hadd as (z & Hz & Hadd). apply bind_Ret in Hadd as (reg & _ & Hadd).
  injection Hadd as <-. split_and!; [done..|]. by exists m, z.
Qed.

Lemma read_zone_steps (mm : MuxManager mux_table) n f err mm' err' :
  read_zone path_Join geo sha256File read mm n f err = Ret (mm', err') →
  mm_path mm' = mm_path mm ∧ (∀ k, k ≠ n → agrees mm mm' k) ∧
  (needs_read mm n f = true → updated mm mm' n f).
Proof.
  unfold read_zone, updated, file_update, agrees. cbn [set_lastRead mm_path]. intros Hr.
  set (hash := match mm_lastRead mm !! n with Some r => zr_hash r | None => "" end) in *.
  set (filename := path_Join (mm_path mm) (f_Name f)) in *.
  destruct (decide (hash = sha256File filename)) as [E|E].
  { injection Hr as <- <-. cbn. split_and!; [done| |].
    - intros k Hk. by rewrite lookup_insert_ne.
    - intros ->. by rewrite bool_decide_true. }
  rewrite (bool_decide_false (hash = _)) by done.
  destruct (ReadZoneFile geo (NewZone n) (read filename)) as [e|zone].
  { injection Hr as <- <-. cbn. split_and!; [done| |by intros ->].
    intros k Hk. by rewrite lookup_insert_ne. }
  apply bind_Ret in Hr as (mm1 & Hadd & Hr). injection Hr as <- <-.
  apply addHandler_steps in Hadd as (El & Ep & m & z & Hz & Ez). cbn in El, Ep, Ez.
  rewrite El, Ep, Ez. split_and!; [done| |].
  - intros k Hk. by rewrite !lookup_insert_ne.
  - intros ->. exists m, z. by rewrite lookup_insert_eq.
Qed.

Lemma reload_file_steps (mm : MuxManager mux_table) seen err f mm' seen' err' :
  reload_file path_Join geo sha256File read (mm, seen, err) f = Ret (mm', seen', err') →
  (∀ k, status_name f ≠ Some k → agrees mm mm' k) ∧
  (∀ n, status_name f = Some n → updated mm mm' n f).
Proof.
  unfold reload_file, status_name. intros Hr.
  destruct (json_file f); cbn [negb] in Hr; [|by injection Hr as <- <- <-].
  apply bind_Ret in Hr as (n & Hn & Hr). rewrite Hn.
  destruct (needs_read mm n f) eqn:En.
  - apply bind_Ret in Hr as ([mm1 err1] & Hz & Hr). injection Hr as <- <- <-.
    apply read_zone_steps in Hz as (Ep & Hother & Hown).
    split; [intros k Hk; apply Hother; congruence|]. intros n' [= <-]. by apply Hown.
  - injection Hr as <- <- <-. split; [done|]. intros n' [= <-]. unfold updated, file_update. by rewrite En.
Qed.

Lemma reload_files_steps dir : ∀ (mm : MuxManager mux_table) seen err mm' seen' err',
  foldM (reload_file path_Join geo sha256File read) (mm, seen, err) dir = Ret (mm', seen', err') →
  NoDup (status_names dir) →
  (∀ k, k ∉ status_names dir → agrees mm mm' k) ∧
  (∀ f n, f ∈ dir → status_name f = Some n → updated mm mm' n f).
Proof.
  induction dir as [|f dir IH]; intros mm seen err mm' seen' err'; cbn [foldM].
  { intros [= <- <- <-] _. split; [done|]. by intros f n ?%elem_of_nil. }
  intros Hr Hnd. apply bind_Ret in Hr as ([[mm1 seen1] err1] & Hf & Hr).
  apply reload_file_steps in Hf as [Hother Hown].
  assert (Hcons : status_names (f :: dir) = option_list (status_name f) ++ status_names dir).
  { unfold status_names. cbn. by destruct (status_name f). }
  rewrite Hcons in *. apply NoDup_app in Hnd as (_ & Hdisj & Hnd).
  destruct (IH _ _ _ _ _ _ Hr Hnd) as [Hother' Hown'].
  assert (Htrans : ∀ k, agrees mm mm1 k → agrees mm1 mm' k → agrees mm mm' k).
  { unfold agrees. intros k (? & ? & ?) (? & ? & ?). split_and!; congruence. }
  split.
  - intros k Hk. rewrite elem_of_app in Hk. apply Htrans; [apply Hother|by apply Hother'; tauto].
    intros E. apply Hk. rewrite E. left. set_solver.
  - intros g n [->|Hg]%elem_of_cons Hn.
    + assert (Hnin : n ∉ status_names dir) by (apply Hdisj; rewrite Hn; set_solver).
      destruct (Hother' n Hnin) as (E & _ & _). specialize (Hown n Hn). unfold updated in *.
      destruct (file_update mm n f); rewrite E; done.
    + eapply updated_agrees; [|by apply Hown']. apply Hother. intros E.
      apply (Hdisj n); [rewrite E; set_solver|]. apply list_elem_of_omap. by exists g.
Qed.
End sync.

(** ** Properties *)

Section properties.
Context `{GoFormat} `{GoArch} `{GoSort} `{GoRange} `{RRParser}.
Context (path_Join : string → string → string).
Context (geo : option Provider) (sha256File : string → string) (read : string → zone_file).

(** C14: a reload always completes, whatever the files of the directory hold,
    and leaves the handlers of the server equal to the zone list.  Afterwards
    only zones with a file in the listing are served (and the server's own),
    and no zone whose file is still there is dropped, also when the file
    cannot be read any more. *)
Theorem reload_mirrors (mm : MuxManager mux_table) (dir : list dir_entry) :
  in_sync mm → (∀ n, n ∈ status_names dir → IsFqdn n = false) → (∀ fn, file_ok (read fn)) →
  ∃ mm' err, reload path_Join geo sha256File read mm (Some dir) = Ret (mm', err) ∧ in_sync mm' ∧
    (∀ n, is_Some (mm_zonelist mm' !! n) → n = "pgeodns" ∨ n ∈ status_names dir) ∧
    (∀ n, is_Some (mm_zonelist mm !! n) → n = "pgeodns" ∨ n ∈ status_names dir →
       is_Some (mm_zonelist mm' !! n)).
Proof.
  intros Hs Hnames Hread. unfold reload.
  destruct (reload_files_sync path_Join geo sha256File read Hread dir mm ∅ None Hs Hnames)
    as (mm1 & err & -> & Hs1 & Hkeep & _).
  cbn [mbind res_bind]. rewrite (left_id_L ∅ (∪)). set (seen := list_to_set _ : gset string).
  destruct (prune_sync seen (go_range (mm_zonelist mm1)) mm1 Hs1) as (mm' & -> & Hs' & Hl').
  { apply Forall_forall. intros [n z] Hin%elem_of_go_range. apply Hs1. by eexists. }
  cbn [mbind res_bind]. exists mm', err. split; [done|]. split; [done|].
  assert (Hseen : ∀ n, n ∈ seen ↔ n ∈ status_names dir) by (intros; unfold seen; set_solver).
  split.
  - intros n. rewrite Hl'. case_decide as Hd; [by intros [? ?]|]. intros [z Hz].
    destruct (decide (n = "pgeodns")); [by left|right]. apply Hseen.
    destruct (decide (n ∈ seen)) as [|Hnot]; [done|]. exfalso. apply Hd. split_and!; [|done|done].
    apply list_elem_of_fmap. exists (n, z). by rewrite elem_of_go_range.
  - intros n Hn%Hkeep Hor. rewrite Hl', decide_False; [done|].
    intros (_ & Hpg & Hns). rewrite Hseen in Hns. by destruct Hor.
Qed.

(** C13: A reload serves what the files say.  For each file of the listing, the
    zone of its name afterwards has the contents of the file, if the file is
    new or newer than at the last look, its hash differs from the one that
    was loaded, and it loads; and otherwise it is exactly the zone there was
    before (or none). *)
Theorem reload_contents (mm : MuxManager mux_table) (dir : list dir_entry) :
  in_sync mm → (∀ n, n ∈ status_names dir → IsFqdn n = false) → (∀ fn, file_ok (read fn)) →
  NoDup (status_names dir) →
  ∃ mm' err, reload path_Join geo sha256File read mm (Some dir) = Ret (mm', err) ∧
    ∀ f n, f ∈ dir → status_name f = Some n →
      updated path_Join geo sha256File read mm mm' n f.
Proof.
  intros Hs Hnames Hread Hnd. unfold reload.
  destruct (reload_files_sync path_Join geo sha256File read Hread dir mm ∅ None Hs Hnames)
    as (mm1 & err & E & Hs1 & _). rewrite E.
  destruct (reload_files_steps path_Join geo sha256File read Hread dir _ _ _ _ _ _ E Hnd) as [_ Hown].
  cbn [mbind res_bind]. rewrite (left_id_L ∅ (∪)). set (seen := list_to_set _ : gset string).
  destruct (prune_sync seen (go_range (mm_zonelist mm1)) mm1 Hs1) as (mm' & -> & _ & Hl').
  { apply Forall_forall. intros [n z] Hin%elem_of_go_range. apply Hs1. by eexists. }
  cbn [mbind res_bind]. exists mm', err. split; [done|]. intros f n Hf Hn.
  specialize (Hown f n Hf Hn). unfold updated in *. rewrite Hl'.
  rewrite decide_False; [done|]. intros (_ & _ & Hns). apply Hns. unfold seen.
  apply elem_of_list_to_set, list_elem_of_omap. by exists f.
Qed.

(** A zone that is reloaded keeps its statistics: the new zone holds the
    very buffers of the zone it replaces, and every zone in the list has
    both buffers. *)
Theorem addHandler_keeps_stats `{RegistrationAPI R} (mm mm' : MuxManager R) (name : string)
    (zone old : Zone) (ls cs : stats_loc) :
  addHandler mm name zone = Ret mm' → mm_zonelist mm !! name = Some old →
  z_Metrics old = mkMetrics (Some ls) (Some cs) →
  mm_stats mm' = mm_stats mm ∧
  ∃ z', mm_zonelist mm' !! name = Some z' ∧ z_Metrics z' = z_Metrics old.
Proof.
  unfold addHandler. intros Hadd Hold Hm.
  apply bind_Ret in Hadd as ([heap z1] & E1 & Hadd).
  apply bind_Ret in Hadd as (z2 & E2 & Hadd). apply bind_Ret in Hadd as (reg & _ & Hadd).
  injection Hadd as <-. rewrite Hold in E1. unfold SetupMetrics in E1. rewrite Hm in E1.
  cbn in E1. injection E1 as <- <-. cbn. split; [done|]. exists z2.
  rewrite lookup_insert_eq. split; [done|]. rewrite Hm.
  unfold setupHealthTests in E2. apply bind_Ret in E2 as (ls' & _ & E2). by injection E2 as <-.
Qed.

(** A file is read only when it is newer than at the last attempt: after a
    failed read the manager keeps the zone it has and does not look at the
    file again, whatever the file then holds, until its modification time
    grows. *)
Theorem failed_read_waits `{RegistrationAPI R} (mm mm' : MuxManager R) (n : string)
    (f f' : dir_entry) (err err' : option string) (e : string)
    (sha' : string → string) (read' : string → zone_file) (seen : gset string) :
  ReadZoneFile geo (NewZone n) (read (path_Join (mm_path mm) (f_Name f))) = inl e →
  read_zone path_Join geo sha256File read mm n f err = Ret (mm', err') →
  json_file f' = true → base_name f' = Ret n → f_ModTime f' ≤ f_ModTime f →
  mm_zonelist mm' = mm_zonelist mm ∧
  reload_file path_Join geo sha' read' (mm', seen, err) f' = Ret (mm', {[n]} ∪ seen, err).
Proof.
  intros Hfail Hr Hj Hb Hle. unfold read_zone in Hr. cbn [mm_path set_lastRead] in Hr.
  assert (Hlast : mm_zonelist mm' = mm_zonelist mm ∧
    ∃ h, mm_lastRead mm' !! n = Some (mkRead (f_ModTime f) h)).
  { case_decide.
    - injection Hr as <- <-. split; [done|]. eexists. apply lookup_insert_eq.
    - rewrite Hfail in Hr. injection Hr as <- <-. split; [done|]. eexists. apply lookup_insert_eq. }
  destruct Hlast as [-> [h Hh]]. split; [done|].
  unfold reload_file. rewrite Hj. cbn [negb]. rewrite Hb. cbn [mbind res_bind].
  unfold needs_read. rewrite Hh. cbn [zr_time].
  by rewrite (proj2 (Z.ltb_ge (f_ModTime f) (f_ModTime f'))).
Qed.
End properties.

(** ** Examples *)

Definition example_path_Join (a b : string) : string := a +:+ "/" +:+ b.
Definition example_read (fn : string) : zone_file :=
  if decide (fn = "zones/example.com.json") then
    ZoneFile (Some 1600000000) (Some [("ttl", VStr "300"); ("data", VObj example_data)])
  else OpenError "no such file".
Definition example_manager : MuxManager mux_table := mkManager ∅ ∅ "zones" ∅ [].

Lemma example_read_ok fn : file_ok (example_read fn).
Proof.
  unfold example_read. case_decide; [|done]. intros d. rewrite !elem_of_cons, elem_of_nil.
  intros [?|[[= ->]|?]]; [done|apply example_data_ok|done].
Qed.

Lemma reload_mirrors_witness :
  ∃ mm' err, @reload GoFormat_blank arch_amd64 GoSort_merge GoRange_list example_parser _ ServerReg
      example_path_Join None (λ fn, fn) example_read example_manager
      (Some [mkEntry "example.com.json" false 1600000000; mkEntry "README" false 1]) =
      Ret (mm', err) ∧ in_sync mm'.
Proof.
  destruct (@reload_mirrors GoFormat_blank arch_amd64 GoSort_merge GoRange_list example_parser
    example_path_Join None (λ fn, fn) example_read example_manager
    [mkEntry "example.com.json" false 1600000000; mkEntry "README" false 1])
    as (mm' & err & E & Hs & _).
  - split; [|reflexivity]. intros n. cbn. rewrite lookup_empty. by intros [? ?].
  - intros n Hn. cbn in Hn. apply list_elem_of_singleton in Hn as ->. reflexivity.
  - apply example_read_ok.
  - exists mm', err. split; [exact E|exact Hs].
Defined.

Lemma reload_contents_witness :
  ∃ mm' err z, @reload GoFormat_blank arch_amd64 GoSort_merge GoRange_list example_parser _ ServerReg
      example_path_Join None (λ fn, fn) example_read example_manager
      (Some [mkEntry "example.com.json" false 1600000000; mkEntry "README" false 1]) =
      Ret (mm', err) ∧ mm_zonelist mm' !! "example.com" = Some z.
Proof.
  destruct (@reload_contents GoFormat_blank arch_amd64 GoSort_merge GoRange_list example_parser
    example_path_Join None (λ fn, fn) example_read example_manager
    [mkEntry "example.com.json" false 1600000000; mkEntry "README" false 1])
    as (mm' & err & E & Hup).
  - split; [|reflexivity]. intros n. cbn. rewrite lookup_empty. by intros [? ?].
  - intros n Hn. cbn in Hn. apply list_elem_of_singleton in Hn as ->. reflexivity.
  - apply example_read_ok.
  - apply NoDup_singleton.
  - specialize (Hup (mkEntry "example.com.json" false 1600000000) "example.com"
      ltac:(left) ltac:(reflexivity)).
    unfold updated in Hup.
    destruct (file_update _ _ _ _ _ _ _) as [zone|] eqn:Ef; [|vm_compute in Ef; discriminate Ef].
    destruct Hup as (m & z & Hz & _). exists mm', err, z. split; [exact E|exact Hz].
Defined.

Lemma addHandler_keeps_stats_witness :
  let old := set_Metrics (NewZone "example.com") (mkMetrics (Some 0%nat) (Some 1%nat)) in
  let mm := mkManager tt {["example.com" := old]} "zones" ∅ [] in
  ∃ mm', addHandler mm "example.com" (NewZone "example.com") = Ret mm' ∧
    mm_stats mm' = mm_stats mm.
Proof.
  intros old mm.
  assert (E : ∃ mm', addHandler mm "example.com" (NewZone "example.com") = Ret mm')
    by (vm_compute; by eexists).
  destruct E as [mm' E]. exists mm'. split; [exact E|].
  eapply (addHandler_keeps_stats mm mm' "example.com" (NewZone "example.com") old 0 1 E);
    reflexivity.
Defined.

Lemma failed_read_waits_witness :
  let mm := mkManager tt ∅ "zones" ∅ [] in
  let f := mkEntry "broken.json" false 5 in
  ∃ mm', @read_zone GoFormat_blank arch_amd64 GoSort_merge GoRange_list example_parser _ NilReg
      example_path_Join None (λ fn, fn) example_read mm "broken" f None =
      Ret (mm', Some "Error reading zone 'broken': reading broken failed: no such file") ∧
    mm_zonelist mm' = ∅.
Proof.
  intros mm f. eexists. split; [vm_compute; reflexivity|].
  eapply (@failed_read_waits GoFormat_blank arch_amd64 GoSort_merge GoRange_list example_parser
    example_path_Join None (λ fn, fn) example_read _ NilReg mm _ "broken" f f None _ _
    (λ fn, fn) example_read ∅); [vm_compute; reflexivity|vm_compute; reflexivity|
    reflexivity|reflexivity|done].
Defined.
