(* ===== verification/Reachable.v ===== *)
(** * The states of the zone manager

    The manager starts with its own zone, reloads the directory from time to
    time, and between reloads the server adds to the statistics of the zones
    it serves.  These are the steps of a transition system; this file proves
    by rule induction what holds in every state it can reach: the handlers of
    the server mirror the zone list, the server's own zone is there, and the
    statistics of every zone in the list are alive, although reloads close the
    statistics of the zones they remove. *)

From S2P Require Import Prelude GoRuntime GoStrings GoNet Float64 TypeUtil Targeting.
From S2P Require Import DnsNames DnsMsg Health ZoneStats Zones Picker Reader MuxManager.
Local Open Scope Z_scope.

(** ** What reading a zone leaves alone *)

(** The fields that [NewZone] sets and the reader does not touch. *)
Definition z_frame (z : Zone) : ZoneMetrics * Z * string :=
  (z_Metrics z, z_LabelCount z, z_Origin z).

Section frame.
Context `{GoFormat} `{GoArch} `{GoSort} `{GoRange} `{RRParser}.

Lemma read_options_frame objmap zone data zone' data' :
  read_options (zone, data) objmap = Ret (inr (zone', data')) → z_frame zone' = z_frame zone.
Proof.
  revert zone data. induction objmap as [|[k v] objmap IH]; intros zone data; cbn [read_options].
  { by intros [= <- <-]. }
  intros Hr. apply bind_Ret in Hr as ([err|[z1 d1]] & Hs & Hr); [done|].
  rewrite (IH _ _ Hr). clear -Hs. unfold read_option in Hs.
  repeat (case_decide; [apply bind_Ret in Hs as (x & _ & Hs); repeat case_match; simplify_eq;
    try done; apply bind_Ret in Hs as (y & _ & Hs); by simplify_eq|]).
  by simplify_eq.
Qed.

Lemma setup_entry_frame dk st e st' :
  setup_entry dk st e = Ret st' → z_frame st'.1 = z_frame st.1.
Proof.
  destruct st as [z l], e as [rType rdata]. unfold setup_entry. intros Hs.
  repeat (case_decide; [apply bind_Ret in Hs as (x & _ & Hs); injection Hs as <-; cbn;
    by repeat case_match|]).
  case_match; [|by injection Hs as <-].
  destruct rdata; try (by injection Hs as <-);
    apply bind_Ret in Hs as (recs & _ & Hs); apply bind_Ret in Hs as (l' & _ & Hs);
    by injection Hs as <-.
Qed.

Lemma setup_label_frame z e z' : setup_label z e = Ret z' → z_frame z' = z_frame z.
Proof.
  destruct e as [dk dv]. unfold setup_label. intros Hs.
  apply bind_Ret in Hs as (dv' & _ & Hs). apply bind_Ret in Hs as (l0 & _ & Hs).
  apply bind_Ret in Hs as ([z3 l3] & Hloop & Hs). injection Hs as <-. cbn.
  apply (foldM_invariant _ (λ st : Zone * Label, z_frame st.1 = z_frame z)) in Hloop; [done|done|].
  intros st e st' _ <- He. by eapply setup_entry_frame.
Qed.

Lemma add_parents_frame z k : z_frame (add_parents z k) = z_frame z.
Proof.
  unfold add_parents. case_match; [|done]. revert z.
  induction (parents (Split k ".")) as [|n ns IH]; intros z; [done|]. cbn [foldl].
  rewrite IH. unfold add_missing. by case_match.
Qed.

Lemma finish_label_frame z k z' : finish_label z k = Ret z' → z_frame z' = z_frame z.
Proof.
  unfold finish_label. intros Hs. apply bind_Ret in Hs as (l & _ & Hs).
  apply bind_Ret in Hs as (l' & _ & Hs). injection Hs as <-. apply add_parents_frame.
Qed.

Lemma addSOA_frame z z' : addSOA z = Ret z' → z_frame z' = z_frame z.
Proof.
  unfold addSOA. intros Hs. apply bind_Ret in Hs as (l & _ & Hs).
  apply bind_Ret in Hs as (ns & _ & Hs). repeat case_match; try done; by injection Hs as <-.
Qed.

Lemma setupZoneData_frame data z z' : setupZoneData data z = Ret z' → z_frame z' = z_frame z.
Proof.
  unfold setupZoneData. intros Hs. apply bind_Ret in Hs as (z1 & H1' & Hs).
  apply bind_Ret in Hs as (z2 & H2' & Hs). apply addSOA_frame in Hs. rewrite Hs. clear Hs.
  trans (z_frame z1).
  - unfold finish_labels in H2'.
    apply (foldM_invariant _ (λ z, z_frame z = z_frame z1)) in H2'; [done|done|].
    intros za k zb _ <- Hf. by eapply finish_label_frame.
  - apply (foldM_invariant _ (λ z0, z_frame z0 = z_frame z)) in H1'; [done|done|].
    intros za e zb _ <- Hf. by eapply setup_label_frame.
Qed.

(** A zone that was read has no statistics yet, and the label count of its
    name. *)
Lemma ReadZoneFile_frame g origin f zone :
  ReadZoneFile g (NewZone origin) f = inr zone → z_frame zone = (mkMetrics None None, CountLabel origin, origin).
Proof.
  unfold ReadZoneFile. destruct f as [|mtime [objmap|]]; [done| |done].
  set (z := match mtime with Some t => _ | None => _ end).
  assert (Hz : z_frame z = (mkMetrics None None, CountLabel origin, origin)) by (unfold z; by case_match). clearbody z.
  destruct (load_object g z objmap) as [r| |] eqn:E; [|done..]. intros ->.
  unfold load_object in E. apply bind_Ret in E as ([err|[z1 data]] & E1 & E); [done|].
  apply read_options_frame in E1. apply bind_Ret in E as (z2 & E2 & E).
  apply setupZoneData_frame in E2.
  repeat case_match; try (injection E as <-; congruence).
  apply bind_Ret in E as (z3 & E3 & E). injection E as <-.
  unfold SetLocations in E3. apply bind_Ret in E3 as (ls & _ & E3). injection E3 as <-.
  change (z_frame (set_Labels z2 ls)) with (z_frame z2). congruence.
Qed.
End frame.

(** ** Live statistics *)

Definition live (heap : stats_store) (i : stats_loc) : Prop :=
  ∃ zs, heap !! i = Some zs ∧ stats_wf zs.

(** The buffers of a zone. *)
Definition owns (z : Zone) (i : stats_loc) : Prop :=
  LabelStats (z_Metrics z) = Some i ∨ ClientStats (z_Metrics z) = Some i.

(** Every zone of the list has its two buffers, they are alive, and no two
    zones share one. *)
Record stats_inv (heap : stats_store) (zones : gmap string Zone) : Prop := {
  si_live : ∀ n z, zones !! n = Some z →
    ∃ i j, z_Metrics z = mkMetrics (Some i) (Some j) ∧ i ≠ j ∧ live heap i ∧ live heap j;
  si_disjoint : ∀ n1 n2 z1 z2 i, zones !! n1 = Some z1 → zones !! n2 = Some z2 →
    owns z1 i → owns z2 i → n1 = n2
}.

Lemma si_owns_live heap zones n z i :
  stats_inv heap zones → zones !! n = Some z → owns z i → live heap i.
Proof.
  intros [Hl _] Hz Ho. destruct (Hl n z Hz) as (a & b & Hm & _ & ? & ?). unfold owns in Ho.
  rewrite Hm in Ho. cbn in Ho. destruct Ho as [[= <-]|[= <-]]; done.
Qed.

Lemma live_lt heap i : live heap i → (i < length heap)%nat.
Proof. intros (zs & Hzs & _). by eapply lookup_lt_Some. Qed.

Lemma new_stats : ∃ s, NewZoneLabelStats 10000 = Ret s ∧ stats_wf s.
Proof.
  eexists. split; [reflexivity|]. unfold stats_wf, len. cbn [zs_pos zs_log].
  rewrite length_replicate. lia.
Qed.

(** Set-up of the statistics: those of the old zone, or two fresh buffers. *)
Lemma SetupMetrics_cases heap z old heap' z' :
  SetupMetrics heap z old = Ret (heap', z') → z_Metrics z = mkMetrics None None →
  (∀ o, old = Some o → ∃ i j, z_Metrics o = mkMetrics (Some i) (Some j)) →
  (∃ o, old = Some o ∧ heap' = heap ∧ z_Metrics z' = z_Metrics o) ∨
  (old = None ∧ ∃ s, stats_wf s ∧ heap' = heap ++ [s; s] ∧
     z_Metrics z' = mkMetrics (Some (length heap)) (Some (S (length heap)))).
Proof.
  intros Hs Hz Ho. unfold SetupMetrics in Hs. destruct old as [o|].
  - destruct (Ho o eq_refl) as (i & j & Hm). rewrite Hm in Hs. cbn in Hs. injection Hs as <- <-.
    left. exists o. by rewrite Hm.
  - right. split; [done|]. rewrite Hz in Hs. destruct new_stats as (s & Hnew & Hwf). exists s.
    unfold setup_stats in Hs. cbn [LabelStats ClientStats] in Hs. rewrite Hnew in Hs.
    cbn [mbind res_bind] in Hs.
    injection Hs as <- <-. cbn. rewrite length_app, Nat.add_1_r.
    split; [done|]. by rewrite <-app_assoc.
Qed.

Lemma live_app heap k i : live heap i → live (heap ++ k) i.
Proof. intros (zs & Hzs & Hwf). exists zs. split; [|done]. by apply lookup_app_l_Some. Qed.

Lemma stats_inv_insert heap zones n z z' heap' :
  stats_inv heap zones → z_Metrics z = mkMetrics None None →
  SetupMetrics heap z (zones !! n) = Ret (heap', z') →
  ∀ z'', z_Metrics z'' = z_Metrics z' → stats_inv heap' (<[n := z'']> zones).
Proof.
  intros Hinv Hz Hs z'' Hm''.
  apply SetupMetrics_cases in Hs; [|done|].
  2: { intros o Ho. destruct (si_live _ _ Hinv n o Ho) as (i & j & ? & _). eauto. }
  destruct Hs as [(o & Ho & -> & Hm)|(Hnone & s & Hwf & -> & Hm)].
  - assert (Heq : ∀ i, owns z'' i ↔ owns o i) by (intros; unfold owns; by rewrite Hm'', Hm).
    split.
    + intros m zm [[<- <-]|[_ Hzm]]%lookup_insert_Some; [|by eapply (si_live _ _ Hinv)].
      rewrite Hm'', Hm. by eapply (si_live _ _ Hinv).
    + intros n1 n2 z1 z2 i H1 H2 Ho1 Ho2.
      assert (Hback : ∀ m zm, <[n := z'']> zones !! m = Some zm → owns zm i →
        ∃ zm', zones !! m = Some zm' ∧ owns zm' i).
      { intros m zm [[<- <-]|[_ ?]]%lookup_insert_Some Hown; [exists o; by rewrite <-Heq|eauto]. }
      destruct (Hback _ _ H1 Ho1) as (z1' & ? & ?). destruct (Hback _ _ H2 Ho2) as (z2' & ? & ?).
      by eapply (si_disjoint _ _ Hinv).
  - assert (Hfresh : ∀ i, owns z'' i → (length heap ≤ i)%nat).
    { intros i. unfold owns. rewrite Hm'', Hm. cbn. intros [[= <-]|[= <-]]; lia. }
    assert (Hold : ∀ m zm i, zones !! m = Some zm → owns zm i → (i < length heap)%nat).
    { intros m zm i Hzm Ho. by eapply live_lt, si_owns_live. }
    split.
    + intros m zm [[<- <-]|[_ Hzm]]%lookup_insert_Some.
      * rewrite Hm'', Hm. eexists _, _. split; [done|]. split; [lia|]. split; exists s; split; try done.
        -- rewrite lookup_app_r by lia. by rewrite Nat.sub_diag.
        -- rewrite lookup_app_r by lia. by replace (S (length heap) - length heap)%nat with 1%nat by lia.
      * destruct (si_live _ _ Hinv m zm Hzm) as (i & j & ? & ? & ? & ?).
        exists i, j. split_and!; auto using live_app.
    + intros n1 n2 z1 z2 i [[<- <-]|[Hn1 H1]]%lookup_insert_Some [[<- <-]|[Hn2 H2]]%lookup_insert_Some
        Ho1 Ho2; [done| | |by eapply (si_disjoint _ _ Hinv)].
      * apply Hfresh in Ho1. eapply Hold in Ho2; [lia|done].
      * apply Hfresh in Ho2. eapply Hold in Ho1; [lia|done].
Qed.

(** Closing and removing a zone leaves the buffers of the others alone. *)
Lemma stats_inv_close heap zones n z :
  stats_inv heap zones → zones !! n = Some z → stats_inv (Zone_Close heap z) (delete n zones).
Proof.
  intros Hinv Hz.
  assert (Hlive : ∀ i, live heap i → ¬ owns z i → live (Zone_Close heap z) i).
  { intros i (zs & Hzs & Hwf) Hno. exists zs. split; [|done]. unfold Zone_Close, close_stats.
    unfold owns in Hno.
    destruct (LabelStats (z_Metrics z)) as [a|], (ClientStats (z_Metrics z)) as [b|];
      rewrite ?list_lookup_alter_ne by (intros ->; auto); done. }
  split.
  - intros m zm [Hne Hzm]%lookup_delete_Some.
    destruct (si_live _ _ Hinv m zm Hzm) as (i & j & Hm & Hij & Hi & Hj).
    exists i, j. split_and!; [done|done|apply Hlive; [done|]..];
      intros Ho; apply Hne; eapply (si_disjoint _ _ Hinv n m); try done; unfold owns; rewrite Hm; auto.
  - intros n1 n2 z1 z2 i [_ ?]%lookup_delete_Some [_ ?]%lookup_delete_Some.
    by eapply (si_disjoint _ _ Hinv).
Qed.

(** A query adds to a buffer. *)
Lemma stats_Add_live heap i l :
  live heap i → ∃ heap', stats_Add heap (Some i) l = Ret heap' ∧
    ∀ k, live heap k → live heap' k.
Proof.
  intros (zs & Hzs & Hwf). destruct (add_step zs l Hwf) as (zs' & Hadd & Hwf' & _).
  unfold stats_Add. cbn [deref mbind res_bind]. rewrite Hzs. cbn [deref mbind res_bind].
  rewrite Hadd. cbn [mbind res_bind]. eexists. split; [done|].
  intros k (zk & Hzk & Hwfk). destruct (decide (i = k)) as [->|Hne].
  - exists zs'. split; [|done]. apply list_lookup_insert_eq. by eapply lookup_lt_Some.
  - exists zk. split; [|done]. by rewrite list_lookup_insert_ne.
Qed.

(** ** The transition system *)

(** What a reload finds in the file system. *)
Record world := mkWorld {
  w_geo : option Provider;
  w_sha256 : string → string;
  w_read : string → zone_file;
  w_listing : option (list dir_entry)
}.

(** The decoded objects have distinct keys, and no file name (without its
    suffix) ends in a dot. *)
Definition world_ok (w : world) : Prop :=
  (∀ fn, file_ok (w_read w fn)) ∧
  (∀ dir n, w_listing w = Some dir → n ∈ status_names dir → IsFqdn n = false).

Section reachable.
Context `{GoFormat} `{GoArch} `{GoSort} `{GoRange} `{RRParser}.
Context (path_Join : string → string → string).

Definition reload_in (w : world) (mm : MuxManager mux_table) : res (MuxManager mux_table * option string) :=
  reload path_Join (w_geo w) (w_sha256 w) (w_read w) mm (w_listing w).

Definition start_in (w : world) (path : string) : res (MuxManager mux_table * option string) :=
  '(_, mm, err) ← NewMuxManager path_Join (w_geo w) (w_sha256 w) (w_read w) ∅ path ∅ (w_listing w);
  Ret (mm, err).

(** [Run]: the endless loop of reloads, for as many rounds as there are worlds;
    the lines it logs. *)
Fixpoint Run (ws : list world) (mm : MuxManager mux_table) :
    res (MuxManager mux_table * list string) :=
  match ws with
  | [] => Ret (mm, [])
  | w :: ws =>
      '(mm, err) ← reload_in w mm;
      '(mm, lines) ← Run ws mm;
      Ret (mm, match err with Some err => ("error reading zones: " +:+ err) :: lines | None => lines end)
  end.

Definition set_stats (mm : MuxManager mux_table) (heap : stats_store) : MuxManager mux_table :=
  mkManager (mm_reg mm) (mm_zonelist mm) (mm_path mm) (mm_lastRead mm) heap.

(** The states of the manager: after its start, after a reload, and after a
    query that adds to a buffer of a zone it serves. *)
Inductive reachable : MuxManager mux_table → Prop :=
| reach_start w path mm err :
    world_ok w → start_in w path = Ret (mm, err) → reachable mm
| reach_reload w mm mm' err :
    reachable mm → world_ok w → reload_in w mm = Ret (mm', err) → reachable mm'
| reach_query mm n z i l heap :
    reachable mm → mm_zonelist mm !! n = Some z → owns z i →
    stats_Add (mm_stats mm) (Some i) l = Ret heap → reachable (set_stats mm heap).

(** What holds in every state. *)
Record manager_inv (mm : MuxManager mux_table) : Prop := {
  mi_sync : in_sync mm;
  mi_self : is_Some (mm_zonelist mm !! "pgeodns");
  mi_stats : stats_inv (mm_stats mm) (mm_zonelist mm)
}.

Lemma addHandler_inv mm n zone mm' :
  addHandler mm n zone = Ret mm' → stats_inv (mm_stats mm) (mm_zonelist mm) →
  z_Metrics zone = mkMetrics None None → stats_inv (mm_stats mm') (mm_zonelist mm').
Proof.
  unfold addHandler. intros Hadd Hinv Hz. apply bind_Ret in Hadd as ([heap z1] & E1 & Hadd).
  apply bind_Ret in Hadd as (z2 & E2 & Hadd). apply bind_Ret in Hadd as (reg & _ & Hadd).
  injection Hadd as <-. cbn. eapply stats_inv_insert; [done|done|done|].
  unfold setupHealthTests in E2. apply bind_Ret in E2 as (ls' & _ & E2). by injection E2 as <-.
Qed.

Lemma read_zone_inv w mm n f err mm' err' :
  read_zone path_Join (w_geo w) (w_sha256 w) (w_read w) mm n f err = Ret (mm', err') →
  stats_inv (mm_stats mm) (mm_zonelist mm) → stats_inv (mm_stats mm') (mm_zonelist mm').
Proof.
  unfold read_zone. intros Hr Hinv. case_decide; [by injection Hr as <- <-|].
  destruct (ReadZoneFile _ _ _) as [e|zone] eqn:E; [by injection Hr as <- <-|].
  apply bind_Ret in Hr as (mm1 & Hadd & Hr). injection Hr as <- <-.
  eapply addHandler_inv; [exact Hadd|done|apply ReadZoneFile_frame in E; by injection E].
Qed.

Lemma reload_file_inv w mm seen err f st :
  reload_file path_Join (w_geo w) (w_sha256 w) (w_read w) (mm, seen, err) f = Ret st →
  stats_inv (mm_stats mm) (mm_zonelist mm) →
  stats_inv (mm_stats st.1.1) (mm_zonelist st.1.1).
Proof.
  unfold reload_file. intros Hr Hinv. case_match; [by injection Hr as <-|].
  apply bind_Ret in Hr as (n & _ & Hr). case_match; [|by injection Hr as <-].
  apply bind_Ret in Hr as ([mm1 err1] & Hz & Hr). injection Hr as <-. cbn.
  by eapply read_zone_inv.
Qed.

(** The removals: each zone of the rest of the list is still in the zone list
    when its turn comes. *)
Lemma prune_inv seen l mm mm' :
  foldM (prune_zone seen) mm l = Ret mm' → NoDup l.*1 →
  (∀ n z, (n, z) ∈ l → mm_zonelist mm !! n = Some z) →
  stats_inv (mm_stats mm) (mm_zonelist mm) → stats_inv (mm_stats mm') (mm_zonelist mm').
Proof.
  revert mm. induction l as [|[n z] l IH]; intros mm; cbn [foldM]; [by intros [= <-]|].
  intros Hr Hnd Hin Hinv. apply bind_Ret in Hr as (mm1 & Hp & Hr).
  cbn [fmap list_fmap fst] in Hnd. apply NoDup_cons in Hnd as [Hnin Hnd].
  assert (Hrest : ∀ m zm, (m, zm) ∈ l → m ≠ n).
  { intros m zm Hm ->. apply Hnin. apply list_elem_of_fmap. by exists (n, zm). }
  unfold prune_zone in Hp. destruct (bool_decide (n = "pgeodns") || bool_decide (n ∈ seen)).
  - injection Hp as <-. apply (IH mm Hr Hnd); [|done]. intros m zm Hm. apply Hin. by right.
  - unfold removeHandler in Hp. apply bind_Ret in Hp as (reg & _ & Hp). injection Hp as <-.
    apply (IH _ Hr Hnd); cbn.
    + intros m zm Hm. rewrite lookup_delete_ne by (symmetry; by eapply Hrest).
      apply Hin. by right.
    + apply stats_inv_close; [done|]. apply Hin. left.
Qed.

(** A reload from a good state completes and leads to a good state. *)
Lemma reload_in_inv w mm :
  world_ok w → manager_inv mm → ∃ mm' err, reload_in w mm = Ret (mm', err) ∧ manager_inv mm'.
Proof.
  intros [Hread Hnames] [Hs Hself Hinv]. unfold reload_in, reload.
  destruct (w_listing w) as [dir|]; [|by eexists mm, _].
  destruct (reload_files_sync path_Join (w_geo w) (w_sha256 w) (w_read w) Hread dir mm ∅ None Hs)
    as (mm1 & err & E & Hs1 & Hkeep & _).
  { intros n. by apply Hnames. }
  assert (Hinv1 : stats_inv (mm_stats mm1) (mm_zonelist mm1)).
  { apply (foldM_invariant _ (λ st, stats_inv (mm_stats st.1.1) (mm_zonelist st.1.1))) in E as HI;
      [done|done|]. intros [[m0 s0] e0] f st _ Hi Hf. by eapply reload_file_inv. }
  rewrite E. cbn [mbind res_bind].
  destruct (prune_sync (∅ ∪ list_to_set (status_names dir)) (go_range (mm_zonelist mm1)) mm1 Hs1)
    as (mm2 & E2 & Hs2 & Hl2).
  { apply Forall_forall. intros [n z] Hin%elem_of_go_range. apply Hs1. by eexists. }
  rewrite E2. cbn [mbind res_bind]. exists mm2, err. split; [done|]. split; [done| |].
  - rewrite Hl2, decide_False by naive_solver. by apply Hkeep.
  - eapply prune_inv; [exact E2|apply NoDup_go_range| |done].
    intros n z. by rewrite elem_of_go_range.
Qed.

(** The start: the server's own zone, and a first reload. *)
Lemma start_in_steps w path mm err :
  start_in w path = Ret (mm, err) →
  ∃ mm1, setupPgeodnsZone (mkManager ∅ ∅ path ∅ []) = Ret mm1 ∧ reload_in w mm1 = Ret (mm, err).
Proof.
  unfold start_in, NewMuxManager. intros Hr. apply bind_Ret in Hr as ([[dm mm'] err'] & Hn & Hr).
  injection Hr as <- <-. apply bind_Ret in Hn as (dm1 & _ & Hn). apply bind_Ret in Hn as (mm1 & Hp & Hn).
  apply bind_Ret in Hn as ([mm2 err2] & Hr & Hn). injection Hn as _ <- <-. by exists mm1.
Qed.

Lemma start_in_inv w path mm err :
  start_in w path = Ret (mm, err) → world_ok w → manager_inv mm.
Proof.
  intros (mm1 & Hp & Hr)%start_in_steps Hw.
  enough (Hinv1 : manager_inv mm1).
  { destruct (reload_in_inv w mm1 Hw Hinv1) as (mm' & err' & E & ?).
    rewrite Hr in E. by injection E as <- <-. }
  unfold setupPgeodnsZone in Hp. apply bind_Ret in Hp as (zone & Hsoa & Hp).
  assert (Hz : z_Metrics zone = mkMetrics None None) by (apply addSOA_frame in Hsoa; by injection Hsoa).
  assert (Hinv0 : stats_inv [] ∅) by (split; intros *; by rewrite lookup_empty).
  enough (in_sync mm1 ∧ is_Some (mm_zonelist mm1 !! "pgeodns")) as [? ?]
    by (split; [done|done|by eapply addHandler_inv]).
  clear Hr. unfold addHandler in Hp. apply bind_Ret in Hp as ([heap z1] & _ & Hp).
  apply bind_Ret in Hp as (z2 & _ & Hp). apply bind_Ret in Hp as (reg & Hreg & Hp).
  injection Hp as <-. cbn [mm_reg reg_Add ServerReg] in Hreg. unfold Server_Add, mux_Handle in Hreg.
  rewrite decide_False in Hreg by done. injection Hreg as <-. split; [split|]; cbn.
  - intros n [z Hn]. apply lookup_singleton_Some in Hn as [<- _]. done.
  - change (Fqdn "pgeodns") with (with_dot "pgeodns").
    by rewrite (kmap_insert with_dot), (kmap_empty with_dot).
  - rewrite lookup_insert_eq. by eexists.
Qed.

Lemma reachable_inv mm : reachable mm → manager_inv mm.
Proof.
  induction 1 as [w path mm err Hw Hr|w mm mm' err Hre IH Hw Hr|mm n z i l heap Hre IH Hz Ho Hadd].
  - by eapply start_in_inv.
  - destruct (reload_in_inv w mm Hw IH) as (mm'' & err'' & E & ?). rewrite Hr in E.
    by injection E as <- <-.
  - destruct IH as [Hs Hself Hinv]. split; [exact Hs|exact Hself|]. cbn.
    destruct (stats_Add_live (mm_stats mm) i l) as (heap' & E & Hlive).
    { by eapply si_owns_live. }
    rewrite Hadd in E. injection E as <-. split; [|apply (si_disjoint _ _ Hinv)].
    intros m zm Hzm. destruct (si_live _ _ Hinv m zm Hzm) as (a & b & ? & ? & ? & ?).
    exists a, b. split_and!; auto.
Qed.

(** The loop of reloads completes every round and stays in reachable states. *)
Lemma Run_reachable ws mm :
  Forall world_ok ws → reachable mm → ∃ mm' lines, Run ws mm = Ret (mm', lines) ∧ reachable mm'.
Proof.
  intros Hws. revert mm. induction Hws as [|w ws Hw _ IH]; intros mm Hre; cbn [Run]; [by exists mm, []|].
  destruct (reload_in_inv w mm Hw (reachable_inv mm Hre)) as (mm1 & err & E & _).
  destruct (IH mm1) as (mm' & lines & E' & Hre'); [by eapply reach_reload|].
  rewrite E. cbn [mbind res_bind]. rewrite E'. cbn [mbind res_bind]. by eexists _, _.
Qed.

(** C15: in every state the manager can reach, the handlers of the server
    mirror the zone list and the server's own zone is served; a query for any
    zone of the list can be counted in both its buffers, although reloads
    close buffers; and the loop of reloads completes every round, whatever it
    finds in the directory, and stays in such states. *)
Theorem reachable_manager (mm : MuxManager mux_table) :
  reachable mm →
  in_sync mm ∧ is_Some (mm_zonelist mm !! "pgeodns") ∧
  (∀ n z label client, mm_zonelist mm !! n = Some z →
     ∃ heap1 heap2, stats_Add (mm_stats mm) (LabelStats (z_Metrics z)) label = Ret heap1 ∧
       stats_Add heap1 (ClientStats (z_Metrics z)) client = Ret heap2) ∧
  (∀ ws, Forall world_ok ws → ∃ mm' lines, Run ws mm = Ret (mm', lines) ∧ reachable mm').
Proof.
  intros Hre. apply reachable_inv in Hre as Hmi. destruct (Hmi) as [Hs Hself Hinv].
  split_and!; [done|done| |].
  - intros n z label client Hz. destruct (si_live _ _ Hinv n z Hz) as (i & j & Hm & _ & Hi & Hj).
    rewrite Hm. cbn [LabelStats ClientStats].
    destruct (stats_Add_live (mm_stats mm) i label Hi) as (heap1 & E1 & Hl1).
    destruct (stats_Add_live heap1 j client (Hl1 j Hj)) as (heap2 & E2 & _). by exists heap1, heap2.
  - intros ws Hws. by apply Run_reachable.
Qed.
End reachable.

(** ** Example *)

Definition example_world : world :=
  mkWorld None (λ fn, fn) example_read (Some [mkEntry "example.com.json" false 1600000000]).

Definition example_start : res (MuxManager mux_table * option string) :=
  @start_in GoFormat_blank arch_amd64 GoSort_merge GoRange_list example_parser example_path_Join
    example_world "zones".

Definition example_state : MuxManager mux_table :=
  match example_start with Ret (mm, _) => mm | _ => example_manager end.

Lemma example_start_ok :
  @start_in GoFormat_blank arch_amd64 GoSort_merge GoRange_list example_parser example_path_Join
    example_world "zones" = Ret (example_state, None).
Proof. vm_compute. reflexivity. Qed.

Lemma example_world_ok : world_ok example_world.
Proof.
  split; [apply example_read_ok|]. intros dir n [= <-] Hn. cbn in Hn.
  apply list_elem_of_singleton in Hn as ->. reflexivity.
Qed.

Lemma reachable_manager_witness :
  in_sync example_state ∧ is_Some (mm_zonelist example_state !! "pgeodns").
Proof.
  destruct (@reachable_manager GoFormat_blank arch_amd64 GoSort_merge GoRange_list example_parser
    example_path_Join example_state) as (Hs & Hself & _).
  - exact (reach_start _ _ _ _ _ example_world_ok example_start_ok).
  - split; [exact Hs|exact Hself].
Defined.
