(* ===== verification/Server.v ===== *)
(** * server/serve.go and server/server.go: answering a query

    [serve] is the whole handler: it reads the request, the zone, the health
    registry, the provider and the random generator, and produces the
    messages written to the client, the entry of the query log, and the
    updated statistics.  The request's OPT record is a shared object: the
    handler writes the scope into the option it found, and looking up the
    targets may clear the last byte of the option's address; the record that
    goes into the answer shows both.  The application log is not
    modelled. *)

From S2P Require Import Prelude GoRuntime GoStrings GoNet Float64 TypeUtil Targeting.
From S2P Require Import DnsNames DnsMsg Health ZoneStats Zones Picker Reader MuxManager QueryLog.
Local Open Scope Z_scope.

(** ** Names *)

Definition getQuestionName (z : Zone) (fqdn : string) : res string :=
  let lx := SplitDomainName fqdn in
  let n := len lx - z_LabelCount z in
  if decide (0 ≤ n ≤ len lx)
  then Ret (ToLower (Join (take (Z.to_nat n) lx) "."))
  else Panic "slice bounds out of range".

(** [getIPFromDomain]; the empty address is nil, and comes with an error. *)
Definition getIPFromDomain (domain : string) : res (IP * error) :=
  dashedIP ← index (Split domain "."%char) 0;
  let ipstr := ReplaceByte dashedIP "-"%char "."%char in
  match ParseIP ipstr with
  | [] => Ret ([], Some "Invalid IP from domain address")
  | ip => Ret (ip, None)
  end.

(** ** The client subnet option *)

(** Where the handler found the option it uses: the index of the OPT record
    in the additional section and of the option in the record. *)
Record found_subnet := mkFound { fs_rr : nat; fs_opt : nat; fs_subnet : EDNS0_SUBNET }.

(** One option of the OPT record at [i]: [opt_rr] is set for every option,
    [edns] for a subnet with an address. *)
Definition scan_option (i : nat) (st : option nat * option found_subnet) (jo : nat * EDNS0) :
    option nat * option found_subnet :=
  match jo.2 with
  | OptSubnet e =>
      match e_Address e with
      | [] => (Some i, st.2)
      | _ => (Some i, Some (mkFound i jo.1 e))
      end
  | OptOther _ => (Some i, st.2)
  end.

Definition scan_rr (st : option nat * option found_subnet) (irr : nat * RR) :
    option nat * option found_subnet :=
  match rr_Data irr.2 with
  | RD_OPT options => foldl (scan_option irr.1) st (imap pair options)
  | _ => st
  end.

Definition scan_extra (extra : list RR) : option nat * option found_subnet :=
  foldl scan_rr (None, None) (imap pair extra).

(** The option with the address as the targeting left it and the scope set. *)
Definition set_scope (e : EDNS0_SUBNET) (ip : IP) (netmask : Z) : EDNS0_SUBNET :=
  mkSubnet (e_Family e) (e_SourceNetmask e) (uint8 netmask) ip.

Definition update_options (j : nat) (e : EDNS0_SUBNET) (d : RData) : RData :=
  match d with
  | RD_OPT options => RD_OPT (<[j := OptSubnet e]> options)
  | d => d
  end.

Definition update_rr (j : nat) (e : EDNS0_SUBNET) (rr : RR) : RR :=
  mkRR (rr_Hdr rr) (update_options j e (rr_Data rr)).

(** The additional section of the answer: the OPT record [opt_rr] of the
    request, after the option [edns] was updated. *)
Definition echo_subnet (extra : list RR) (opt_rr : option nat) (edns : option found_subnet)
    (ip : IP) (netmask : Z) : list RR :=
  match edns with
  | None => []
  | Some f =>
      if e_Family (fs_subnet f) =? 0 then []
      else
        let netmask := if netmask <? 16 then 16 else netmask in
        let e := set_scope (fs_subnet f) ip netmask in
        let extra := alter (update_rr (fs_opt f) e) (fs_rr f) extra in
        option_list (opt_rr ≫= λ i, extra !! i)
  end.

(** ** monitor/monitor.go *)

Record ServerInfo := mkServerInfo {
  si_Version : string;
  si_ID : string;
  si_IP : string;
  si_UUID : string;
  si_Groups : list string;
  si_Started : Z
}.

(** ** The handler *)

Record Server := mkServer {
  srv_queryLogger : bool;
  srv_PublicDebugQueries : bool;
  srv_info : ServerInfo
}.

(** The peer: a UDP or TCP address, or another kind; and how it prints. *)
Inductive RemoteAddr :=
| UDPAddr (ip : IP) (str : string)
| TCPAddr (ip : IP) (str : string)
| OtherAddr (str : string).

Definition addr_IP (a : RemoteAddr) : IP :=
  match a with UDPAddr ip _ => ip | TCPAddr ip _ => ip | OtherAddr _ => [] end.
Definition addr_String (a : RemoteAddr) : string :=
  match a with UDPAddr _ s => s | TCPAddr _ s => s | OtherAddr s => s end.

Definition set_name (rr : RR) (name : string) : RR :=
  let h := rr_Hdr rr in
  mkRR (mkHdr name (h_Rrtype h) (h_Class h) (h_Ttl h) (h_Rdlength h)) (rr_Data rr).

(** Copies of the picked records under the name that was asked for. *)
Definition copy_records (qname : string) (servers : Records) : res (list RR) :=
  mapM_res (λ record, r ← deref record; Ret (set_name (rec_RR r) qname)) servers.

(** The labels under which the counter dns_queries_total is increased; the type
    and the code are printed with the tables of the dns package. *)
Record QueryLabels := mkQueryLabels {
  ql_zone : string;
  ql_qtype : Z;
  ql_qname : string;
  ql_rcode : Z
}.

(** What a run of the handler does. *)
Record outcome {rng : Type} := mkOutcome {
  out_msgs : list Msg;
  out_log : option Entry;
  out_query : option QueryLabels;
  out_stats : stats_store;
  out_rng : rng
}.
Arguments outcome : clear implicits.
Arguments mkOutcome {rng}.

(** What the handler sees of its surroundings: how a location is printed, the
    name of the host, the JSON encoding of a map of strings, whether a message
    can be packed and written, and the time. *)
Class HandlerEnv := {
  format_location : Location → string;
  os_Hostname : option string;
  json_Marshal : gmap string string → string;
  can_write : Msg → bool;
  now : Z
}.

(** [int(d.Seconds())] of a duration in nanoseconds. *)
Definition whole_seconds `{GoArch} (d : Z) : Z :=
  int_of_float (fadd (float_of_Z (d `quot` 1000000000))
                  (fdiv (float_of_Z (d `rem` 1000000000)) (float_of_Z 1000000000))).

Section serve.
Context `{HandlerEnv} `{GoArch} `{GreatCircle} `{GoRand rng} `{GoRange}.

(** [time.Since]: the difference, saturated to a 64-bit duration. *)
Definition time_Since (t : Z) : Z := Z.max min_int (Z.min max_int (now - t)).

(** The status of the server: version, identifier, host and uptime. *)
Definition status_map (info : ServerInfo) : gmap string string :=
  let status : gmap string string := {["v" := si_Version info; "id" := si_ID info]} in
  let status := match os_Hostname with Some h => <["h" := h]> status | None => status end in
  <["up" := Itoa (whole_seconds (time_Since (si_Started info)))]> status.

Definition statusRR (srv : Server) (label : string) : list RR :=
  [mkRR (mkHdr label TypeTXT ClassINET 1 0) (RD_TXT [json_Marshal (status_map (srv_info srv))])].

(** The loop over the matches: the answer, the label that gave it, and the
    generator.  The location is forgotten at the first label that is not
    "closest". *)
Fixpoint answer_matches (reg : registry) (qname : string) (location : option Location)
    (answer : list RR) (matches : list LabelMatch) (g : rng) :
    res (list RR * option Label * rng) :=
  match matches with
  | [] => Ret (answer, None, g)
  | m :: matches =>
      label ← deref (lm_Label m);
      let location := if l_Closest label then location else None in
      '(servers, g) ← Picker reg label (lm_Type m) (l_MaxHosts label) location g;
      answer ← match servers with
               | Some servers => copy_records qname servers
               | None => Ret answer
               end;
      match answer with
      | [] => answer_matches reg qname location answer matches g
      | _ => Ret (answer, Some label, g)
      end
  end.

Definition is_debug_type (qtype : Z) : bool := (qtype =? TypeANY) || (qtype =? TypeTXT).

(** The answer when the zone has no match, and what is counted: only the
    NXDOMAIN replies, under the name "_error". *)
Definition no_match_reply (srv : Server) (z : Zone) (geo : option Provider) (addr : RemoteAddr)
    (req m : Msg) (qname qlabel : string) (qtype : Z) (realIP ip : IP) :
    res (Msg * option QueryLabels) :=
  let permitDebug := srv_PublicDebugQueries srv || IsLoopback realIP in
  firstLabel ← index (Split qlabel "."%char) 0;
  let full := qlabel +:+ "." +:+ z_Origin z +:+ "." in
  let with_SOA := soa ← SoaRR z; Ret (set_Authoritative (set_Ns m (m_Ns m ++ [soa])), None) in
  if permitDebug && bool_decide (firstLabel = "_status") then
    if is_debug_type qtype then Ret (set_Authoritative (set_Answer m (statusRR srv full)), None)
    else with_SOA
  else if permitDebug && bool_decide (firstLabel = "_health") then
    if is_debug_type qtype then Ret (set_Authoritative (set_Answer m (HealthRR full)), None)
    else with_SOA
  else if bool_decide (firstLabel = "_country") then
    if is_debug_type qtype then
      let txt := [addr_String addr; IP_String ip] in
      '(targets, netmask, location, _) ← GetTargets (o_Targeting (z_Options z)) geo ip (z_HasClosest z);
      let txt := txt ++ [Join targets " "; "/" +:+ Itoa netmask; si_ID (srv_info srv); si_IP (srv_info srv)] in
      let txt := txt ++ [match location with Some l => format_location l | None => "()" end] in
      Ret (set_Authoritative (set_Answer m
             [mkRR (mkHdr qname TypeTXT ClassINET 1 0) (RD_TXT txt)]), None)
    else with_SOA
  else
    let m := SetRcode m req RcodeNameError in
    let counted := mkQueryLabels (z_Origin z) qtype "_error" (m_Rcode m) in
    let m := set_Authoritative m in
    soa ← SoaRR z;
    Ret (set_Ns m [soa], Some counted).

(** The end of the answer: a reply without records gets the SOA, so that it is
    cached; and what is counted. *)
Definition answered_reply (z : Zone) (qlabel : string) (qtype : Z) (m : Msg) :
    res (Msg * QueryLabels) :=
  m ← match m_Answer m with
      | [] => soa ← SoaRR z; Ret (set_Ns m (m_Ns m ++ [soa]))
      | _ => Ret m
      end;
  Ret (m, mkQueryLabels (z_Origin z) qtype qlabel (m_Rcode m)).

(** [w.WriteMsg(m)] followed by [HandleFailed] when it fails. *)
Definition write_or_fail (req m : Msg) : list Msg :=
  if can_write m then [m]
  else if can_write (HandleFailed req) then [HandleFailed req] else [].

Definition write (m : Msg) : list Msg := if can_write m then [m] else [].

(** What is sent of the reply [m]: the reply itself, if it can be packed and
    written.  Instead of a reply to a name that was found the failure of the
    request is sent, instead of the other replies nothing. *)
Definition sent (found : bool) (req m : Msg) : list Msg :=
  if found then write_or_fail req m else write m.

Definition serve (fuel : nat) (srv : Server) (reg : registry) (geo : option Provider)
    (heap : stats_store) (g : rng) (z : Zone) (addr : RemoteAddr) (req : Msg) :
    res (outcome rng) :=
  q ← index (m_Question req) 0;
  let qname := q_Name q in
  let qtype := q_Qtype q in
  if (qtype =? TypeA) && z_ParseIP z then
    '(ip, _) ← getIPFromDomain qname;
    let m := set_Answer (SetReply new_Msg req)
               [mkRR (mkHdr qname 1 1 86400 0) (RD_A ip)] in
    Ret (mkOutcome (write m) None None heap g)
  else
    qlabel ← getQuestionName z qname;
    heap ← stats_Add heap (LabelStats (z_Metrics z)) qlabel;
    let realIP := addr_IP addr in
    heap ← stats_Add heap (ClientStats (z_Metrics z)) (IP_String realIP);
    let '(opt_rr, edns) := scan_extra (m_Extra req) in
    let ip := match edns with Some f => e_Address (fs_subnet f) | None => realIP end in
    let clientAddr := IP_String ip +:+ "/" +:+
      match edns with
      | Some f => Itoa (e_SourceNetmask (fs_subnet f))
      | None => Itoa (len ip * 8)
      end in
    '(targets, netmask, location, ip) ←
      GetTargets (o_Targeting (z_Options z)) geo ip (z_HasClosest z);
    let realIP' := match edns with Some _ => realIP | None => ip end in
    let m := SetReply new_Msg req in
    let m := match IsEdns0 m with Some e => SetEdns0 m 4096 (opt_Do e) | None => m end in
    let m := set_Authoritative m in
    let m := set_Extra m (m_Extra m ++ echo_subnet (m_Extra req) opt_rr edns ip netmask) in
    let entry labelName m :=
      if srv_queryLogger srv then
        Some (mkEntryLog now (z_Origin z) (ToLower qname) qtype (m_Rcode m) (len (m_Answer m)) targets
                labelName (IP_String realIP) clientAddr (bool_decide (is_Some edns)))
      else None in
    matches ← FindLabels fuel z qlabel targets [TypeMF; TypeCNAME; qtype];
    match matches with
    | [] =>
        firstLabel ← index (Split qlabel "."%char) 0;
        '(m, counted) ← no_match_reply srv z geo addr req m qname qlabel qtype realIP' ip;
        Ret (mkOutcome (write m) (entry firstLabel m) counted heap g)
    | _ =>
        '(answer, label, g) ← answer_matches reg qname location (m_Answer m) matches g;
        '(m, counted) ← answered_reply z qlabel qtype (set_Answer m answer);
        let labelName := match label with Some l => l_Label l | None => "" end in
        Ret (mkOutcome (write_or_fail req m) (entry labelName m) (Some counted) heap g)
    end.

(** [ServeDNS]: the multiplexer calls the handler of the zone it finds, and
    fails the request when there is none.  The handler that
    [setupRootZone] registers for "." is in the default multiplexer of the
    dns package, which the server does not use. *)
Definition ServeDNS (fuel : nat) (srv : Server) (reg : registry) (geo : option Provider)
    (heap : stats_store) (g : rng) (mux : mux_table) (addr : RemoteAddr) (req : Msg) :
    res (outcome rng) :=
  match m_Question req with
  | [] => Ret (mkOutcome (write (HandleFailed req)) None None heap g)
  | q :: _ =>
      match mux_match mux (q_Name q) (q_Qtype q) with
      | Some z => serve fuel srv reg geo heap g z addr req
      | None => Ret (mkOutcome (write (HandleFailed req)) None None heap g)
      end
  end.
End serve.

(** ** Lemmas: messages *)

(** A message that answers the request. *)
Definition answers_request (req m : Msg) : Prop :=
  m_Id m = m_Id req ∧ m_Response m = true ∧ m_Opcode m = m_Opcode req ∧
  m_Question m = take 1 (m_Question req).

Lemma SetReply_answers req : answers_request req (SetReply new_Msg req).
Proof. unfold answers_request, SetReply. cbn. by destruct (m_Question req). Qed.

Lemma HandleFailed_answers req : answers_request req (HandleFailed req).
Proof. apply SetReply_answers. Qed.

Lemma answers_set_Answer req m a : answers_request req m → answers_request req (set_Answer m a).
Proof. done. Qed.
Lemma answers_set_Ns req m a : answers_request req m → answers_request req (set_Ns m a).
Proof. done. Qed.
Lemma answers_set_Extra req m a : answers_request req m → answers_request req (set_Extra m a).
Proof. done. Qed.
Lemma answers_set_Authoritative req m :
  answers_request req m → answers_request req (set_Authoritative m).
Proof. done. Qed.
Lemma answers_SetRcode req m c : answers_request req m → answers_request req (SetRcode m req c).
Proof.
  intros (? & ? & ? & Hq). unfold answers_request, SetRcode, SetReply, set_Rcode. cbn.
  split_and!; [done..|]. by destruct (m_Question req).
Qed.

#[export] Hint Resolve SetReply_answers HandleFailed_answers answers_set_Answer answers_set_Ns
  answers_set_Extra answers_set_Authoritative answers_SetRcode : geodns.

(** ** Lemmas: the records of an answer *)

(** Where the records of an answer come from: a record of the label, of the
    type that was looked up (of any type for ANY), and healthy if the label has
    a health test. *)
Definition from_label (reg : registry) (l : Label) (qtype t : Z) (s : option Record_) : Prop :=
  (t = qtype ∨ qtype = TypeANY) ∧ (∃ rs, l_Records l !! t = Some rs ∧ s ∈ rs) ∧
  (is_Some (l_Test l) → healthy reg s = Ret true).

Section from_zone.
Context `{GreatCircle} `{GoRand rng} `{GoRange}.

Lemma filterHealth_subset reg servers rs sum :
  filterHealth reg servers = Ret (rs, sum) →
  ∀ s, s ∈ rs → s ∈ servers ∧ healthy reg s = Ret true.
Proof.
  unfold filterHealth.
  apply (foldM_invariant _ (λ st, ∀ s, s ∈ st.1 → s ∈ servers ∧ healthy reg s = Ret true));
    [cbn; set_solver|].
  intros [rs1 sum1] s0 [rs2 sum2] Hin Hinv Hr. cbn in *.
  apply bind_Ret in Hr as (h & Hh & Hr). destruct h; [|by injection Hr as <- <-].
  apply bind_Ret in Hr as (r & _ & Hr). injection Hr as <- <-.
  intros s [?|Hs]%elem_of_app; [by apply Hinv|]. by apply list_elem_of_singleton in Hs as ->.
Qed.

Lemma keep_chosen_subset choose servers rs sum :
  keep_chosen choose servers = Ret (rs, sum) → ∀ s, s ∈ rs → s ∈ servers.
Proof.
  unfold keep_chosen.
  apply (foldM_invariant _ (λ st, ∀ s, s ∈ st.1 → s ∈ servers)); [cbn; set_solver|].
  intros [rs1 sum1] [c s0] [rs2 sum2] Hin Hinv Hr. cbn in *.
  apply elem_of_zip_r in Hin. destruct c; [|by injection Hr as <- <-].
  apply bind_Ret in Hr as (r & _ & Hr). injection Hr as <- <-. intros s. set_solver.
Qed.

Lemma pick_from_subset n s servers r rest :
  pick_from n s servers = Ret (Some (r, rest)) →
  Some r ∈ servers ∧ ∀ x, x ∈ rest → x ∈ servers.
Proof.
  revert s rest. induction servers as [|x servers IH]; intros s rest; cbn [pick_from]; [done|].
  intros Hr. apply bind_Ret in Hr as (x' & Hx & Hr). destruct x; [|done]. injection Hx as ->.
  case_match; [injection Hr as <- <-; set_solver|].
  apply bind_Ret in Hr as (p & Hp & Hr). destruct p as [[y rest']|]; [|done].
  injection Hr as <- <-. apply IH in Hp as [? ?]. set_solver.
Qed.

Lemma draw_servers_subset k sum servers (g : rng) rs g' :
  draw_servers k sum servers g = Ret (rs, g') → ∀ r, Some r ∈ rs → Some r ∈ servers.
Proof.
  revert sum servers g rs. induction k as [|k IH]; intros sum servers g rs; cbn [draw_servers].
  { intros [= <- <-]. set_solver. }
  intros Hr. apply bind_Ret in Hr as ([n g1] & _ & Hr). apply bind_Ret in Hr as (p & Hp & Hr).
  destruct p as [[x servers']|]; apply bind_Ret in Hr as ([rest g2] & Hd & Hr);
    injection Hr as <- <-; intros r [Hr'|Hr']%elem_of_cons.
  - injection Hr' as ->. by apply pick_from_subset in Hp as [? _].
  - apply pick_from_subset in Hp as [_ Hp]. apply Hp. by eapply IH.
  - done.
  - by eapply IH.
Qed.

Lemma Picker_type_subset reg label qtype max location (g : rng) rs g' :
  Picker_type reg label qtype max location g = Ret (Some rs, g') →
  ∀ r, Some r ∈ rs → from_label reg label qtype qtype (Some r).
Proof.
  unfold Picker_type. destruct (l_Records label !! qtype) as [labelRR|] eqn:El; [|done].
  intros Hr r Hin. apply bind_Ret in Hr as ([servers sum] & Hs & Hr).
  assert (Hsub : ∀ s, s ∈ servers → from_label reg label qtype qtype s).
  { unfold from_label. destruct (l_Test label) eqn:Et.
    - intros s Hs'. apply (filterHealth_subset _ _ _ _ Hs) in Hs' as [? ?]. eauto 6.
    - injection Hs as <- <-. intros s Hs'. split_and!; [by left|by eauto|by intros [? ?]]. }
  case_match; [injection Hr as <- <-; by apply Hsub|].
  case_match; [injection Hr as <- <-; by apply Hsub|].
  unfold pick_weighted in Hr. set (max' := if len servers <? _ then _ else _) in Hr.
  case_match; [done|]. apply bind_Ret in Hr as ([servers' sum'] & Hc & Hr).
  apply bind_Ret in Hr as ([result g1] & Hd & Hr). injection Hr as <- <-.
  apply (draw_servers_subset _ _ _ _ _ _ Hd) in Hin. apply Hsub.
  destruct location as [loc|]; [|by injection Hc as <- <-].
  case_match; [|by injection Hc as <- <-]. unfold closest_servers in Hc.
  apply bind_Ret in Hc as (ds & _ & Hc). apply bind_Ret in Hc as (choose & _ & Hc).
  by eapply keep_chosen_subset.
Qed.

Lemma Picker_subset reg label qtype max location (g : rng) rs g' :
  Picker reg label qtype max location g = Ret (Some rs, g') →
  ∀ r, Some r ∈ rs → ∃ t, from_label reg label qtype t (Some r).
Proof.
  unfold Picker. destruct (Z.eqb_spec qtype TypeANY) as [->|]; [|eauto using Picker_type_subset].
  intros Hr.
  assert (Hinv : ∀ r, Some r ∈ default [] (Some rs) → ∃ t, from_label reg label TypeANY t (Some r));
    [|done].
  revert Hr. apply (foldM_invariant _ (λ st : option Records * rng,
    ∀ r, Some r ∈ default [] st.1 → ∃ t, from_label reg label TypeANY t (Some r))); [cbn; set_solver|].
  intros [result g1] [t rs0] [result' g2] _ Hinv Hr. cbn in *. case_match; [done|].
  apply bind_Ret in Hr as ([part g3] & Hp & Hr). injection Hr as <- <-. cbn.
  intros r [?|Hin]%elem_of_app; [by apply Hinv|].
  destruct part as [part|]; [|by apply elem_of_nil in Hin]. exists t.
  apply (Picker_type_subset _ _ _ _ _ _ _ _ Hp) in Hin as (_ & ? & ?). split_and!; [by right|done..].
Qed.

Lemma copy_records_spec qname servers rrs :
  copy_records qname servers = Ret rrs →
  Forall (λ rr, ∃ r, Some r ∈ servers ∧ rr = set_name (rec_RR r) qname) rrs.
Proof.
  intros Hr%mapM_res_Forall2. induction Hr as [|s rr servers rrs Hd Hr IH]; [done|].
  apply bind_Ret in Hd as (r & Hd & E). destruct s; [|done]. injection Hd as ->.
  injection E as <-. constructor; [exists r; set_solver|].
  eapply Forall_impl; [exact IH|]. intros rr (r' & ? & ?). exists r'. set_solver.
Qed.

(** Every record of the answer is a record of a matched label, under the name
    that was asked for. *)
Lemma answer_matches_spec reg qname location matches (g : rng) answer label g' :
  answer_matches reg qname location [] matches g = Ret (answer, label, g') →
  (label = None ↔ answer = []) ∧
  Forall (λ rr, ∃ m l t r, m ∈ matches ∧ lm_Label m = Some l ∧
    from_label reg l (lm_Type m) t (Some r) ∧ rr = set_name (rec_RR r) qname) answer.
Proof.
  revert location g. induction matches as [|m matches IH]; intros location g; cbn [answer_matches].
  { intros [= <- <- <-]. done. }
  intros Hr. apply bind_Ret in Hr as (l & Hl & Hr). destruct (lm_Label m) as [l0|] eqn:El; [|done].
  injection Hl as ->. apply bind_Ret in Hr as ([servers g1] & Hp & Hr).
  apply bind_Ret in Hr as (ans & Ha & Hr). destruct ans as [|rr ans].
  - apply IH in Hr as [? Hall]. split; [done|]. eapply Forall_impl; [exact Hall|].
    intros rr (m' & l' & t & r & ? & ? & ? & ?). exists m', l', t, r. set_solver.
  - injection Hr as <- <- <-. split; [done|]. destruct servers as [servers|]; [|done].
    apply copy_records_spec in Ha. eapply Forall_impl; [exact Ha|].
    intros rr' (r & Hin & ->). destruct (Picker_subset _ _ _ _ _ _ _ _ Hp r Hin) as [t Ht].
    exists m, l, t, r. split_and!; [by left|done..].
Qed.
End from_zone.

(** ** Lemmas: the shape of a run *)

(** The empty answer a run starts from. *)
Record fresh_reply (req m : Msg) : Prop := {
  fr_answers : answers_request req m;
  fr_auth : m_Authoritative m = true;
  fr_rcode : m_Rcode m = RcodeSuccess;
  fr_answer : m_Answer m = [];
  fr_ns : m_Ns m = []
}.

(** What the reply without a match can be, and what is counted. *)
Lemma no_match_reply_spec `{HandlerEnv} `{GoArch} srv z geo addr req m qname qlabel qtype realIP ip m' c :
  no_match_reply srv z geo addr req m qname qlabel qtype realIP ip = Ret (m', c) →
  fresh_reply req m →
  answers_request req m' ∧ m_Authoritative m' = true ∧
  (m_Rcode m' = RcodeSuccess ∧ c = None ∧
     (m_Answer m' ≠ [] ∨ ∃ soa, SoaRR z = Ret soa ∧ m_Ns m' = [soa]) ∨
   m_Rcode m' = RcodeNameError ∧ c = Some (mkQueryLabels (z_Origin z) qtype "_error" RcodeNameError) ∧
     m_Answer m' = [] ∧ ∃ soa, SoaRR z = Ret soa ∧ m_Ns m' = [soa]).
Proof.
  intros Hr [Ha Hau Hrc Han Hns]. unfold no_match_reply in Hr.
  apply bind_Ret in Hr as (first & _ & Hr).
  assert (Hans : ∀ a, a ≠ [] → Ret (set_Authoritative (set_Answer m a), None) = Ret (m', c) →
    answers_request req m' ∧ m_Authoritative m' = true ∧ m_Rcode m' = RcodeSuccess ∧ c = None ∧
    m_Answer m' ≠ []).
  { intros a Hne [= <- <-]. split_and!; [auto with geodns|done..]. }
  assert (Hsoa : (soa ← SoaRR z; Ret (set_Authoritative (set_Ns m (m_Ns m ++ [soa])), None)) = Ret (m', c) →
    answers_request req m' ∧ m_Authoritative m' = true ∧ m_Rcode m' = RcodeSuccess ∧ c = None ∧
    ∃ soa, SoaRR z = Ret soa ∧ m_Ns m' = [soa]).
  { intros Hs. apply bind_Ret in Hs as (soa & Hs & E). injection E as <- <-.
    split_and!; [auto with geodns|done..|]. exists soa. cbn. by rewrite Hns. }
  repeat case_match; try (destruct (Hsoa Hr) as (? & ? & ? & ? & ?); tauto);
    try (apply Hans in Hr as (? & ? & ? & ? & ?); [tauto|done]).
  - apply bind_Ret in Hr as ([[[ts nm] loc] ip'] & _ & Hr).
    apply Hans in Hr as (? & ? & ? & ? & ?); [tauto|done].
  - apply bind_Ret in Hr as (soa & Hs & Hr). injection Hr as <- <-.
    split_and!; [auto with geodns|done|]. right. split_and!; [done..|]. by exists soa.
Qed.

Section shape.
Context `{HandlerEnv} `{GoArch} `{GreatCircle} `{GoRand rng} `{GoRange}.

(** The entry in the query log for the reply [m]. *)
Definition logs (srv : Server) (z : Zone) (qname : string) (qtype : Z) (m : Msg)
    (log : option Entry) : Prop :=
  if srv_queryLogger srv then
    ∃ e, log = Some e ∧ qle_Origin e = z_Origin z ∧ qle_Name e = ToLower qname ∧
      qle_Qtype e = qtype ∧ qle_Rcode e = m_Rcode m ∧ qle_Answers e = len (m_Answer m)
  else log = None.

(** The two ways a lookup ends, with the message it writes, the entry in the
    query log, and what is counted. *)
Definition lookup_end (srv : Server) (reg : registry) (geo : option Provider) (z : Zone)
    (addr : RemoteAddr) (req m : Msg) (qname qlabel : string) (qtype : Z) (realIP ip : IP)
    (location : option Location) (ms : list LabelMatch) (g : rng) (out : outcome rng) : Prop :=
  match ms with
  | [] => ∃ m' c, no_match_reply srv z geo addr req m qname qlabel qtype realIP ip = Ret (m', c) ∧
      out_msgs out = write m' ∧ out_query out = c ∧ logs srv z qname qtype m' (out_log out)
  | _ => ∃ answer label g' m', answer_matches reg qname location [] ms g = Ret (answer, label, g') ∧
      out_msgs out = write_or_fail req m' ∧
      out_query out = Some (mkQueryLabels (z_Origin z) qtype qlabel (m_Rcode m')) ∧
      logs srv z qname qtype m' (out_log out) ∧
      match answer with
      | [] => ∃ soa, SoaRR z = Ret soa ∧ m' = set_Ns (set_Answer m []) [soa]
      | _ => m' = set_Answer m answer
      end
  end.

Lemma serve_shape fuel srv reg geo heap (g : rng) z addr req q qs out :
  serve fuel srv reg geo heap g z addr req = Ret out →
  m_Question req = q :: qs → (q_Qtype q =? TypeA) && z_ParseIP z = false →
  ∃ qlabel targets location ms m realIP ip, getQuestionName z (q_Name q) = Ret qlabel ∧
    FindLabels fuel z qlabel targets [TypeMF; TypeCNAME; q_Qtype q] = Ret ms ∧
    fresh_reply req m ∧ IsLoopback realIP = IsLoopback (addr_IP addr) ∧
    lookup_end srv reg geo z addr req m (q_Name q) qlabel (q_Qtype q) realIP ip location ms g out.
Proof.
  intros Hr Hq Hparse. unfold serve in Hr. rewrite Hq in Hr. cbn [index mbind res_bind] in Hr.
  change (index (q :: qs) 0) with (Ret q) in Hr. cbn [mbind res_bind] in Hr. rewrite Hparse in Hr.
  apply bind_Ret in Hr as (qlabel & Hql & Hr). apply bind_Ret in Hr as (heap1 & _ & Hr).
  apply bind_Ret in Hr as (heap2 & _ & Hr).
  destruct (scan_extra (m_Extra req)) as [opt_rr edns].
  apply bind_Ret in Hr as ([[[targets netmask] location] ip] & Hgt%GetTargets_loopback & Hr).
  cbn zeta in Hr. apply bind_Ret in Hr as (ms & Hf & Hr).
  set (m := set_Extra _ _) in Hr.
  assert (Hm : fresh_reply req m).
  { unfold m. split; [|done..].
    apply answers_set_Extra, answers_set_Authoritative, SetReply_answers. }
  clearbody m. set (realIP := match edns with Some _ => _ | None => ip end) in Hr.
  exists qlabel, targets, location, ms, m, realIP, ip.
  split_and!; [done..|by unfold realIP; destruct edns|].
  destruct ms as [|m1 ms]; cbn [lookup_end].
  - apply bind_Ret in Hr as (first & _ & Hr). apply bind_Ret in Hr as ([m' c] & Hm' & Hr).
    injection Hr as <-. exists m', c. split_and!; [done..|].
    unfold logs. cbn [out_log]. destruct (srv_queryLogger srv); [by eexists|done].
  - apply bind_Ret in Hr as ([[answer label] g'] & Ha & Hr). rewrite (fr_answer _ _ Hm) in Ha.
    apply bind_Ret in Hr as ([m' c] & Hm' & Hr). injection Hr as <-. unfold answered_reply in Hm'.
    cbn [set_Answer m_Answer] in Hm'. apply bind_Ret in Hm' as (m'' & Hm' & E). injection E as <- <-.
    exists answer, label, g', m''. split_and!; [done|done|done| |].
    { unfold logs. cbn [out_log]. destruct (srv_queryLogger srv); [by eexists|done]. }
    destruct answer; [|by injection Hm' as <-].
    apply bind_Ret in Hm' as (soa & Hsoa & Hm'). injection Hm' as <-. exists soa.
    by rewrite (fr_ns _ _ Hm).
Qed.

End shape.

(** ** Properties *)





(** The record that answers with an address read off the name. *)
Definition named_address (qname : string) (ip : IP) : RR := mkRR (mkHdr qname 1 1 86400 0) (RD_A ip).

(** The dashed form of an address. *)
Definition dashed (a b c d : Z) : string := Join (Itoa <$> [a; b; c; d]) "-".

Lemma ReplaceByte_app s t c d : ReplaceByte (s +:+ t) c d = ReplaceByte s c d +:+ ReplaceByte t c d.
Proof. induction s as [|a s IH]; [done|]. rewrite !sapp_cons. cbn. by rewrite IH. Qed.

Lemma ReplaceByte_none s c d : ContainsByte s c = false → ReplaceByte s c d = s.
Proof.
  induction s as [|a s IH]; cbn; [done|]. intros [-> Hs]%orb_false_iff. by rewrite IH.
Qed.

Lemma Itoa_no_dash z : 0 ≤ z → ContainsByte (Itoa z) "-" = false.
Proof. intros Hz. unfold Itoa. destruct (Z.ltb_spec z 0); [lia|]. by apply put_digits_no. Qed.

Lemma undash a b c d :
  is_byte a → is_byte b → is_byte c → is_byte d →
  ReplaceByte (dashed a b c d) "-" "." = dotted a b c d.
Proof.
  unfold is_byte, dashed, dotted. intros. cbn [fmap list_fmap Join].
  rewrite !ReplaceByte_app, !(ReplaceByte_none (Itoa _)) by (apply Itoa_no_dash; lia). done.
Qed.

Lemma any_asked qtype : TypeANY ∈ [TypeMF; TypeCNAME; qtype] → qtype = TypeANY.
Proof. rewrite !elem_of_cons, elem_of_nil. intros [?|[?|[?|[]]]]; done. Qed.

Section properties.
Context `{HandlerEnv} `{GoArch} `{GreatCircle} `{GoRand rng} `{GoRange}.


(** A run of the handler writes exactly one message, and it answers the
    request: same identifier and opcode, marked as a response, with the first
    question of the request. *)
Theorem serve_one_reply (fuel : nat) (srv : Server) (reg : registry) (geo : option Provider)
    (heap : stats_store) (g : rng) (z : Zone) (addr : RemoteAddr) (req : Msg) (out : outcome rng) :
  serve fuel srv reg geo heap g z addr req = Ret out →
  (∀ m, can_write m = true) →
  ∃ m, out_msgs out = [m] ∧ answers_request req m.
Proof.
  intros Hr Hw. destruct (m_Question req) as [|q qs] eqn:Hq.
  { unfold serve in Hr. by rewrite Hq in Hr. }
  destruct ((q_Qtype q =? TypeA) && z_ParseIP z) eqn:Hp.
  - unfold serve in Hr. rewrite Hq in Hr. change (index (q :: qs) 0) with (Ret q) in Hr.
    cbn [mbind res_bind] in Hr. rewrite Hp in Hr.
    apply bind_Ret in Hr as ([ip err] & _ & Hr). injection Hr as <-. unfold write. cbn [out_msgs].
    rewrite Hw. eexists. split; [done|]. auto with geodns.
  - destruct (serve_shape _ _ _ _ _ _ _ _ _ _ _ _ Hr Hq Hp)
      as (qlabel & ts & loc & ms & m & rip & ip & _ & _ & Hm & _ & Hend).
    destruct ms as [|m1 ms].
    + destruct Hend as (m' & c & Hm' & -> & _). apply no_match_reply_spec in Hm' as (? & _); [|done].
      unfold write. rewrite Hw. by exists m'.
    + destruct Hend as (answer & label & g' & m' & _ & -> & _ & _ & Hm'). unfold write_or_fail. rewrite Hw.
      exists m'. split; [done|]. destruct Hm as [Ha _ _ _ _].
      destruct answer; [destruct Hm' as (soa & _ & ->)|subst m']; auto with geodns.
Qed.

(** C6: the reply to a lookup (any question but one for an address in a zone
    that reads addresses off names) is authoritative and is either NXDOMAIN,
    only for a name the zone does not have, without records and with the zone's
    SOA; or NOERROR, with the SOA when there is no record to give.  It is sent
    when it can be packed and written; if not, SERVFAIL is sent instead when
    the name was found, which it always is when the zone has it, and nothing
    otherwise. *)
Theorem serve_rcode (fuel : nat) (srv : Server) (reg : registry) (geo : option Provider)
    (heap : stats_store) (g : rng) (z : Zone) (addr : RemoteAddr) (req : Msg) (q : Question)
    (qs : list Question) (qlabel : string) (out : outcome rng) :
  serve fuel srv reg geo heap g z addr req = Ret out →
  m_Question req = q :: qs → (q_Qtype q =? TypeA) && z_ParseIP z = false →
  getQuestionName z (q_Name q) = Ret qlabel →
  ∃ m found, out_msgs out = sent found req m ∧
    (is_Some (z_Labels z !! qlabel) → found = true) ∧
    m_Authoritative m = true ∧
    (m_Rcode m = RcodeSuccess ∧
       (m_Answer m ≠ [] ∨ ∃ soa, SoaRR z = Ret soa ∧ m_Ns m = [soa]) ∨
     m_Rcode m = RcodeNameError ∧ z_Labels z !! qlabel = None ∧ m_Answer m = [] ∧
       ∃ soa, SoaRR z = Ret soa ∧ m_Ns m = [soa]).
Proof.
  intros Hr Hq Hp Hql.
  destruct (serve_shape _ _ _ _ _ _ _ _ _ _ _ _ Hr Hq Hp)
    as (qlabel' & ts & loc & ms & m & rip & ip & Hql' & Hf & Hm & _ & Hend).
  rewrite Hql in Hql'. injection Hql' as <-. destruct ms as [|m1 ms].
  - destruct Hend as (m' & c & Hm' & -> & _).
    assert (Hno : ¬ is_Some (z_Labels z !! qlabel)) by (intros Hl; by eapply FindLabels_nonempty in Hl).
    exists m', false. split_and!; [done|done|..]; apply no_match_reply_spec in Hm' as (_ & ? & Hcase); try done.
    destruct Hcase as [(? & _ & ?)|(? & _ & ? & ?)]; [by left|]. right. split_and!; [done| |done|done].
    by apply eq_None_not_Some.
  - destruct Hend as (answer & label & g' & m' & _ & -> & _ & _ & Hm').
    exists m', true. destruct Hm as [_ Hau Hrc _ _]. split_and!; [done|done|..].
    + by destruct answer; [destruct Hm' as (soa & _ & ->)|subst m'].
    + left. destruct answer as [|rr answer].
      * destruct Hm' as (soa & Hsoa & ->). split; [done|]. right. by exists soa.
      * subst m'. split; [done|]. by left.
Qed.

(** A copy, under the name that was asked for, of a record of the zone that
    may answer the question; 0 is the type of the match that marks a name
    without records. *)
Definition from_zone (reg : registry) (z : Zone) (q : Question) (rr : RR) : Prop :=
  ∃ k l t rs r, z_Labels z !! k = Some l ∧ l_Records l !! t = Some rs ∧ Some r ∈ rs ∧
    (t ∈ [0; TypeCNAME; q_Qtype q] ∨ q_Qtype q = TypeANY) ∧
    (is_Some (l_Test l) → healthy reg (Some r) = Ret true) ∧
    rr = set_name (rec_RR r) (q_Name q).

Lemma answer_from_zone fuel reg z s targets (q : Question) location ms (g : rng) answer label g' :
  FindLabels fuel z s targets [TypeMF; TypeCNAME; q_Qtype q] = Ret ms →
  answer_matches reg (q_Name q) location [] ms g = Ret (answer, label, g') →
  Forall (from_zone reg z q) answer.
Proof.
  intros Hsound%FindLabels_sound_lemma Ha. apply answer_matches_spec in Ha as [_ Ha].
  eapply Forall_impl; [exact Ha|]. intros rr (mt & l & t & r & Hmt & Hlm & (Ht & (rs & ? & ?) & ?) & ->).
  rewrite Forall_forall in Hsound. destruct (Hsound mt Hmt) as [k Hk]. exists k, l, t, rs, r.
  assert (z_Labels z !! k = Some l ∧ (lm_Type mt ∈ [0; TypeCNAME; q_Qtype q] ∧ lm_Type mt ≠ TypeANY
    ∨ q_Qtype q = TypeANY)) as [Hk' Hty].
  { destruct Hk as [(Hqt & Hmf & l' & ? & ? & _)|[(_ & Hqt & ? & _)|(-> & _ & ?)]]; (split; [congruence|]).
    - destruct (decide (lm_Type mt = TypeANY)) as [E'|]; [|left; split; [set_solver|done]].
      right. rewrite E' in Hqt. by apply any_asked.
    - right. by apply any_asked.
    - left. split; [set_solver|done]. }
  split_and!; [done..| |done|done]. destruct Hty as [[? ?]|?]; [|by right]. left.
  destruct Ht as [->|?]; done.
Qed.

(** The answers of a lookup that found something. *)
Lemma matched_answers req m m' answer (is_soa : RR → Prop) :
  match answer with
  | [] => ∃ soa, is_soa soa ∧ m' = set_Ns (set_Answer m []) [soa]
  | _ => m' = set_Answer m answer
  end →
  ∀ m1, m1 ∈ write_or_fail req m' → m_Answer m1 = answer ∨ m_Answer m1 = [].
Proof.
  intros Hm' m1. unfold write_or_fail.
  assert (Ha : m_Answer m' = answer) by (destruct answer; [destruct Hm' as (soa & _ & ->)|subst]; done).
  destruct (can_write m'); [|destruct (can_write (HandleFailed req))].
  - intros ->%list_elem_of_singleton. by left.
  - intros ->%list_elem_of_singleton. by right.
  - by intros ?%elem_of_nil.
Qed.

(** No query is refused: the handler for the root, which would refuse, is in
    another multiplexer, and names of no zone are answered with SERVFAIL. *)
Theorem never_refused (fuel : nat) (srv : Server) (reg : registry) (geo : option Provider)
    (heap : stats_store) (g : rng) (mux : mux_table) (addr : RemoteAddr) (req m : Msg)
    (out : outcome rng) :
  ServeDNS fuel srv reg geo heap g mux addr req = Ret out → m ∈ out_msgs out →
  m_Rcode m ∈ [RcodeSuccess; RcodeServerFailure; RcodeNameError].
Proof.
  intros Hs Hin. unfold ServeDNS in Hs.
  assert (Hfail : ∀ m', m' ∈ write (HandleFailed req) → m_Rcode m' ∈ [RcodeSuccess; RcodeServerFailure; RcodeNameError]).
  { intros m'. unfold write. destruct (can_write _); [|by intros ?%elem_of_nil].
    intros ->%list_elem_of_singleton. right; left. }
  destruct (m_Question req) as [|q qs] eqn:Hq; [injection Hs as <-; by apply Hfail|].
  destruct (mux_match _ _ _) as [z|]; [|injection Hs as <-; by apply Hfail].
  destruct ((q_Qtype q =? TypeA) && z_ParseIP z) eqn:Hp.
  { unfold serve in Hs. rewrite Hq in Hs. change (index (q :: qs) 0) with (Ret q) in Hs.
    cbn [mbind res_bind] in Hs. rewrite Hp in Hs. apply bind_Ret in Hs as ([ip err] & _ & Hs).
    injection Hs as <-. cbn [out_msgs] in Hin. unfold write in Hin.
    case_match; [|by apply elem_of_nil in Hin]. apply list_elem_of_singleton in Hin as ->. left. }
  destruct (serve_shape _ _ _ _ _ _ _ _ _ _ _ _ Hs Hq Hp)
    as (qlabel & ts & loc & ms & m0 & rip & ip & _ & Hf & Hm & _ & Hend).
  destruct ms as [|m1 ms].
  - destruct Hend as (m' & c & Hm' & E & _). rewrite E in Hin. unfold write in Hin.
    case_match; [|by apply elem_of_nil in Hin]. apply list_elem_of_singleton in Hin as ->.
    apply no_match_reply_spec in Hm' as (_ & _ & [(-> & _)|(-> & _)]); [left|right; right; left|done].
  - destruct Hend as (answer & label & g' & m' & _ & E & _ & _ & Hm'). rewrite E in Hin.
    assert (m_Rcode m' = RcodeSuccess) as Hrc.
    { destruct answer; [destruct Hm' as (soa & _ & ->)|subst m']; apply Hm. }
    unfold write_or_fail in Hin. destruct (can_write m'); [|by apply Hfail].
    apply list_elem_of_singleton in Hin as ->. rewrite Hrc. left.
Qed.

(** A name is debug when its first label is. *)
Definition debug_name (qlabel : string) : Prop :=
  ∃ first, index (Split qlabel "."%char) 0 = Ret first ∧ first ∈ ["_status"; "_health"; "_country"].

Lemma no_match_reply_uncounted srv z geo addr req m qname qlabel qtype realIP ip m' :
  no_match_reply srv z geo addr req m qname qlabel qtype realIP ip = Ret (m', None) → debug_name qlabel.
Proof.
  intros Hr. unfold no_match_reply in Hr. apply bind_Ret in Hr as (first & Hf & Hr).
  exists first. split; [done|].
  destruct (bool_decide_reflect (first = "_status")) as [->|_]; [set_solver|].
  destruct (bool_decide_reflect (first = "_health")) as [->|_]; [set_solver|].
  destruct (bool_decide_reflect (first = "_country")) as [->|_]; [set_solver|].
  rewrite !andb_false_r in Hr. apply bind_Ret in Hr as (soa & _ & Hr). done.
Qed.

(** A question for an address in a zone that reads addresses off names. *)
Lemma serve_by_name fuel srv reg geo heap (g : rng) z addr req q qs out :
  serve fuel srv reg geo heap g z addr req = Ret out → m_Question req = q :: qs →
  (q_Qtype q =? TypeA) && z_ParseIP z = true →
  ∃ ip e, getIPFromDomain (q_Name q) = Ret (ip, e) ∧
    out = mkOutcome (write (set_Answer (SetReply new_Msg req) [named_address (q_Name q) ip]))
            None None heap g.
Proof.
  intros Hr Hq Hp. unfold serve in Hr. rewrite Hq in Hr. change (index (q :: qs) 0) with (Ret q) in Hr.
  cbn [mbind res_bind] in Hr. rewrite Hp in Hr. apply bind_Ret in Hr as ([ip err] & Hi & Hr).
  injection Hr as <-. by exists ip, err.
Qed.

Lemma serve_accounted (fuel : nat) (srv : Server) (reg : registry) (geo : option Provider)
    (heap : stats_store) (g : rng) (z : Zone) (addr : RemoteAddr) (req : Msg) (q : Question)
    (qs : list Question) (out : outcome rng) :
  serve fuel srv reg geo heap g z addr req = Ret out → m_Question req = q :: qs →
  if (q_Qtype q =? TypeA) && z_ParseIP z
  then out_log out = None ∧ out_query out = None ∧ out_stats out = heap
  else ∃ qlabel m found,
    getQuestionName z (q_Name q) = Ret qlabel ∧ out_msgs out = sent found req m ∧
    logs srv z (q_Name q) (q_Qtype q) m (out_log out) ∧
    (m_Rcode m = RcodeSuccess ∨ m_Rcode m = RcodeNameError) ∧
    match out_query out with
    | Some l => l = mkQueryLabels (z_Origin z) (q_Qtype q)
        (if decide (m_Rcode m = RcodeNameError) then "_error" else qlabel) (m_Rcode m)
    | None => m_Rcode m = RcodeSuccess ∧ z_Labels z !! qlabel = None ∧ debug_name qlabel
    end.
Proof.
  intros Hr Hq. destruct ((q_Qtype q =? TypeA) && z_ParseIP z) eqn:Hp.
  { by destruct (serve_by_name _ _ _ _ _ _ _ _ _ _ _ _ Hr Hq Hp) as (ip & e & _ & ->). }
  destruct (serve_shape _ _ _ _ _ _ _ _ _ _ _ _ Hr Hq Hp)
    as (qlabel & ts & loc & ms & m & rip & ip & Hql & Hf & Hm & _ & Hend).
  exists qlabel. destruct ms as [|m1 ms].
  - destruct Hend as (m' & c & Hm' & -> & -> & Hlog).
    destruct (no_match_reply_spec _ _ _ _ _ _ _ _ _ _ _ _ _ Hm' Hm) as (_ & _ & Hcase).
    exists m', false. split_and!; [done..|tauto|].
    destruct Hcase as [(? & -> & _)|(-> & -> & _)]; [|done].
    split_and!; [done| |by eapply no_match_reply_uncounted].
    apply eq_None_not_Some. intros Hl. by eapply FindLabels_nonempty in Hl.
  - destruct Hend as (answer & label & g' & m' & _ & -> & -> & Hlog & Hm'). exists m', true.
    assert (m_Rcode m' = RcodeSuccess) as Hrc.
    { destruct answer; [destruct Hm' as (soa & _ & ->)|subst m']; apply Hm. }
    split_and!; [done..|by left|]. by rewrite Hrc.
Qed.

(** C8: The accounts agree with the reply that the handler makes.  For every
    query that is looked up the counter is increased under the zone, the type
    and the code of the reply, with the name "_error" when it is NXDOMAIN and
    the label that was asked for otherwise; only replies to debug names are not
    counted.  The entry in the query log, when there is a log, has the code and
    the number of records of the reply; the code is NOERROR or NXDOMAIN.  The
    accounts are those of the reply that was made, also when it cannot be packed
    or written and the failure of the request is sent instead.  A question for
    an address in a zone that reads addresses off names is neither counted nor
    logged. *)
Theorem serve_accounts (fuel : nat) (srv : Server) (reg : registry) (geo : option Provider)
    (heap : stats_store) (g : rng) (z : Zone) (addr : RemoteAddr) (req : Msg) (q : Question)
    (qs : list Question) (out : outcome rng) :
  serve fuel srv reg geo heap g z addr req = Ret out → m_Question req = q :: qs →
  if (q_Qtype q =? TypeA) && z_ParseIP z
  then out_log out = None ∧ out_query out = None ∧ out_stats out = heap
  else ∃ qlabel m found,
    getQuestionName z (q_Name q) = Ret qlabel ∧ out_msgs out = sent found req m ∧
    logs srv z (q_Name q) (q_Qtype q) m (out_log out) ∧
    (m_Rcode m = RcodeSuccess ∨ m_Rcode m = RcodeNameError) ∧
    match out_query out with
    | Some l => l = mkQueryLabels (z_Origin z) (q_Qtype q)
        (if decide (m_Rcode m = RcodeNameError) then "_error" else qlabel) (m_Rcode m)
    | None => m_Rcode m = RcodeSuccess ∧ z_Labels z !! qlabel = None ∧ debug_name qlabel
    end.
Proof. apply serve_accounted. Qed.

(** The answers to debug names: the status and the health for clients that are
    permitted to ask for them, and how the client is targeted for all. *)
Definition debug_answer (srv : Server) (z : Zone) (geo : option Provider) (addr : RemoteAddr)
    (qname qlabel : string) (answer : list RR) : Prop :=
  let full := qlabel +:+ "." +:+ z_Origin z +:+ "." in
  let permitted := srv_PublicDebugQueries srv || IsLoopback (addr_IP addr) in
  index (Split qlabel "."%char) 0 = Ret "_status" ∧ permitted = true ∧ answer = statusRR srv full ∨
  index (Split qlabel "."%char) 0 = Ret "_health" ∧ permitted = true ∧ answer = HealthRR full ∨
  index (Split qlabel "."%char) 0 = Ret "_country" ∧
    ∃ ip targets netmask location ip',
      GetTargets (o_Targeting (z_Options z)) geo ip (z_HasClosest z) =
        Ret (targets, netmask, location, ip') ∧
      answer = [mkRR (mkHdr qname TypeTXT ClassINET 1 0)
        (RD_TXT [addr_String addr; IP_String ip; Join targets " "; "/" +:+ Itoa netmask;
                 si_ID (srv_info srv); si_IP (srv_info srv);
                 match location with Some l => format_location l | None => "()" end])].

Lemma debug_answer_typed srv z geo addr qname qlabel answer :
  debug_answer srv z geo addr qname qlabel answer → Forall (typed TypeTXT) answer.
Proof.
  intros [(_ & _ & ->)|[(_ & _ & ->)|(_ & ip & ts & nm & loc & ip' & _ & ->)]]; by repeat constructor.
Qed.

Lemma no_match_reply_debug srv z geo addr req m qname qlabel qtype realIP ip m' c :
  no_match_reply srv z geo addr req m qname qlabel qtype realIP ip = Ret (m', c) →
  m_Answer m = [] → IsLoopback realIP = IsLoopback (addr_IP addr) →
  m_Answer m' = [] ∨
  is_debug_type qtype = true ∧ debug_answer srv z geo addr qname qlabel (m_Answer m').
Proof.
  intros Hr Hm Hlb. unfold no_match_reply in Hr. apply bind_Ret in Hr as (first & Hfirst & Hr).
  rewrite Hlb in Hr. unfold debug_answer. rewrite Hfirst.
  destruct (_ && bool_decide (first = "_status")) eqn:E1.
  { split_bools. subst. destruct (is_debug_type qtype).
    - injection Hr as <- <-. right. split; [done|]. by left.
    - apply bind_Ret in Hr as (soa & _ & Hr). injection Hr as <- <-. by left. }
  destruct (_ && bool_decide (first = "_health")) eqn:E2.
  { split_bools. subst. destruct (is_debug_type qtype).
    - injection Hr as <- <-. right. split; [done|]. right. by left.
    - apply bind_Ret in Hr as (soa & _ & Hr). injection Hr as <- <-. by left. }
  destruct (bool_decide_reflect (first = "_country")) as [->|_].
  - destruct (is_debug_type qtype).
    + apply bind_Ret in Hr as ([[[ts nm] loc] ip'] & Hg & Hr). injection Hr as <- <-.
      right. split; [done|]. do 2 right. split; [done|]. by exists ip, ts, nm, loc, ip'.
    + apply bind_Ret in Hr as (soa & _ & Hr). injection Hr as <- <-. by left.
  - apply bind_Ret in Hr as (soa & _ & Hr). injection Hr as <- <-. by left.
Qed.

(** The records a handler can answer with: the address read off the name in a
    zone that parses addresses, the texts of a debug name, which the zone does
    not have, or records of the zone. *)
Lemma serve_answers fuel srv reg geo heap (g : rng) z addr req q qs out m :
  serve fuel srv reg geo heap g z addr req = Ret out → m_Question req = q :: qs → m ∈ out_msgs out →
  m_Answer m = [] ∨
  (q_Qtype q = TypeA ∧ z_ParseIP z = true ∧
    ∃ ip e, getIPFromDomain (q_Name q) = Ret (ip, e) ∧ m_Answer m = [named_address (q_Name q) ip]) ∨
  (is_debug_type (q_Qtype q) = true ∧
    ∃ qlabel, getQuestionName z (q_Name q) = Ret qlabel ∧ z_Labels z !! qlabel = None ∧
      debug_answer srv z geo addr (q_Name q) qlabel (m_Answer m)) ∨
  (q_Qtype q =? TypeA) && z_ParseIP z = false ∧ Forall (from_zone reg z q) (m_Answer m).
Proof.
  intros Hr Hq Hin. destruct ((q_Qtype q =? TypeA) && z_ParseIP z) eqn:Hp.
  { destruct (serve_by_name _ _ _ _ _ _ _ _ _ _ _ _ Hr Hq Hp) as (ip & e & Hi & ->).
    split_bools. right; left. split_and!; [done..|]. exists ip, e. split; [done|]. cbn [out_msgs] in Hin.
    unfold write in Hin. case_match; [|by apply elem_of_nil in Hin].
    by apply list_elem_of_singleton in Hin as ->. }
  destruct (serve_shape _ _ _ _ _ _ _ _ _ _ _ _ Hr Hq Hp)
    as (qlabel & ts & loc & ms & m0 & rip & ip & Hql & Hf & Hm & Hlb & Hend).
  destruct ms as [|m1 ms].
  - destruct Hend as (m' & c & Hm' & E & _). rewrite E in Hin. unfold write in Hin.
    case_match; [|by apply elem_of_nil in Hin]. apply list_elem_of_singleton in Hin as ->.
    assert (z_Labels z !! qlabel = None) as Hno.
    { destruct (z_Labels z !! qlabel) as [l|] eqn:El; [|done].
      by apply FindLabels_nonempty in Hf; [|by rewrite El]. }
    apply no_match_reply_debug in Hm' as [?|[? ?]]; [by left| |apply Hm|done].
    do 2 right. left. split; [done|]. by exists qlabel.
  - destruct Hend as (answer & label & g' & m' & Ha & E & _ & _ & Hm'). rewrite E in Hin.
    destruct (matched_answers _ _ _ _ _ Hm' m Hin) as [-> | ->]; [|by left].
    do 3 right. split; [done|]. by eapply answer_from_zone.
Qed.

(** C7: for a name the zone has, the answer holds nothing but records of the
    zone: each is a copy, under the name that was asked for, of a record of a
    label of the zone; of the type that was asked for or a CNAME (of any type
    for ANY; 0 is the type of the match that marks a name without records); and
    if the label has a health test, the registry says the record is healthy.
    Only in a zone that reads addresses off names a question for an address is
    answered otherwise, whether the zone has the name or not: with the one
    record that holds the address in the first label of the name. *)
Theorem serve_answers_from_zone (fuel : nat) (srv : Server) (reg : registry)
    (geo : option Provider) (heap : stats_store) (g : rng) (z : Zone) (addr : RemoteAddr)
    (req : Msg) (q : Question) (qs : list Question) (qlabel : string) (out : outcome rng) (m : Msg) :
  serve fuel srv reg geo heap g z addr req = Ret out → m_Question req = q :: qs →
  getQuestionName z (q_Name q) = Ret qlabel → is_Some (z_Labels z !! qlabel) →
  m ∈ out_msgs out →
  if (q_Qtype q =? TypeA) && z_ParseIP z
  then ∃ ip e, getIPFromDomain (q_Name q) = Ret (ip, e) ∧ m_Answer m = [named_address (q_Name q) ip]
  else Forall (from_zone reg z q) (m_Answer m).
Proof.
  intros Hr Hq Hql Hl Hin. destruct ((q_Qtype q =? TypeA) && z_ParseIP z) eqn:Hp.
  - destruct (serve_by_name _ _ _ _ _ _ _ _ _ _ _ _ Hr Hq Hp) as (ip & e & Hi & ->).
    exists ip, e. split; [done|]. cbn [out_msgs] in Hin. unfold write in Hin.
    case_match; [|by apply elem_of_nil in Hin]. by apply list_elem_of_singleton in Hin as ->.
  - destruct (serve_answers _ _ _ _ _ _ _ _ _ _ _ _ _ Hr Hq Hin)
      as [->|[(Ht & Hz & _)|[(_ & qlabel' & Hql' & Hno & _)|[_ ?]]]]; [constructor| | |done].
    + by rewrite Ht, Hz in Hp.
    + rewrite Hql in Hql'. injection Hql' as <-. rewrite Hno in Hl. by destruct Hl.
Qed.

(** A query for an address in a zone that parses addresses: the name
    [a-b-c-d.rest] is answered with the address a.b.c.d; a name that holds no
    address is answered as well, with an A record that has no address. *)
Theorem serve_parse_ip (fuel : nat) (srv : Server) (reg : registry) (geo : option Provider)
    (heap : stats_store) (g : rng) (z : Zone) (addr : RemoteAddr) (req : Msg) (q : Question)
    (qs : list Question) :
  m_Question req = q :: qs → q_Qtype q = TypeA → z_ParseIP z = true →
  (∀ a b c d rest, is_byte a → is_byte b → is_byte c → is_byte d →
     q_Name q = dashed a b c d +:+ String "." rest →
     serve fuel srv reg geo heap g z addr req =
       Ret (mkOutcome (write (set_Answer (SetReply new_Msg req)
         [mkRR (mkHdr (q_Name q) 1 1 86400 0) (RD_A (IPv4 a b c d))])) None None heap g)) ∧
  (∀ e, getIPFromDomain (q_Name q) = Ret ([], e) →
     serve fuel srv reg geo heap g z addr req =
       Ret (mkOutcome (write (set_Answer (SetReply new_Msg req)
         [mkRR (mkHdr (q_Name q) 1 1 86400 0) (RD_A [])])) None None heap g)).
Proof.
  intros Hq Ht Hz. unfold serve. rewrite Hq. change (index (q :: qs) 0) with (Ret q).
  cbn [mbind res_bind]. rewrite Ht, Hz. cbn [Z.eqb TypeA Pos.eqb andb]. split.
  - intros a b c d rest Ha Hb Hc Hd Hn. rewrite Hn at 1. unfold getIPFromDomain.
    rewrite Split_app_sep.
    2: { apply ContainsByte_Join; [done|]. apply Forall_fmap, Forall_true. intros.
         by apply Itoa_no. }
    change (index (dashed a b c d :: Split rest ".") 0) with (Ret (dashed a b c d)).
    cbn [mbind res_bind]. rewrite undash, ParseIP_dotted by done. done.
  - intros e ->. done.
Qed.

(** C40: when the reload has closed a zone that is no longer there, and before
    it has removed its handler, every query for the zone (that is not
    answered from the name itself) makes the handler panic: the statistics
    have no room left. *)
Theorem serve_closed_zone_panics (fuel : nat) (srv : Server) (reg : registry)
    (geo : option Provider) (heap : stats_store) (g : rng) (z : Zone) (addr : RemoteAddr)
    (req : Msg) (q : Question) (qs : list Question) (qlabel : string) (i j : stats_loc) :
  m_Question req = q :: qs → (q_Qtype q =? TypeA) && z_ParseIP z = false →
  getQuestionName z (q_Name q) = Ret qlabel →
  z_Metrics z = mkMetrics (Some i) (Some j) → is_Some (heap !! i) → i ≠ j →
  serve fuel srv reg geo (Zone_Close heap z) g z addr req =
    Panic "index out of range".
Proof.
  intros Hq Hp Hql Hm [zs Hzs] Hij. unfold serve. rewrite Hq.
  change (index (q :: qs) 0) with (Ret q). cbn [mbind res_bind]. rewrite Hp, Hql.
  cbn [mbind res_bind].
  enough (stats_Add (Zone_Close heap z) (LabelStats (z_Metrics z)) qlabel =
    Panic "index out of range") as -> by done.
  unfold stats_Add, Zone_Close, close_stats. rewrite Hm. cbn [LabelStats ClientStats deref mbind res_bind].
  assert (alter Close j (alter Close i heap) !! i = Some (Close zs)) as ->.
  { rewrite list_lookup_alter_ne by done. by rewrite list_lookup_alter_eq, Hzs. }
  cbn. unfold add, Close, store_at, len. cbn. case_decide; [lia|done].
Qed.
End properties.

Section lookup_findings.
Context `{GreatCircle} `{GoRand rng} `{GoRange}.

Lemma match_qtype_prefix f z s l ms q ms' :
  match_qtype f z s l ms q = Ret ms' → ∃ k, ms' = ms ++ k.
Proof.
  unfold match_qtype. intros Hr.
  assert (∃ k, ms = ms ++ k) as Hnil by (exists []; by rewrite app_nil_r).
  repeat case_match; try (injection Hr as <-; (done || by eexists)).
  apply bind_Ret in Hr as (n & _ & Hr). apply bind_Ret in Hr as (a & _ & Hr).
  injection Hr as <-. by eexists.
Qed.

Lemma foldM_prefix {A B} (f : list B → A → res (list B)) l b b' :
  (∀ b a b', f b a = Ret b' → ∃ k, b' = b ++ k) → foldM f b l = Ret b' → ∃ k, b' = b ++ k.
Proof.
  intros Hf. revert b. induction l as [|a l IH]; intros b; cbn [foldM].
  { intros [= <-]. exists []. by rewrite app_nil_r. }
  intros Hr. apply bind_Ret in Hr as (b1 & H1' & Hr). apply Hf in H1' as [k1 ->].
  apply IH in Hr as [k2 ->]. exists (k1 ++ k2). by rewrite app_assoc.
Qed.

Lemma match_target_prefix f z s qts ms t ms' :
  match_target f z s qts ms t = Ret ms' → ∃ k, ms' = ms ++ k.
Proof.
  unfold match_target. case_match; [|intros [= <-]; exists []; by rewrite app_nil_r].
  apply foldM_prefix. intros b a b'. apply match_qtype_prefix.
Qed.

(** An ANY query for a name that exists only for some target crashes the
    handler: the match carries the label of the bare name, which is nil. *)
Theorem any_query_nil_label (fuel : nat) (z : Zone) (s t : string) (targets : list string)
    (l : Label) (ms : list LabelMatch) (reg : registry) (qname : string)
    (location : option Location) (g : rng) :
  z_Labels z !! s = None → z_Labels z !! target_name s t = Some l →
  l_Records l !! TypeMF = None → has_type l TypeCNAME = false →
  FindLabels fuel z s (t :: targets) [TypeMF; TypeCNAME; TypeANY] = Ret ms →
  answer_matches reg qname location [] ms g = Panic "nil pointer dereference".
Proof.
  intros Hs Hl Hmf Hcn Hf. destruct fuel as [|fuel]; [done|]. cbn [FindLabels foldM] in Hf.
  apply bind_Ret in Hf as (ms1 & Hloop & Hf). apply bind_Ret in Hloop as (ms0 & Hfirst & Hloop).
  assert (ms0 = [mkMatch None TypeANY]) as ->.
  { unfold match_target in Hfirst. rewrite Hl in Hfirst. cbn [foldM] in Hfirst. unfold match_qtype in Hfirst.
    cbn [Z.eqb TypeMF TypeANY TypeCNAME Pos.eqb] in Hfirst. rewrite Hmf in Hfirst.
    cbn [mbind res_bind] in Hfirst. unfold has_type in Hcn. change 5 with TypeCNAME in Hfirst.
    destruct (l_Records l !! TypeCNAME) as [[|r rs]|]; try done; cbn in Hfirst;
      rewrite Hs in Hfirst; by injection Hfirst as <-. }
  apply foldM_prefix in Hloop as [k ->]; [|intros; by eapply match_target_prefix].
  cbn in Hf. injection Hf as <-. done.
Qed.

(** The first match whose label is not "closest" and gives no record makes
    the handler forget the location: the labels that follow are answered
    without it, also those that ask for the closest records. *)
Theorem location_forgotten (reg : registry) (qname : string) (location : option Location)
    (l : Label) (t : Z) (ms : list LabelMatch) (g g' : rng) (servers : option Records) :
  l_Closest l = false →
  Picker reg l t (l_MaxHosts l) None g = Ret (servers, g') → default [] servers = [] →
  answer_matches reg qname location [] (mkMatch (Some l) t :: ms) g =
    answer_matches reg qname None [] ms g'.
Proof.
  intros Hc Hp He. cbn [answer_matches deref lm_Label lm_Type mbind res_bind]. rewrite Hc, Hp.
  cbn [mbind res_bind]. destruct servers as [servers|]; [|done]. cbn in He. by subst servers.
Qed.
End lookup_findings.

(** The label of a query is the part of its name before the zone's
    origin, in lower case, for every zone whose label count is that of its
    origin. *)
Theorem getQuestionName_spec (z : Zone) (ls os : list string) (dot : bool) :
  os ≠ [] → Forall plain ls → Forall plain os →
  z_LabelCount z = CountLabel (name_of dot os) →
  getQuestionName z (fqdn_of (ls ++ os)) = Ret (dotted_name (ToLower <$> ls)).
Proof.
  intros Hne Hls Hos Hc. unfold getQuestionName.
  change (fqdn_of (ls ++ os)) with (name_of true (ls ++ os)).
  rewrite SplitDomainName_name; [|by destruct ls|by apply Forall_app].
  rewrite Hc, CountLabel_name by done. unfold len. rewrite length_app.
  rewrite decide_True by lia.
  replace (Z.to_nat (Z.of_nat (length ls + length os) - Z.of_nat (length os))) with (length ls) by lia.
  rewrite take_app_length. f_equal. apply dotted_name_ToLower.
Qed.

(** ** Examples *)

Definition example_request (name : string) (qtype : Z) : Msg :=
  mkMsg 7 false 0 false true false 0 [mkQuestion name qtype ClassINET] [] [] [].
Definition example_addr : RemoteAddr := UDPAddr [127; 0; 0; 1] "127.0.0.1:5353".
Definition example_server : Server := mkServer true false (mkServerInfo "3.0.2" "edge1" "127.0.0.1" "" [] 1599999000000000000).

(** Everything can be written; JSON texts are not looked at. *)
Definition example_env : HandlerEnv := {|
  format_location := λ _, "";
  os_Hostname := Some "host1";
  json_Marshal := λ _, "{}";
  can_write := λ _, true;
  now := 1600000000000000000
|}.
Definition example_served_zone : Zone :=
  set_Metrics example_loaded_zone (mkMetrics (Some 0%nat) (Some 1%nat)).
Definition example_heap : stats_store := [mkStats 0 false [""; ""]; mkStats 0 false [""; ""]].

Definition example_serve (heap : stats_store) (z : Zone) (req : Msg) : res (outcome (list Z)) :=
  @serve example_env arch_amd64 GreatCircle_toy (list Z) GoRand_replay GoRange_list 3
    example_server ∅ None heap [12] z example_addr req.

Definition example_request_www : Msg := example_request "www.sub.example.com." TypeA.
Definition example_outcome : outcome (list Z) :=
  match example_serve example_heap example_served_zone example_request_www with
  | Ret o => o
  | _ => mkOutcome [] None None [] []
  end.

Lemma example_serve_ok :
  @serve example_env arch_amd64 GreatCircle_toy (list Z) GoRand_replay GoRange_list 3
    example_server ∅ None example_heap [12] example_served_zone example_addr example_request_www =
  Ret example_outcome.
Proof. vm_compute. reflexivity. Qed.

Lemma serve_one_reply_witness :
  ∃ m, out_msgs example_outcome = [m] ∧ answers_request example_request_www m.
Proof.
  apply (@serve_one_reply example_env arch_amd64 GreatCircle_toy (list Z) GoRand_replay GoRange_list
    3 example_server ∅ None example_heap [12] example_served_zone example_addr
    example_request_www example_outcome example_serve_ok).
  reflexivity.
Defined.

Lemma serve_rcode_witness :
  ∃ m, out_msgs example_outcome = @sent example_env true example_request_www m ∧ m_Authoritative m = true.
Proof.
  destruct (@serve_rcode example_env arch_amd64 GreatCircle_toy (list Z) GoRand_replay GoRange_list
    3 example_server ∅ None example_heap [12] example_served_zone example_addr
    example_request_www (mkQuestion "www.sub.example.com." TypeA ClassINET) [] "www.sub"
    example_outcome example_serve_ok) as (m & found & E & Hf & Ha & _).
  - reflexivity.
  - vm_compute. reflexivity.
  - vm_compute. reflexivity.
  - exists m. rewrite Hf in E; [|exists example_www_label; vm_compute; reflexivity]. split; [exact E|exact Ha].
Defined.

Lemma serve_accounts_witness :
  out_query example_outcome = Some (mkQueryLabels "example.com" TypeA "www.sub" RcodeSuccess) ∧
  ∃ m found, out_msgs example_outcome = @sent example_env found example_request_www m ∧
    logs example_server example_served_zone "www.sub.example.com." TypeA m (out_log example_outcome).
Proof.
  split; [vm_compute; reflexivity|].
  pose proof (@serve_accounts example_env arch_amd64 GreatCircle_toy (list Z) GoRand_replay GoRange_list
    3 example_server ∅ None example_heap [12] example_served_zone example_addr
    example_request_www (mkQuestion "www.sub.example.com." TypeA ClassINET) []
    example_outcome example_serve_ok eq_refl) as H.
  assert (Hp : (TypeA =? TypeA) && z_ParseIP example_served_zone = false) by (vm_compute; reflexivity).
  cbn [q_Qtype q_Name] in H. rewrite Hp in H. destruct H as (qlabel & m & found & _ & E & Hlog & _).
  exists m, found. split; [exact E|exact Hlog].
Defined.

Lemma serve_answers_from_zone_witness :
  ∃ m, m ∈ out_msgs example_outcome ∧ len (m_Answer m) = 1 ∧
  Forall (from_zone ∅ example_served_zone (mkQuestion "www.sub.example.com." TypeA ClassINET))
    (m_Answer m).
Proof.
  eexists. assert (Hin : hd new_Msg (out_msgs example_outcome) ∈ out_msgs example_outcome)
    by (vm_compute; left).
  split; [exact Hin|]. split; [vm_compute; reflexivity|].
  pose proof (@serve_answers_from_zone example_env arch_amd64 GreatCircle_toy (list Z) GoRand_replay GoRange_list
    3 example_server ∅ None example_heap [12] example_served_zone example_addr
    example_request_www (mkQuestion "www.sub.example.com." TypeA ClassINET) [] "www.sub"
    example_outcome _ example_serve_ok eq_refl ltac:(vm_compute; reflexivity)
    ltac:(exists example_www_label; vm_compute; reflexivity) Hin) as H.
  assert (Hp : (TypeA =? TypeA) && z_ParseIP example_served_zone = false) by (vm_compute; reflexivity).
  cbn [q_Qtype] in H. rewrite Hp in H. exact H.
Defined.


Lemma serve_parse_ip_witness :
  example_serve [] (set_ParseIP (NewZone "example.com") true)
    (example_request "10-0-0-1.example.com." TypeA) =
  Ret (mkOutcome [set_Answer (SetReply new_Msg (example_request "10-0-0-1.example.com." TypeA))
    [mkRR (mkHdr "10-0-0-1.example.com." 1 1 86400 0) (RD_A (IPv4 10 0 0 1))]] None None [] [12]).
Proof.
  refine (proj1 (@serve_parse_ip example_env arch_amd64 GreatCircle_toy (list Z) GoRand_replay GoRange_list
    3 example_server ∅ None [] [12] (set_ParseIP (NewZone "example.com") true)
    example_addr (example_request "10-0-0-1.example.com." TypeA)
    (mkQuestion "10-0-0-1.example.com." TypeA ClassINET) [] eq_refl eq_refl eq_refl)
    10 0 0 1 "example.com." _ _ _ _ _); done.
Defined.

Lemma serve_closed_zone_panics_witness :
  example_serve (Zone_Close example_heap example_served_zone) example_served_zone
    example_request_www = Panic "index out of range".
Proof.
  refine (@serve_closed_zone_panics example_env arch_amd64 GreatCircle_toy (list Z) GoRand_replay GoRange_list
    3 example_server ∅ None example_heap [12] example_served_zone example_addr
    example_request_www (mkQuestion "www.sub.example.com." TypeA ClassINET) [] "www.sub" 0 1
    _ _ _ _ _ _).
  - reflexivity.
  - vm_compute. reflexivity.
  - vm_compute. reflexivity.
  - reflexivity.
  - by eexists.
  - done.
Defined.

Lemma any_query_nil_label_witness :
  let _ := GreatCircle_toy in let _ := GoRand_replay in let _ := GoRange_list in
  let z := set_Labels (NewZone "example.com") {["www.us" := example_label "www.us"
    {[TypeA := [example_record (RD_A [10; 0; 0; 1]) TypeA 1]]}]} in
  ∃ ms, FindLabels 1 z "www" ["us"; "@"] [TypeMF; TypeCNAME; TypeANY] = Ret ms ∧
    answer_matches ∅ "www.example.com." None [] ms [1] = Panic "nil pointer dereference".
Proof.
  intros GC GR RG z. exists [mkMatch None TypeANY].
  assert (Hf : FindLabels 1 z "www" ["us"; "@"] [TypeMF; TypeCNAME; TypeANY] =
    Ret [mkMatch None TypeANY]) by (vm_compute; reflexivity).
  split; [exact Hf|].
  refine (@any_query_nil_label GC _ GR RG 1 z "www" "us" ["@"] (example_label "www.us"
    {[TypeA := [example_record (RD_A [10; 0; 0; 1]) TypeA 1]]}) _ ∅ "www.example.com." None [1]
    _ _ _ _ Hf); reflexivity.
Defined.

Lemma location_forgotten_witness :
  let _ := GreatCircle_toy in let _ := GoRand_replay in let _ := GoRange_list in
  answer_matches ∅ "www.example.com." (Some (toy_location f_zero)) []
    [mkMatch (Some (example_label "www.us" ∅)) TypeA; mkMatch (Some (toy_label None)) TypeA] [1] =
  answer_matches ∅ "www.example.com." None [] [mkMatch (Some (toy_label None)) TypeA] [1].
Proof.
  intros GC GR RG.
  apply (@location_forgotten GC _ GR RG ∅ "www.example.com." (Some (toy_location f_zero))
    (example_label "www.us" ∅) TypeA [mkMatch (Some (toy_label None)) TypeA] [1] [1] None);
    reflexivity.
Defined.

Lemma getQuestionName_spec_witness :
  getQuestionName (NewZone "example.com") (fqdn_of ["WWW"; "Sub"; "example"; "com"]) =
    Ret "www.sub".
Proof.
  apply (getQuestionName_spec (NewZone "example.com") ["WWW"; "Sub"] ["example"; "com"] false);
    [done|repeat constructor; done|repeat constructor; done|reflexivity].
Defined.
