(* ===== verification/EndToEnd.v ===== *)
(** * From the zone files to the answer

    The composition of the components: what every zone of a running server
    satisfies because the reader, the manager and the health tests made it,
    and that the handler therefore answers.  [zone_loaded] is the invariant;
    it holds for every zone of every reachable manager.  [zone_sane] is what
    the author of a zone file has to see to (weights that are not negative,
    aliases without a cycle). *)

From S2P Require Import Prelude GoRuntime GoStrings GoNet Float64 TypeUtil Targeting.
From S2P Require Import DnsNames DnsMsg Health ZoneStats Zones Picker Reader QueryLog MuxManager.
From S2P Require Import Reachable Server.
Local Open Scope Z_scope.

(** ** Zones that differ in locations and tests only *)

Definition rec_like (s s' : option Record_) : Prop :=
  (λ r, (rec_RR r, rec_Weight r)) <$> s = (λ r, (rec_RR r, rec_Weight r)) <$> s'.

Record label_like (l l' : Label) : Prop := {
  ll_Weight : l_Weight l' = l_Weight l;
  ll_Records : ∀ t, option_Forall2 (Forall2 rec_like) (l_Records l !! t) (l_Records l' !! t)
}.

Record zone_like (z z' : Zone) : Prop := {
  zl_LabelCount : z_LabelCount z' = z_LabelCount z;
  zl_Labels : ∀ k, option_Forall2 label_like (z_Labels z !! k) (z_Labels z' !! k)
}.

#[export] Instance rec_like_refl : Reflexive rec_like.
Proof. by intros s. Qed.

#[export] Instance label_like_refl : Reflexive label_like.
Proof. intros l. split; [done|]. intros t. reflexivity. Qed.

Lemma like_is_Some s s' : rec_like s s' → is_Some s → is_Some s'.
Proof. unfold rec_like. intros E [r ->]. destruct s'; [by eexists|done]. Qed.

Lemma like_weight s s' : rec_like s s' → weight_of s' = weight_of s.
Proof. unfold rec_like. destruct s, s'; cbn; congruence. Qed.

Lemma like_no_nil rs rs' : Forall2 rec_like rs rs' → no_nil_records rs → no_nil_records rs'.
Proof.
  induction 1 as [|s s' rs rs' Hs _ IH]; [done|]. intros [Hn Hall]%Forall_cons.
  constructor; [by eapply like_is_Some|by apply IH].
Qed.

Lemma like_typed t rs rs' :
  Forall2 rec_like rs rs' → Forall (slot_typed t) rs → Forall (slot_typed t) rs'.
Proof.
  induction 1 as [|s s' rs rs' Hs _ IH]; [done|]. intros [Ht Hall]%Forall_cons.
  constructor; [|by apply IH]. intros r' ->. unfold rec_like in Hs. destruct s as [r|]; [|done].
  injection Hs as <- _. by apply Ht.
Qed.

Lemma like_total rs rs' : Forall2 rec_like rs rs' → total rs' = total rs.
Proof.
  unfold total. intros Hl. f_equal. induction Hl as [|s s' rs rs' Hs _ IH]; [done|].
  cbn. by rewrite IH, (like_weight s s').
Qed.

Lemma like_FirstRR l l' t : label_like l l' → ok (FirstRR l t) → ok (FirstRR l' t).
Proof.
  intros [_ Hr] [rr Hok]. unfold FirstRR in *. destruct (Hr t) as [rs rs' Hl|]; [|done].
  cbn [default] in *. destruct Hl as [|s s' rs rs' Hs _]; [done|].
  unfold index in *. cbn in *. destruct s as [r|]; [|done].
  apply like_is_Some in Hs as [r' ->]; [|by eexists]. by eexists.
Qed.

(** A loop over the labels that replaces the records of some of them. *)
Lemma traverse_like (f : string → Label → res Label) (h : Z → Records → res Records) z ls :
  (∀ t rs rs', h t rs = Ret rs' → Forall2 rec_like rs rs') →
  (∀ k l l', f k l = Ret l' →
     l' = l ∨ ∃ rs, gmap_traverse h (l_Records l) = Ret rs ∧ l' = set_Records l rs) →
  gmap_traverse f (z_Labels z) = Ret ls → zone_like z (set_Labels z ls).
Proof.
  intros Hh Hf Hls. split; [done|]. intros k. cbn.
  pose proof (gmap_traverse_lookup _ _ _ k Hls) as Hk.
  destruct (z_Labels z !! k) as [l|]; [|rewrite Hk; constructor].
  destruct Hk as (l' & Hl' & ->). constructor.
  destruct (Hf _ _ _ Hl') as [->|(rs & Hrs & ->)]; [done|]. split; [done|].
  intros t. cbn. pose proof (gmap_traverse_lookup _ _ _ t Hrs) as Ht.
  destruct (l_Records l !! t) as [rs0|]; [|rewrite Ht; constructor].
  destruct Ht as (rs' & Hrs' & ->). constructor. by eapply Hh.
Qed.

Lemma SetLocations_like z g z' : SetLocations z g = Ret z' → zone_like z z'.
Proof.
  unfold SetLocations. intros Hr. apply bind_Ret in Hr as (ls & Hls & Hr). injection Hr as <-.
  refine (traverse_like _ (locate_records g) z ls _ _ Hls).
  - intros t rs rs'. unfold locate_records. case_match; [|by intros [= <-]].
    intros Hf%mapM_res_Forall2. eapply Forall2_impl; [exact Hf|].
    intros s s' Hs. unfold locate_record in Hs. destruct s as [r|]; [|done]. cbn in Hs.
    destruct (rr_Data (rec_RR r)); try (by injection Hs as <-);
      apply bind_Ret in Hs as (g' & _ & Hs); apply bind_Ret in Hs as ([loc err] & _ & Hs);
      destruct err; by injection Hs as <-.
  - intros k l l' Hl. destruct (l_Closest l); [|by injection Hl; auto]. right.
    apply bind_Ret in Hl as (rs & Hrs & Hl). injection Hl as <-. by exists rs.
Qed.

Lemma setupHealthTests_like z z' : setupHealthTests z = Ret z' → zone_like z z'.
Proof.
  unfold setupHealthTests. intros Hr. apply bind_Ret in Hr as (ls & Hls & Hr). injection Hr as <-.
  refine (traverse_like _ (λ _, mapM_res setup_record_test) z ls _ _ Hls).
  - intros t rs rs' Hf%mapM_res_Forall2. eapply Forall2_impl; [exact Hf|]. intros s s' Hs.
    unfold setup_record_test in Hs. destruct s as [r|]; [|done]. cbn in Hs.
    case_match; by injection Hs as <-.
  - intros k l l' Hl. destruct (l_Test l); [|by injection Hl; auto]. right.
    apply bind_Ret in Hl as (rs & Hrs & Hl). injection Hl as <-. by exists rs.
Qed.

(** ** The invariant of the zones that are served *)

Record zone_loaded (n : string) (z : Zone) : Prop := {
  zo_count : z_LabelCount z = CountLabel n;
  zo_records : ∀ k l t rs, z_Labels z !! k = Some l → l_Records l !! t = Some rs →
    no_nil_records rs ∧ map_get 0 (l_Weight l) t = wrap64 (total rs);
  zo_typed : ∀ k l t rs, z_Labels z !! k = Some l → l_Records l !! t = Some rs →
    t = TypeSOA ∨ (∃ key, recordTypes !! key = Some t) ∧ Forall (slot_typed t) rs;
  zo_soa : ok (SoaRR z)
}.

Lemma zone_loaded_like n z z' : zone_like z z' → zone_loaded n z → zone_loaded n z'.
Proof.
  intros [Hc Hl] [Hn Hr Hty Hs].
  assert (Hback : ∀ k l' t rs', z_Labels z' !! k = Some l' → l_Records l' !! t = Some rs' →
    ∃ l rs, z_Labels z !! k = Some l ∧ l_Records l !! t = Some rs ∧ label_like l l' ∧
      Forall2 rec_like rs rs').
  { intros k l' t rs' Hk Ht. specialize (Hl k). rewrite Hk in Hl.
    inversion Hl as [l ? Hlike El|]; subst. pose proof (ll_Records _ _ Hlike t) as Hrs.
    rewrite Ht in Hrs. inversion Hrs as [rs ? Hrl Er|]; subst. by exists l, rs. }
  split.
  - congruence.
  - intros k l' t rs' Hk Ht. destruct (Hback k l' t rs' Hk Ht) as (l & rs & El & Er & Hlike & Hrl).
    destruct (Hr k l t rs El Er) as [Hnil Hw]. split; [by eapply like_no_nil|].
    by rewrite (ll_Weight _ _ Hlike), (like_total rs rs').
  - intros k l' t rs' Hk Ht. destruct (Hback k l' t rs' Hk Ht) as (l & rs & El & Er & Hlike & Hrl).
    destruct (Hty k l t rs El Er) as [?|[? Hall]]; [by left|right]. split; [done|].
    by eapply like_typed.
  - unfold SoaRR in *. destruct Hs as [rr Hs]. destruct (Hl "") as [l l' Hlike|]; [|done].
    cbn in *. eapply like_FirstRR; [exact Hlike|by eexists].
Qed.

Section loaded.
Context `{GoFormat} `{GoArch} `{GoSort} `{GoRange} `{RRParser}.

Lemma addSOA_ok_SoaRR z z' : addSOA z = Ret z' → ok (SoaRR z').
Proof.
  unfold addSOA. intros Hadd. apply bind_Ret in Hadd as (l & _ & Hadd).
  apply bind_Ret in Hadd as (ns & _ & Hadd). destruct (NewRR _) as [rr|]; [|done].
  injection Hadd as <-. exists rr. unfold SoaRR. cbn. rewrite lookup_insert_eq. cbn.
  unfold FirstRR. cbn. by rewrite lookup_insert_eq.
Qed.

Lemma setupZoneData_loaded data n z z' :
  setupZoneData data z = Ret z' → z_Labels z = ∅ → data_ok data →
  z_LabelCount z = CountLabel n → zone_loaded n z'.
Proof.
  intros Hs He Hd Hn. split.
  - apply setupZoneData_frame in Hs. unfold z_frame in Hs. congruence.
  - intros k l t rs Hl Ht. by destruct (setupZoneData_inv _ _ _ Hs He Hd k l t rs Hl Ht) as (? & ? & _).
  - intros k l t rs Hl Ht. by destruct (setupZoneData_inv _ _ _ Hs He Hd k l t rs Hl Ht) as (_ & _ & _ & ?).
  - unfold setupZoneData in Hs. apply bind_Ret in Hs as (z1 & _ & Hs).
    apply bind_Ret in Hs as (z2 & _ & Hs). by eapply addSOA_ok_SoaRR.
Qed.

Lemma ReadZoneFile_loaded g n f zone :
  file_ok f → ReadZoneFile g (NewZone n) f = inr zone → zone_loaded n zone.
Proof.
  unfold ReadZoneFile. destruct f as [|mtime [objmap|]]; [done| |done]. intros Hok.
  set (z := match mtime with Some t => _ | None => _ end).
  assert (Hz : z_Labels z = ∅ ∧ z_LabelCount z = CountLabel n) by (unfold z; by case_match).
  clearbody z. destruct Hz as [Hz Hn].
  destruct (load_object g z objmap) as [r| |] eqn:E; [|done..]. intros ->.
  unfold load_object in E. apply bind_Ret in E as ([err|[z1 data]] & E1 & E); [done|].
  apply read_options_frame in E1 as Hf. apply read_options_spec in E1 as [Hz1 Hd].
  apply bind_Ret in E as (z2 & E2 & E).
  assert (Hl : zone_loaded n z2).
  { eapply setupZoneData_loaded; [exact E2|congruence| |unfold z_frame in Hf; congruence].
    destruct Hd as [->|Hd]; [constructor|by apply Hok]. }
  repeat case_match; try (by injection E as <-).
  apply bind_Ret in E as (z3 & E3 & E). injection E as <-.
  eapply zone_loaded_like; [by eapply SetLocations_like|done].
Qed.

(** The zone of the server itself. *)
Lemma pgeodns_loaded z :
  addSOA (set_Labels (NewZone "pgeodns") {["" := mkLabel "" 0 0 ∅ ∅ false None]}) = Ret z →
  zone_loaded "pgeodns" z.
Proof.
  intros Hs.
  assert (Hrec : ∀ k l t rs, z_Labels z !! k = Some l → l_Records l !! t = Some rs →
    t = TypeSOA ∧ no_nil_records rs ∧ map_get 0 (l_Weight l) t = wrap64 (total rs)).
  { intros k l t rs Hl Ht. unfold addSOA in Hs. cbn [set_Labels z_Labels] in Hs.
    rewrite !lookup_singleton_eq in Hs. apply bind_Ret in Hs as (l0 & Hl0 & Hs).
    cbn in Hl0. injection Hl0 as <-. apply bind_Ret in Hs as (ns & _ & Hs).
    destruct (NewRR _) as [rr|]; [|done]. injection Hs as <-. cbn in Hl.
    apply lookup_insert_Some in Hl as [[_ <-]|[Hne Hl]].
    - cbn in Ht. apply lookup_insert_Some in Ht as [[<- <-]|[_ Ht]]; [|done].
      split_and!; [done|by repeat constructor|done].
    - by apply lookup_singleton_Some in Hl as [? _]. }
  split; [|intros k l t rs Hl Ht; by apply (Hrec k)|
    intros k l t rs Hl Ht; left; by apply (Hrec k l t rs)|by eapply addSOA_ok_SoaRR].
  apply addSOA_frame in Hs. unfold z_frame in Hs. cbn in Hs. congruence.
Qed.
End loaded.

(** ** The zones of every reachable manager *)

Section reachable.
Context `{GoFormat} `{GoArch} `{GoSort} `{GoRange} `{RRParser}.
Context (path_Join : string → string → string).

Abbreviation zones_loaded mm := (map_Forall zone_loaded (mm_zonelist mm)).

Lemma addHandler_loaded (mm : MuxManager mux_table) n zone mm' :
  addHandler mm n zone = Ret mm' → zone_loaded n zone → zones_loaded mm → zones_loaded mm'.
Proof.
  unfold addHandler. intros Hadd Hz Hall. apply bind_Ret in Hadd as ([heap z1] & E1 & Hadd).
  apply bind_Ret in Hadd as (z2 & E2 & Hadd). apply bind_Ret in Hadd as (reg & _ & Hadd).
  injection Hadd as <-. cbn. apply map_Forall_insert_2; [|done].
  eapply zone_loaded_like; [by eapply setupHealthTests_like|].
  destruct (SetupMetrics_ok (mm_stats mm) zone (mm_zonelist mm !! n)) as (heap' & m & E & _).
  rewrite E in E1. injection E1 as _ <-. by destruct Hz.
Qed.

Lemma reload_file_loaded w mm seen err f st :
  world_ok w → reload_file path_Join (w_geo w) (w_sha256 w) (w_read w) (mm, seen, err) f = Ret st →
  zones_loaded mm → zones_loaded st.1.1.
Proof.
  intros [Hread _]. unfold reload_file. intros Hr Hall. case_match; [by injection Hr as <-|].
  apply bind_Ret in Hr as (n & _ & Hr). case_match; [|by injection Hr as <-].
  apply bind_Ret in Hr as ([mm1 err1] & Hz & Hr). injection Hr as <-. cbn.
  unfold read_zone in Hz. case_decide; [by injection Hz as <- _|].
  destruct (ReadZoneFile _ _ _) as [e|zone] eqn:E; [by injection Hz as <- _|].
  apply bind_Ret in Hz as (mm2 & Hadd & Hz). injection Hz as <- _.
  eapply addHandler_loaded; [exact Hadd|by eapply ReadZoneFile_loaded|done].
Qed.

Lemma reload_loaded w mm mm' err :
  world_ok w → reload_in path_Join w mm = Ret (mm', err) → zones_loaded mm → zones_loaded mm'.
Proof.
  intros Hw. unfold reload_in, reload. destruct (w_listing w) as [dir|]; [|by intros [= <- _]].
  intros Hr Hall. apply bind_Ret in Hr as ([[mm1 seen] err1] & E1 & Hr).
  apply bind_Ret in Hr as (mm2 & E2 & Hr). injection Hr as <- _.
  apply (foldM_invariant _ (λ st, zones_loaded st.1.1)) in E1; [|done|].
  2: { intros [[m0 s0] e0] f st _ Hi Hf. by eapply reload_file_loaded. }
  revert E2. apply (foldM_invariant _ (λ mm, zones_loaded mm)); [done|].
  intros m [k z] m' _ Hi Hp. unfold prune_zone in Hp. case_match; [by injection Hp as <-|].
  unfold removeHandler in Hp. apply bind_Ret in Hp as (reg & _ & Hp). injection Hp as <-.
  by apply map_Forall_delete.
Qed.

Lemma reachable_loaded mm : reachable path_Join mm → zones_loaded mm.
Proof.
  induction 1 as [w path mm err Hw Hr|w mm mm' err Hre IH Hw Hr|]; [| |done].
  - apply start_in_steps in Hr as (mm1 & Hp & Hr).
    eapply reload_loaded; [done|exact Hr|]. unfold setupPgeodnsZone in Hp.
    apply bind_Ret in Hp as (zone & Hsoa & Hp).
    eapply addHandler_loaded; [exact Hp|by apply pgeodns_loaded|]. apply map_Forall_empty.
  - by eapply reload_loaded.
Qed.
End reachable.

(** ** The handler returns *)

(** What a zone file has to see to: limits and weights that are not negative,
    sums of weights within range, aliases that have a target and no cycle. *)
Record zone_sane (z : Zone) : Prop := {
  sa_hosts : ∀ k l, z_Labels z !! k = Some l → 0 ≤ l_MaxHosts l;
  sa_weights : ∀ k l t rs, z_Labels z !! k = Some l → l_Records l !! t = Some rs →
    Forall (λ s, 0 ≤ weight_of s) rs ∧ total rs < max_int;
  sa_aliases : aliases_ok z;
  sa_acyclic : ∃ rank : string → nat, ∀ targets s mf, alias_edge z targets s mf →
    (rank mf < rank s)%nat
}.

(** A match that the answer loop can use: it has a label of the zone. *)
Definition usable (z : Zone) (m : LabelMatch) : Prop :=
  ∃ k l, lm_Label m = Some l ∧ z_Labels z !! k = Some l.

(** For ANY the match carries the label of the bare name: it has to be there
    whenever a label for one of the targets is. *)
Definition any_closed (geo : option Provider) (z : Zone) : Prop :=
  ∀ ip targets netmask location ip' s t,
    GetTargets (o_Targeting (z_Options z)) geo ip (z_HasClosest z) = Ret (targets, netmask, location, ip') →
    t ∈ targets → is_Some (z_Labels z !! target_name s t) → is_Some (z_Labels z !! s).

Lemma sound_usable z targets qts m :
  (TypeANY ∈ qts → ∀ s t, t ∈ targets →
     is_Some (z_Labels z !! target_name s t) → is_Some (z_Labels z !! s)) →
  match_sound z targets qts m → usable z m.
Proof.
  intros Hany (k & [(_ & _ & l & Hl & Hk & _)|[(_ & Hin & Hl & t & Ht & Hk)|(_ & [l Hk] & Hl)]]).
  - by exists k, l.
  - destruct (Hany Hin k t Ht Hk) as [l Hk']. exists k, l. by rewrite Hl.
  - exists k, l. by rewrite Hl.
Qed.

Section returns.
Context `{HandlerEnv} `{GoArch} `{GreatCircle} `{GoRand rng} `{GoRange}.
Context (reg : registry) (geo : option Provider).
Hypothesis Hreg : ∀ name, ok (GetStatus reg name).
Hypothesis Hgeo : ∀ p, geo = Some p → provider_total p.

Lemma no_nil_statuses rs : no_nil_records rs → statuses_ok reg rs.
Proof.
  intros Hn. eapply Forall_impl; [exact Hn|]. intros s [r ->]. unfold healthy. cbn.
  case_match; [by eexists|]. destruct (Hreg (rec_Test r)) as [st ->]. by eexists.
Qed.

(** The records of a loaded and sane zone are what the picker expects. *)
Lemma loaded_label_ok n z k l t rs :
  zone_loaded n z → zone_sane z → z_Labels z !! k = Some l → l_Records l !! t = Some rs →
  t ≠ TypeANY ∧ label_ok reg l t rs.
Proof.
  intros Hz Hs Hl Hrs. split.
  { intros ->. destruct (zo_typed _ _ Hz k l _ rs Hl Hrs) as [?|[[key Hkey] _]]; [done|].
    apply elem_of_list_to_map_2 in Hkey. rewrite !elem_of_cons, elem_of_nil in Hkey. by destruct_or! Hkey. }
  destruct (zo_records _ _ Hz k l t rs Hl Hrs) as [Hnil Hw].
  destruct (sa_weights _ Hs k l t rs Hl Hrs) as [Hpos Htot].
  assert (Hok : weights_ok rs) by (split; [by apply Forall_and|done]).
  split_and!; [done|done| |by apply no_nil_statuses]. rewrite Hw. apply wrap64_id.
  pose proof (total_nonneg rs (proj1 Hok)). unfold int_range, min_int, max_int in *. lia.
Qed.

Lemma picks_no_nil l t rs result :
  label_ok reg l t rs → picks t (l_MaxHosts l) (eligible reg l rs) result → Forall is_Some result.
Proof.
  intros (_ & Hok & _) [Hsub _]. destruct (eligible_ok reg l rs Hok) as [_ Hel].
  apply (weights_ok_sublist result) in Hel as [[Hall _] _]; [|done].
  eapply Forall_impl; [exact Hall|]. by intros s [? _].
Qed.

Lemma Picker_returns n z k l t location (g : rng) :
  zone_loaded n z → zone_sane z → z_Labels z !! k = Some l →
  ∃ servers g', Picker reg l t (l_MaxHosts l) location g = Ret (servers, g') ∧
    Forall is_Some (default [] servers).
Proof.
  intros Hz Hs Hl. pose proof (sa_hosts _ Hs k l Hl) as Hmax.
  destruct (decide (t = TypeANY)) as [->|Ht].
  - destruct (Picker_any reg l (l_MaxHosts l) location g Hmax) as (result & g' & parts & E & Hparts & ->).
    { intros t rs Hrs. by eapply loaded_label_ok. }
    eexists _, g'. split; [exact E|].
    assert (Hall : Forall is_Some (concat parts)); [|by destruct parts].
    apply Forall_concat, (Forall2_Forall_r _ _ _ _ Hparts), Forall_forall.
    intros [t rs] Hin%elem_of_go_range part Hp. eapply picks_no_nil; [|exact Hp].
    by eapply loaded_label_ok.
  - unfold Picker. rewrite (proj2 (Z.eqb_neq t TypeANY)) by done.
    destruct (l_Records l !! t) as [rs|] eqn:Hrs.
    2: { unfold Picker_type. rewrite Hrs. exists None, g. split; [done|constructor]. }
    destruct (loaded_label_ok n z k l t rs Hz Hs Hl Hrs) as [_ Hlabel].
    destruct (Picker_type_picks reg l t (l_MaxHosts l) location g rs) as (result & g' & E & Hpicks);
      [done..|].
    exists (Some result), g'. split; [done|]. by eapply picks_no_nil.
Qed.

Lemma copy_records_ok qname servers : Forall is_Some servers → ok (copy_records qname servers).
Proof.
  unfold copy_records. induction 1 as [|s servers [r ->] _ [rrs IH]]; [by eexists|].
  cbn [mapM_res deref mbind res_bind]. rewrite IH. by eexists.
Qed.

Lemma answer_matches_ok n z qname matches :
  zone_loaded n z → zone_sane z → Forall (usable z) matches →
  ∀ location answer (g : rng), ok (answer_matches reg qname location answer matches g).
Proof.
  intros Hz Hs Hall. induction Hall as [|m matches (k & l & Hm & Hl) _ IH];
    intros location answer g; [by eexists|].
  cbn [answer_matches]. rewrite Hm. cbn [deref mbind res_bind].
  destruct (Picker_returns n z k l (lm_Type m) (if l_Closest l then location else None) g)
    as (servers & g' & -> & Hn); [done..|].
  cbn [mbind res_bind].
  assert (ok match servers with Some s => copy_records qname s | None => Ret answer end) as [a ->].
  { destruct servers; [by apply copy_records_ok|by eexists]. }
  cbn [mbind res_bind]. destruct a; [apply IH|by eexists].
Qed.

Lemma GetTargets_returns t ip hc : ok (GetTargets t geo ip hc).
Proof. destruct (GetTargets_total t geo ip hc Hgeo) as (a & b & c & d & -> & _). by eexists. Qed.

Lemma first_label_ok s c : ok (index (Split s c) 0).
Proof. pose proof (Split_nonnil s c). destruct (Split s c); [done|]. by eexists. Qed.

Lemma no_match_reply_ok srv z addr req m qname qlabel qtype realIP ip :
  ok (SoaRR z) →
  ok (no_match_reply srv z geo addr req m qname qlabel qtype realIP ip).
Proof.
  intros [soa Hsoa]. unfold no_match_reply. destruct (first_label_ok qlabel ".") as [first ->].
  rewrite Hsoa. cbn [mbind res_bind].
  destruct (GetTargets_returns (o_Targeting (z_Options z)) ip (z_HasClosest z))
    as [[[[ts nm] loc] ip'] ->].
  repeat case_match; by eexists.
Qed.

(** The message of a run that can write. *)
Definition one_reply (req : Msg) (msgs : list Msg) : Prop :=
  (∀ m, can_write m = true) → ∃ m, msgs = [m] ∧ answers_request req m.

Lemma write_one req m : answers_request req m → one_reply req (write m).
Proof. intros Ha Hw. unfold write. rewrite Hw. by exists m. Qed.

Lemma write_or_fail_one req m : answers_request req m → one_reply req (write_or_fail req m).
Proof. intros Ha Hw. unfold write_or_fail. rewrite Hw. by exists m. Qed.

(** The statistics after a run: as they were, or with one entry in each of the
    buffers of the zone. *)
Definition counted (heap heap' : stats_store) (i j : stats_loc) : Prop :=
  heap' = heap ∨ ∃ l l' heap1,
    stats_Add heap (Some i) l = Ret heap1 ∧ stats_Add heap1 (Some j) l' = Ret heap'.

(** The lookup of a sane zone: enough fuel, and matches the answer can use. *)
Lemma lookup_returns z s targets qtype :
  zone_sane z →
  (qtype = TypeANY → ∀ s t, t ∈ targets →
     is_Some (z_Labels z !! target_name s t) → is_Some (z_Labels z !! s)) →
  ∃ ms n, (∀ fuel, (n ≤ fuel)%nat →
      FindLabels fuel z s targets [TypeMF; TypeCNAME; qtype] = Ret ms) ∧ Forall (usable z) ms.
Proof.
  intros Hs Hany. destruct (sa_acyclic _ Hs) as [rank Hrank].
  destruct (FindLabels_returns z targets [TypeMF; TypeCNAME; qtype] rank (S (rank s)) s)
    as [ms Hms]; [by apply Hs|by apply Hrank|lia|].
  exists ms, (S (rank s)). split; [intros; by eapply FindLabels_fuel|].
  eapply Forall_impl; [by eapply FindLabels_sound_lemma|]. intros m. apply sound_usable.
  intros Hin. by apply Hany, any_asked.
Qed.

Lemma serve_returns n z srv heap (g : rng) addr req q qs i j :
  zone_loaded n z → zone_sane z → m_Question req = q :: qs →
  ok (getQuestionName z (q_Name q)) → (q_Qtype q = TypeANY → any_closed geo z) →
  z_Metrics z = mkMetrics (Some i) (Some j) → live heap i → live heap j →
  ∃ out n, (∀ fuel, (n ≤ fuel)%nat →
      serve fuel srv reg geo heap g z addr req = Ret out) ∧
    counted heap (out_stats out) i j ∧ one_reply req (out_msgs out).
Proof.
  intros Hz Hs Hq [qlabel Hql] Hany Hm Hi Hj. unfold serve. rewrite Hq.
  change (index (q :: qs) 0) with (Ret q). cbn [mbind res_bind].
  destruct ((q_Qtype q =? TypeA) && z_ParseIP z).
  { unfold getIPFromDomain. destruct (first_label_ok (q_Name q) ".") as [first ->].
    cbn [mbind res_bind]. destruct (ParseIP _); cbn [mbind res_bind];
      (eexists _, 0%nat; split_and!; [by intros|by left|apply write_one; auto with geodns]). }
  rewrite Hql, Hm. cbn [mbind res_bind LabelStats ClientStats].
  destruct (stats_Add_live heap i qlabel Hi) as (heap1 & E1 & Hl1). rewrite E1. cbn [mbind res_bind].
  destruct (stats_Add_live heap1 j (IP_String (addr_IP addr)) (Hl1 j Hj)) as (heap2 & E2 & _).
  rewrite E2. cbn [mbind res_bind]. destruct (scan_extra (m_Extra req)) as [opt_rr edns].
  destruct (GetTargets_returns (o_Targeting (z_Options z))
    (match edns with Some f => e_Address (fs_subnet f) | None => addr_IP addr end) (z_HasClosest z))
    as [[[[targets netmask] location] ip] Hgt]. rewrite Hgt. cbn [mbind res_bind]. cbn zeta.
  set (m := set_Extra _ _).
  assert (Hfresh : fresh_reply req m).
  { unfold m. split; [|done..]. apply answers_set_Extra, answers_set_Authoritative, SetReply_answers. }
  clearbody m.
  assert (Hcounted : counted heap heap2 i j) by (right; eauto).
  destruct (lookup_returns z qlabel targets (q_Qtype q) Hs) as (ms & k & Hf & Huse).
  { intros E s t. by eapply (Hany E). }
  destruct (zo_soa _ _ Hz) as [soa Hsoa]. destruct ms as [|m1 ms].
  - destruct (first_label_ok qlabel ".") as [first Hfirst].
    edestruct no_match_reply_ok as [[m' c] Hm']; [by eexists|].
    eexists _, k. split_and!.
    + intros fuel Hle. rewrite (Hf fuel Hle). cbn [mbind res_bind]. rewrite Hfirst.
      cbn [mbind res_bind]. rewrite Hm'. reflexivity.
    + exact Hcounted.
    + apply write_one. by eapply no_match_reply_spec.
  - destruct (answer_matches_ok n z (q_Name q) (m1 :: ms) Hz Hs Huse location (m_Answer m) g)
      as [[[answer label] g'] Ha].
    destruct Hfresh as [Hans _ _ _ _].
    destruct answer as [|rr answer]; (eexists _, k; split_and!;
      [ intros fuel Hle; rewrite (Hf fuel Hle); cbn [mbind res_bind]; rewrite Ha;
        cbn [mbind res_bind]; unfold answered_reply; cbn [set_Answer m_Answer];
        rewrite ?Hsoa; reflexivity
      | exact Hcounted
      | apply write_or_fail_one; auto with geodns ]).
Qed.
End returns.

(** ** The server answers *)

(** A handler of the server is that of a zone whose name is a part of the query
    name that starts at a label, whatever the name and the type are. *)
Lemma dispatched_zone (mm : MuxManager mux_table) qname t z :
  in_sync mm → mux_match (mm_reg mm) qname t = Some z →
  ∃ n k, mm_zonelist mm !! n = Some z ∧ name_ok n ∧ sdrop k (ToLower qname) = with_dot n ∧
    (seps (with_dot n) false ≤ seps qname false)%nat.
Proof.
  intros [Hnames Hreg] Hm. apply mux_match_found in Hm as [(k & Hz & Hle)|Hroot]; rewrite Hreg in *.
  - apply (lookup_kmap_Some with_dot) in Hz as (n & E & Hz). exists n, k.
    split_and!; [done|apply Hnames; by eexists|done|]. by rewrite <-E, <-(seps_ToLower qname).
  - apply (lookup_kmap_Some with_dot) in Hroot as (n & E & Hz).
    destruct (Hnames n) as [Hn _]; [by eexists|]. by destruct n as [|a [|b n]].
Qed.

(** The name of a query that was dispatched to a zone has a label part. *)
Lemma dispatched_name n k z qname :
  zone_loaded n z → name_ok n → sdrop k (ToLower qname) = with_dot n →
  (seps (with_dot n) false ≤ seps qname false)%nat → ok (getQuestionName z qname).
Proof.
  intros Hz [Hn Hfq] Hk Hle. unfold getQuestionName. rewrite (zo_count _ _ Hz).
  assert (n ≠ ".") by (by intros ->).
  assert (Hq : qname ≠ "" ∧ qname ≠ ".").
  { split; intros ->; (destruct n as [|a [|b n]]; [done|..]); cbn in Hk; destruct k as [|[|k]]; done. }
  destruct Hq as [Hq1 Hq2]. rewrite CountLabel_seps, SplitDomainName_seps by done.
  pose proof (seps_app n "." false) as Ha. fold (with_dot n) in Ha.
  rewrite decide_True by lia. by eexists.
Qed.

Section answers.
Context `{GoFormat} `{GoArch} `{GoSort} `{GoRange} `{RRParser} `{HandlerEnv} `{GreatCircle} `{GoRand rng}.
Context (path_Join : string → string → string).

(** Counting a query leads to a reachable state. *)
Lemma counted_reachable mm n z i j heap :
  reachable path_Join mm → mm_zonelist mm !! n = Some z →
  z_Metrics z = mkMetrics (Some i) (Some j) → counted (mm_stats mm) heap i j →
  reachable path_Join (set_stats mm heap).
Proof.
  intros Hre Hz Hm [->|(l & l' & heap1 & E1 & E2)]; [by destruct mm|].
  assert (Hre1 : reachable path_Join (set_stats mm heap1)).
  { eapply (reach_query path_Join mm n z i l); [done|done|left; by rewrite Hm|done]. }
  change (set_stats mm heap) with (set_stats (set_stats mm heap1) heap).
  eapply (reach_query path_Join (set_stats mm heap1) n z j l'); [done|done|right; by rewrite Hm|done].
Qed.

Lemma reachable_answers (mm : MuxManager mux_table) (srv : Server) (reg : registry)
    (geo : option Provider) (g : rng) (addr : RemoteAddr) (req : Msg) (q : Question)
    (qs : list Question) :
  reachable path_Join mm → map_Forall (λ _, zone_sane) (mm_zonelist mm) →
  (∀ name, ok (GetStatus reg name)) → (∀ p, geo = Some p → provider_total p) →
  m_Question req = q :: qs →
  (q_Qtype q = TypeANY → map_Forall (λ _, any_closed geo) (mm_zonelist mm)) →
  ∃ out n, (∀ fuel, (n ≤ fuel)%nat →
      ServeDNS fuel srv reg geo (mm_stats mm) g
        (mm_reg mm) addr req = Ret out) ∧
    one_reply req (out_msgs out) ∧
    reachable path_Join (set_stats mm (out_stats out)).
Proof.
  intros Hre Hsane Hreg Hgeo Hq Hany.
  destruct (reachable_inv path_Join mm Hre) as [Hsync _ Hstats].
  pose proof (reachable_loaded path_Join mm Hre) as Hloaded. unfold ServeDNS. rewrite Hq.
  destruct (mux_match (mm_reg mm) (q_Name q) (q_Qtype q)) as [z|] eqn:Hz.
  - destruct (dispatched_zone _ _ _ _ Hsync Hz) as (nm & k & Hlook & Hok & Hk & Hle).
    destruct (si_live _ _ Hstats _ z Hlook) as (i & j & Hm & _ & Hi & Hj).
    destruct (serve_returns reg geo Hreg Hgeo
      _ z srv (mm_stats mm) g addr req q qs i j (Hloaded _ _ Hlook) (Hsane _ _ Hlook) Hq)
      as (out & n & Hout & Hc & Hone); [| |done..|].
    { eapply dispatched_name; eauto. }
    { intros E. by apply (Hany E nm). }
    exists out, n. split_and!; [done|done|by eapply counted_reachable].
  - eexists _, 0%nat. split_and!; [by intros|apply write_one; apply HandleFailed_answers|].
    by destruct mm.
Qed.

(** C1: the server answers.  In every state the manager can reach, when the
    zones are sane, the statuses can be looked up and the provider answers, a
    query for any name whatever, of any type, makes the handler return (for
    ANY the zones must have the bare names of their targeted labels; the
    outcome is the same for every amount of fuel that is large enough), with
    exactly one message that answers the request; and the statistics it leaves
    behind are again a reachable state, so that the next query is answered
    too. *)
Theorem server_answers (mm : MuxManager mux_table) (srv : Server) (reg : registry)
    (geo : option Provider) (g : rng) (addr : RemoteAddr) (req : Msg) (q : Question)
    (qs : list Question) :
  reachable path_Join mm → map_Forall (λ _, zone_sane) (mm_zonelist mm) →
  (∀ name, ok (GetStatus reg name)) → (∀ p, geo = Some p → provider_total p) →
  m_Question req = q :: qs →
  (q_Qtype q = TypeANY → map_Forall (λ _, any_closed geo) (mm_zonelist mm)) →
  ∃ out n, (∀ fuel, (n ≤ fuel)%nat →
      ServeDNS fuel srv reg geo (mm_stats mm) g
        (mm_reg mm) addr req = Ret out) ∧
    one_reply req (out_msgs out) ∧
    reachable path_Join (set_stats mm (out_stats out)).
Proof. apply reachable_answers. Qed.

(** A record of a loaded zone that answers a question has its type. *)
Lemma from_zone_typed n z reg q rr :
  zone_loaded n z → q_Qtype q ∉ [TypeANY; TypeSOA] → from_zone reg z q rr →
  typed (q_Qtype q) rr ∨ typed TypeCNAME rr.
Proof.
  intros Hz Hq (k & l & t & rs & r & Hl & Ht & Hin & Hty & _ & ->).
  assert (Htyped : typed t (rec_RR r) → typed t (set_name (rec_RR r) (q_Name q))) by done.
  rewrite !elem_of_cons, elem_of_nil in Hq. destruct Hty as [Hty|E]; [|tauto].
  rewrite !elem_of_cons, elem_of_nil in Hty.
  destruct (zo_typed _ _ Hz k l t rs Hl Ht) as [->|[[key Hkey] Hall]].
  { destruct Hty as [?|[?|[E|[]]]]; [done|done|]. symmetry in E. tauto. }
  rewrite Forall_forall in Hall. specialize (Htyped (Hall _ Hin r eq_refl)). destruct Hty as [->|[->|[->|[]]]]; [|by right|by left].
  apply elem_of_list_to_map_2 in Hkey. rewrite !elem_of_cons, elem_of_nil in Hkey. by destruct_or! Hkey.
Qed.

(** C3: The records of a reply have the type that was asked for.  In every
    state the manager can reach, whatever is asked and however it is answered
    (from the zone, with an address read off the name, or by a debug name),
    each record of the answer section is of the type of the question or a
    CNAME, in its header and in its data; ANY, which asks for every type, and
    the SOA, which the parser of the dns package makes, are left out. *)
Theorem reply_types (mm : MuxManager mux_table) (fuel : nat) (srv : Server) (reg : registry)
    (geo : option Provider) (heap : stats_store) (g : rng) (addr : RemoteAddr) (req m : Msg)
    (q : Question) (qs : list Question) (out : outcome rng) :
  reachable path_Join mm →
  ServeDNS fuel srv reg geo heap g (mm_reg mm) addr req = Ret out →
  m_Question req = q :: qs → q_Qtype q ∉ [TypeANY; TypeSOA] → m ∈ out_msgs out →
  Forall (λ rr, typed (q_Qtype q) rr ∨ typed TypeCNAME rr) (m_Answer m).
Proof.
  intros Hre Hs Hq Hty Hin. destruct (reachable_inv path_Join mm Hre) as [Hsync _ _].
  pose proof (reachable_loaded path_Join mm Hre) as Hloaded.
  unfold ServeDNS in Hs. rewrite Hq in Hs.
  destruct (mux_match (mm_reg mm) (q_Name q) (q_Qtype q)) as [z|] eqn:Hz.
  - destruct (dispatched_zone _ _ _ _ Hsync Hz) as (n & k & Hlook & _).
    destruct (serve_answers _ _ _ _ _ _ _ _ _ _ _ _ _ Hs Hq Hin) as [->|[(E & _ & ip & e & _ & ->)|[(E & qlabel & _ & _ & Ha%debug_answer_typed)|[_ Ha]]]].
    + constructor.
    + rewrite E. by repeat constructor.
    + eapply Forall_impl; [exact Ha|]. intros rr. left. unfold is_debug_type in E.
      apply orb_true_iff in E as [E|E]; apply Z.eqb_eq in E; [|by rewrite E].
      exfalso. apply Hty. rewrite E. left.
    + eapply Forall_impl; [exact Ha|]. intros rr. eapply from_zone_typed; [by apply (Hloaded n)|done].
  - injection Hs as <-. cbn in Hin. unfold write in Hin. case_match; [|by apply elem_of_nil in Hin].
    apply list_elem_of_singleton in Hin as ->. constructor.
Qed.
End answers.

(** ** Example *)

(** A zone without aliases is sane when its numbers are. *)
Definition plain_label (l : Label) : Prop :=
  0 ≤ l_MaxHosts l ∧ ¬ is_Some (l_Records l !! TypeMF) ∧
  map_Forall (λ _ rs, Forall (λ s, 0 ≤ weight_of s) rs ∧ total rs < max_int) (l_Records l).

Lemma sane_without_aliases z : map_Forall (λ _, plain_label) (z_Labels z) → zone_sane z.
Proof.
  intros Hall. split.
  - intros k l Hl. apply (Hall k l Hl).
  - intros k l t rs Hl Ht. destruct (Hall k l Hl) as (_ & _ & Hr). by apply (Hr t rs).
  - intros k l Hl Hmf. by destruct (Hall k l Hl) as (_ & [] & _).
  - exists (λ _, 0%nat). intros targets s mf (t & l & _ & Hl & Hmf & _).
    by destruct (Hall _ _ Hl) as (_ & [] & _).
Qed.

#[export] Instance plain_label_dec l : Decision (plain_label l).
Proof. unfold plain_label. apply _. Defined.

Lemma example_state_plain :
  map_Forall (λ _ z, map_Forall (λ _, plain_label) (z_Labels z)) (mm_zonelist example_state).
Proof. apply (bool_decide_unpack _). vm_compute. exact I. Qed.

Lemma server_answers_witness :
  ∃ out n, (∀ fuel, (n ≤ fuel)%nat →
      @ServeDNS example_env arch_amd64 GreatCircle_toy (list Z) GoRand_replay GoRange_list fuel
        example_server ∅ None (mm_stats example_state) [12] (mm_reg example_state)
        example_addr (example_request "www.sub.example.com." TypeA) = Ret out) ∧
    ∃ m, out_msgs out = [m] ∧ answers_request (example_request "www.sub.example.com." TypeA) m.
Proof.
  destruct (@server_answers GoFormat_blank arch_amd64 GoSort_merge GoRange_list example_parser example_env
    GreatCircle_toy (list Z) GoRand_replay example_path_Join
    example_state example_server ∅ None [12] example_addr
    (example_request "www.sub.example.com." TypeA) (mkQuestion "www.sub.example.com." TypeA ClassINET)
    []) as (out & n & Hout & Hone & _).
  - exact (reach_start _ _ _ _ _ example_world_ok example_start_ok).
  - eapply map_Forall_impl; [exact example_state_plain|]. intros n z. apply sane_without_aliases.
  - intros name. exists StatusUnknown. unfold GetStatus. repeat case_match; try reflexivity; discriminate.
  - discriminate.
  - reflexivity.
  - intros E. discriminate E.
  - exists out, n. split; [exact Hout|]. apply Hone. intros; reflexivity.
Defined.

(** The run of the example, with the fuel it needs. *)
Definition example_reply : res (outcome (list Z)) :=
  @ServeDNS example_env arch_amd64 GreatCircle_toy (list Z) GoRand_replay GoRange_list 5
    example_server ∅ None (mm_stats example_state) [12] (mm_reg example_state)
    example_addr (example_request "www.sub.example.com." TypeA).

Lemma reply_types_witness :
  ∃ out m, example_reply = Ret out ∧ out_msgs out = [m] ∧
    Forall (λ rr, typed TypeA rr ∨ typed TypeCNAME rr) (m_Answer m) ∧ m_Answer m ≠ [].
Proof.
  destruct example_reply as [out| |] eqn:E; [|vm_compute in E; discriminate E..].
  assert (∃ m, out_msgs out = [m] ∧ m_Answer m ≠ []) as (m & Hm & Ha).
  { vm_compute in E. injection E as <-. eexists. split; [reflexivity|discriminate]. }
  exists out, m. split; [reflexivity|]. split; [exact Hm|]. split; [|exact Ha].
  unfold example_reply in E.
  refine (@reply_types GoFormat_blank arch_amd64 GoSort_merge GoRange_list example_parser example_env
    GreatCircle_toy (list Z) GoRand_replay example_path_Join example_state 5 example_server ∅ None
    (mm_stats example_state) [12] example_addr (example_request "www.sub.example.com." TypeA) m
    (mkQuestion "www.sub.example.com." TypeA ClassINET) [] out _ E _ _ _).
  - exact (reach_start _ _ _ _ _ example_world_ok example_start_ok).
  - reflexivity.
  - apply (bool_decide_unpack _). vm_compute. exact I.
  - rewrite Hm. left.
Defined.
