(* ===== verification/Provenance.v ===== *)
(** * Where an answer comes from

    From the answer back to the file: every record the server sends in reply to
    a query was read from a file of the zone directory, the file of the zone
    that serves the name, in one of the listings the manager has seen.  [said]
    is what a zone file says, [history] the states of the manager with what it
    found in the file system on the way. *)

From S2P Require Import Prelude GoRuntime GoStrings GoNet Float64 TypeUtil Targeting.
From S2P Require Import DnsNames DnsMsg Health ZoneStats Zones Picker Reader ReaderSpec QueryLog.
From S2P Require Import MuxManager Reachable Server EndToEnd.
Local Open Scope Z_scope.

(** ** Specification *)

Definition named (dk : string) : Label := mkLabel (ToLower dk) 0 0 ∅ ∅ false None.

(** The data of the file of the zone [n] list, for some label and the type [t],
    a record with the data [d]. *)
Definition said `{GoArch} `{GoFormat} (n : string) (data : list (string * value)) (t : Z) (d : RData) : Prop :=
  ∃ dk dv key rdata recs rec r, (dk, VObj dv) ∈ data ∧ (key, rdata) ∈ dv ∧
    recordTypes !! key = Some t ∧ record_list rdata = Ret recs ∧ rec ∈ recs ∧
    make_record (NewZone n) (named dk) dk t rec = Ret (Some r) ∧ rr_Data (rec_RR r) = d.

(** Every record of the label, the SOA apart, has data that satisfy [Q]. *)
Definition label_from (Q : Z → RData → Prop) (l : Label) : Prop :=
  ∀ t rs r, l_Records l !! t = Some rs → Some r ∈ rs → t = TypeSOA ∨ Q t (rr_Data (rec_RR r)).

Lemma label_from_mono (Q Q' : Z → RData → Prop) l :
  (∀ t d, Q t d → Q' t d) → label_from Q l → label_from Q' l.
Proof. intros HQ Hl t rs r Ht Hr. destruct (Hl t rs r Ht Hr); [by left|right; by apply HQ]. Qed.

Lemma label_from_insert Q l t rs :
  label_from Q l → (∀ r, Some r ∈ rs → Q t (rr_Data (rec_RR r))) →
  label_from Q (set_Records l (<[t := rs]> (l_Records l))).
Proof.
  intros Hl Hrs t' rs' r. cbn. intros [[<- <-]|[_ Ht]]%lookup_insert_Some Hr;
    [right; by apply Hrs|by eapply Hl].
Qed.

Lemma label_from_same Q l l' : l_Records l' = l_Records l → label_from Q l → label_from Q l'.
Proof. unfold label_from. by intros ->. Qed.

(** ** Reading a file *)

Section reader.
Context `{GoFormat} `{GoArch} `{GoSort} `{GoRange} `{RRParser}.

Lemma setup_entries_said n data dk dv zone label zone' label' :
  foldM (setup_entry dk) (zone, label) dv = Ret (zone', label') → (dk, VObj dv) ∈ data →
  z_Origin zone = n → l_Label label = ToLower dk →
  label_from (said n data) label → z_Origin zone' = n ∧ label_from (said n data) label'.
Proof.
  intros Hloop Hin En El Hl.
  apply (foldM_invariant _ (λ st : Zone * Label, z_Origin st.1 = n ∧ l_Label st.2 = ToLower dk ∧
    label_from (said n data) st.2)) in Hloop; [tauto|done|].
  clear -Hin. intros [z l] e [z' l'] He (En & El & Hl) Hs. cbn [fst snd] in *.
  apply setup_entry_records in Hs as ([E1 E2] & _ & Hrec). split_and!; [congruence|congruence|].
  remember (l_Records l') as rm eqn:Erm. destruct Hrec as [k v _|k|k v t recs made rs Ek _ Hrecs Hm Hp];
    [by eapply label_from_same; [symmetry|]..|].
  eapply (label_from_same _ (set_Records l (<[t := rs]> (l_Records l)))); [by cbn|].
  apply label_from_insert; [done|]. intros r Hr. rewrite Hp in Hr.
  apply list_elem_of_lookup in Hr as [i Hi].
  destruct (Forall2_lookup_r _ _ _ _ _ Hm Hi) as (rec & Hrec & Hmk).
  exists dk, dv, k, v, recs, rec, r. split_and!; [done|done|done|done|by eapply list_elem_of_lookup_2| |done].
  rewrite <-Hmk. apply make_record_names. split; cbn; by symmetry.
Qed.
Abbreviation zone_from Q z := (zone_inv (label_from Q) z).

Lemma new_label_from Q l : l_Records l = ∅ → label_from Q l.
Proof. unfold label_from. by intros ->. Qed.

Lemma setup_label_said n data zone e zone' :
  setup_label zone e = Ret zone' → e ∈ data → z_Origin zone = n →
  zone_from (said n data) zone → z_Origin zone' = n ∧ zone_from (said n data) zone'.
Proof.
  destruct e as [dk v]. unfold setup_label. intros Hs Hin En Hz.
  apply bind_Ret in Hs as (dv & Hdv & Hs). destruct v as [| | | | | |dv0]; try done. injection Hdv as ->.
  rewrite lookup_AddLabel in Hs. apply bind_Ret in Hs as (l0 & Hl0 & Hs). injection Hl0 as <-.
  apply bind_Ret in Hs as ([z3 l3] & Hloop & Hs). injection Hs as <-.
  assert (Hz3 : z_Labels z3 = z_Labels (AddLabel zone dk)).
  { apply (foldM_invariant _ (λ st : Zone * Label, z_Labels st.1 = z_Labels (AddLabel zone dk)))
      in Hloop; [done|done|]. intros st e st' _ <- He. by eapply setup_entry_labels. }
  apply (setup_entries_said n data) in Hloop as [E3 Hl3]; [|done|done|done|by apply new_label_from].
  split; [done|]. apply zone_inv_insert; [|done]. intros k l. rewrite Hz3. cbn.
  intros [[_ <-]|[_ Hl]]%lookup_insert_Some; [by apply new_label_from|by eapply Hz].
Qed.

Lemma finish_type_said Q zone l t rs l' :
  finish_type zone l t rs = Ret l' → label_from Q l →
  (∀ r, Some r ∈ rs → t = TypeSOA ∨ Q t (rr_Data (rec_RR r))) → label_from Q l'.
Proof.
  intros Hf Hl Hrs. unfold finish_type in Hf. apply bind_Ret in Hf as (rs' & Hm & Hf).
  injection Hf as <-. apply finish_records_finished in Hm as (made & -> & ->).
  set (l1 := if needs_weight l t then _ else l).
  assert (l_Records l1 = l_Records l) as E1.
  { unfold l1. case_match; [|done]. generalize (Some <$> made). clear. intros rs. revert l.
    induction rs as [|r rs IH]; intros l; [done|]. cbn. by rewrite IH. }
  intros t' rs' r'. cbn. rewrite E1. intros [[<- <-]|[_ Ht]]%lookup_insert_Some Hr; [|by eapply Hl].
  apply list_elem_of_fmap in Hr as (r1 & [= ->] & Hr). apply list_elem_of_fmap in Hr as (r0 & -> & Hr).
  destruct (Hrs r0) as [->|HQ]; [by apply list_elem_of_fmap_2|by left|right].
  cbn. unfold set_ttl. by case_match.
Qed.

Lemma finish_label_said Q zone k zone' :
  finish_label zone k = Ret zone' → zone_from Q zone → zone_from Q zone'.
Proof.
  intros Hf Hz. unfold finish_label in Hf.
  assert (Hz1 : zone_from Q (add_parents zone k)).
  { intros k' l [Hl|[? _]]%add_parents_lookup; [by eapply Hz|by apply new_label_from]. }
  apply bind_Ret in Hf as (l & Hl & Hf). apply bind_Ret in Hf as (l' & Hloop & Hf). injection Hf as <-.
  destruct (z_Labels (add_parents zone k) !! k) as [l0|] eqn:E; [|done]. injection Hl as ->.
  apply zone_inv_insert; [done|].
  apply (foldM_invariant _ (label_from Q)) in Hloop; [done|by eapply Hz1|].
  intros l1 [t rs] l2 Hin Hl1 Hft. apply elem_of_go_range in Hin.
  eapply finish_type_said; [exact Hft|done|]. intros r Hr. by eapply Hz1.
Qed.

(** The records of a zone that was set up are those the data list. *)
Lemma setupZoneData_said n data zone zone' :
  setupZoneData data zone = Ret zone' → z_Origin zone = n → z_Labels zone = ∅ →
  zone_from (said n data) zone'.
Proof.
  intros Hs En Hempty. unfold setupZoneData in Hs.
  apply bind_Ret in Hs as (z1 & H1' & Hs). apply bind_Ret in Hs as (z2 & H2' & Hs).
  apply (foldM_invariant _ (λ z, z_Origin z = n ∧ zone_from (said n data) z)) in H1' as [_ H1'];
    [|split; [done|]; by intros k l; rewrite Hempty|].
  2: { intros z e z' He [En' Hz] Hr. by eapply setup_label_said. }
  apply (foldM_invariant _ (λ z, zone_from (said n data) z)) in H2'; [|done|].
  2: { intros z k z' _ Hz Hr. by eapply finish_label_said. }
  destruct (addSOA_made _ _ Hs) as (_ & Hold & Hnew). intros k l' Hl' t rs r Ht Hr.
  destruct (decide (t = TypeSOA)) as [->|Hne]; [by left|].
  destruct (z_Labels z2 !! k) as [l|] eqn:El.
  - destruct (Hold k l El) as (l2 & Hl2 & _ & Hsame). rewrite Hl' in Hl2. injection Hl2 as <-.
    rewrite Hsame in Ht by done. by eapply H2'.
  - rewrite (Hnew k l' t El Hl' Hne) in Ht. done.
Qed.

Lemma zone_from_like Q z z' : zone_like z z' → zone_from Q z → zone_from Q z'.
Proof.
  intros [_ Hl] Hz k l' Hk t rs' r' Ht Hr. specialize (Hl k). rewrite Hk in Hl.
  inversion Hl as [l ? Hlike El|]; subst. pose proof (ll_Records _ _ Hlike t) as Hrs.
  rewrite Ht in Hrs. inversion Hrs as [rs ? Hrl Er|]; subst.
  apply list_elem_of_lookup in Hr as [i Hi].
  destruct (Forall2_lookup_r _ _ _ _ _ Hrl Hi) as (s & Hs & Hsl).
  unfold rec_like in Hsl. destruct s as [r|]; [|done]. cbn in Hsl. injection Hsl as E _. rewrite <-E.
  eapply (Hz k l); [done|done|by eapply list_elem_of_lookup_2].
Qed.

(** What the object of a file says: what its member "data" lists. *)
Definition file_says (n : string) (objmap : list (string * value)) (t : Z) (d : RData) : Prop :=
  ∃ data, ("data", VObj data) ∈ objmap ∧ said n data t d.

Lemma ReadZoneFile_said g n mtime objmap zone :
  ReadZoneFile g (NewZone n) (ZoneFile mtime (Some objmap)) = inr zone → zone_from (file_says n objmap) zone.
Proof.
  unfold ReadZoneFile. set (z := match mtime with Some t => _ | None => _ end).
  assert (Hz : z_Labels z = ∅ ∧ z_Origin z = n) by (unfold z; by case_match). clearbody z.
  destruct Hz as [Hz Hn]. destruct (load_object g z objmap) as [r| |] eqn:E; [|done..]. intros ->.
  unfold load_object in E. apply bind_Ret in E as ([err|[z1 data]] & E1 & E); [done|].
  apply read_options_frame in E1 as Hf. apply read_options_spec in E1 as [Hz1 Hd].
  apply bind_Ret in E as (z2 & E2 & E). injection Hf as _ _ Ho.
  assert (Hs : zone_from (file_says n objmap) z2).
  { apply (setupZoneData_said n) in E2; [|congruence..]. intros k l Hl.
    eapply label_from_mono; [|by eapply E2]. intros t d Hsd. exists data.
    split; [|done]. destruct Hd as [->|?]; [|done].
    destruct Hsd as (dk & dv & ? & ? & ? & ? & ? & Hin & _). by apply elem_of_nil in Hin. }
  repeat case_match; try (by injection E as <-).
  apply bind_Ret in E as (z3 & E3 & E). injection E as <-.
  eapply zone_from_like; [by eapply SetLocations_like|done].
Qed.
End reader.

(** ** The states of the manager, and the files it has seen *)

Section history.
Context `{GoFormat} `{GoArch} `{GoSort} `{GoRange} `{RRParser}.
Context (path_Join : string → string → string) (path : string).

(** The states of [reachable], with the worlds found by the start and by the
    reloads, the latest first. *)
Inductive history : list world → MuxManager mux_table → Prop :=
| hist_start w mm err :
    world_ok w → start_in path_Join w path = Ret (mm, err) → history [w] mm
| hist_reload ws w mm mm' err :
    history ws mm → world_ok w → reload_in path_Join w mm = Ret (mm', err) → history (w :: ws) mm'
| hist_query ws mm n z i l heap :
    history ws mm → mm_zonelist mm !! n = Some z → owns z i →
    stats_Add (mm_stats mm) (Some i) l = Ret heap → history ws (set_stats mm heap).

Lemma history_reachable ws mm : history ws mm → reachable path_Join mm.
Proof.
  induction 1; [by eapply reach_start|by eapply reach_reload|by eapply reach_query].
Qed.

(** A file of the zone [n] in the listing says so. *)
Definition world_says (w : world) (n : string) (t : Z) (d : RData) : Prop :=
  ∃ dir f mtime objmap, w_listing w = Some dir ∧ f ∈ dir ∧ status_name f = Some n ∧
    w_read w (path_Join path (f_Name f)) = ZoneFile mtime (Some objmap) ∧ file_says n objmap t d.

(** A file of the zone in one of the worlds says so. *)
Definition seen (ws : list world) (n : string) (t : Z) (d : RData) : Prop :=
  ∃ w, w ∈ ws ∧ world_says w n t d.

(** The zones hold what satisfies [Q]. *)
Definition zones_from (Q : string → Z → RData → Prop) (mm : MuxManager mux_table) : Prop :=
  mm_path mm = path ∧ ∀ n z, mm_zonelist mm !! n = Some z → zone_inv (label_from (Q n)) z.

Lemma addHandler_from Q (mm : MuxManager mux_table) n zone mm' :
  addHandler mm n zone = Ret mm' → zone_inv (label_from (Q n)) zone → zones_from Q mm → zones_from Q mm'.
Proof.
  unfold addHandler. intros Hadd Hz [Hp Hall]. apply bind_Ret in Hadd as ([heap z1] & E1 & Hadd).
  apply bind_Ret in Hadd as (z2 & E2 & Hadd). apply bind_Ret in Hadd as (reg & _ & Hadd).
  injection Hadd as <-. split; [done|]. cbn.
  intros m z [[<- <-]|[_ Hm]]%lookup_insert_Some; [|by apply Hall].
  eapply zone_from_like; [by eapply setupHealthTests_like|].
  destruct (SetupMetrics_ok (mm_stats mm) zone (mm_zonelist mm !! n)) as (heap' & m & E & _).
  rewrite E in E1. injection E1 as _ <-. exact Hz.
Qed.

Lemma reload_file_from (Q : string → Z → RData → Prop) w dir mm sz err f st :
  (∀ n t d, world_says w n t d → Q n t d) → w_listing w = Some dir → f ∈ dir →
  reload_file path_Join (w_geo w) (w_sha256 w) (w_read w) (mm, sz, err) f = Ret st →
  zones_from Q mm → zones_from Q st.1.1.
Proof.
  intros HQ Hdir Hf Hr Hall. unfold reload_file in Hr.
  destruct (json_file f) eqn:Ej; cbn [negb] in Hr; [|by injection Hr as <-].
  apply bind_Ret in Hr as (n & Hn & Hr). case_match; [|by injection Hr as <-].
  apply bind_Ret in Hr as ([mm1 err1] & Hz & Hr). injection Hr as <-. cbn.
  unfold read_zone in Hz. case_decide; [injection Hz as <- _; exact Hall|].
  destruct (ReadZoneFile _ _ _) as [e|zone] eqn:E; [injection Hz as <- _; exact Hall|].
  apply bind_Ret in Hz as (mm2 & Hadd & Hz). injection Hz as <- _.
  eapply addHandler_from; [exact Hadd| |exact Hall]. cbn [mm_path set_lastRead] in E.
  destruct Hall as [Hp _]. rewrite Hp in E.
  destruct (w_read w (path_Join path (f_Name f))) as [|mtime [objmap|]] eqn:Er; [done| |done].
  apply ReadZoneFile_said in E. intros k l Hl. eapply label_from_mono; [|by eapply E].
  intros t d Hsays. apply HQ. exists dir, f, mtime, objmap. split_and!; [done|done| |done|done].
  unfold status_name. by rewrite Ej, Hn.
Qed.

Lemma reload_from (Q : string → Z → RData → Prop) w mm mm' err :
  (∀ n t d, world_says w n t d → Q n t d) →
  reload_in path_Join w mm = Ret (mm', err) → zones_from Q mm → zones_from Q mm'.
Proof.
  intros HQ. unfold reload_in, reload. destruct (w_listing w) as [dir|] eqn:Hdir; [|by intros [= <- _]].
  intros Hr Hall. apply bind_Ret in Hr as ([[mm1 sz] err1] & E1 & Hr).
  apply bind_Ret in Hr as (mm2 & E2 & Hr). injection Hr as <- _.
  apply (foldM_invariant _ (λ st, zones_from Q st.1.1)) in E1; [|done|].
  2: { intros [[m0 s0] e0] f st Hf Hi Hs. by eapply reload_file_from. }
  revert E2. apply (foldM_invariant _ (zones_from Q)); [done|].
  intros m [k z] m' _ [Hp Hi] Hs. unfold prune_zone in Hs. case_match; [by injection Hs as <-|].
  unfold removeHandler in Hs. apply bind_Ret in Hs as (reg & _ & Hs). injection Hs as <-.
  split; [done|]. cbn. intros n z' [_ ?]%lookup_delete_Some. by apply Hi.
Qed.

Lemma history_from ws mm : history ws mm → zones_from (seen ws) mm.
Proof.
  induction 1 as [w mm err Hw Hr|ws w mm mm' err _ IH Hw Hr|ws mm n z i l heap _ IH].
  - apply start_in_steps in Hr as (mm1 & Hp & Hr).
    eapply reload_from; [|exact Hr|]; [intros n t d Hs; exists w; split; [left|done]|].
    unfold setupPgeodnsZone in Hp. apply bind_Ret in Hp as (zone & Hsoa & Hp).
    eapply addHandler_from; [exact Hp| |split; [done|]; intros n z; cbn; by rewrite lookup_empty].
    intros k l Hl t rs r Ht _. left. destruct (addSOA_made _ _ Hsoa) as (_ & Hold & Hnew).
    destruct (decide (t = TypeSOA)) as [|Hne]; [done|]. exfalso.
    destruct (decide (k = "")) as [->|Hk].
    + destruct (Hold "" _ (lookup_singleton_eq _ _)) as (l2 & Hl2 & _ & Hsame). rewrite Hl in Hl2.
      injection Hl2 as <-. by rewrite Hsame in Ht.
    + by rewrite (Hnew k l t) in Ht; [|by apply lookup_singleton_ne|..].
  - eapply reload_from; [|exact Hr|].
    + intros n t d Hs. exists w. split; [left|done].
    + destruct IH as [Hp IH]. split; [done|]. intros n z Hz k l Hl.
      eapply label_from_mono; [|by eapply IH]. intros t d (w' & ? & ?). exists w'. split; [by right|done].
  - exact IH.
Qed.
End history.

(** Every reachable state has a history. *)
Lemma reachable_history `{GoFormat} `{GoArch} `{GoSort} `{GoRange} `{RRParser} path_Join mm :
  reachable path_Join mm → ∃ path ws, history path_Join path ws mm.
Proof.
  induction 1 as [w path mm err Hw Hr|w mm mm' err _ (path & ws & IH) Hw Hr|mm n z i l heap _ (path & ws & IH)].
  - exists path, [w]. by eapply hist_start.
  - exists path, (w :: ws). by eapply hist_reload.
  - exists path, ws. by eapply hist_query.
Qed.

(** ** The answers *)

Section answers.
Context `{GoFormat} `{GoArch} `{GoSort} `{GoRange} `{RRParser} `{HandlerEnv} `{GreatCircle} `{GoRand rng}.
Context (path_Join : string → string → string).

Lemma seen_type path ws n t d : seen path_Join path ws n t d → t ≠ 0.
Proof.
  intros (w & _ & dir & f & mtime & objmap & _ & _ & _ & _ & data & _ & dk & dv & key & rdata & recs &
    rec & r & _ & _ & Hkey & _).
  apply elem_of_list_to_map_2 in Hkey. rewrite !elem_of_cons, elem_of_nil in Hkey. by destruct_or! Hkey; simplify_eq.
Qed.

Lemma from_zone_seen path ws n z reg q rr :
  zone_inv (label_from (seen path_Join path ws n)) z → q_Qtype q ∉ [TypeANY; TypeSOA] →
  from_zone reg z q rr →
  ∃ t, t ∈ [TypeCNAME; q_Qtype q] ∧ seen path_Join path ws n t (rr_Data rr).
Proof.
  intros Hz Hq (k & l & t & rs & r & Hl & Ht & Hin & Hty & _ & ->).
  rewrite !elem_of_cons, elem_of_nil in Hq. destruct Hty as [Hty|E]; [|tauto].
  rewrite !elem_of_cons, elem_of_nil in Hty.
  destruct (Hz k l Hl t rs r Ht Hin) as [->|Hseen].
  { exfalso. destruct Hty as [?|[?|[E|[]]]]; [done|done|]. symmetry in E. tauto. }
  exists t. split; [|done]. apply seen_type in Hseen. set_solver.
Qed.

(** C4: nothing is answered that was not in a zone file.  Whatever the
    manager has read, every record of the answer section was read from a file
    with the name of a zone that the name asked for ends in, in one of the
    listings the manager has seen; it was listed there as a record of the type
    that was asked for or as a CNAME.  The only other answers are, in a zone
    that reads addresses off names, the one record with the address in the
    first label of the name; and for the names "_status", "_health" and
    "_country", when the zone does not have them, the one text record of
    [debug_answer], the first two only for clients that are permitted to see
    it.  ANY, and the SOA, which the reader makes, are left out. *)
Theorem answers_from_files (path : string) (ws : list world) (mm : MuxManager mux_table) (fuel : nat)
    (srv : Server) (reg : registry) (geo : option Provider) (heap : stats_store) (g : rng)
    (addr : RemoteAddr) (req m : Msg) (q : Question) (qs : list Question) (out : outcome rng) :
  history path_Join path ws mm →
  ServeDNS fuel srv reg geo heap g (mm_reg mm) addr req = Ret out →
  m_Question req = q :: qs → q_Qtype q ∉ [TypeANY; TypeSOA] → m ∈ out_msgs out →
  m_Answer m = [] ∨
  ∃ n z k, mm_zonelist mm !! n = Some z ∧ sdrop k (ToLower (q_Name q)) = with_dot n ∧
    ((q_Qtype q = TypeA ∧ z_ParseIP z = true ∧
       ∃ ip e, getIPFromDomain (q_Name q) = Ret (ip, e) ∧ m_Answer m = [named_address (q_Name q) ip]) ∨
     (q_Qtype q = TypeTXT ∧
       ∃ label, getQuestionName z (q_Name q) = Ret label ∧ z_Labels z !! label = None ∧
         debug_answer srv z geo addr (q_Name q) label (m_Answer m)) ∨
     Forall (λ rr, ∃ t, t ∈ [TypeCNAME; q_Qtype q] ∧ seen path_Join path ws n t (rr_Data rr)) (m_Answer m)).
Proof.
  intros Hh Hs Hq Hty Hin.
  destruct (reachable_inv path_Join mm (history_reachable _ _ _ _ Hh)) as [Hsync _ _].
  destruct (history_from _ _ _ _ Hh) as [_ Hfrom].
  unfold ServeDNS in Hs. rewrite Hq in Hs.
  destruct (mux_match (mm_reg mm) (q_Name q) (q_Qtype q)) as [z|] eqn:Hz.
  - destruct (dispatched_zone _ _ _ _ Hsync Hz) as (n & k & Hlook & _ & Hsuf & _).
    destruct (serve_answers _ _ _ _ _ _ _ _ _ _ _ _ _ Hs Hq Hin) as [?|Hcases]; [by left|right].
    exists n, z, k. split_and!; [done|done|].
    destruct Hcases as [?|[[E ?]|[_ Ha]]]; [by left|right; left|right; right].
    + split; [|done]. unfold is_debug_type in E. apply orb_true_iff in E as [E|E]; apply Z.eqb_eq in E; [|done].
      exfalso. apply Hty. rewrite E. left.
    + eapply Forall_impl; [exact Ha|]. intros rr. apply from_zone_seen; [by apply Hfrom|done].
  - injection Hs as <-. cbn in Hin. unfold write in Hin. case_match; [|by apply elem_of_nil in Hin].
    apply list_elem_of_singleton in Hin as ->. by left.
Qed.
End answers.

(** ** Example *)

Lemma example_history : @history GoFormat_blank arch_amd64 GoSort_merge GoRange_list example_parser
  example_path_Join "zones" [example_world] example_state.
Proof. exact (hist_start _ _ _ _ _ example_world_ok example_start_ok). Qed.

Lemma answers_from_files_witness :
  let _ := GoFormat_blank in let _ := arch_amd64 in
  ∃ out m n, example_reply = Ret out ∧ out_msgs out = [m] ∧ m_Answer m ≠ [] ∧
    Forall (λ rr, ∃ t, t ∈ [TypeCNAME; TypeA] ∧
      seen example_path_Join "zones" [example_world] n t (rr_Data rr)) (m_Answer m).
Proof.
  intros F A.
  destruct example_reply as [out| |] eqn:E; [|vm_compute in E; discriminate E..].
  assert (∃ m, out_msgs out = [m] ∧ m_Answer m ≠ []) as (m & Hm & Ha).
  { vm_compute in E. injection E as <-. eexists. split; [reflexivity|discriminate]. }
  unfold example_reply in E.
  destruct (@answers_from_files GoFormat_blank arch_amd64 GoSort_merge GoRange_list example_parser example_env
    GreatCircle_toy (list Z) GoRand_replay example_path_Join "zones" [example_world] example_state 5
    example_server ∅ None
    (mm_stats example_state) [12] example_addr (example_request "www.sub.example.com." TypeA) m
    (mkQuestion "www.sub.example.com." TypeA ClassINET) [] out example_history E)
    as [Hnil|(n & z & k & Hz & _ & [(_ & Hp & _)|[[Hty _]|Hseen]])].
  - reflexivity.
  - apply (bool_decide_unpack _). vm_compute. exact I.
  - rewrite Hm. left.
  - destruct (Ha Hnil).
  - assert (Hno : map_Forall (λ _ z, z_ParseIP z = false) (mm_zonelist example_state))
      by (apply (bool_decide_unpack _); vm_compute; exact I).
    rewrite (Hno n z Hz) in Hp. discriminate Hp.
  - discriminate Hty.
  - exists out, m, n. split; [reflexivity|]. split; [exact Hm|]. split; [exact Ha|exact Hseen].
Defined.
