(* ===== verification/DayDuration.v ===== *)
(** * dayduration.go: printing an uptime

    [DayString] fills a buffer of 32 bytes from its end.  The buffer is a list
    whose stores are checked against its bounds, so the theorem that every
    duration prints also says that the buffer is large enough. *)

From S2P Require Import Prelude GoStrings.
Local Open Scope Z_scope.

(** A buffer and the index of the first byte written. *)
Definition cursor : Type := list ascii * Z.

(** [w--; buf[w] = c]. *)
Definition put (c : ascii) (b : cursor) : res cursor :=
  let '(buf, w) := b in
  buf ← store_at buf (w - 1) c;
  Ret (buf, w - 1).

(** The loop of [fmtInt] for [v > 0]. *)
Fixpoint fmt_loop (fuel : nat) (b : cursor) (v : Z) : res cursor :=
  match fuel with
  | O => OutOfFuel
  | S fuel =>
      if 0 <? v then
        b ← put (digit_char (v `mod` 10)) b;
        fmt_loop fuel b (v `div` 10)
      else Ret b
  end.

(** [fmtInt(buf[:w], v)]: the slice shares the buffer and ends at [w]. *)
Definition fmtInt (b : cursor) (v : Z) : res cursor :=
  if v =? 0 then put "0" b else fmt_loop (S (digit_fuel v)) b v.

Definition second : Z := 1000000000.

(** The branch of [DayString] for [u] whole seconds, [u > 0]. *)
Definition put_units (b : cursor) (u : Z) : res cursor :=
  b ← put "s" b;
  b ← fmtInt b (u `mod` 60);
  let u := u `div` 60 in
  if 0 <? u then
    b ← put " " b;
    b ← put "m" b;
    b ← fmtInt b (u `mod` 60);
    let u := u `div` 60 in
    '(b, u) ←
      (if 0 <? u then
         b ← put " " b;
         b ← put "h" b;
         b ← fmtInt b (u `mod` 24);
         Ret (b, u `div` 24)
       else Ret (b, u));
    if 0 <? u then
      b ← put " " b;
      b ← put "d" b;
      fmtInt b u
    else Ret b
  else Ret b.

Definition DayString (d : Z) : res string :=
  let b : cursor := (replicate 32 "000"%char, 32) in
  let neg := d <? 0 in
  let u := if neg then uint64 (- uint64 d) else uint64 d in
  b ←
    (if u <? second then
       b ← put "s" b;
       put "0" b
     else put_units b (u `div` second));
  b ← (if neg then put "-" b else Ret b);
  Ret (String.string_of_list_ascii (drop (Z.to_nat b.2) b.1)).

(** ** Specification *)

(** The text of a duration of [d] nanoseconds: days, hours, minutes and
    seconds, without the larger units that are zero. *)
Definition unit_text (shown : bool) (n : Z) (u : string) : string :=
  if shown then Itoa n +:+ u else "".

Definition seconds_text (s : Z) : string :=
  unit_text (86400 <=? s) (s `div` 86400) "d " +:+
  unit_text (3600 <=? s) ((s `div` 3600) `mod` 24) "h " +:+
  unit_text (60 <=? s) ((s `div` 60) `mod` 60) "m " +:+
  Itoa (s `mod` 60) +:+ "s".

Definition day_text (d : Z) : string :=
  (if d <? 0 then "-" else "") +:+ seconds_text (Z.abs d `div` second).

(** ** Lemmas *)

Lemma slen_nil : slen "" = 0.
Proof. done. Qed.

(** The buffer holds [text] at its end. *)
Definition holds (b : cursor) (text : string) : Prop :=
  length b.1 = 32%nat ∧ b.2 = 32 - slen text ∧ 0 ≤ b.2 ∧
  String.string_of_list_ascii (drop (Z.to_nat b.2) b.1) = text.

Lemma put_spec c b text :
  holds b text → slen text < 32 →
  ∃ b', put c b = Ret b' ∧ holds b' (String c text).
Proof.
  destruct b as [buf w]. intros (Hlen & Hw & Hpos & Htext) Hroom. cbn in *. unfold put.
  pose proof (slen_nonneg text).
  rewrite store_at_ok by (unfold len; rewrite Hlen; lia). cbn [mbind res_bind].
  eexists. split; [done|]. unfold holds. cbn. rewrite length_insert, slen_cons.
  split_and!; [done|lia|lia|].
  assert (Z.to_nat w = S (Z.to_nat (w - 1))) as Ew by lia.
  erewrite drop_S by (apply list_lookup_insert_eq; lia). rewrite drop_insert_lt by lia.
  cbn. f_equal. rewrite <-Htext, Ew. done.
Qed.

Lemma slen_put_digits n z k t :
  0 ≤ z < 10 ^ Z.of_nat k → (0 < k)%nat → slen (put_digits n z t) ≤ slen t + Z.of_nat k.
Proof.
  revert n z t. induction k as [|k IH]; intros n z t Hz Hk; [lia|].
  destruct n as [|n]; cbn [put_digits]; [lia|].
  destruct (Z.eqb_spec (z `div` 10) 0) as [|Hne].
  - rewrite slen_cons. lia.
  - destruct k as [|k].
    { rewrite Z.div_small in Hne; [done|]. simpl in Hz. lia. }
    assert (0 ≤ z `div` 10 < 10 ^ Z.of_nat (S k)) as Hz'.
    { split; [apply Z.div_pos; lia|]. apply Z.div_lt_upper_bound; [lia|].
      rewrite (Nat2Z.inj_succ (S k)), Z.pow_succ_r in Hz by lia. lia. }
    etransitivity; [apply (IH n _ _ Hz'); lia|]. rewrite slen_cons. lia.
Qed.

Lemma slen_put_digits_ge n z t : slen t ≤ slen (put_digits n z t).
Proof.
  revert z t. induction n as [|n IH]; intros z t; cbn [put_digits]; [done|].
  case_match; [rewrite slen_cons; lia|].
  etransitivity; [|apply IH]. rewrite slen_cons. lia.
Qed.

Lemma fmt_loop_spec n b v text :
  0 < v < 2 ^ Z.of_nat n → holds b text → slen (put_digits n v text) ≤ 32 →
  ∃ b', fmt_loop (S n) b v = Ret b' ∧ holds b' (put_digits n v text).
Proof.
  revert b v text. induction n as [|n IH]; intros b v text Hv Hb Hroom; [simpl in Hv; lia|].
  rewrite Nat2Z.inj_succ, Z.pow_succ_r in Hv by lia.
  cbn [fmt_loop put_digits] in *. destruct (Z.ltb_spec 0 v); [|lia].
  pose proof (Z.div_mod v 10 ltac:(lia)) as Hdm.
  pose proof (Z.mod_pos_bound v 10 ltac:(lia)) as Hm.
  set (c := digit_char (v `mod` 10)) in *.
  destruct (put_spec c b text Hb) as (b1 & E1 & Hb1).
  { destruct (v `div` 10 =? 0); [|pose proof (slen_put_digits_ge n (v `div` 10) (String c text))];
      rewrite slen_cons in *; lia. }
  rewrite E1. cbn [mbind res_bind]. destruct (Z.eqb_spec (v `div` 10) 0) as [E|E].
  - rewrite E. destruct (Z.ltb_spec 0 0); [lia|]. by exists b1.
  - apply IH; [lia|done|done].
Qed.

Lemma Itoa_put v t : 0 ≤ v → Itoa v +:+ t = put_digits (digit_fuel v) v t.
Proof.
  intros Hv. unfold Itoa. destruct (Z.ltb_spec v 0); [lia|].
  assert (Happ : ∀ n z acc, put_digits n z acc +:+ t = put_digits n z (acc +:+ t)).
  { intros n. induction n as [|n IH]; intros z acc; cbn [put_digits]; [done|].
    case_match; [by rewrite sapp_cons|]. by rewrite IH, sapp_cons. }
  by rewrite Happ, sapp_nil_l.
Qed.

(** Printing a number below 10^k in front of a text that leaves room for it. *)
Lemma fmtInt_spec k b v text :
  0 ≤ v < 10 ^ Z.of_nat k → (0 < k)%nat → holds b text → slen text + Z.of_nat k ≤ 32 →
  ∃ b', fmtInt b v = Ret b' ∧ holds b' (Itoa v +:+ text) ∧
    slen (Itoa v +:+ text) ≤ slen text + Z.of_nat k.
Proof.
  intros Hv Hk Hb Hroom. rewrite Itoa_put by lia.
  pose proof (slen_put_digits (digit_fuel v) v k text Hv Hk) as Hlen.
  unfold fmtInt. destruct (Z.eqb_spec v 0) as [->|Hne].
  - destruct (put_spec "0" b text Hb) as (b' & E & Hb'); [lia|]. exists b'. done.
  - destruct (fmt_loop_spec (digit_fuel v) b v text) as (b' & E & Hb'); [|done|lia|by exists b'].
    split; [lia|]. apply digit_fuel_enough. lia.
Qed.

Lemma holds_start : holds (replicate 32 "000"%char, 32) "".
Proof. by vm_compute. Qed.

(** The absolute value, as the code computes it on 64 bits. *)
Lemma abs_uint64 d :
  int_range d → (if d <? 0 then uint64 (- uint64 d) else uint64 d) = Z.abs d.
Proof.
  unfold int_range, min_int, max_int, uint64. intros Hd.
  destruct (Z.ltb_spec d 0) as [Hneg|Hpos].
  - rewrite <-(Z.mod_add d 1), (Z.mod_small (d + 1 * 2 ^ 64)) by lia.
    rewrite <-(Z.mod_add _ 1), Z.mod_small by lia. lia.
  - rewrite Z.mod_small by lia. lia.
Qed.

(** Runs the next store, or the next number (below 10^k), of [DayString]. *)
Ltac put_step :=
  match goal with
  | Hb : holds ?b ?t |- context [put ?c ?b] =>
      let b' := fresh "b" in let E := fresh "E" in let Hb' := fresh "Hb" in
      destruct (put_spec c b t Hb) as (b' & E & Hb'); [rewrite ?slen_cons, ?slen_nil in *; lia|];
      rewrite E; cbn [mbind res_bind]; clear E Hb; rename Hb' into Hb
  end.

Ltac number_step k :=
  match goal with
  | Hb : holds ?b ?t |- context [fmtInt ?b ?v] =>
      let b' := fresh "b" in let E := fresh "E" in let Hb' := fresh "Hb" in
      let Hl := fresh "Hl" in
      destruct (fmtInt_spec k b v t) as (b' & E & Hb' & Hl);
        [|lia|exact Hb|rewrite ?slen_cons, ?slen_nil in *; lia|];
        [|rewrite E; cbn [mbind res_bind]; clear E Hb; rename Hb' into Hb]
  end.

Lemma mod_bound a n : 0 < n ≤ 100 → 0 ≤ a `mod` n < 10 ^ Z.of_nat 2.
Proof. intros Hn. pose proof (Z.mod_pos_bound a n ltac:(lia)). simpl. lia. Qed.

Lemma div_positive a n : 0 < n → 0 ≤ a → (0 <? a `div` n) = (n <=? a).
Proof.
  intros Hn Ha. destruct (Z.leb_spec n a).
  - apply Z.ltb_lt. apply Z.div_str_pos. lia.
  - rewrite Z.div_small by lia. done.
Qed.

Lemma unit_text_shown n u t : unit_text true n u +:+ t = Itoa n +:+ u +:+ t.
Proof. unfold unit_text. apply sapp_assoc. Qed.

Lemma unit_text_hidden n u t : unit_text false n u +:+ t = t.
Proof. done. Qed.

Lemma holds_cursor b text : holds b text → slen text < 32 → 0 < b.2.
Proof. intros (_ & -> & _). lia. Qed.

Lemma put_units_spec s b :
  0 < s < 10 ^ 10 → holds b "" →
  ∃ b', put_units b s = Ret b' ∧ holds b' (seconds_text s) ∧ slen (seconds_text s) < 32.
Proof.
  intros Hs Hb. unfold put_units, seconds_text. put_step.
  number_step 2%nat; [by apply mod_bound|]. cbv zeta. rewrite div_positive by lia.
  destruct (Z.leb_spec 60 s) as [Hm|Hm].
  2: { destruct (Z.leb_spec 3600 s), (Z.leb_spec 86400 s); [lia..|]. rewrite !unit_text_hidden.
       eexists. split_and!; [reflexivity|exact Hb|eapply Z.le_lt_trans; [exact Hl|]].
       rewrite slen_cons, slen_nil in *. lia. }
  do 2 put_step. number_step 2%nat; [by apply mod_bound|].
  rewrite Z.div_div, div_positive by lia. change (60 * 60) with 3600. rewrite unit_text_shown.
  destruct (Z.leb_spec 3600 s) as [Hh|Hh].
  2: { destruct (Z.leb_spec 86400 s); [lia|]. rewrite !unit_text_hidden. cbn [mbind res_bind].
       rewrite (Z.div_small s 3600) by lia.
       eexists. split_and!; [reflexivity|exact Hb|eapply Z.le_lt_trans; [exact Hl0|]].
       rewrite !slen_cons, slen_nil in *. lia. }
  do 2 put_step. number_step 2%nat; [by apply mod_bound|].
  rewrite Z.div_div, div_positive, unit_text_shown by lia. change (3600 * 24) with 86400.
  destruct (Z.leb_spec 86400 s) as [Hdy|Hdy].
  - do 2 put_step. number_step 6%nat.
    { split; [apply Z.div_pos; lia|]. apply Z.div_lt_upper_bound; [lia|]. simpl. lia. }
    rewrite unit_text_shown. eexists.
    split_and!; [reflexivity|exact Hb|eapply Z.le_lt_trans; [exact Hl2|]].
    rewrite !slen_cons, slen_nil in *. lia.
  - rewrite unit_text_hidden. eexists.
    split_and!; [reflexivity|exact Hb|eapply Z.le_lt_trans; [exact Hl1|]].
    rewrite !slen_cons, slen_nil in *. lia.
Qed.

(** ** Properties *)

(** C37: every duration prints, as days, hours, minutes and seconds in decimal
    with the zero units in front left out and a sign if it is negative: the
    buffer of 32 bytes is never overrun, also for the smallest duration, whose
    absolute value is no duration. *)
Theorem DayString_text (d : Z) : int_range d → DayString d = Ret (day_text d).
Proof.
  intros Hd. unfold DayString, day_text. rewrite abs_uint64 by done. cbv zeta.
  pose proof holds_start as Hb. set (b := (replicate 32 "000"%char, 32)) in *. clearbody b.
  assert (∃ b', (if Z.abs d <? second then b ← put "s" b; put "0" b
                 else put_units b (Z.abs d `div` second)) = Ret b' ∧
    holds b' (seconds_text (Z.abs d `div` second)) ∧
    slen (seconds_text (Z.abs d `div` second)) < 32) as (b' & -> & Hb' & Hroom).
  { destruct (Z.ltb_spec (Z.abs d) second) as [Hsmall|Hbig].
    - rewrite Z.div_small by lia. do 2 put_step. eexists. split_and!; [reflexivity|exact Hb|done].
    - apply put_units_spec; [|done]. unfold int_range, min_int, max_int, second in *.
      split; [apply Z.div_str_pos; lia|]. apply Z.div_lt_upper_bound; lia. }
  cbn [mbind res_bind]. destruct (d <? 0).
  - put_step. f_equal. apply Hb'.
  - cbn [mbind res_bind]. f_equal. apply Hb'.
Qed.

Lemma DayString_text_witness :
  DayString (-9223372036854775808) = Ret "-106751d 23h 47m 16s" ∧ DayString 90000000000 = Ret "1m 30s".
Proof. split; apply DayString_text; vm_compute; split; discriminate. Defined.
