(* ===== verification/LogStats.v ===== *)
(** * geodns-logs/: the statistics of the query log

    The tool reads the entries the server has logged, one JSON text a line,
    and counts them by zone, vendor, country of the user, pool and query type.
    The lines travel over a channel to the goroutine that counts; the second
    half of the file models that pair of goroutines, for a file that is read
    and for one that is followed. *)

From S2P Require Import Prelude GoRuntime GoStrings Countries DnsNames QueryLog.
Local Open Scope Z_scope.

(** ** process-stats.go: labels *)

Definition extraValidLabels : gset string :=
  list_to_set ["uk"; "_status"; "_country"; "www"; "nag-test"].

Definition validCC `{GoRange} (label : string) : bool :=
  if decide (is_Some (CountryContinent !! label)) then true
  else if decide (is_Some (ContinentCountries !! label)) then true
  else if decide (is_Some (RegionGroupRegions !! label)) then true
  else if decide (is_Some (RegionGroups !! label)) then true
  else bool_decide (label ∈ extraValidLabels).

(** [strings.ContainsAny(s, chars)]. *)
Fixpoint ContainsAny (s chars : string) : bool :=
  match s with
  | EmptyString => false
  | String a s => ContainsByte chars a || ContainsAny s chars
  end.

(** The first element that passes the test. *)
Fixpoint first_valid `{GoRange} (l : list string) : option string :=
  match l with
  | [] => None
  | cc :: l => if validCC cc then Some cc else first_valid l
  end.

Definition getPoolCC `{GoRange} (label : string) : string * bool :=
  match SplitDomainName label with
  | [] => ("", true)
  | l0 :: rest =>
      match first_valid (l0 :: rest) with
      | Some cc => (cc, true)
      | None =>
          if (slen l0 =? 1) && ContainsAny l0 "01234" then
            if bool_decide (rest = []) then ("", true) else ("", false)
          else ("", false)
      end
  end.

(** ** stats.go *)

Definition vendorName (n : string) : res string :=
  let idx := Index n ".pool.ntp.org." in
  if idx <=? 0 then Ret ""
  else
    n ← slice_to n idx;
    let l := SplitDomainName n in
    v ← index l (len l - 1);
    if (slen v =? 1) && ContainsAny v "01234" then Ret ""
    else if slen v =? 2 then Ret "_country"
    else if bool_decide (v ∈ ["asia"; "north-america"; "europe"; "south-america"; "oceania"; "africa"])
    then Ret "_continent"
    else Ret v.

Record statsEntry := mkStats {
  se_Time : Z;
  se_Origin : string;
  se_Name : string;
  se_Vendor : string;
  se_Label : string;
  se_Qtype : string;
  se_PoolCC : string;
  se_Count : Z
}.

(** The counts, and the counters of the monitoring library, by their label
    values. *)
Record Stats := mkStatsState {
  st_Count : Z;
  st_Map : gmap string statsEntry;
  st_queries : gmap (list string) Z
}.

Definition NewStats : Stats := mkStatsState 0 ∅ ∅.

Definition Key (e : Entry) : string :=
  qle_Origin e +:+ " " +:+ qle_Name e +:+ " " +:+ qle_LabelName e +:+ " " +:+ Itoa (qle_Qtype e).

(** The first target of two letters. *)
Fixpoint user_country (targets : list string) : string :=
  match targets with
  | [] => ""
  | cc :: targets => if slen cc =? 2 then cc else user_country targets
  end.

Section stats.
Context `{GoRange}.
(** [dns.TypeToString]. *)
Context (TypeToString : Z → string).

(** The vendor and the pool of an entry. *)
Definition pool_labels (e : Entry) : res (string * string) :=
  if bool_decide (qle_Origin e = "pool.ntp.org") || HasSuffix (qle_Origin e) "ntppool.org" then
    vendor ← vendorName (qle_Name e);
    Ret (vendor, (getPoolCC (qle_LabelName e)).1)
  else Ret ("", "").

Definition incr_entry (s : statsEntry) : statsEntry :=
  mkStats (se_Time s) (se_Origin s) (se_Name s) (se_Vendor s) (se_Label s) (se_Qtype s)
    (se_PoolCC s) (se_Count s +! 1).

(** [stats.Add]; it never returns an error. *)
Definition Stats_Add (st : Stats) (e : Entry) : res Stats :=
  if 0 <? qle_Rcode e then Ret st
  else if qle_Answers e =? 0 then Ret st
  else
    '(vendor, poolCC) ← pool_labels e;
    let qtypeString := TypeToString (qle_Qtype e) in
    let userCC := user_country (qle_Targets e) in
    let labels := [qle_Origin e; vendor; userCC; poolCC; qtypeString] in
    let queries := <[labels := map_get 0 (st_queries st) labels + 1]> (st_queries st) in
    let key := Key e in
    let m :=
      match st_Map st !! key with
      | Some s => <[key := incr_entry s]> (st_Map st)
      | None =>
          <[key := mkStats (qle_Time e) (qle_Origin e) (qle_Name e) vendor (qle_LabelName e)
                     qtypeString poolCC 1]> (st_Map st)
      end in
    Ret (mkStatsState (st_Count st +! 1) m queries).

(** ** process-stats.go: the goroutines *)

(** What a line of JSON holds: the fields that are there.  [json.Unmarshal]
    writes these and leaves the others as they were; [None] is an error. *)
Record entry_fields := mkFields {
  ef_Time : option Z;
  ef_Origin : option string;
  ef_Name : option string;
  ef_Qtype : option Z;
  ef_Rcode : option Z;
  ef_Answers : option Z;
  ef_Targets : option (list string);
  ef_LabelName : option string;
  ef_RemoteAddr : option string;
  ef_ClientAddr : option string;
  ef_HasECS : option bool
}.
Context (decode : string → option entry_fields).

Definition update_entry (e : Entry) (f : entry_fields) : Entry :=
  mkEntryLog (default (qle_Time e) (ef_Time f)) (default (qle_Origin e) (ef_Origin f))
    (default (qle_Name e) (ef_Name f)) (default (qle_Qtype e) (ef_Qtype f))
    (default (qle_Rcode e) (ef_Rcode f)) (default (qle_Answers e) (ef_Answers f))
    (default (qle_Targets e) (ef_Targets f)) (default (qle_LabelName e) (ef_LabelName f))
    (default (qle_RemoteAddr e) (ef_RemoteAddr f)) (default (qle_ClientAddr e) (ef_ClientAddr f))
    (default (qle_HasECS e) (ef_HasECS f)).

Definition lower_Name (e : Entry) : Entry :=
  mkEntryLog (qle_Time e) (qle_Origin e) (ToLower (qle_Name e)) (qle_Qtype e) (qle_Rcode e)
    (qle_Answers e) (qle_Targets e) (qle_LabelName e) (qle_RemoteAddr e) (qle_ClientAddr e)
    (qle_HasECS e).

Definition empty_Entry : Entry := mkEntryLog 0 "" "" 0 0 0 [] "" "" "" false.

(** One iteration of the loop of [processChan]: the variable [e] is shared by
    all iterations.  [None] is the return with an error. *)
Definition process_line (e : Entry) (st : Stats) (line : string) : res (option (Entry * Stats)) :=
  match decode line with
  | None => Ret None
  | Some f =>
      let e := lower_Name (update_entry e f) in
      st ← Stats_Add st e;
      Ret (Some (e, st))
  end.

(** [processChan]: counting, returned after the channel was closed (it then
    calls [wg.Done]), or returned with an error (it does not). *)
Inductive counter :=
| Counting (e : Entry) (st : Stats)
| Counted (st : Stats)
| Stopped (st : Stats).

(** [processFile]: lines left to send, waiting for [wg.Done], or returned. *)
Inductive sender :=
| Sending (lines : list string)
| Waiting
| Returned.

(** The two goroutines.  A line is sent when it is received; closing the
    channel ends the loop of the counter; [wg.Wait] returns after [wg.Done]. *)
Inductive file_step : sender * counter → sender * counter → Prop :=
| file_line line lines e st e' st' :
    process_line e st line = Ret (Some (e', st')) →
    file_step (Sending (line :: lines), Counting e st) (Sending lines, Counting e' st')
| file_error line lines e st :
    process_line e st line = Ret None →
    file_step (Sending (line :: lines), Counting e st) (Sending lines, Stopped st)
| file_close c : file_step (Sending [], c) (Waiting, c)
| file_end e st : file_step (Waiting, Counting e st) (Waiting, Counted st)
| file_done st : file_step (Waiting, Counted st) (Returned, Counted st).

Definition processFile (lines : list string) : sender * counter :=
  (Sending lines, Counting empty_Entry NewStats).

(** The scanner of [processFile] ([bufio.Scanner] with its default split
    function): the lines, without a carriage return at their end, up to the
    first line that does not fit the buffer of 65536 bytes with its newline. *)
Definition drop_cr (line : string) : string :=
  if HasSuffix line (String "013" "") then stake (String.length line - 1) line else line.

Fixpoint scan_tokens (pieces : list string) : list string * option string :=
  match pieces with
  | [] => ([], None)
  | [""] => ([], None)
  | line :: pieces =>
      if 65535 <? slen line then ([], Some "bufio.Scanner: token too long")
      else let '(lines, err) := scan_tokens pieces in (drop_cr line :: lines, err)
  end.

Definition scan_lines (data : string) : list string * option string := scan_tokens (Split data "010"%char).

(** [processFile] from the file name on: a file that cannot be opened is an
    error, an error of the scanner is only logged. *)
Definition open_and_process (data : option string) : string + (sender * counter) :=
  match data with
  | None => inl "open failed"
  | Some data => inr (processFile (scan_lines data).1)
  end.

(** ** process-stats.go: main *)

(** A line of the tail library; it may come with an error, which is logged. *)
Record tail_line := mkTailLine { tl_Text : string; tl_Err : option string }.

(** The loop of [main] and [processChan], which has no wait group here.  The
    channel is never closed; once the counter has returned, nobody receives. *)
Inductive tail_step : list tail_line * counter → list tail_line * counter → Prop :=
| tail_count l ls e st e' st' :
    process_line e st (tl_Text l) = Ret (Some (e', st')) →
    tail_step (l :: ls, Counting e st) (ls, Counting e' st')
| tail_error l ls e st :
    process_line e st (tl_Text l) = Ret None →
    tail_step (l :: ls, Counting e st) (ls, Stopped st).

(** [main] before the loop: it exits, or follows a file.  [tail] gives the
    lines of a file, or fails; the failure is only logged and the nil it
    leaves is dereferenced. *)
Inductive logs_main_result :=
| LogsExit (code : Z)
| LogsTail (lines : list tail_line) (c : counter).

Definition logs_main (identifierFlag : string) (hostname : option string) (args : list string)
    (tail : string → option (list tail_line)) : res logs_main_result :=
  serverID ← (if 0 <? slen identifierFlag then index (Split identifierFlag ",") 0 else Ret "");
  match (if slen serverID =? 0 then hostname else Some serverID) with
  | None => Ret (LogsExit 2)
  | Some _ =>
      if len args <? 1 then Ret (LogsExit 2)
      else
        filename ← index args 0;
        lines ← deref (tail filename);
        Ret (LogsTail lines (Counting empty_Entry NewStats))
  end.

(** [Summarize]: the line it prints, with the time of some entry. *)
Definition Summarize (time_String : Z → string) (st : Stats) : string :=
  let timeStamp := match go_range (st_Map st) with (_, s) :: _ => se_Time s | [] => 0 end in
  "Stats " +:+ time_String timeStamp +:+ " count total: " +:+ Itoa (st_Count st)
    +:+ ", summarized: " +:+ Itoa (Z.of_nat (size (st_Map st))).
End stats.

(** The examples of stats_test.go. *)
Example getPoolCC_tests :
  (@getPoolCC GoRange_list <$>
     ["pool.ntp.org"; "2.pool.ntp.org"; "us.pool.ntp.org"; "0.us.pool.ntp.org";
      "asia.pool.ntp.org"; "3.asia.pool.ntp.org"; "3.example.pool.ntp.org"])
  = [("", false); ("", false); ("us", true); ("us", true); ("asia", true); ("asia", true);
     ("", false)].
Proof. vm_compute. reflexivity. Qed.

Example vendorName_tests :
  (vendorName <$>
     ["pool.ntp.org."; "2.pool.ntp.org."; "us.pool.ntp.org."; "2.us.pool.ntp.org.";
      "europe.pool.ntp.org."; "2.europe.pool.ntp.org."; "0.example.pool.ntp.org.";
      "3.example.pool.ntp.org."])
  = Ret <$> [""; ""; "_country"; "_country"; "_continent"; "_continent"; "example"; "example"].
Proof. vm_compute. reflexivity. Qed.

(** ** Lemmas *)

Lemma Index_bound s p : -1 ≤ Index s p ≤ slen s.
Proof.
  induction s as [|a s IH].
  - cbn [Index]. case_match; vm_compute; split; discriminate.
  - cbn [Index]. rewrite slen_cons. repeat case_match; split_bools; lia.
Qed.

Lemma SplitDomainName_nonempty s : s ≠ "" → s ≠ "." → SplitDomainName s ≠ [].
Proof.
  intros H1 H2. unfold SplitDomainName, dns_Split. rewrite !decide_False by done.
  by destruct (split_loop _ _ _).
Qed.

(** The vendor of a name that does not start with a dot can be found. *)
Lemma vendorName_ok n : HasPrefix n "." = false → ok (vendorName n).
Proof.
  intros Hn. unfold vendorName, slice_to. destruct (Z.leb_spec (Index n ".pool.ntp.org.") 0) as [|Hi].
  { by eexists. }
  pose proof (Index_bound n ".pool.ntp.org."). rewrite decide_True by lia. cbn [mbind res_bind].
  set (u := stake _ n).
  assert (Hu : u ≠ "" ∧ u ≠ ".").
  { unfold u. destruct (Z.to_nat (Index n ".pool.ntp.org.")) eqn:En; [lia|].
    destruct n as [|a n']; [done|]. cbn [stake]. split; [done|]. intros [= -> _].
    by destruct n'. }
  pose proof (SplitDomainName_nonempty u (proj1 Hu) (proj2 Hu)) as Hl.
  destruct (index_ok (SplitDomainName u) (len (SplitDomainName u) - 1)) as [v ->].
  { unfold len. destruct (SplitDomainName u); [done|]. simpl. lia. }
  cbn [mbind res_bind]. repeat case_match; by eexists.
Qed.

Lemma HasPrefix_dot_ToLower n : HasPrefix (ToLower n) "." = HasPrefix n ".".
Proof.
  destruct n as [|a n]; [done|]. cbn [ToLower HasPrefix].
  destruct n; by destruct a as [[][][][][][][][]].
Qed.

Section counts.
Context `{GoRange} (TypeToString : Z → string).

(** The entries [Add] counts: those with an answer. *)
Definition counted (e : Entry) : bool := (qle_Rcode e <=? 0) && negb (qle_Answers e =? 0).

(** How many entries of [es] are counted under [key]. *)
Definition counted_as (key : string) (es : list Entry) : Z :=
  len (filter (λ e, counted e = true ∧ Key e = key) es).

Definition count_of (st : Stats) (key : string) : Z :=
  match st_Map st !! key with Some s => se_Count s | None => 0 end.

(** The label values of the counter an entry is counted in: zone, vendor,
    country of the user, pool and type. *)
Definition query_labels (e : Entry) : res (list string) :=
  '(vendor, poolCC) ← pool_labels e;
  Ret [qle_Origin e; vendor; user_country (qle_Targets e); poolCC; TypeToString (qle_Qtype e)].

(** How many entries of [es] are counted under the labels. *)
Definition counted_under (labels : list string) (es : list Entry) : Z :=
  len (filter (λ e, counted e = true ∧ query_labels e = Ret labels) es).

(** The state after the entries [es]. *)
Record stats_of (es : list Entry) (st : Stats) : Prop := {
  so_Count : st_Count st = len (filter (λ e, counted e = true) es);
  so_Map : ∀ key, count_of st key = counted_as key es;
  so_queries : ∀ labels, map_get 0 (st_queries st) labels = counted_under labels es;
  so_present : ∀ key, is_Some (st_Map st !! key) ↔ 0 < counted_as key es
}.

Lemma counted_as_snoc key es e :
  counted_as key (es ++ [e]) =
    counted_as key es + (if decide (counted e = true ∧ Key e = key) then 1 else 0).
Proof.
  unfold counted_as, len. rewrite filter_app, length_app, filter_cons, filter_nil.
  case_decide; simpl; lia.
Qed.

Lemma counted_under_snoc labels es e :
  counted_under labels (es ++ [e]) =
    counted_under labels es + (if decide (counted e = true ∧ query_labels e = Ret labels) then 1 else 0).
Proof.
  unfold counted_under, len. rewrite filter_app, length_app, filter_cons, filter_nil.
  case_decide; simpl; lia.
Qed.

Lemma counted_as_bound key es : 0 ≤ counted_as key es ≤ len es.
Proof. unfold counted_as, len. pose proof (length_filter (λ e, counted e = true ∧ Key e = key) es). lia. Qed.

Lemma wrap64_succ n : 0 ≤ n < max_int → wrap64 (n + 1) = n + 1.
Proof. intros. apply wrap64_id. unfold int_range, min_int, max_int in *. lia. Qed.

Lemma Stats_Add_step es st e :
  stats_of es st → len es < max_int → HasPrefix (qle_Name e) "." = false →
  ∃ st', Stats_Add TypeToString st e = Ret st' ∧ stats_of (es ++ [e]) st'.
Proof.
  intros [HC HM HQ HP] Hlen Hn. unfold Stats_Add.
  assert (Hc : counted e = negb (0 <? qle_Rcode e) && negb (qle_Answers e =? 0)).
  { unfold counted. by rewrite Z.leb_antisym. }
  assert (Hsame : counted e = false → stats_of (es ++ [e]) st).
  { intros Hf. split.
    - rewrite filter_app, filter_cons, filter_nil, decide_False, app_nil_r by congruence. done.
    - intros key. rewrite counted_as_snoc, decide_False by (intros [? _]; congruence). by rewrite Z.add_0_r.
    - intros labels. rewrite counted_under_snoc, decide_False by (intros [? _]; congruence).
      by rewrite Z.add_0_r.
    - intros key. rewrite counted_as_snoc, decide_False by (intros [? _]; congruence). by rewrite Z.add_0_r. }
  destruct (0 <? qle_Rcode e); [eauto|]. destruct (qle_Answers e =? 0); [eauto|].
  assert (∃ vp, pool_labels e = Ret vp) as [[vendor poolCC] Hvp].
  { unfold pool_labels. case_match; [|by eexists].
    destruct (vendorName_ok _ Hn) as [v ->]. by eexists. }
  rewrite Hvp. cbn [mbind res_bind]. eexists. split; [reflexivity|]. clear Hsame. cbn in Hc. split.
  - cbn [st_Count]. rewrite HC, filter_app, filter_cons, filter_nil, decide_True by done.
    unfold len in *. rewrite length_app. simpl.
    pose proof (length_filter (λ e, counted e = true) es).
    rewrite wrap64_succ by lia. lia.
  - intros key. rewrite counted_as_snoc, <-HM. unfold count_of. cbn [st_Map].
    pose proof (counted_as_bound (Key e) es) as Hb. rewrite <-HM in Hb. unfold count_of in Hb.
    destruct (st_Map st !! Key e) as [s|] eqn:Es; (destruct (decide (Key e = key)) as [<-|Hne];
      [rewrite lookup_insert_eq, ?Es, decide_True by done
      |rewrite lookup_insert_ne, decide_False by tauto; lia]).
    + cbn [incr_entry se_Count]. rewrite wrap64_succ by lia. lia.
    + cbn. lia.
  - intros labels. rewrite counted_under_snoc, <-HQ. cbn [st_queries].
    unfold query_labels. rewrite Hvp. cbn [mbind res_bind]. unfold map_get. rewrite lookup_insert.
    match goal with |- context [decide (?a = labels)] => destruct (decide (a = labels)) as [<-|Hne] end.
    + rewrite decide_True by done. cbn. lia.
    + rewrite decide_False; [lia|]. intros [_ [= E]]. done.
  - intros key. rewrite counted_as_snoc. cbn [st_Map]. pose proof (counted_as_bound key es) as Hb.
    destruct (st_Map st !! Key e) as [s|] eqn:Es; (destruct (decide (Key e = key)) as [<-|Hne];
      [rewrite lookup_insert_eq, decide_True by done; split; [lia|by eexists]
      |rewrite lookup_insert_ne, decide_False by tauto; by rewrite Z.add_0_r]).
Qed.

Lemma NewStats_of : stats_of [] NewStats.
Proof.
  split; [done|done|done|]. intros key. cbn. rewrite lookup_empty. split; [by intros [? ?]|].
  change (counted_as key []) with 0. lia.
Qed.

(** C32: the statistics are exact.  After any list of entries the total is the
    number of the entries with an answer, and the map has for every key the
    number of such entries with that key, and no others; the exported counters
    have for all label values the number of the entries with these values. *)
Theorem stats_exact (es : list Entry) :
  len es ≤ max_int → Forall (λ e, HasPrefix (qle_Name e) "." = false) es →
  ∃ st, foldM (Stats_Add TypeToString) NewStats es = Ret st ∧
    st_Count st = len (filter (λ e, counted e = true) es) ∧
    (∀ key, match st_Map st !! key with
           | Some s => se_Count s = counted_as key es ∧ 0 < counted_as key es
           | None => counted_as key es = 0
           end) ∧
    ∀ labels, map_get 0 (st_queries st) labels = counted_under labels es.
Proof.
  intros Hlen Hn. assert (∃ st, foldM (Stats_Add TypeToString) NewStats es = Ret st ∧ stats_of es st)
    as (st & E & [HC HM HQ HP]).
  { induction es as [|e es IH] using rev_ind; [eexists; split; [done|apply NewStats_of]|].
    apply Forall_app in Hn as [Hn He]. apply Forall_cons in He as [He _]. unfold len in *.
    rewrite length_app in Hlen. simpl in Hlen. destruct IH as (st & E & Hst); [lia|done|].
    rewrite foldM_app, E. cbn [mbind res_bind foldM].
    destruct (Stats_Add_step es st e Hst) as (st' & E' & Hst'); [unfold len; lia|exact He|].
    rewrite E'. cbn [mbind res_bind]. by exists st'. }
  exists st. split_and!; [done|done| |done]. intros key. specialize (HM key). specialize (HP key).
  unfold count_of in HM. pose proof (counted_as_bound key es). destruct (st_Map st !! key).
  - split; [done|]. apply HP. by eexists.
  - destruct (decide (0 < counted_as key es)) as [Hp|]; [|lia]. apply HP in Hp as [? ?]. done.
Qed.

Context (decode : string → option entry_fields).

(** The entries that the counter sees for the given lines, when all decode. *)
Fixpoint entries_from (e : Entry) (lines : list string) : option (list Entry) :=
  match lines with
  | [] => Some []
  | line :: lines =>
      f ← decode line;
      let e := lower_Name (update_entry e f) in
      es ← entries_from e lines;
      Some (e :: es)
  end.

Definition line_ok (line : string) : Prop :=
  ∀ f n, decode line = Some f → ef_Name f = Some n → HasPrefix n "." = false.

Lemma process_line_step e es st line :
  stats_of es st → len es < max_int → HasPrefix (qle_Name e) "." = false → line_ok line →
  match decode line with
  | None => process_line TypeToString decode e st line = Ret None
  | Some f =>
      let e' := lower_Name (update_entry e f) in
      HasPrefix (qle_Name e') "." = false ∧
      ∃ st', process_line TypeToString decode e st line = Ret (Some (e', st')) ∧
        stats_of (es ++ [e']) st'
  end.
Proof.
  intros Hst Hlen Hn Hok. unfold process_line. destruct (decode line) as [f|] eqn:Ed; [|done].
  assert (Hn' : HasPrefix (qle_Name (lower_Name (update_entry e f))) "." = false).
  { cbn [lower_Name update_entry qle_Name]. rewrite HasPrefix_dot_ToLower.
    destruct (ef_Name f) as [n|] eqn:En; [by apply (Hok f)|done]. }
  split; [done|]. destruct (Stats_Add_step es st _ Hst Hlen Hn') as (st' & -> & Hst').
  by exists st'.
Qed.

Abbreviation step := (file_step TypeToString decode).

(** The counter takes the lines one by one, or stops at the first that does
    not decode. *)
Lemma run_lines lines : ∀ e es0 st,
  stats_of es0 st → len es0 + len lines ≤ max_int → HasPrefix (qle_Name e) "." = false →
  Forall line_ok lines →
  match entries_from e lines with
  | Some es => ∃ e' st', rtc step (Sending lines, Counting e st) (Sending [], Counting e' st') ∧
      stats_of (es0 ++ es) st'
  | None => ∃ ls st', rtc step (Sending lines, Counting e st) (Sending ls, Stopped st')
  end.
Proof.
  induction lines as [|line lines IH]; intros e es0 st Hst Hlen Hn Hok.
  { exists e, st. rewrite app_nil_r. split; [apply rtc_refl|done]. }
  apply Forall_cons in Hok as [Hl Hok]. cbn [entries_from].
  assert (Hlt : len es0 < max_int) by (unfold len in *; simpl in Hlen; lia).
  pose proof (process_line_step e es0 st line Hst Hlt Hn Hl) as Hstep.
  destruct (decode line) as [f|]; cbn [mbind option_bind].
  - destruct Hstep as (Hn' & st' & E & Hst').
    specialize (IH _ _ _ Hst' ltac:(unfold len in *; rewrite length_app; simpl in *; lia) Hn' Hok).
    destruct (entries_from _ lines) as [es|]; cbn [mbind option_bind].
    + destruct IH as (e'' & st'' & Hr & Hs). exists e'', st''. rewrite <-app_assoc in Hs.
      split; [|done]. eapply rtc_l; [by apply file_line|exact Hr].
    + destruct IH as (ls & st2 & Hr). exists ls, st2. eapply rtc_l; [by apply file_line|exact Hr].
  - exists lines, st. apply rtc_once. by apply file_error.
Qed.

Lemma step_deterministic s s1 s2 : step s s1 → step s s2 → s1 = s2.
Proof. intros H1 H2. inversion H1; subst; inversion H2; subst; congruence. Qed.

(** A run that can end in a state without steps ends there. *)
Lemma rtc_final s t u : rtc step s t → (∀ t', ¬ step t t') → rtc step s u → rtc step u t.
Proof.
  intros Ht Hfin. revert u. induction Ht as [t|s s1 t Hs Ht IH]; intros u Hu.
  - inversion Hu; subst; [apply rtc_refl|]. by destruct (Hfin y).
  - inversion Hu as [|? s2]; subst; [by eapply rtc_l|].
    apply IH; [done|]. by rewrite (step_deterministic s s1 s2).
Qed.

Lemma processFile_runs (lines : list string) :
  len lines ≤ max_int → Forall line_ok lines →
  match entries_from empty_Entry lines with
  | Some es => ∃ st, rtc step (processFile lines) (Returned, Counted st) ∧ stats_of es st
  | None => ∃ s, s.1 ≠ Returned ∧ (∀ s', ¬ step s s') ∧
      ∀ u, rtc step (processFile lines) u → rtc step u s ∧ u.1 ≠ Returned
  end.
Proof.
  intros Hlen Hok. pose proof (run_lines lines empty_Entry [] NewStats NewStats_of
    ltac:(unfold len in *; simpl; lia) eq_refl Hok) as Hr.
  destruct (entries_from empty_Entry lines) as [es|].
  - destruct Hr as (e' & st' & Hr & Hst). exists st'. split; [|done].
    etransitivity; [exact Hr|]. eapply rtc_l; [apply file_close|].
    eapply rtc_l; [apply file_end|]. apply rtc_once, file_done.
  - assert (∃ s, rtc step (processFile lines) s ∧ s.1 ≠ Returned ∧ ∀ s', ¬ step s s')
      as (s & Hs & Hne & Hfin).
    { destruct Hr as ([|x ls] & st & Hr).
      - exists (Waiting, Stopped st). split_and!; [|done|intros s' Hs; inversion Hs].
        eapply rtc_r; [exact Hr|apply file_close].
      - exists (Sending (x :: ls), Stopped st). split_and!; [done|done|intros s' Hs; inversion Hs]. }
    exists s. split_and!; [done|done|]. intros u Hu.
    pose proof (rtc_final _ _ _ Hs Hfin Hu) as Hus. split; [done|]. intros Hret.
    inversion Hus as [|? y ? Hstep]; subst; [done|]. destruct u as [u1 u2]. cbn in Hret. subst.
    inversion Hstep.
Qed.
(** ** Properties *)

(** C33: reading a file returns exactly when every line decodes, and then all its
    entries have been counted.  A line that does not decode ends the counting
    goroutine without a signal, and the reader of the file waits forever:
    every run ends in a state without a step, which is not the return. *)
Theorem processFile_returns (lines : list string) :
  len lines ≤ max_int → Forall line_ok lines →
  match entries_from empty_Entry lines with
  | Some es => ∃ st, rtc step (processFile lines) (Returned, Counted st) ∧ stats_of es st
  | None => ∃ s, s.1 ≠ Returned ∧ (∀ s', ¬ step s s') ∧
      ∀ u, rtc step (processFile lines) u → rtc step u s ∧ u.1 ≠ Returned
  end.
Proof. apply processFile_runs. Qed.

Abbreviation follows := (rtc (tail_step TypeToString decode)).

(** Where a follower of the file gets to: all the lines counted, or those
    before the first that does not decode. *)
Definition followed (es0 : list Entry) (lines : list tail_line) (c c' : counter)
    (rest : list tail_line) : Prop :=
  ∃ es st, stats_of (es0 ++ es) st ∧ follows (lines, c) (rest, c') ∧
    ((∃ e, c' = Counting e st ∧ rest = [] ∧ length es = length lines) ∨
     c' = Stopped st ∧ ∃ pre bad, lines = pre ++ bad :: rest ∧ length pre = length es ∧
       decode (tl_Text bad) = None).

Lemma tail_lines lines : ∀ e es0 st,
  stats_of es0 st → len es0 + len lines ≤ max_int → HasPrefix (qle_Name e) "." = false →
  Forall (λ l, line_ok (tl_Text l)) lines →
  ∃ c' rest, followed es0 lines (Counting e st) c' rest.
Proof.
  induction lines as [|l lines IH]; intros e es0 st Hst Hlen Hn Hok.
  { exists (Counting e st), [], [], st. rewrite app_nil_r. split_and!; [done|apply rtc_refl|].
    left. by exists e. }
  apply Forall_cons in Hok as [Hl Hok].
  assert (Hlt : len es0 < max_int) by (unfold len in *; simpl in Hlen; lia).
  pose proof (process_line_step e es0 st (tl_Text l) Hst Hlt Hn Hl) as Hstep.
  destruct (decode (tl_Text l)) as [f|] eqn:Ed.
  - destruct Hstep as (Hn' & st' & E & Hst').
    destruct (IH _ _ _ Hst' ltac:(unfold len in *; rewrite length_app; simpl in *; lia) Hn' Hok)
      as (c' & rest & es & st2 & Hst2 & Hr & Hend).
    rewrite <-app_assoc in Hst2. eexists c', rest, _, st2. split_and!; [exact Hst2| |].
    + eapply rtc_l; [by apply tail_count|exact Hr].
    + destruct Hend as [(e2 & -> & -> & Hle)|(-> & pre & bad & -> & Hle & Hb)].
      * left. exists e2. simpl. by rewrite Hle.
      * right. split; [done|]. exists (l :: pre), bad. simpl. by rewrite Hle.
  - exists (Stopped st), lines, [], st. rewrite app_nil_r. split_and!; [done| |].
    + apply rtc_once. by apply tail_error.
    + right. split; [done|]. by exists [], l.
Qed.

(** Following the log counts every line up to the first that does not
    decode, and none after it: from there on the counting goroutine is gone,
    the lines that are still there cannot be sent, and the tool stands still. *)
Theorem tail_counts (lines : list tail_line) :
  len lines ≤ max_int → Forall (λ l, line_ok (tl_Text l)) lines →
  ∃ c rest, followed [] lines (Counting empty_Entry NewStats) c rest ∧
    ∀ s, ¬ tail_step TypeToString decode (rest, c) s.
Proof.
  intros Hlen Hok. destruct (tail_lines lines empty_Entry [] NewStats NewStats_of)
    as (c & rest & Hf); [unfold len in *; simpl; lia|done|done|].
  exists c, rest. split; [done|]. intros s Hs.
  destruct Hf as (es & st & _ & _ & [(e & -> & -> & _)|(-> & _)]); inversion Hs.
Qed.
End counts.

(** A name with an empty label before the pool stops the tool. *)
Example vendorName_empty_label : vendorName "..pool.ntp.org." = Panic "index out of range".
Proof. vm_compute. reflexivity. Qed.

(** ** Examples *)

Definition example_fields : entry_fields :=
  mkFields (Some 1) (Some "pool.ntp.org") (Some "0.US.pool.ntp.org.") (Some 1) (Some 0) (Some 4)
    (Some ["us"; "@"]) (Some "0.us") None None None.

(** A decoder for two lines. *)
Definition example_decode (line : string) : option entry_fields :=
  if decide (line = "query") then Some example_fields else None.

Lemma example_line_ok line : line_ok example_decode line.
Proof. intros f n. unfold example_decode. case_decide; [|done]. by intros [= <-] [= <-]. Qed.

Definition example_query : Entry := lower_Name (update_entry empty_Entry example_fields).

Lemma stats_exact_witness :
  ∃ st, foldM (@Stats_Add GoRange_list (λ _, "A")) NewStats [example_query; example_query] = Ret st ∧
    st_Count st = 2.
Proof.
  destruct (@stats_exact GoRange_list (λ _, "A") [example_query; example_query]) as (st & E & HC & _);
    [vm_compute; discriminate|repeat constructor|].
  exists st. split; [exact E|]. exact HC.
Defined.

Lemma processFile_returns_witness :
  ∃ s : sender * counter, s.1 ≠ Returned ∧
    ∀ u, rtc (@file_step GoRange_list (λ _, "A") example_decode) (processFile ["query"; "bad"]) u →
      u.1 ≠ Returned.
Proof.
  pose proof (@processFile_returns GoRange_list (λ _, "A") example_decode ["query"; "bad"]
    ltac:(vm_compute; discriminate)
    (Forall_cons_2 _ _ _ (example_line_ok _) (Forall_cons_2 _ _ _ (example_line_ok _) (Forall_nil_2 _))))
    as Hw.
  assert (E : entries_from example_decode empty_Entry ["query"; "bad"] = None)
    by (vm_compute; reflexivity).
  rewrite E in Hw. destruct Hw as (s & Hne & _ & Hu). exists s. split; [exact Hne|].
  intros u Hr. exact (proj2 (Hu u Hr)).
Defined.

Definition example_tail : list tail_line :=
  (λ text, mkTailLine text None) <$> ["query"; "bad"; "query"].

(** The second line stops the counting; the third is never sent. *)
Lemma tail_counts_witness :
  ∃ c rest, @followed GoRange_list (λ _, "A") example_decode [] example_tail (Counting empty_Entry NewStats) c rest ∧
    ∀ s, ¬ @tail_step GoRange_list (λ _, "A") example_decode (rest, c) s.
Proof.
  apply (@tail_counts GoRange_list (λ _, "A") example_decode example_tail).
  - vm_compute. discriminate.
  - apply Forall_forall. intros l _. apply example_line_ok.
Defined.
