(* ===== verification/Accounting.v ===== *)
(** * From the answers to the statistics

    The query log connects two programs: the server writes an entry for every
    query it looks up (server/serve.go, querylog/querylog.go), and the log tool
    reads the file back and counts (geodns-logs/).  This file composes the two
    and shows what the count is: the total of the tool is the number of replies
    with records that the server has made for names it has looked up. *)

From S2P Require Import Prelude GoRuntime GoStrings GoNet Float64 TypeUtil Targeting.
From S2P Require Import DnsNames DnsMsg Health ZoneStats Zones Picker Reader QueryLog MuxManager.
From S2P Require Import Server LogStats.
Local Open Scope Z_scope.



(** A reply with records. *)
Definition answered (m : Msg) : Prop := m_Rcode m = RcodeSuccess ∧ m_Answer m ≠ [].

#[export] Instance answered_dec m : Decision (answered m).
Proof. unfold answered. apply _. Defined.

Section accounting.
Context `{HandlerEnv} `{GoArch} `{GreatCircle} `{GoRand rng} `{GoRange}.
Context (Marshal : Entry → option string) (decode : string → option entry_fields).
Context (TypeToString : Z → string).



(** A query, the handlers that were registered, and what became of it. *)
Record exchange := mkExchange {
  ex_mux : mux_table;
  ex_req : Msg;
  ex_out : outcome rng
}.


(** The query was answered with the address in its name. *)
Definition by_name (ex : exchange) : bool :=
  match m_Question (ex_req ex) with
  | [] => false
  | q :: _ =>
      match mux_match (ex_mux ex) (q_Name q) (q_Qtype q) with
      | Some z => (q_Qtype q =? TypeA) && z_ParseIP z
      | None => false
      end
  end.

(** A reply with records was sent, for a name that was looked up. *)
Definition served (ex : exchange) : Prop :=
  by_name ex = false ∧ Exists answered (out_msgs (ex_out ex)).

(** The log has an entry with records, but none were sent. *)
Definition lost (ex : exchange) : Prop :=
  from_option counted false (out_log (ex_out ex)) = true ∧ ¬ Exists answered (out_msgs (ex_out ex)).


#[local] Instance served_dec ex : Decision (served ex).
Proof. unfold served. apply _. Defined.
#[local] Instance lost_dec ex : Decision (lost ex).
Proof. unfold lost. apply _. Defined.

(** ** Lemmas: the text of the log *)





(** ** Lemmas: sessions *)







(** ** Properties *)

Abbreviation step := (file_step TypeToString decode).

End accounting.

(** ** Example *)








