(* ===== verification/Config.v ===== *)
(** * config.go: the configuration file

    [configReader] loads the file when it is newer than the last time it was
    looked at; [configWatcher] calls it for events of the directory.  The clock,
    the file's time and the result of the gcfg parser are arguments. *)

From S2P Require Import Prelude GoStrings GeoIP2.
Local Open Scope Z_scope.

Record AppConfig := mkConfig {
  StatHat_ApiKey : string;
  Flags_HasStatHat : bool;
  GeoIP_Directory : string;
  HTTP_User : string;
  HTTP_Password : string;
  QueryLog_Path : string;
  QueryLog_MaxSize : Z;
  QueryLog_Keep : Z;
  Health_Directory : string;
  Nodeping_Token : string;
  Pingdom_Username : string;
  Pingdom_Password : string;
  Pingdom_AccountEmail : string;
  Pingdom_AppKey : string;
  Pingdom_StateMap : string
}.

(** [new(AppConfig)]. *)
Definition empty_config : AppConfig :=
  mkConfig "" false "" "" "" "" 0 0 "" "" "" "" "" "" "".

Definition AppConfig_HasStatHat (conf : AppConfig) : bool := Flags_HasStatHat conf.

Definition StatHatApiKey (conf : AppConfig) : string := StatHat_ApiKey conf.

(** The directory that is configured, or a guess. *)
Definition GeoIPDirectory (stat : string → bool) (conf : AppConfig) : string :=
  if 0 <? slen (GeoIP_Directory conf) then GeoIP_Directory conf else FindDB stat.

(** The two global variables; the zero time is before every other time. *)
Record config_state := mkConfigState {
  Config : AppConfig;
  lastReadConfig : Z
}.

(** What a call finds: the time of the file ([None]: it cannot be found), the
    time on the clock, and what the parser makes of the file. *)
Record config_file := mkConfigFile {
  cf_ModTime : option Z;
  cf_now : Z;
  cf_parsed : string + AppConfig
}.

Definition set_HasStatHat (cfg : AppConfig) (b : bool) : AppConfig :=
  mkConfig (StatHat_ApiKey cfg) b (GeoIP_Directory cfg) (HTTP_User cfg) (HTTP_Password cfg)
    (QueryLog_Path cfg) (QueryLog_MaxSize cfg) (QueryLog_Keep cfg) (Health_Directory cfg)
    (Nodeping_Token cfg) (Pingdom_Username cfg) (Pingdom_Password cfg) (Pingdom_AccountEmail cfg)
    (Pingdom_AppKey cfg) (Pingdom_StateMap cfg).

Definition configReader (fileName : string) (st : config_state) (f : config_file) :
    config_state * option string :=
  match cf_ModTime f with
  | None => (st, Some ("stat " +:+ fileName +:+ ": no such file or directory"))
  | Some modTime =>
      if modTime <=? lastReadConfig st then (st, None)
      else
        let st := mkConfigState (Config st) (cf_now f) in
        match cf_parsed f with
        | inl err => (st, Some err)
        | inr cfg =>
            let cfg := set_HasStatHat cfg (0 <? slen (StatHat_ApiKey cfg)) in
            (mkConfigState cfg (lastReadConfig st), None)
        end
  end.

(** ** [configWatcher] *)

(** The operations of the fsnotify package, which an event combines. *)
Definition fs_Create : Z := 1.
Definition fs_Write : Z := 2.
Definition fs_Remove : Z := 4.
Definition fs_Rename : Z := 8.
Definition fs_Chmod : Z := 16.

Record fs_event := mkEvent { ev_Name : string; ev_Op : Z }.

Definition has_op (ev : fs_event) (op : Z) : bool := Z.land (ev_Op ev) op =? op.

(** The condition under which an event makes the watcher read the file. *)
Definition reads_config (fileName : string) (ev : fs_event) : bool :=
  bool_decide (ev_Name ev = fileName) &&
  (has_op ev fs_Write || has_op ev fs_Rename || has_op ev fs_Chmod).

(** One turn of the loop; the error of the reader is dropped. *)
Definition watch_event (fileName : string) (st : config_state) (e : fs_event * config_file) :
    config_state :=
  if reads_config fileName e.1 then (configReader fileName st e.2).1 else st.

Definition configWatcher (fileName : string) (st : config_state)
    (events : list (fs_event * config_file)) : config_state :=
  foldl (watch_event fileName) st events.

(** ** Lemmas *)

Definition config_ok (cfg : AppConfig) : Prop :=
  Flags_HasStatHat cfg = true ↔ StatHat_ApiKey cfg ≠ "".

Lemma configReader_ok fileName st f :
  config_ok (Config st) → config_ok (Config (configReader fileName st f).1).
Proof.
  intros Hok. unfold configReader. repeat case_match; try done. unfold config_ok. cbn.
  apply slen_pos.
Qed.

(** The configuration is one of those given, or the one from before. *)
Lemma configReader_source fileName st f :
  Config (configReader fileName st f).1 = Config st ∨
  ∃ cfg, cf_parsed f = inr cfg ∧
    Config (configReader fileName st f).1 = set_HasStatHat cfg (0 <? slen (StatHat_ApiKey cfg)).
Proof. unfold configReader. repeat case_match; cbn; eauto. Qed.

(** ** Properties *)

(** [configReader] on every branch: a file that is newer than the last look
    replaces the whole configuration; one that does not parse leaves it as it
    was and is not looked at again until its time is later than the clock was;
    an older or a missing file changes nothing.  The StatHat flag always says
    whether there is a key. *)
Theorem configReader_branches (fileName : string) (st : config_state) (f : config_file) :
  config_ok (Config st) →
  let '(st', err) := configReader fileName st f in
  config_ok (Config st') ∧
  match cf_ModTime f with
  | None => st' = st ∧ is_Some err
  | Some modTime =>
      (modTime ≤ lastReadConfig st → st' = st ∧ err = None) ∧
      (lastReadConfig st < modTime →
         match cf_parsed f with
         | inl e => Config st' = Config st ∧ err = Some e
         | inr cfg => Config st' = set_HasStatHat cfg (0 <? slen (StatHat_ApiKey cfg)) ∧ err = None
         end ∧
         ∀ f' modTime', cf_ModTime f' = Some modTime' → modTime' ≤ cf_now f →
           configReader fileName st' f' = (st', None))
  end.
Proof.
  intros Hok. pose proof (configReader_ok fileName st f Hok) as Hok'.
  unfold configReader in *. destruct (cf_ModTime f) as [t|]; [|by split_and!; [|done|eexists]].
  destruct (Z.leb_spec t (lastReadConfig st)) as [Hle|Hlt].
  { split; [done|]. split; [done|]. lia. }
  destruct (cf_parsed f) as [e|cfg]; (split; [done|]; split; [lia|]); intros _;
    (split; [done|]); intros f' t' -> Ht'; cbn [lastReadConfig];
    by destruct (Z.leb_spec t' (cf_now f)); [|lia].
Qed.

(** C38: whatever events the watcher sees, the configuration in use is the one it
    started with or one the parser accepted, with the flag set right; but
    replacing the file by a rename, which is an event [Create] for its name,
    is not among the events it reads the file for. *)
Theorem configWatcher_safe (fileName : string) (st : config_state)
    (events : list (fs_event * config_file)) :
  config_ok (Config st) →
  config_ok (Config (configWatcher fileName st events)) ∧
  (Config (configWatcher fileName st events) = Config st ∨
   ∃ e cfg, e ∈ events ∧ reads_config fileName e.1 = true ∧ cf_parsed e.2 = inr cfg ∧
     Config (configWatcher fileName st events)
       = set_HasStatHat cfg (0 <? slen (StatHat_ApiKey cfg))) ∧
  ((∀ e, e ∈ events → ev_Op e.1 = fs_Create) → configWatcher fileName st events = st).
Proof.
  unfold configWatcher. induction events as [|e events IH] using rev_ind; intros Hok.
  { split_and!; auto. }
  rewrite foldl_app. cbn [foldl]. destruct (IH Hok) as (IH1 & IH2 & IH3).
  set (st1 := foldl (watch_event fileName) st events) in *. split_and!.
  - unfold watch_event. case_match; [by apply configReader_ok|done].
  - unfold watch_event. destruct (reads_config fileName e.1) eqn:Er.
    + destruct (configReader_source fileName st1 e.2) as [->|(cfg & Hp & ->)].
      * destruct IH2 as [->|(e' & cfg & Hin & ? & ? & ->)]; [by left|]. right.
        exists e', cfg. split_and!; [set_solver|done..].
      * right. exists e, cfg. split_and!; [set_solver|done..].
    + destruct IH2 as [->|(e' & cfg & Hin & ? & ? & ->)]; [by left|]. right.
      exists e', cfg. split_and!; [set_solver|done..].
  - intros Hall. rewrite IH3 by (intros; apply Hall; set_solver).
    unfold watch_event, reads_config, has_op. rewrite (Hall e) by set_solver.
    by rewrite andb_false_r.
Qed.

(** ** Examples *)

Definition keyed_config : AppConfig :=
  mkConfig "key" false "" "" "" "" 0 0 "" "" "" "" "" "" "".

Definition example_file (t now : Z) : config_file := mkConfigFile (Some t) now (inr keyed_config).

Lemma empty_config_ok : config_ok empty_config.
Proof. unfold config_ok. cbn. split; [done|]. intros H. by destruct H. Qed.

Lemma configReader_branches_witness :
  let '(st', err) := configReader "geodns.conf" (mkConfigState empty_config 10) (example_file 20 30) in
  Flags_HasStatHat (Config st') = true ∧ err = None ∧
  configReader "geodns.conf" st' (example_file 25 40) = (st', None).
Proof.
  pose proof (configReader_branches "geodns.conf" (mkConfigState empty_config 10)
    (example_file 20 30) empty_config_ok) as Hw.
  destruct (configReader _ _ _) as [st' err]. destruct Hw as (_ & _ & Hnew).
  destruct (Hnew ltac:(reflexivity)) as [[E ->] Hagain]. rewrite E. split_and!; [reflexivity|done|].
  apply (Hagain (example_file 25 40) 25 eq_refl). vm_compute. discriminate.
Defined.

Lemma configWatcher_safe_witness :
  configWatcher "geodns.conf" (mkConfigState empty_config 10)
    [(mkEvent "geodns.conf" fs_Create, example_file 20 30)] = mkConfigState empty_config 10.
Proof.
  apply (configWatcher_safe "geodns.conf" (mkConfigState empty_config 10)
    [(mkEvent "geodns.conf" fs_Create, example_file 20 30)] empty_config_ok).
  intros e ->%list_elem_of_singleton. reflexivity.
Defined.
