(* ===== verification/Http.v ===== *)
(** * http.go: the HTTP interface

    The handler of the version page behind an optional password, the order in
    which rates are listed, and the parsing of the [top] parameter.  The
    multiplexer and the server of net/http around it are modelled as far as
    they decide which handler answers.  The metrics page is the handler of the
    Prometheus library. *)

From S2P Require Import Prelude GoRuntime GoStrings Zones Server Config.
Local Open Scope Z_scope.

(** ** Requests and responses *)

Record Request := mkHttpRequest {
  rq_Method : string;
  rq_RequestURI : string;
  (** [URL.Path], and how the URL prints with another path. *)
  rq_Path : string;
  rq_URL_String : string → string;
  (** [BasicAuth]: the user and the password of the request, if it has them. *)
  rq_Auth : option (string * string);
  (** The values of a parameter in the parsed form. *)
  rq_Form : string → list string
}.

Record Response := mkResponse {
  rs_Status : Z;
  rs_Header : list (string * string);
  rs_Body : string
}.

Definition newline : string := String "010" "".

(** [http.NotFound], [http.Error]. *)
Definition http_Error (header : list (string * string)) (text : string) (status : Z) : Response :=
  mkResponse status (header ++ [("Content-Type", "text/plain; charset=utf-8");
                                ("X-Content-Type-Options", "nosniff")]) (text +:+ newline).
Definition http_NotFound : Response := http_Error [] "404 page not found" 404.

(** ** http.go *)

Record rate := mkRate { r_Name : string; r_Count : Z; r_Metrics : ZoneMetrics }.

(** Strings are compared byte by byte. *)
Fixpoint string_lt (s t : string) : bool :=
  match s, t with
  | _, EmptyString => false
  | EmptyString, String _ _ => true
  | String a s, String b t =>
      (byte_val a <? byte_val b) || ((byte_val a =? byte_val b) && string_lt s t)
  end.

(** [ratesByCount.Less]. *)
Definition ratesByCount_Less (i j : rate) : bool :=
  if r_Count i =? r_Count j then string_lt (r_Name i) (r_Name j)
  else r_Count j <? r_Count i.

Definition topParam (req : Request) (def : Z) : Z :=
  match rq_Form req "top" with
  | [] => def
  | top :: _ => match Atoi top with Some n => n | None => def end
  end.

(** The text ends in a backslash and an n: the Go string is a raw string. *)
Definition mainServer (info : ServerInfo) (req : Request) : Response :=
  if negb (bool_decide (rq_RequestURI req = "/version")) then http_NotFound
  else mkResponse 200 [("Content-Type", "text/plain")] ("GeoDNS " +:+ si_Version info +:+ "\n").

(** *** The multiplexer of net/http *)

(** [path.Clean] of a rooted path: the elements that are left, the last one
    first, after one more. *)
Definition clean_step (stack : list string) (seg : string) : list string :=
  if decide (seg = "" ∨ seg = ".") then stack
  else if decide (seg = "..") then tail stack
  else seg :: stack.

Definition path_Clean (p : string) : string :=
  String "/" (Join (reverse (foldl clean_step [] (Split p "/"%char))) "/").

(** [cleanPath]: the canonical path, which keeps a trailing slash. *)
Definition cleanPath (p : string) : string :=
  if decide (p = "") then "/"
  else
    let p := if HasPrefix p "/" then p else String "/" p in
    let np := path_Clean p in
    if HasSuffix p "/" && negb (bool_decide (np = "/")) then np +:+ "/" else np.

(** [htmlEscape]. *)
Fixpoint htmlEscape (s : string) : string :=
  match s with
  | EmptyString => ""
  | String a s =>
      (if Ascii.eqb a "&" then "&amp;" else if Ascii.eqb a "<" then "&lt;"
       else if Ascii.eqb a ">" then "&gt;" else if Ascii.eqb a "034" then "&#34;"
       else if Ascii.eqb a "039" then "&#39;" else String a "") +:+ htmlEscape s
  end.

(** [http.Redirect] with the code 301. *)
Definition http_Redirect (req : Request) (url : string) : Response :=
  let page := ("Content-Type", "text/html; charset=utf-8") in
  if decide (rq_Method req = "GET") then
    mkResponse 301 [("Location", url); page]
      ("<a href=" +:+ String "034" (htmlEscape url +:+ String "034" ">Moved Permanently</a>.")
       +:+ newline +:+ newline)
  else if decide (rq_Method req = "HEAD") then mkResponse 301 [("Location", url); page] ""
  else mkResponse 301 [("Location", url)] "".

(** [NewHTTPServer] and the [ServeHTTP] of its multiplexer with the patterns
    "/", which every rooted path matches, and "/metrics"; [metrics] is the
    handler of the Prometheus library.  A path that is not canonical is
    redirected, except for CONNECT; the request URI "*" is refused (and the
    connection of HTTP/1.1 closed). *)
Definition hs_mux (info : ServerInfo) (metrics : Request → Response) (req : Request) : Response :=
  if decide (rq_RequestURI req = "*") then mkResponse 400 [("Connection", "close")] ""
  else if bool_decide (rq_Method req ≠ "CONNECT") && bool_decide (cleanPath (rq_Path req) ≠ rq_Path req)
  then http_Redirect req (rq_URL_String req (cleanPath (rq_Path req)))
  else if decide (rq_Path req = "/metrics") then metrics req
  else if HasPrefix (rq_Path req) "/" then mainServer info req
  else http_NotFound.

(** The "%q" of a text without special characters. *)
Definition quoted (s : string) : string := String "034" s +:+ String "034" "".

(** [basicauth.ServeHTTP] around the handler [h]. *)
Definition basicauth (cfg : AppConfig) (h : Request → Response) (r : Request) : Response :=
  let user := HTTP_User cfg in
  let password := HTTP_Password cfg in
  let unauthorized :=
    http_Error [("WWW-Authenticate", "Basic realm=" +:+ quoted "GeoDNS Status")]
      "Unauthorized" 401 in
  if slen user =? 0 then h r
  else
    match rq_Auth r with
    | Some (ruser, rpass) =>
        if bool_decide (ruser = user) && bool_decide (rpass = password) then h r else unauthorized
    | None => unauthorized
    end.

(** [Run]: the line it logs, and how the server of net/http answers a request:
    it answers "OPTIONS *" itself, and gives the others to the handler, the
    multiplexer behind the check. *)
Definition Run_line (listen : string) : string := "Starting HTTP interface on " +:+ listen.

Definition httpServer_Run (cfg : AppConfig) (info : ServerInfo) (metrics : Request → Response)
    (req : Request) : Response :=
  if decide (rq_RequestURI req = "*" ∧ rq_Method req = "OPTIONS")
  then mkResponse 200 [("Content-Length", "0")] ""
  else basicauth cfg (hs_mux info metrics) req.

(** ** Lemmas *)

Lemma byte_val_inj a b : byte_val a = byte_val b → a = b.
Proof.
  unfold byte_val. intros E. apply Nat2Z.inj in E.
  by rewrite <-(ascii_nat_embedding a), <-(ascii_nat_embedding b), E.
Qed.

(** [string_lt] is a strict total order. *)
Lemma string_lt_irrefl s : string_lt s s = false.
Proof.
  induction s as [|a s IH]; [done|]. cbn. rewrite IH, andb_false_r, orb_false_r.
  apply Z.ltb_irrefl.
Qed.

Lemma string_lt_trans s t u : string_lt s t = true → string_lt t u = true → string_lt s u = true.
Proof.
  revert t u. induction s as [|a s IH]; intros [|b t] [|c u]; cbn; try done.
  rewrite !orb_true_iff, !andb_true_iff, !Z.ltb_lt, !Z.eqb_eq.
  intros [H1|[H1 H1']] [H2|[H2 H2']]; [left; lia..|]. right. split; [lia|by eapply IH].
Qed.

Lemma string_lt_total s t : string_lt s t = false → string_lt t s = false → s = t.
Proof.
  revert t. induction s as [|a s IH]; intros [|b t]; cbn; try done.
  rewrite !orb_false_iff, !andb_false_iff, !Z.ltb_ge, !Z.eqb_neq. intros [? H1] [? H2].
  rewrite (byte_val_inj a b) by lia. f_equal. destruct H1, H2; try lia. by apply IH.
Qed.

Lemma string_lt_asym s t : string_lt s t = true → string_lt t s = false.
Proof.
  intros Hst. apply not_true_is_false. intros Hts.
  pose proof (string_lt_trans _ _ _ Hst Hts) as E. by rewrite string_lt_irrefl in E.
Qed.

(** "Does not come after" for strings. *)
Lemma string_le_trans s t u :
  string_lt t s = false → string_lt u t = false → string_lt u s = false.
Proof.
  intros H1 H2. apply not_true_is_false. intros H3.
  destruct (string_lt s t) eqn:E.
  - pose proof (string_lt_trans _ _ _ H3 E). congruence.
  - rewrite (string_lt_total s t E H1) in *. congruence.
Qed.

#[export] Instance rates_WeakOrder : WeakOrder ratesByCount_Less.
Proof.
  unfold ratesByCount_Less. split.
  - intros x y z. unfold not_less. repeat case_match; split_bools; try done; try lia.
    apply string_le_trans.
  - intros x y. unfold not_less. repeat case_match; split_bools; try lia.
    destruct (string_lt (r_Name x) (r_Name y)) eqn:E; [left; by apply string_lt_asym|by right].
Qed.

Lemma rates_antisym x y :
  not_less ratesByCount_Less x y → not_less ratesByCount_Less y x → r_Name x = r_Name y.
Proof.
  unfold not_less, ratesByCount_Less. repeat case_match; split_bools; try lia.
  intros. by apply string_lt_total.
Qed.

(** ** Properties *)

(** The order of rates leaves the sort no choice: every implementation of
    [sort.Sort] lists the rates of different zones in the same order. *)
Theorem rates_sort_unique (S1 S2 : GoSort) (l : list rate) :
  NoDup (r_Name <$> l) →
  @go_sort S1 _ ratesByCount_Less l = @go_sort S2 _ ratesByCount_Less l.
Proof.
  intros Hnd. apply (StronglySorted_unique_strong (not_less ratesByCount_Less)).
  - intros x y Hx Hy Hxy Hyx. rewrite (@go_sort_perm S1) in Hx. rewrite (@go_sort_perm S2) in Hy.
    apply list_elem_of_lookup in Hx as [i Hi]. apply list_elem_of_lookup in Hy as [j Hj].
    assert (i = j) as ->; [|congruence]. eapply (NoDup_lookup _ _ _ (r_Name x) Hnd).
    + by rewrite list_lookup_fmap, Hi.
    + rewrite list_lookup_fmap, Hj. cbn. f_equal. symmetry. by apply rates_antisym.
  - apply (@go_sort_sorted S1). apply _.
  - apply (@go_sort_sorted S2). apply _.
  - by rewrite (@go_sort_perm S1), (@go_sort_perm S2).
Qed.

Lemma HasPrefix_app s t : HasPrefix (s +:+ t) s = true.
Proof.
  induction s as [|a s IH]; [by destruct t|]. rewrite sapp_cons. cbn. by rewrite Ascii.eqb_refl, IH.
Qed.

(** The refusal of the check, which depends on nothing. *)
Definition unauthorized_page : Response :=
  http_Error [("WWW-Authenticate", "Basic realm=" +:+ quoted "GeoDNS Status")] "Unauthorized" 401.

(** The check passes a request on, or refuses it. *)
Lemma basicauth_protects (cfg : AppConfig) (h : Request → Response) (r : Request) :
  if bool_decide (HTTP_User cfg = "" ∨ rq_Auth r = Some (HTTP_User cfg, HTTP_Password cfg))
  then basicauth cfg h r = h r
  else basicauth cfg h r = unauthorized_page.
Proof.
  unfold basicauth. destruct (HTTP_User cfg) as [|a u] eqn:Eu.
  { by rewrite bool_decide_eq_true_2 by auto. }
  assert ((slen (String a u) =? 0) = false) as ->.
  { apply Z.eqb_neq. rewrite slen_cons. pose proof (slen_nonneg u). lia. }
  case_bool_decide as Hc.
  - destruct Hc as [?|Hc]; [done|]. rewrite Hc. by rewrite !bool_decide_eq_true_2.
  - destruct (rq_Auth r) as [[ru rp]|]; [|done].
    destruct (bool_decide (ru = _) && bool_decide (rp = _)) eqn:E; [|done].
    split_bools. subst. destruct Hc. by right.
Qed.

(** *** Canonical paths *)

(** The elements of a canonical path. *)
Definition clean_seg (seg : string) : Prop :=
  (seg ∉ [""; "."; ".."]) ∧ ContainsByte seg "/" = false.

Lemma clean_step_segs segs stack :
  Forall (λ seg, ContainsByte seg "/" = false) segs → Forall clean_seg stack →
  Forall clean_seg (foldl clean_step stack segs).
Proof.
  intros Hs. revert stack. induction Hs as [|seg segs Hseg _ IH]; intros stack Hst; [done|].
  cbn [foldl]. apply IH. unfold clean_step. case_decide; [done|]. case_decide.
  - destruct Hst; [constructor|done].
  - constructor; [|done]. split; [set_solver|done].
Qed.

Lemma clean_steps_id segs stack :
  Forall clean_seg segs → foldl clean_step stack segs = reverse segs ++ stack.
Proof.
  intros Hs. revert stack. induction Hs as [|seg segs [Hseg _] _ IH]; intros stack; [done|].
  cbn [foldl]. rewrite IH. unfold clean_step. rewrite !decide_False by set_solver.
  by rewrite reverse_cons, <-app_assoc.
Qed.

Lemma last_Split_sep s c : last (Split (s +:+ String c "") c) = Some "".
Proof.
  induction s as [|a s IH]; [rewrite sapp_nil_l; cbn [Split]; by rewrite Ascii.eqb_refl|]. rewrite sapp_cons. cbn [Split].
  pose proof (Split_nonnil (s +:+ String c "") c) as Hne.
  destruct (Ascii.eqb a c); [by rewrite last_cons, IH|].
  destruct (Split _ c) as [|w ws] eqn:E; [done|]. destruct ws as [|w' ws].
  - apply (f_equal (λ l, Join l (String c ""))) in E. rewrite Join_Split in E. cbn in E, IH.
    injection IH as ->. by destruct s.
  - rewrite last_cons_cons in *. exact IH.
Qed.

Lemma HasSuffix_slash ws :
  ws ≠ [] → Forall (λ w, ContainsByte w "/" = false) ws →
  HasSuffix (Join ws "/") "/" = true → last ws = Some "".
Proof.
  intros Hne Hws [u Hu]%HasSuffix_inv.
  rewrite <-(Split_Join ws "/"%char Hne Hws), Hu. apply last_Split_sep.
Qed.

Lemma Join_slash w segs : Join ((w :: segs) ++ [""]) "/" = Join (w :: segs) "/" +:+ "/".
Proof.
  revert w. induction segs as [|v segs IH]; intros w; [done|].
  change (Join ((w :: v :: segs) ++ [""]) "/") with (w +:+ "/" +:+ Join ((v :: segs) ++ [""]) "/").
  rewrite IH. change (Join (w :: v :: segs) "/") with (w +:+ "/" +:+ Join (v :: segs) "/").
  by rewrite !sapp_assoc.
Qed.

(** A path made of clean elements, with a trailing slash or not. *)
Lemma cleanPath_segs segs (b : bool) :
  Forall clean_seg segs →
  let p := String "/" (Join (segs ++ if b then [""] else []) "/") in
  (b = true → segs ≠ []) → cleanPath p = p.
Proof.
  intros Hs p Hb.
  assert (Hno : Forall (λ w, ContainsByte w "/" = false) (segs ++ if b then [""] else [])).
  { apply Forall_app. split; [by eapply Forall_impl; [exact Hs|intros ? [_ ?]]|].
    destruct b; repeat constructor. }
  destruct segs as [|w segs].
  { destruct b; [by destruct (Hb eq_refl)|]. unfold p. reflexivity. }
  assert (Hsplit : Split p "/" = "" :: (w :: segs) ++ if b then [""] else []).
  { unfold p. cbn [Split Ascii.eqb]. f_equal. apply Split_Join; [done|exact Hno]. }
  unfold cleanPath. rewrite decide_False by done.
  assert (HasPrefix p "/" = true) as -> by exact (HasPrefix_app "/" _).
  assert (Hclean : path_Clean p = String "/" (Join (w :: segs) "/")).
  { unfold path_Clean. rewrite Hsplit. cbn [foldl]. change (clean_step [] "") with (@nil string).
    rewrite foldl_app, (clean_steps_id (w :: segs)), app_nil_r by done.
    destruct b; cbn [foldl]; [change (clean_step ?l "") with l|]; by rewrite reverse_involutive. }
  rewrite Hclean.
  assert (Hroot : bool_decide (String "/" (Join (w :: segs) "/") = "/") = false).
  { apply bool_decide_eq_false_2. intros E0.
    assert (E : Join (w :: segs) "/" = "") by congruence.
    pose proof (Split_Join (w :: segs) "/"%char) as Hj. rewrite E in Hj.
    specialize (Hj ltac:(done) (proj1 (proj1 (Forall_app _ _ _) Hno))). injection Hj as <- _.
    apply Forall_cons in Hs as [[Hw _] _]. set_solver. }
  rewrite Hroot, andb_true_r. destruct b.
  - assert (E : p = String "/" (Join (w :: segs) "/") +:+ "/")
      by (unfold p; rewrite Join_slash; by rewrite sapp_cons).
    rewrite E. by rewrite HasSuffix_app.
  - unfold p. rewrite app_nil_r in *. destruct (HasSuffix _ "/") eqn:Es; [|done]. exfalso.
    cbn [HasSuffix] in Es. apply orb_true_iff in Es as [Es|Es].
    + apply bool_decide_eq_false in Hroot. by apply bool_decide_eq_true in Es.
    + apply HasSuffix_slash in Es; [|done|done]. apply last_Some_elem_of in Es.
      rewrite Forall_forall in Hs. destruct (Hs "" Es) as [Hbad _]. set_solver.
Qed.

(** A redirect leads to a path that is not redirected again. *)
Lemma cleanPath_idem p : cleanPath (cleanPath p) = cleanPath p.
Proof.
  unfold cleanPath at 2 3. case_decide; [done|].
  set (p1 := if HasPrefix p "/" then p else String "/" p). unfold path_Clean.
  set (segs := reverse (foldl clean_step [] (Split p1 "/"%char))).
  assert (Hs : Forall clean_seg segs).
  { unfold segs. apply Forall_reverse, clean_step_segs; [|constructor]. apply Split_no_sep_words. }
  clearbody segs. destruct (HasSuffix p1 "/" && negb _) eqn:E.
  - apply andb_true_iff in E as [_ E]. apply negb_true_iff, bool_decide_eq_false in E.
    destruct segs as [|w segs]; [done|].
    pose proof (cleanPath_segs (w :: segs) true Hs) as Hc. cbn zeta in Hc.
    rewrite Join_slash in Hc. rewrite sapp_cons. by apply Hc.
  - pose proof (cleanPath_segs segs false Hs) as Hc. cbn zeta in Hc. rewrite app_nil_r in Hc. by apply Hc.
Qed.

(** C39: The HTTP interface protects its pages.  With a user configured, a
    request without that user and that password gets the same 401 whatever the
    server knows and whatever is asked for (but for "OPTIONS *", which the
    server of net/http answers itself, with nothing).  With the right
    credentials, or without a user (even if there is a password): the URI "*"
    gets 400; a path that is not canonical is redirected to its canonical form,
    which is not redirected again; for the others the path /metrics is
    answered by the metrics, the URI /version with the version, and everything
    else, also the pages /status and /monitor of the README, with 404. *)
Theorem http_interface (cfg : AppConfig) (info info' : ServerInfo)
    (metrics metrics' : Request → Response) (r : Request) :
  ¬ (rq_RequestURI r = "*" ∧ rq_Method r = "OPTIONS") →
  if bool_decide (HTTP_User cfg = "" ∨ rq_Auth r = Some (HTTP_User cfg, HTTP_Password cfg))
  then
    if decide (rq_RequestURI r = "*") then rs_Status (httpServer_Run cfg info metrics r) = 400
    else if decide (rq_Method r ≠ "CONNECT" ∧ cleanPath (rq_Path r) ≠ rq_Path r)
    then
      rs_Status (httpServer_Run cfg info metrics r) = 301 ∧
      ("Location", rq_URL_String r (cleanPath (rq_Path r))) ∈ rs_Header (httpServer_Run cfg info metrics r) ∧
      cleanPath (cleanPath (rq_Path r)) = cleanPath (rq_Path r)
    else if decide (rq_Path r = "/metrics") then httpServer_Run cfg info metrics r = metrics r
    else if decide (rq_RequestURI r = "/version" ∧ HasPrefix (rq_Path r) "/" = true)
    then
      rs_Status (httpServer_Run cfg info metrics r) = 200 ∧
      HasPrefix (rs_Body (httpServer_Run cfg info metrics r)) ("GeoDNS " +:+ si_Version info) = true
    else httpServer_Run cfg info metrics r = http_NotFound
  else
    (∀ r', rq_Auth r' = rq_Auth r → ¬ (rq_RequestURI r' = "*" ∧ rq_Method r' = "OPTIONS") →
       httpServer_Run cfg info metrics r = httpServer_Run cfg info' metrics' r') ∧
    rs_Status (httpServer_Run cfg info metrics r) = 401.
Proof.
  intros Hopt. unfold httpServer_Run. rewrite (decide_False (P := rq_RequestURI r = "*" ∧ _)) by done.
  pose proof (basicauth_protects cfg (hs_mux info metrics) r) as Hb.
  case_bool_decide as Hauth.
  2: { rewrite Hb. split; [|done]. intros r' Ha Hopt'. rewrite decide_False by done.
       pose proof (basicauth_protects cfg (hs_mux info' metrics') r') as Hb'.
       rewrite Ha, bool_decide_eq_false_2 in Hb' by done. by rewrite Hb'. }
  rewrite Hb. unfold hs_mux. destruct (decide (rq_RequestURI r = "*")); [done|].
  destruct (decide (rq_Method r ≠ "CONNECT" ∧ _)) as [[Hm Hp]|Hn].
  - rewrite !bool_decide_eq_true_2 by done. cbn [andb]. unfold http_Redirect.
    split_and!; [by repeat case_decide|repeat case_decide; left|apply cleanPath_idem].
  - assert (bool_decide (rq_Method r ≠ "CONNECT") && bool_decide (cleanPath (rq_Path r) ≠ rq_Path r) = false)
      as -> by (apply andb_false_iff; rewrite !bool_decide_eq_false; destruct (decide (rq_Method r = "CONNECT")); tauto).
    destruct (decide (rq_Path r = "/metrics")); [done|]. unfold mainServer.
    destruct (decide (rq_RequestURI r = "/version" ∧ _)) as [[-> ->]|Hv].
    + rewrite bool_decide_eq_true_2 by done. cbn [negb]. split; [done|].
      cbn [rs_Body]. rewrite <-sapp_assoc. apply HasPrefix_app.
    + destruct (HasPrefix (rq_Path r) "/") eqn:Ep; [|done].
      rewrite bool_decide_eq_false_2; [done|]. intros Hu. by apply Hv.
Qed.

(** A request for the status page of the README. *)
Lemma http_interface_witness :
  httpServer_Run empty_config (mkServerInfo "3.0.2" "" "" "" [] 0) (λ _, mkResponse 200 [] "")
    (mkHttpRequest "GET" "/status" "/status" (λ p, p) None (λ _, [])) = http_NotFound.
Proof.
  pose proof (http_interface empty_config (mkServerInfo "3.0.2" "" "" "" [] 0) (mkServerInfo "" "" "" "" [] 0)
    (λ _, mkResponse 200 [] "") (λ _, http_NotFound)
    (mkHttpRequest "GET" "/status" "/status" (λ p, p) None (λ _, []))
    ltac:(intros [E _]; discriminate E)) as H. exact H.
Defined.

(** The version page, as it is sent. *)
Example version_page :
  rs_Body (mainServer (mkServerInfo "3.0.2" "" "" "" [] 0) (mkHttpRequest "GET" "/version" "/version" (λ p, p) None (λ _, [])))
    = "GeoDNS 3.0.2\n".
Proof. reflexivity. Qed.
