(* ===== verification/Startup.v ===== *)
(** * geodns.go and util.go: the start of the program

    The identity of the server, the addresses it listens on, the name of the
    configuration file, and the check of a configuration ([-checkconfig]).
    [log.Fatalf], which ends the process, is a panic here.  [main] itself is in
    Program. *)

From S2P Require Import Prelude GoRuntime GoStrings Float64 TypeUtil GoNet Targeting GeoIP2 DnsNames DnsMsg Health.
From S2P Require Import Zones Reader MuxManager Reachable Server Config Http.
Local Open Scope Z_scope.

(** ** util.go *)

(** [strings.Contains]. *)
Definition Contains (s p : string) : bool := 0 <=? Index s p.

(** [s[a:b]] with Go's bounds check. *)
Definition slice (s : string) (a b : Z) : res string :=
  if decide (0 ≤ a ≤ b ∧ b ≤ slen s) then Ret (substr s a b)
  else Panic "slice bounds out of range".

(** The address and the port of one element of the list. *)
Definition host_port (host : string) : res (string * string) :=
  match SplitHostPort host with
  | inr (ip, port) => Ret (ip, port)
  | inl err =>
      if Contains err missingPort then Ret (host, "")
      else if Contains err tooManyColons && (LastIndexByte host "]" =? slen host - 1) then
        ip ← slice host 1 (slen host - 1);
        Ret (ip, "")
      else if Contains err tooManyColons then Ret (host, "")
      else Panic ("Could not parse " +:+ host +:+ ": " +:+ err)
  end.

(** The first address becomes the identity of the server, unless it is known. *)
Definition note_address (info : ServerInfo) (ip : string) : ServerInfo :=
  if decide (ip = "127.0.0.1") then info
  else
    mkServerInfo (si_Version info) (if slen (si_ID info) =? 0 then ip else si_ID info)
      (if slen (si_IP info) =? 0 then ip else si_IP info)
      (si_UUID info) (si_Groups info) (si_Started info).

(** One iteration: the addresses so far (also the set [uniq]), the server. *)
Definition add_interface (flagport : string) (st : list string * ServerInfo) (host : string) :
    res (list string * ServerInfo) :=
  let '(inter, info) := st in
  '(ip, port) ← host_port host;
  let port := if slen port =? 0 then flagport else port in
  let host := JoinHostPort ip port in
  if decide (host ∈ inter) then Ret (inter, info)
  else Ret (inter ++ [host], note_address info ip).

Definition getInterfaces (flaginter flagport : string) (info : ServerInfo) :
    res (list string * ServerInfo) :=
  foldM (add_interface flagport) ([], info) (Split flaginter ",").

(** ** geodns.go *)

(** [init]: the version of the program. *)
Definition full_version (version gitVersion : string) : string :=
  if 0 <? slen gitVersion then version +:+ "/" +:+ gitVersion else version.

(** The flag [-identifier]. *)
Definition set_identifier (flagidentifier : string) (info : ServerInfo) : res ServerInfo :=
  if 0 <? slen flagidentifier then
    let ids := Split flagidentifier "," in
    id ← index ids 0;
    Ret (mkServerInfo (si_Version info) id (si_IP info) (si_UUID info)
           (if 1 <? len ids then drop 1 ids else si_Groups info) (si_Started info))
  else Ret info.

(** The flag [-interface]: "*" stands for the addresses of the interfaces that
    are loopback or global; [None] is an address that does not parse. *)
Definition listed_address (addr : option IP) : option string :=
  match addr with
  | Some ip => if negb (IsLoopback ip || IsGlobalUnicast ip) then None else Some (IP_String ip)
  | None => None
  end.

Definition interface_flag (flaginter : string) (addrs : list (option IP)) : string :=
  if decide (flaginter = "*") then Join (omap listed_address addrs) "," else flaginter.

Definition config_file_name (IsAbs : string → bool) (Clean : string → string)
    (path_Join : string → string → string) (flagconfig flagconfigfile : string) : string :=
  if IsAbs flagconfigfile then flagconfigfile else Clean (path_Join flagconfig flagconfigfile).

(** The flag [-version]. *)
Definition version_line (version buildTime goVersion : string) : string :=
  let extra := (if 0 <? slen buildTime then [buildTime] else []) ++ [goVersion] in
  "geodns " +:+ version +:+ " (" +:+ Join extra ", " +:+ ")" +:+ newline.

(** The geo provider of the configuration, if its country database opens. *)
Definition setup_geo `{MaxMind} (path_Join : string → string → string) (stat : string → bool)
    (fs : filesystem) (cfg : AppConfig) : option GeoIP2 :=
  if 0 <? slen (GeoIPDirectory stat cfg) then (New path_Join fs (GeoIPDirectory stat cfg)).1
  else None.

(** The error that [New] leaves, which is logged. *)
Definition setup_geo_error `{MaxMind} (path_Join : string → string → string) (stat : string → bool)
    (fs : filesystem) (cfg : AppConfig) : option string :=
  if 0 <? slen (GeoIPDirectory stat cfg) then (New path_Join fs (GeoIPDirectory stat cfg)).2
  else None.

(** [sha256File] of muxmanager.go, from what [ioutil.ReadFile] gives. *)
Definition sha256File (sha256_hex : string → string) (data : option string) : string :=
  match data with
  | None => ""
  | Some data => sha256_hex data
  end.

Section checkconfig.
Context `{GoFormat} `{GoArch} `{GoSort} `{GoRange} `{RRParser}.
Context (path_Join : string → string → string).

(** The branch for [-checkconfig]: the exit code.  No provider is set up. *)
Definition checkconfig (configFileName dirName : string) (f : config_file) (w : world) : res Z :=
  let '(_, err) := configReader configFileName (mkConfigState empty_config (-62135596800000000000)) f in
  match err with
  | Some _ => Ret 2
  | None =>
      '(_, _, err) ← NewMuxManager path_Join None (w_sha256 w) (w_read w) ∅ dirName tt (w_listing w);
      match err with
      | Some _ => Ret 2
      | None => Ret 0
      end
  end.
End checkconfig.

(** ** Lemmas: interfaces *)

Lemma HasPrefix_refl s : HasPrefix s s = true.
Proof. induction s as [|a s IH]; [done|]. cbn. by rewrite Ascii.eqb_refl, IH. Qed.

Lemma Contains_app s p : Contains (s +:+ p) p = true.
Proof.
  unfold Contains. apply Z.leb_le. induction s as [|a s IH].
  - rewrite sapp_nil_l. destruct p; [done|]. cbn [Index]. by rewrite HasPrefix_refl.
  - rewrite sapp_cons. cbn [Index]. case_match; [done|].
    destruct (Z.ltb_spec (Index (s +:+ p) p) 0); lia.
Qed.

Lemma Contains_addr_error addr why : Contains (addr_error addr why) why = true.
Proof.
  unfold addr_error. case_decide; [apply (Contains_app "")|].
  rewrite <-!sapp_assoc. apply Contains_app.
Qed.

Lemma LastIndexByte_none s c : ContainsByte s c = false → LastIndexByte s c = -1.
Proof.
  induction s as [|a s IH]; [done|]. cbn. intros [Ha Hs]%orb_false_iff. by rewrite IH, Ha.
Qed.

Lemma LastIndexByte_some s c : ContainsByte s c = true → 0 ≤ LastIndexByte s c.
Proof.
  induction s as [|a s IH]; [done|]. cbn. intros [Ha|Hs]%orb_true_iff.
  - rewrite Ha. by destruct (Z.leb_spec 0 (LastIndexByte s c)); [lia|].
  - apply IH in Hs. destruct (Z.leb_spec 0 (LastIndexByte s c)); lia.
Qed.

(** A host name or an IPv4 address. *)
Definition plain_host (h : string) : Prop :=
  ContainsByte h ":" = false ∧ ContainsByte h "," = false.

Lemma host_port_plain h : ContainsByte h ":" = false → host_port h = Ret (h, "").
Proof.
  intros Hh. unfold host_port, SplitHostPort. rewrite LastIndexByte_none by done.
  change (-1 <? 0) with true. cbn iota. by rewrite Contains_addr_error.
Qed.

Lemma Index_app_byte w c : ContainsByte w c = false → Index (w +:+ String c "") (String c "") = slen w.
Proof.
  induction w as [|a w IH]; intros Hw.
  - rewrite sapp_nil_l. cbn [Index]. by rewrite HasPrefix_refl.
  - cbn in Hw. apply orb_false_iff in Hw as [Ha Hw]. rewrite sapp_cons, slen_cons.
    cbn [Index HasPrefix]. rewrite Ha. cbn [andb]. rewrite IH by done.
    pose proof (slen_nonneg w). by destruct (Z.ltb_spec (slen w) 0); [lia|].
Qed.

(** A bracketed address without a port is reported as missing its port, and
    taken with its brackets. *)
Lemma host_port_bracketed w :
  ContainsByte w ":" = true → ContainsByte w "]" = false →
  host_port ("[" +:+ w +:+ "]") = Ret ("[" +:+ w +:+ "]", "").
Proof.
  intros Hc Hb. set (h := "[" +:+ w +:+ "]"). unfold host_port, SplitHostPort.
  assert (Hin : ContainsByte h ":" = true).
  { unfold h. rewrite !ContainsByte_app, Hc. by rewrite orb_true_r. }
  pose proof (LastIndexByte_some h ":" Hin) as Hl.
  destruct (Z.ltb_spec (LastIndexByte h ":") 0); [lia|].
  assert (HasPrefix h "[" = true) as -> by (unfold h; by destruct w).
  assert (Hi : Index h "]" = slen w + 1).
  { change h with (String "[" w +:+ "]"). rewrite Index_app_byte; [by rewrite slen_cons|].
    cbn. by rewrite Hb. }
  assert (Hs : slen h = slen w + 2).
  { unfold h. rewrite !slen_app. change (slen "[") with 1. change (slen "]") with 1. lia. }
  pose proof (slen_nonneg w). rewrite Hi, Hs. destruct (Z.ltb_spec (slen w + 1) 0); [lia|].
  destruct (Z.eqb_spec (slen w + 1 + 1) (slen w + 2)); [|lia]. by rewrite Contains_addr_error.
Qed.

(** The identity the server takes from a list of addresses. *)
Definition first_address (ips : list string) : string :=
  default "" (head (filter (λ ip, ip ≠ "127.0.0.1" ∧ ip ≠ "") ips)).

Lemma note_address_IP info ip :
  si_IP (note_address info ip) =
    if decide (si_IP info = "") then
      if decide (ip = "127.0.0.1") then "" else ip
    else si_IP info.
Proof.
  unfold note_address. destruct (decide (ip = "127.0.0.1")); cbn.
  - by destruct (decide (si_IP info = "")).
  - destruct (si_IP info) as [|a s]; [done|]. rewrite slen_cons.
    pose proof (slen_nonneg s). by destruct (Z.eqb_spec (slen s + 1) 0); [lia|].
Qed.

Lemma add_plain flagport inter info h :
  plain_host h → h +:+ ":" +:+ flagport ∉ inter →
  add_interface flagport (inter, info) h
    = Ret (inter ++ [h +:+ ":" +:+ flagport], note_address info h).
Proof.
  intros [Hc _] Hnew. unfold add_interface. rewrite host_port_plain by done. cbn [mbind res_bind].
  change (slen "" =? 0) with true. cbn iota. unfold JoinHostPort. rewrite Hc.
  by rewrite decide_False.
Qed.

Lemma plain_host_inj h h' p :
  plain_host h → plain_host h' → h +:+ ":" +:+ p = h' +:+ ":" +:+ p → h = h'.
Proof.
  intros [Hh _] [Hh' _] E. rewrite !(sapp_cons ":"), !sapp_nil_l in E.
  pose proof (SplitN2_app_sep h p ":" Hh) as E1. rewrite E, SplitN2_app_sep in E1 by done.
  congruence.
Qed.

Lemma add_plains flagport hosts : ∀ inter info,
  Forall plain_host hosts → NoDup hosts →
  (∀ h, h ∈ hosts → h +:+ ":" +:+ flagport ∉ inter) →
  foldM (add_interface flagport) (inter, info) hosts =
    Ret (inter ++ ((λ h, h +:+ ":" +:+ flagport) <$> hosts), foldl note_address info hosts).
Proof.
  induction hosts as [|h hosts IH]; intros inter info Hp Hnd Hnew; cbn [foldM foldl fmap list_fmap].
  { by rewrite app_nil_r. }
  apply Forall_cons in Hp as [Hh Hp]. apply NoDup_cons in Hnd as [Hnin Hnd].
  rewrite add_plain by (done || apply Hnew; left). cbn [mbind res_bind].
  rewrite IH, <-app_assoc; [done|done|done|]. intros h' Hh'.
  rewrite not_elem_of_app, not_elem_of_cons. split_and!; [apply Hnew; by right| |apply not_elem_of_nil].
  intros E. apply plain_host_inj in E as ->; [done| |done]. by eapply Forall_forall in Hp.
Qed.

Lemma note_addresses_IP hosts : ∀ info,
  si_IP (foldl note_address info hosts) =
    if decide (si_IP info = "") then first_address hosts else si_IP info.
Proof.
  induction hosts as [|h hosts IH]; intros info; cbn [foldl].
  { destruct (decide (si_IP info = "")) as [->|]; done. }
  rewrite IH, note_address_IP. unfold first_address. rewrite filter_cons.
  destruct (decide (si_IP info = "")) as [E|E].
  - destruct (decide (h = "127.0.0.1")) as [->|Hl].
    + rewrite decide_True by done. rewrite (decide_False (P := _ ∧ _)) by (intros [? _]; done). done.
    + destruct (decide (h = "")) as [->|Hne].
      * rewrite (decide_False (P := _ ∧ _)) by (intros [_ ?]; done). done.
      * by rewrite decide_True.
  - by rewrite decide_False.
Qed.

(** ** Lemmas: the check of a configuration *)

Section check_lemmas.
Context `{GoFormat} `{GoArch} `{GoSort} `{GoRange} `{RRParser}.
Context (path_Join : string → string → string).
Context (sha : string → string) (read : string → zone_file) (path : string).
Hypothesis read_ok : ∀ fn, file_ok (read fn).

(** A file passes when it cannot be read at all (its hash is empty, like that
    of a file never read), or when its zone loads. *)
Definition passes (f : dir_entry) (n : string) : Prop :=
  sha (path_Join path (f_Name f)) = "" ∨
  ∃ z, ReadZoneFile None (NewZone n) (read (path_Join path (f_Name f))) = inr z.

Abbreviation manager := (MuxManager unit).

Lemma addHandler_nil (mm : manager) n zone :
  zone_no_nil zone →
  ∃ mm', addHandler mm n zone = Ret mm' ∧ mm_path mm' = mm_path mm ∧
    mm_lastRead mm' = mm_lastRead mm.
Proof.
  intros Hz. unfold addHandler.
  destruct (SetupMetrics_ok (mm_stats mm) zone (mm_zonelist mm !! n)) as (heap & m & -> & _).
  cbn [mbind res_bind]. destruct (setupHealthTests_ok (set_Metrics zone m)) as [z' ->]; [done|].
  by eexists.
Qed.

(** Reading a file for the first time. *)
Lemma read_zone_fresh (mm : manager) n f err :
  mm_path mm = path → mm_lastRead mm !! n = None →
  ∃ mm' err', read_zone path_Join None sha read mm n f err = Ret (mm', err') ∧
    mm_path mm' = path ∧
    (∀ k, k ≠ n → mm_lastRead mm' !! k = mm_lastRead mm !! k) ∧
    (err' = None ↔ err = None ∧ passes f n).
Proof.
  intros Hp Hn. unfold read_zone. rewrite Hn. cbn [set_lastRead mm_path]. rewrite Hp.
  unfold passes. case_decide as Hh.
  - eexists _, _. split_and!; [done|done| |split; [by auto|by intros [? _]]].
    intros k Hk. cbn. by rewrite lookup_insert_ne.
  - destruct (ReadZoneFile None (NewZone n) (read (path_Join path (f_Name f)))) as [e|zone] eqn:E.
    + eexists _, _. split_and!; [done|done| |].
      * intros k Hk. cbn. by rewrite lookup_insert_ne.
      * split; [done|]. intros [_ [?|[z ?]]]; congruence.
    + match goal with |- context [addHandler ?m n zone] => set (mm1 := m) end.
      destruct (addHandler_nil mm1 n zone) as (mm' & -> & Hp' & Hl').
      { by eapply ReadZoneFile_no_nil. }
      cbn [mbind res_bind]. eexists _, _. split_and!; [done|by rewrite Hp'| |].
      * intros k Hk. rewrite Hl'. cbn. by rewrite !lookup_insert_ne.
      * split; [intros ->; split; [done|]; right; by eexists|by intros [? _]].
Qed.

Lemma reload_file_fresh (mm : manager) seen err f :
  mm_path mm = path → (∀ n, status_name f = Some n → mm_lastRead mm !! n = None) →
  ∃ mm' seen' err',
    reload_file path_Join None sha read (mm, seen, err) f = Ret (mm', seen', err') ∧
    mm_path mm' = path ∧
    (∀ k, status_name f ≠ Some k → mm_lastRead mm' !! k = mm_lastRead mm !! k) ∧
    (err' = None ↔ err = None ∧ ∀ n, status_name f = Some n → passes f n).
Proof.
  intros Hp Hfresh. unfold reload_file, status_name in *.
  destruct (json_file f) eqn:Ej; cbn [negb].
  2: { exists mm, seen, err. split_and!; [done..|]. split; [by auto|by intros [? _]]. }
  destruct (json_file_base f Ej) as [n En]. rewrite En in *. cbn [mbind res_bind].
  assert (needs_read mm n f = true) as ->.
  { unfold needs_read. by rewrite Hfresh. }
  destruct (read_zone_fresh mm n f err Hp (Hfresh n eq_refl)) as (mm1 & err1 & -> & Hp1 & Hl1 & Herr).
  eexists _, _, _. split; [done|]. split_and!; [done| |].
  - intros k Hk. apply Hl1. congruence.
  - rewrite Herr. split; intros [-> Hf]; (split; [done|]); [by intros ? [= <-]|by apply Hf].
Qed.

Lemma reload_fresh dir : ∀ (mm : manager) seen err,
  mm_path mm = path → NoDup (status_names dir) →
  (∀ n, n ∈ status_names dir → mm_lastRead mm !! n = None) →
  ∃ mm' seen' err',
    foldM (reload_file path_Join None sha read) (mm, seen, err) dir = Ret (mm', seen', err') ∧
    (err' = None ↔ err = None ∧
       ∀ f n, f ∈ dir → status_name f = Some n → passes f n).
Proof.
  induction dir as [|f dir IH]; intros mm seen err Hp Hnd Hfresh; cbn [foldM].
  { eexists _, _, _. split; [done|]. split; [|by intros [? _]]. intros ->. split; [done|]. set_solver. }
  assert (Hsn : status_names (f :: dir) = match status_name f with
    Some n => n :: status_names dir | None => status_names dir end) by done.
  rewrite Hsn in Hnd, Hfresh.
  assert (Htl : NoDup (status_names dir) ∧ ∀ n, n ∈ status_names dir →
    mm_lastRead mm !! n = None ∧ status_name f ≠ Some n).
  { destruct (status_name f) as [m|]; [|by auto]. apply NoDup_cons in Hnd as [Hm Hnd].
    split; [done|]. intros n Hn. split; [apply Hfresh; by right|]. intros [= ->]. done. }
  destruct Htl as [Hnd' Htl].
  destruct (reload_file_fresh mm seen err f Hp) as (mm1 & seen1 & err1 & E & Hp1 & Hl1 & Herr).
  { intros n Hn. apply Hfresh. rewrite Hn. by left. }
  rewrite E. cbn [mbind res_bind].
  destruct (IH mm1 seen1 err1 Hp1 Hnd') as (mm2 & seen2 & err2 & E2 & Herr2).
  { intros n Hn. destruct (Htl n Hn). by rewrite Hl1. }
  exists mm2, seen2, err2. split; [done|]. rewrite Herr2, Herr. split.
  - intros [[-> Hf] Hall]. split; [done|]. intros f' n [->|Hin]%elem_of_cons; [apply Hf|by apply Hall].
  - intros [-> Hall]. split_and!; [done|intros; apply Hall; [left|done]|].
    intros f' n Hin. apply Hall. by right.
Qed.

Lemma pgeodns_no_nil zone :
  addSOA (set_Labels (NewZone "pgeodns") {["" := mkLabel "" 0 0 ∅ ∅ false None]}) = Ret zone →
  zone_no_nil zone.
Proof.
  unfold addSOA. cbn [set_Labels z_Labels]. rewrite lookup_singleton_eq. intros Hr.
  apply bind_Ret in Hr as (l0 & Hl0 & Hr). cbn [set_Labels z_Labels] in Hl0.
  rewrite lookup_singleton_eq in Hl0. injection Hl0 as <-.
  apply bind_Ret in Hr as (ns & _ & Hr). destruct (NewRR _) as [rr|]; [|done].
  injection Hr as <-. intros k l t rs. cbn. rewrite insert_singleton_eq.
  intros [<- <-]%lookup_singleton_Some. cbn. rewrite insert_empty.
  intros [<- <-]%lookup_singleton_Some. constructor; [by eexists|constructor].
Qed.

Lemma prune_nil (mm : manager) seen l : ∃ mm', foldM (prune_zone seen) mm l = Ret mm'.
Proof.
  destruct (foldM_ok (prune_zone seen) (λ _, True) l mm) as (mm' & E & _); [done| |by exists mm'].
  intros mm1 [n z] _ _. unfold prune_zone. case_match; by eexists.
Qed.
End check_lemmas.

(** No address is listed twice. *)
Lemma getInterfaces_NoDup flaginter flagport info inter info' :
  getInterfaces flaginter flagport info = Ret (inter, info') → NoDup inter.
Proof.
  intros Hr.
  refine (foldM_invariant (add_interface flagport) (λ st, NoDup st.1) _ _ _ _ _ Hr);
    [apply NoDup_nil_2|].
  intros [inter1 info1] h [inter2 info2] _ Hnd Hs. unfold add_interface in Hs.
  apply bind_Ret in Hs as ([ip port] & _ & Hs). cbn in *. case_decide; simplify_eq; [done|].
  apply NoDup_app. split_and!; [done|set_solver|apply NoDup_singleton].
Qed.

(** ** Properties *)

(** The server listens on each address once, whatever list it is given; host
    names and IPv4 addresses get the default port, and the first of them that
    is not the loopback address becomes the address of the server, unless it
    has one. *)
Theorem getInterfaces_addresses (flagport : string) (info : ServerInfo) :
  (∀ flaginter inter info', getInterfaces flaginter flagport info = Ret (inter, info') → NoDup inter) ∧
  (∀ hosts, hosts ≠ [] → NoDup hosts → Forall plain_host hosts →
     ∃ info', getInterfaces (Join hosts ",") flagport info =
         Ret ((λ h, h +:+ ":" +:+ flagport) <$> hosts, info') ∧
       si_IP info' = if decide (si_IP info = "") then first_address hosts else si_IP info).
Proof.
  split.
  - intros. by eapply getInterfaces_NoDup.
  - intros hosts Hne Hnd Hp. exists (foldl note_address info hosts). split.
    + unfold getInterfaces. rewrite Split_Join; [|done|].
      * by apply (add_plains flagport hosts [] info Hp Hnd); set_solver.
      * eapply Forall_impl; [exact Hp|]. by intros h [_ ?].
    + apply note_addresses_IP.
Qed.

(** An IPv6 address in brackets without a port, which the code means to
    accept, is listened on with doubled brackets, which is no address. *)
Theorem bracketed_interface (w flagport : string) (info : ServerInfo) :
  ContainsByte w ":" = true → ContainsByte w "]" = false → ContainsByte w "," = false →
  getInterfaces ("[" +:+ w +:+ "]") flagport info =
    Ret (["[[" +:+ w +:+ "]]:" +:+ flagport], note_address info ("[" +:+ w +:+ "]")).
Proof.
  intros Hc Hb Hcomma. unfold getInterfaces. rewrite Split_no_sep.
  2: { by rewrite !ContainsByte_app, Hcomma. }
  cbn [foldM]. unfold add_interface. rewrite host_port_bracketed by done. cbn [mbind res_bind].
  change (slen "" =? 0) with true. cbn iota. unfold JoinHostPort.
  assert (ContainsByte ("[" +:+ w +:+ "]") ":" = true) as ->.
  { by rewrite !ContainsByte_app, Hc, orb_true_r. }
  rewrite decide_False by set_solver. cbn [mbind res_bind app].
  do 3 f_equal. rewrite !sapp_cons, !sapp_nil_l, !sapp_assoc, !sapp_cons, !sapp_nil_l. done.
Qed.

(** C36: the check of a configuration always completes, and exits with 0 exactly
    when the configuration file is read, the directory can be listed, and
    every zone file in it loads or cannot be read at all: a file without read
    permission has the empty hash of a file that was never read, and is
    skipped as unchanged. *)
Theorem checkconfig_exit `{GoFormat} `{GoArch} `{GoSort} `{GoRange} `{RRParser}
    (path_Join : string → string → string) (cfn dirName : string) (f : config_file) (w : world) :
  (∀ fn, file_ok (w_read w fn)) →
  (∀ dir, w_listing w = Some dir → NoDup (status_names dir)) →
  ok (addSOA (set_Labels (NewZone "pgeodns") {["" := mkLabel "" 0 0 ∅ ∅ false None]})) →
  ∃ code, checkconfig path_Join cfn dirName f w = Ret code ∧ (code = 0 ∨ code = 2) ∧
    (code = 0 ↔
      (configReader cfn (mkConfigState empty_config (-62135596800000000000)) f).2 = None ∧
      ∃ dir, w_listing w = Some dir ∧
        ∀ e n, e ∈ dir → status_name e = Some n →
          passes path_Join (w_sha256 w) (w_read w) dirName e n).
Proof.
  intros Hok Hnd [zone Hsoa]. unfold checkconfig.
  destruct (configReader _ _ f) as [st [err|]]; cbn [snd]; [by exists 2; naive_solver|].
  unfold NewMuxManager, setupPgeodnsZone, setupRootZone, mux_Handle. rewrite Hsoa.
  rewrite decide_False by done. cbn [mbind res_bind].
  destruct (addHandler_nil (mkManager tt ∅ dirName ∅ []) "pgeodns" zone) as (mm & -> & Hp & Hl).
  { by eapply pgeodns_no_nil. }
  cbn [mbind res_bind]. unfold reload. destruct (w_listing w) as [dir|]; [|by exists 2; naive_solver].
  destruct (reload_fresh path_Join (w_sha256 w) (w_read w) dirName Hok dir mm ∅ None)
    as (mm1 & seen & err & -> & Herr); [done|by apply Hnd|intros; by rewrite Hl|].
  cbn [mbind res_bind]. destruct (prune_nil mm1 seen (go_range (mm_zonelist mm1))) as [mm2 ->].
  cbn [mbind res_bind]. destruct err as [e|].
  - exists 2. split_and!; [done|by right|]. split; [done|]. intros (_ & dir' & [= <-] & Hall).
    discriminate (proj2 Herr (conj eq_refl Hall)).
  - exists 0. split_and!; [done|by left|]. split; [|done]. intros _. split; [done|]. exists dir.
    split; [done|]. by apply Herr.
Qed.

(** ** Examples *)

Definition example_info : ServerInfo := mkServerInfo "3.0.2" "" "" "" [] 0.

Lemma getInterfaces_addresses_witness :
  ∃ info', getInterfaces "127.0.0.1,192.0.2.1" "53" example_info
      = Ret (["127.0.0.1:53"; "192.0.2.1:53"], info') ∧ si_IP info' = "192.0.2.1".
Proof.
  refine (proj2 (getInterfaces_addresses "53" example_info) ["127.0.0.1"; "192.0.2.1"] _ _ _).
  - discriminate.
  - apply NoDup_cons. split; [set_solver|apply NoDup_singleton].
  - repeat constructor.
Defined.

Lemma bracketed_interface_witness :
  getInterfaces "[::1]" "53" example_info = Ret (["[[::1]]:53"], note_address example_info "[::1]").
Proof. exact (bracketed_interface "::1" "53" example_info eq_refl eq_refl eq_refl). Defined.

(** A port on the bracketed address avoids the error. *)
Example bracketed_with_port :
  (λ r : list string * ServerInfo, r.1) <$> getInterfaces "[::1]:53,192.0.2.1:53,::1" "53" example_info
    = Ret ["[::1]:53"; "192.0.2.1:53"].
Proof. vm_compute. reflexivity. Qed.

(** The zone file of the example can be read and loads; a second file cannot
    be read. *)
Definition check_world : world :=
  mkWorld None (λ fn, if decide (fn = "zones/broken.json") then "" else fn) example_read
    (Some [mkEntry "example.com.json" false 1600000000; mkEntry "broken.json" false 1600000000]).

Lemma checkconfig_exit_witness :
  @checkconfig GoFormat_blank arch_amd64 GoSort_merge GoRange_list example_parser
    example_path_Join "geodns.conf" "zones" (example_file 20 30) check_world = Ret 0.
Proof.
  destruct (@checkconfig_exit GoFormat_blank arch_amd64 GoSort_merge GoRange_list example_parser
    example_path_Join "geodns.conf" "zones" (example_file 20 30) check_world)
    as (code & E & _ & Hcode).
  - apply example_read_ok.
  - intros dir [= <-]. vm_compute. apply NoDup_cons. split; [set_solver|apply NoDup_singleton].
  - eexists. vm_compute. reflexivity.
  - rewrite E. f_equal. apply Hcode. split; [vm_compute; reflexivity|].
    eexists. split; [reflexivity|]. intros e n He Hn.
    apply elem_of_cons in He as [He|He%list_elem_of_singleton]; subst e.
    + right. assert (n = "example.com") as -> by (vm_compute in Hn; congruence).
      eexists. vm_compute. reflexivity.
    + left. vm_compute. reflexivity.
Defined.
