(* ===== verification/Applog.v ===== *)
(** * applog/log.go: the application log and its file

    The log is written to standard error or to a file; a goroutine looks every
    five seconds whether the file was rotated away and opens a new one.  Files
    are numbered in the order they are opened. *)

From S2P Require Import Prelude GoStrings.

Inductive output := Stderr | ToFile (fd : nat).

(** [logToFile]; [None] is a nil file. *)
Record logToFile := mkLogToFile {
  ltf_fn : string;
  ltf_file : option nat
}.

(** The variables of the package, the output of the log, the lines written
    (with where they went), and the files that are open. *)
Record applog := mkApplog {
  Enabled : bool;
  ltf : option logToFile;
  log_output : output;
  log_lines : list (output * string);
  open_files : gset nat;
  next_fd : nat
}.

Definition new_applog : applog := mkApplog false None Stderr [] ∅ 0.

(** [log.Printf], which always writes, and the package's own, which is quiet
    unless it is enabled. *)
Definition log_Printf (st : applog) (line : string) : applog :=
  mkApplog (Enabled st) (ltf st) (log_output st) (log_lines st ++ [(log_output st, line)])
    (open_files st) (next_fd st).

Definition Printf (st : applog) (line : string) : applog :=
  if Enabled st then log_Printf st line else st.

(** [Println], which prints its operands with spaces between them. *)
Definition Println (st : applog) (a : list string) : applog :=
  if Enabled st then log_Printf st (Join a " ") else st.

Definition set_Enabled (st : applog) : applog :=
  mkApplog true (ltf st) (log_output st) (log_lines st) (open_files st) (next_fd st).

(** [os.OpenFile], when it succeeds: a new open file. *)
Definition open_file (st : applog) : applog * nat :=
  (mkApplog (Enabled st) (ltf st) (log_output st) (log_lines st)
     ({[next_fd st]} ∪ open_files st) (S (next_fd st)), next_fd st).

Definition close_file (st : applog) (fd : nat) : applog :=
  mkApplog (Enabled st) (ltf st) (log_output st) (log_lines st)
    (open_files st ∖ {[fd]}) (next_fd st).

Definition SetOutput (st : applog) (o : output) : applog :=
  mkApplog (Enabled st) (ltf st) o (log_lines st) (open_files st) (next_fd st).

Definition set_ltf (st : applog) (l : option logToFile) : applog :=
  mkApplog (Enabled st) l (log_output st) (log_lines st) (open_files st) (next_fd st).

Definition newlogToFile (fn : string) : logToFile := mkLogToFile fn None.

(** [FileOpen]; a file that cannot be opened ends the process. *)
Definition FileOpen (st : applog) (fn : string) (can_open : bool) : res applog :=
  let st := set_ltf st (Some (newlogToFile fn)) in
  if can_open then
    let '(st, fd) := open_file st in
    let st := set_ltf st (Some (mkLogToFile fn (Some fd))) in
    let st := SetOutput st (ToFile fd) in
    Ret (log_Printf st "Opening log file")
  else Panic "Error writing log file".

(** The timer case of [logToFileMonitor]: [rotated] if the file is gone or
    empty. *)
Definition monitor_tick (st : applog) (rotated can_open : bool) : applog :=
  match ltf st with
  | None => st
  | Some l =>
      if rotated then
        if can_open then
          let '(st, fd) := open_file st in
          let st := SetOutput st (ToFile fd) in
          let st := log_Printf st "Rotating log file" in
          let st := match ltf_file l with Some old => close_file st old | None => st end in
          set_ltf st (Some (mkLogToFile (ltf_fn l) (Some fd)))
        else log_Printf st "Could not open new log file"
      else st
  end.

(** The loop of [logToFileMonitor] until it is closed: what it finds each time. *)
Definition logToFileMonitor (st : applog) (ticks : list (bool * bool)) : applog :=
  foldl (λ st tick, monitor_tick st tick.1 tick.2) st ticks.

(** The closing case of the monitor, after which it ends. *)
Definition monitor_close (st : applog) (l : logToFile) : applog :=
  match ltf_file l with
  | Some fd =>
      let st := SetOutput st Stderr in
      let st := close_file st fd in
      set_ltf st (Some (mkLogToFile (ltf_fn l) None))
  | None => st
  end.

Definition FileClose (st : applog) : applog :=
  match ltf st with
  | None => st
  | Some l =>
      let st := log_Printf st "Closing log file" in
      let st := monitor_close st l in
      set_ltf st None
  end.

(** ** States *)

Inductive log_reachable : applog → Prop :=
| log_new b : log_reachable (mkApplog b None Stderr [] ∅ 0)
| log_print st line : log_reachable st → log_reachable (log_Printf st line)
| log_open st fn st' :
    log_reachable st → ltf st = None → FileOpen st fn true = Ret st' → log_reachable st'
| log_tick st rotated can_open : log_reachable st → log_reachable (monitor_tick st rotated can_open)
| log_close st : log_reachable st → log_reachable (FileClose st).

(** The log goes to the one open file, or to standard error and none is open. *)
Definition log_inv (st : applog) : Prop :=
  match ltf st with
  | None => log_output st = Stderr ∧ open_files st = ∅
  | Some l => ∃ fd, ltf_file l = Some fd ∧ log_output st = ToFile fd ∧
      open_files st = {[fd]} ∧ (fd < next_fd st)%nat
  end.

Lemma log_reachable_inv st : log_reachable st → log_inv st.
Proof.
  induction 1 as [b|st line _ IH|st fn st' _ IH Hl Ho|st rotated can_open _ IH|st _ IH].
  - done.
  - exact IH.
  - unfold log_inv in IH. rewrite Hl in IH. destruct IH as [_ Hopen]. injection Ho as <-.
    exists (next_fd st). cbn. rewrite Hopen. split_and!; [done|done|set_solver|lia].
  - unfold monitor_tick. destruct (ltf st) as [l|] eqn:El; [|done].
    destruct rotated, can_open; [|done..].
    unfold log_inv in IH. rewrite El in IH. destruct IH as (fd & Hf & _ & Hopen & Hlt).
    rewrite Hf. exists (next_fd st). cbn. rewrite Hopen.
    split_and!; [done|done| |lia]. apply set_eq. intros x. rewrite !elem_of_difference.
    rewrite elem_of_union, !elem_of_singleton. lia.
  - unfold FileClose. destruct (ltf st) as [l|] eqn:El; [|done].
    unfold log_inv in IH. rewrite El in IH. destruct IH as (fd & Hf & _ & Hopen & _).
    unfold monitor_close. rewrite Hf. split; [done|]. cbn. rewrite Hopen. set_solver.
Qed.

Lemma monitor_reachable ticks : ∀ st, log_reachable st → log_reachable (logToFileMonitor st ticks).
Proof.
  induction ticks as [|tick ticks IH]; intros st Hst; [done|]. cbn. by apply IH, log_tick.
Qed.

Lemma FileClose_closes st :
  log_reachable st → log_output (FileClose st) = Stderr ∧ open_files (FileClose st) = ∅.
Proof.
  intros Hre. pose proof (log_reachable_inv _ (log_close st Hre)) as Hc. unfold log_inv in Hc.
  assert (ltf (FileClose st) = None) as E.
  { unfold FileClose. destruct (ltf st) eqn:El; [done|exact El]. }
  by rewrite E in Hc.
Qed.

(** ** Properties *)

(** However often the file is rotated, the log is never written to a closed
    file and at most one file is open: the one the log goes to.  Closing the
    log, whatever the monitor has found until then, closes it and returns the
    output to standard error. *)
Theorem applog_no_closed_file (st : applog) :
  log_reachable st →
  (∀ fd, log_output st = ToFile fd → open_files st = {[fd]}) ∧
  ∀ ticks, log_output (FileClose (logToFileMonitor st ticks)) = Stderr ∧
    open_files (FileClose (logToFileMonitor st ticks)) = ∅.
Proof.
  intros Hre. pose proof (log_reachable_inv st Hre) as Hinv.
  split; [|intros; by apply FileClose_closes, monitor_reachable].
  intros fd E. unfold log_inv in Hinv. destruct (ltf st) as [l|].
  - destruct Hinv as (fd' & _ & E' & -> & _). congruence.
  - destruct Hinv. congruence.
Qed.

Lemma applog_no_closed_file_witness :
  ∃ st, FileOpen new_applog "geodns.log" true = Ret st ∧
    log_output (FileClose (logToFileMonitor st [(true, true); (false, true)])) = Stderr.
Proof.
  eexists. split; [reflexivity|].
  apply applog_no_closed_file.
  exact (log_open _ "geodns.log" _ (log_new false) eq_refl eq_refl).
Defined.
