(* ===== verification/Program.v ===== *)
(** * The program as a whole

    [main] with all its exits.  [start_program] is its body from the
    configuration to the listeners: it composes the configuration, the
    provider, the server, the query log and the zone manager in the order of
    the code; [shutdown] is what follows the signal.  What the process finds
    outside (files, interfaces, databases) is the record [environment]; the
    goroutines it starts are its results: the directory the health reader
    watches, the sockets, the address of the HTTP pages. *)

From S2P Require Import Prelude GoRuntime GoStrings GoNet Float64 TypeUtil Targeting GeoIP2.
From S2P Require Import DnsNames DnsMsg DnsScan Health ZoneStats Zones Soa Picker Reader QueryLog MuxManager.
From S2P Require Import Reachable Server EndToEnd Config Http Startup Applog.
Local Open Scope Z_scope.

(** ** server/server.go *)

(** The labels of the gauge geodns_build_info, and the value of
    geodns_start_time_seconds. *)
Definition build_info (si : ServerInfo) : list string :=
  [si_Version si; si_ID si; si_IP si; match si_Groups si with [] => "" | group :: _ => group end].

Definition start_time_seconds (si : ServerInfo) : float64 :=
  fdiv (float_of_Z (si_Started si)) (float_of_Z 1000000000).

(** [NewServer]: the server with an empty multiplexer. *)
Definition NewServer (si : ServerInfo) : Server * mux_table :=
  (mkServer false false si, ∅).

Definition SetQueryLogger (srv : Server) : Server :=
  mkServer true (srv_PublicDebugQueries srv) (srv_info srv).

(** [ListenAndServe]: the sockets it opens for an address. *)
Definition ListenAndServe (ip : string) : list (string * string) :=
  (λ prot, (prot, ip)) <$> ["udp"; "tcp"].

(** [NewFileLogger]: name, size and number of the rotated files. *)
Record FileLogger := mkFileLogger {
  fl_Filename : string;
  fl_MaxSize : Z;
  fl_MaxBackups : Z
}.

Definition NewFileLogger (filename : string) (maxsize keep : Z) : FileLogger :=
  mkFileLogger filename maxsize keep.

(** ** geodns.go *)

Record flags := mkFlags {
  flagconfig : string;
  flagconfigfile : string;
  flagcheckconfig : bool;
  flagidentifier : string;
  flaginter : string;
  flagport : string;
  flaghttp : string;
  flaglog : bool;
  flagcpus : Z;
  flagLogFile : string;
  flagShowVersion : bool;
  cpuprofile : string;
  memprofile : string
}.

Definition VERSION : string := "3.0.2".

Section start.
Context `{GoFormat} `{GoArch} `{GoSort} `{GoRange} `{RRParser}.
Context (path_Join : string → string → string).

(** The manager starts whenever its own zone gets its SOA record. *)
Lemma start_in_ok w path :
  world_ok w →
  ok (addSOA (set_Labels (NewZone "pgeodns") {["" := mkLabel "" 0 0 ∅ ∅ false None]})) →
  ok (start_in path_Join w path).
Proof.
  intros Hw [zone Hsoa]. set (mm0 := mkManager (∅ : mux_table) ∅ path ∅ []).
  assert (∃ mm, setupPgeodnsZone mm0 = Ret mm) as [mm Hmm].
  { unfold setupPgeodnsZone. rewrite Hsoa. cbn [mbind res_bind]. unfold addHandler.
    destruct (SetupMetrics_ok (mm_stats mm0) zone (mm_zonelist mm0 !! "pgeodns"))
      as (heap & m & -> & _).
    cbn [mbind res_bind]. destruct (setupHealthTests_ok (set_Metrics zone m)) as [z' ->].
    { exact (pgeodns_no_nil zone Hsoa). }
    by eexists. }
  assert (Hinv : manager_inv mm).
  { apply (start_in_inv path_Join (mkWorld None (λ _, "") (λ _, OpenError "") None) path mm
      (Some ("could not read '" +:+ mm_path mm +:+ "'"))); [|by split].
    unfold start_in, NewMuxManager, setupRootZone, mux_Handle. fold mm0.
    rewrite decide_False by done. cbn [mbind res_bind]. by rewrite Hmm. }
  destruct (reload_in_inv path_Join w mm Hw Hinv) as (mm' & err & E & _). exists (mm', err).
  unfold start_in, NewMuxManager, setupRootZone, mux_Handle. fold mm0.
  rewrite decide_False by done. cbn [mbind res_bind]. rewrite Hmm. cbn [mbind res_bind].
  unfold reload_in in E. rewrite E. done.
Qed.

End start.

Section program.
Context `{GoFormat} `{GoArch} `{GoSort} `{GoRange} `{ZoneScan} `{MaxMind}.
#[local] Existing Instance dns_parser.
Context (IsAbs : string → bool) (Clean : string → string) (path_Join : string → string → string).

(** What the process finds: the strings set by the build, the runtime, whether
    the log file opens, the error of creating a profile, and the files. *)
Record environment := mkEnvironment {
  env_gitVersion : string;
  env_buildTime : string;
  env_goVersion : string;
  env_uuid : string;
  env_started : Z;
  env_NumCPU : Z;
  env_log_opens : bool;
  env_create : string → option string;
  env_config : config_file;
  env_addrs : list (option IP);
  env_fs : filesystem;
  env_sha256 : string → string;
  env_read : string → zone_file;
  env_listing : option (list dir_entry)
}.

Record program := mkProgram {
  pg_config : AppConfig;
  pg_info : ServerInfo;
  pg_health : option string;
  pg_geo : option GeoIP2;
  pg_server : Server;
  pg_querylog : option FileLogger;
  pg_default_mux : default_mux;
  pg_manager : MuxManager mux_table;
  pg_sockets : list (string * string);
  pg_http : option string
}.

(** The provider as the zones use it.  A zone that asks for locations has the
    city database opened when it is read ([HasLocation] in [ReadZoneFile]),
    the others cannot tell. *)
Definition zones_provider (fs : filesystem) (g : option GeoIP2) : option Provider :=
  match g with
  | Some g => Setup None (as_Provider path_Join fs (GeoIP2_HasLocation path_Join fs g).1)
  | None => None
  end.

(** The zero time, in nanoseconds. *)
Definition never : Z := -62135596800000000000.

Definition opt_flag (s : string) : option string := if 0 <? slen s then Some s else None.

(** [init]: the identity of the server. *)
Definition init_serverInfo (e : environment) : ServerInfo :=
  mkServerInfo (full_version VERSION (env_gitVersion e)) "" "" (env_uuid e) [] (env_started e).

Definition option_lines (prefix : string) (err : option string) : list string :=
  match err with Some err => [prefix +:+ err] | None => [] end.

(** [main] from the configuration to the listeners, and the lines it logs. *)
Definition start_program (fl : flags) (e : environment) (configFileName : string)
    (info : ServerInfo) : res (program * list string) :=
  let cfg := Config (configReader configFileName (mkConfigState empty_config never) (env_config e)).1 in
  let health := opt_flag (Health_Directory cfg) in
  '(inter, info) ← getInterfaces (interface_flag (flaginter fl) (env_addrs e)) (flagport fl) info;
  let lines := if AppConfig_HasStatHat cfg
    then ["StatHat integration has been removed in favor of more generic metrics"] else [] in
  let geo := setup_geo path_Join (fs_Stat (env_fs e)) (env_fs e) cfg in
  let lines := lines ++ option_lines "Configuring geo provider: "
    (setup_geo_error path_Join (fs_Stat (env_fs e)) (env_fs e) cfg) in
  let '(srv, mux) := NewServer info in
  let '(srv, querylog) :=
    if 0 <? slen (QueryLog_Path cfg) then
      (SetQueryLogger srv,
       Some (NewFileLogger (QueryLog_Path cfg) (QueryLog_MaxSize cfg) (QueryLog_Keep cfg)))
    else (srv, None) in
  '(dm, muxm, err) ← NewMuxManager path_Join (zones_provider (env_fs e) geo) (env_sha256 e)
                       (env_read e) ∅ (flagconfig fl) mux (env_listing e);
  let lines := lines ++ option_lines "error loading zones: " err in
  Ret (mkProgram cfg info health geo srv querylog dm muxm (inter ≫= ListenAndServe)
         (opt_flag (flaghttp fl)), lines).

(** The running process: the log, two settings of the runtime, the program. *)
Record process := mkProcess {
  pr_log : applog;
  pr_GOMAXPROCS : Z;
  pr_MemProfileRate : Z;
  pr_program : program
}.

(** How [main] goes on: it ends with a code and what it has printed, or it
    serves until a signal comes. *)
Inductive main_result :=
| Exited (code : Z) (printed : string)
| Serving (pr : process).

(** [runtime.GOMAXPROCS], which leaves the setting for an argument below 1. *)
Definition GOMAXPROCS (cur n : Z) : Z := if n <? 1 then cur else n.

Definition log_all (st : applog) (lines : list string) : applog := foldl log_Printf st lines.

(** [os.Create] of a profile, when one is asked for. *)
Definition create_profile (e : environment) (fn : string) : res unit :=
  if decide (fn = "") then Ret tt
  else match env_create e fn with Some err => Panic err | None => Ret tt end.

Definition main (fl : flags) (e : environment) : res main_result :=
  let rate := if decide (memprofile fl = "") then 524288 else 1024 in
  let info := init_serverInfo e in
  if flagShowVersion fl then
    Ret (Exited 0 (version_line (si_Version info) (env_buildTime e) (env_goVersion e)))
  else
    let log := if flaglog fl then set_Enabled new_applog else new_applog in
    log ← (if 0 <? slen (flagLogFile fl) then FileOpen log (flagLogFile fl) (env_log_opens e)
           else Ret log);
    info ← set_identifier (flagidentifier fl) info;
    let configFileName := config_file_name IsAbs Clean path_Join (flagconfig fl) (flagconfigfile fl) in
    if flagcheckconfig fl then
      code ← checkconfig path_Join configFileName (flagconfig fl) (env_config e)
               (mkWorld None (env_sha256 e) (env_read e) (env_listing e));
      Ret (Exited code "")
    else
      let procs := GOMAXPROCS (env_NumCPU e)
        (if flagcpus fl =? 0 then env_NumCPU e else flagcpus fl) in
      let log := log_Printf log
        ("Starting geodns " +:+ si_Version info +:+ " (" +:+ env_goVersion e +:+ ")") in
      _ ← create_profile e (cpuprofile fl);
      '(p, lines) ← start_program fl e configFileName info;
      Ret (Serving (mkProcess (log_all log lines) procs rate p)).

(** The rest of [main] after the signal: the heap profile, the log file, and
    the deferred functions. *)
Definition shutdown (fl : flags) (e : environment) (log : applog) : res applog :=
  let log := log_Printf log "geodns: signal received, stopping" in
  _ ← create_profile e (memprofile fl);
  let log := FileClose log in
  Ret (if decide (cpuprofile fl = "") then log
       else log_all log ["stopping profile"; "closing file"]).

(** ** Lemmas *)

(** The provider of a program whose city database opens is total. *)
Lemma zones_provider_total fs dir g err p :
  New path_Join fs dir = (Some g, err) → (GeoIP2_HasLocation path_Join fs g).2.1 = true →
  zones_provider fs (Some g) = Some p → provider_total p.
Proof.
  intros Hnew Hloc [= <-]. destruct (New_country _ _ _ _ _ Hnew) as [r Hr].
  pose proof (get_spec path_Join fs g cityDB) as Hs. unfold GeoIP2_HasLocation, has_db in *.
  destruct (get path_Join fs g cityDB "") as [g' [[c|] [err'|]]]; try done. cbn in *.
  destruct Hs as (Hkeep & _ & Hc & _). eapply open_provider_total; [by apply Hkeep|exact Hc].
Qed.

(** The provider of the program is the one the configuration names. *)
Lemma setup_geo_New stat fs cfg g :
  setup_geo path_Join stat fs cfg = Some g →
  ∃ err, New path_Join fs (GeoIPDirectory stat cfg) = (Some g, err).
Proof.
  unfold setup_geo. case_match; [|done]. destruct (New _ _ _) as [g' err]. cbn.
  intros ->. by exists err.
Qed.

Lemma NoDup_sockets inter : NoDup inter → NoDup (inter ≫= ListenAndServe).
Proof.
  induction 1 as [|ip inter Hip _ IH]; [constructor|]. cbn [mbind list_bind].
  apply NoDup_app. split_and!; [|set_solver|done].
  apply NoDup_cons. split; [set_solver|apply NoDup_singleton].
Qed.

(** What [main] needs to come to its listeners. *)
Record can_start (fl : flags) (e : environment) : Prop := {
  cs_version : flagShowVersion fl = false;
  cs_check : flagcheckconfig fl = false;
  cs_log : env_log_opens e = true;
  cs_profile : ok (create_profile e (cpuprofile fl));
  cs_inter : ∀ info,
    ok (getInterfaces (interface_flag (flaginter fl) (env_addrs e)) (flagport fl) info);
  cs_world : world_ok (mkWorld None (env_sha256 e) (env_read e) (env_listing e))
}.

Lemma log_all_reachable lines : ∀ st, log_reachable st → log_reachable (log_all st lines).
Proof.
  induction lines as [|line lines IH]; intros st Hst; [done|]. cbn. by apply IH, log_print.
Qed.

(** The log of [main] when it comes to the listeners. *)
Lemma open_log_reachable (b : bool) fn (opens : bool) :
  opens = true →
  ∃ log, (if 0 <? slen fn
          then FileOpen (if b then set_Enabled new_applog else new_applog) fn opens
          else Ret (if b then set_Enabled new_applog else new_applog)) = Ret log ∧ log_reachable log.
Proof.
  intros ->. set (log0 := if b then set_Enabled new_applog else new_applog).
  assert (Hlog0 : log_reachable log0) by (unfold log0; destruct b; apply log_new).
  case_match; [|by exists log0]. eexists. split; [reflexivity|].
  eapply log_open; [exact Hlog0|unfold log0; by destruct b|reflexivity].
Qed.

(** The program comes to its listeners. *)
Lemma start_program_ok fl e cfn info :
  can_start fl e →
  ∃ p lines, start_program fl e cfn info = Ret (p, lines) ∧ NoDup (pg_sockets p) ∧
    config_ok (pg_config p) ∧ reachable path_Join (pg_manager p) ∧
    (∀ g, pg_geo p = Some g → ∃ dir err, New path_Join (env_fs e) dir = (Some g, err)).
Proof.
  intros [_ _ _ _ Hinter Hw]. unfold start_program. set (st := configReader _ _ _).
  assert (Hcfg : config_ok (Config st.1)) by (apply configReader_ok, empty_config_ok).
  clearbody st. destruct (Hinter info) as [[inter info'] Hi]. rewrite Hi. cbn [mbind res_bind].
  apply getInterfaces_NoDup in Hi as Hnd.
  set (geo := setup_geo _ _ _ _). set (w := mkWorld (zones_provider (env_fs e) geo)
    (env_sha256 e) (env_read e) (env_listing e)).
  assert (Hw' : world_ok w) by exact Hw.
  destruct (start_in_ok path_Join w (flagconfig fl) Hw' pgeodns_SOA) as [[mm err] Hmm].
  assert (Hre : reachable path_Join mm) by (by eapply reach_start).
  unfold NewServer. set (sq := if 0 <? slen (QueryLog_Path (Config st.1)) then _ else _).
  destruct sq as [srv querylog]. unfold start_in in Hmm.
  apply bind_Ret in Hmm as ([[dm mm'] err'] & Hn & Hmm). injection Hmm as -> ->.
  cbn [w w_geo w_sha256 w_read w_listing] in Hn. rewrite Hn. cbn [mbind res_bind].
  eexists _, _. split; [reflexivity|]. cbn [pg_sockets pg_config pg_manager pg_geo].
  split_and!; [by apply NoDup_sockets|done|done|].
  intros g Hg. destruct (setup_geo_New _ _ _ _ Hg) as [err1 Hnew]. eauto.
Qed.

(** [main] comes to its listeners, with a log that can be closed. *)
Lemma main_serves fl e :
  can_start fl e →
  ∃ pr, main fl e = Ret (Serving pr) ∧ log_reachable (pr_log pr) ∧
    NoDup (pg_sockets (pr_program pr)) ∧ config_ok (pg_config (pr_program pr)) ∧
    reachable path_Join (pg_manager (pr_program pr)) ∧
    (∀ g, pg_geo (pr_program pr) = Some g → ∃ dir err, New path_Join (env_fs e) dir = (Some g, err)).
Proof.
  intros Hs. destruct (Hs) as [Hv Hc Hl [u Hp] _ _]. unfold main. rewrite Hv, Hc.
  destruct (open_log_reachable (flaglog fl) (flagLogFile fl) (env_log_opens e) Hl) as (log & -> & Hlog).
  cbn [mbind res_bind].
  assert (ok (set_identifier (flagidentifier fl) (init_serverInfo e))) as [info ->].
  { unfold set_identifier. case_match; [|by eexists].
    destruct (first_label_ok (flagidentifier fl) ",") as [id ->]. by eexists. }
  cbn [mbind res_bind]. rewrite Hp. cbn [mbind res_bind].
  destruct (start_program_ok fl e (config_file_name IsAbs Clean path_Join (flagconfig fl) (flagconfigfile fl))
    info Hs) as (p & lines & -> & ? & ? & ? & ?). cbn [mbind res_bind].
  eexists. split; [reflexivity|]. cbn [pr_log pr_program].
  split_and!; [|done..]. by apply log_all_reachable, log_print.
Qed.

Context `{HandlerEnv} `{GreatCircle} `{GoRand rng}.

(** ** Properties *)

(** C2: the program starts and answers.  Whenever the log and the profile can
    be opened and the listen addresses parse, [main] sets up the server's own
    zone and reaches its listeners, each address once for UDP and once for
    TCP, with a well-formed configuration and the zones of the directory.
    From then on, after any number of rounds of the health reader and of the
    zone manager, whatever they find (status files without null entries), the
    server answers every query with exactly one message, provided the city
    database opens (or no provider is set up) and the zones are sane (and for
    ANY have the bare names of their targeted labels): each component meets
    what the next one relies on.  The one message is there when messages can be
    packed and written ([one_reply]); otherwise the handler returns all the
    same. *)
Theorem program_answers (fl : flags) (e : environment) :
  can_start fl e →
  ∃ pr, main fl e = Ret (Serving pr) ∧
    let p := pr_program pr in
    NoDup (pg_sockets p) ∧ config_ok (pg_config p) ∧
    ∀ rounds ws dir, Forall (λ round, no_nulls round.2) rounds → Forall world_ok ws →
    ∃ reg mm hlines mlines,
      DirectoryReader path_Join dir rounds new_registry = Ret (reg, hlines) ∧
      Run path_Join ws (pg_manager p) = Ret (mm, mlines) ∧
      ((∀ g, pg_geo p = Some g → (GeoIP2_HasLocation path_Join (env_fs e) g).2.1 = true) →
       map_Forall (λ _, zone_sane) (mm_zonelist mm) →
       ∀ (g : rng) addr req q qs, m_Question req = q :: qs →
       (q_Qtype q = TypeANY →
          map_Forall (λ _, any_closed (zones_provider (env_fs e) (pg_geo p))) (mm_zonelist mm)) →
       ∃ out n, (∀ fuel, (n ≤ fuel)%nat →
           ServeDNS fuel (pg_server p) reg (zones_provider (env_fs e) (pg_geo p)) (mm_stats mm) g
             (mm_reg mm) addr req = Ret out) ∧
         one_reply req (out_msgs out)).
Proof.
  intros Hs. destruct (main_serves fl e Hs) as (pr & E & _ & Hsock & Hcfg & Hre & Hnew).
  exists pr. split; [done|]. cbn zeta. split_and!; [done..|].
  intros rounds ws dir Hrounds Hws.
  destruct (DirectoryReader_ok path_Join dir rounds new_registry Hrounds new_registry_ok)
    as (reg & hlines & Hd & Hreg).
  destruct (Run_reachable path_Join ws _ Hws Hre) as (mm & mlines & Hrun & Hmm).
  exists reg, mm, hlines, mlines. split_and!; [done..|].
  intros Hcity Hsane g addr req q qs Hq Hany.
  destruct (reachable_answers path_Join mm (pg_server (pr_program pr)) reg
    (zones_provider (env_fs e) (pg_geo (pr_program pr))) g addr req q qs Hmm Hsane)
    as (out & n & Hout & Hone & _); [intros; by apply GetStatus_ok| |done..|].
  - intros p Hpr. destruct (pg_geo (pr_program pr)) as [gi|] eqn:Eg; [|done].
    destruct (Hnew gi eq_refl) as (dir' & err & Hn). eapply zones_provider_total; eauto.
  - by exists out, n.
Qed.

(** The program stops cleanly: from the listeners on, however often the log
    file is rotated, whatever is logged and whether new files can be opened,
    the signal closes the log file and the log goes to standard error. *)
Theorem program_stops (fl : flags) (e : environment) :
  can_start fl e → ok (create_profile e (memprofile fl)) →
  ∃ pr, main fl e = Ret (Serving pr) ∧
    ∀ log, rtc (λ st st', (∃ line, st' = log_Printf st line) ∨
                          ∃ rotated can_open, st' = monitor_tick st rotated can_open) (pr_log pr) log →
    ∃ log', shutdown fl e log = Ret log' ∧ log_output log' = Stderr ∧ open_files log' = ∅.
Proof.
  intros Hs [u Hmem]. destruct (main_serves fl e Hs) as (pr & E & Hlog & _). exists pr.
  split; [done|]. intros log Hrun.
  assert (Hre : log_reachable log).
  { induction Hrun as [st|st st1 st2 Hstep _ IH]; [done|]. apply IH.
    destruct Hstep as [[line ->]|(rotated & can_open & ->)]; by constructor. }
  unfold shutdown. rewrite Hmem. cbn [mbind res_bind]. eexists. split; [reflexivity|].
  set (log1 := log_Printf log _).
  destruct (FileClose_closes log1) as [Ho Hf]; [by apply log_print|].
  by case_decide.
Qed.
End program.

(** ** Example *)

Definition example_flags : flags :=
  mkFlags "zones" "geodns.conf" false "edge1,europe" "127.0.0.1,192.0.2.1" "53" ":8053"
    false 1 "geodns.log" false "" "".

(** The configuration names the directory with both databases; the directory
    of zones is that of the other examples. *)
Definition example_environment : environment :=
  mkEnvironment "" "" "go1.12" "" 0 4 true (λ _, None)
    (mkConfigFile (Some 20) 30 (inr (mkConfig "" false "/geo" "" "" "queries.log" 10 3 "" "" "" "" "" "" "")))
    [] with_city (λ fn, fn) example_read (Some [mkEntry "example.com.json" false 1600000000]).

Definition example_run : res main_result :=
  @main GoFormat_blank arch_amd64 GoSort_merge GoRange_list ZoneScan_none MaxMind_example
    (λ _, false) (λ s, s) example_path_Join example_flags example_environment.

Definition example_process : process :=
  match example_run with
  | Ret (Serving pr) => pr
  | _ => mkProcess new_applog 0 0 (mkProgram empty_config (init_serverInfo example_environment) None None
           example_server None ∅ example_state [] None)
  end.

Abbreviation example_program := (pr_program example_process).

Lemma example_run_ok : example_run = Ret (Serving example_process).
Proof. vm_compute. reflexivity. Qed.

#[local] Instance Serving_inj : Inj (=) (=) Serving.
Proof. by intros pr pr' [= ->]. Qed.

Lemma example_can_start :
  @can_start MaxMind_example example_flags example_environment.
Proof.
  split; [reflexivity..|eexists; vm_compute; reflexivity| |exact example_world_ok].
  intros info. eexists. vm_compute. reflexivity.
Qed.

(** The health reader has read one file, the manager has reloaded once. *)
Definition example_round : option (list dir_entry) * file_reader :=
  (Some [mkEntry "web.json" false 1], λ _, Some [("192.0.2.7", Some 2)]).

Definition example_reloaded : MuxManager mux_table :=
  match @Run GoFormat_blank arch_amd64 GoSort_merge GoRange_list example_parser example_path_Join
          [example_world] (pg_manager example_program) with
  | Ret (mm, _) => mm
  | _ => example_state
  end.

Lemma example_reloaded_plain :
  map_Forall (λ _ z, map_Forall (λ _, plain_label) (z_Labels z)) (mm_zonelist example_reloaded).
Proof. apply (bool_decide_unpack _). vm_compute. exact I. Qed.

Lemma example_Run_ok :
  ∃ lines, @Run GoFormat_blank arch_amd64 GoSort_merge GoRange_list example_parser example_path_Join
    [example_world] (pg_manager example_program) = Ret (example_reloaded, lines).
Proof. eexists. vm_compute. reflexivity. Qed.

Lemma program_answers_witness :
  pg_sockets example_program =
    [("udp", "127.0.0.1:53"); ("tcp", "127.0.0.1:53"); ("udp", "192.0.2.1:53"); ("tcp", "192.0.2.1:53")] ∧
  is_Some (pg_geo example_program) ∧
  ∃ reg out n m, GetStatus reg "web/192.0.2.7" = Ret StatusHealthy ∧
    (∀ fuel, (n ≤ fuel)%nat →
      @ServeDNS example_env arch_amd64 GreatCircle_toy (list Z) GoRand_replay GoRange_list fuel
        (pg_server example_program) reg
        (zones_provider example_path_Join with_city (pg_geo example_program))
        (mm_stats example_reloaded) [12] (mm_reg example_reloaded)
        example_addr (example_request "www.sub.example.com." TypeA) = Ret out) ∧
    out_msgs out = [m].
Proof.
  split; [vm_compute; reflexivity|]. split; [vm_compute; eexists; reflexivity|].
  destruct (@program_answers GoFormat_blank arch_amd64 GoSort_merge GoRange_list ZoneScan_none
    MaxMind_example (λ _, false) (λ s, s) example_path_Join example_env GreatCircle_toy (list Z)
    GoRand_replay example_flags example_environment example_can_start) as (pr & E & _ & _ & Hans).
  assert (pr = example_process) as ->.
  { apply (inj Serving), (inj Ret). rewrite <-E. exact example_run_ok. }
  destruct (Hans [example_round] [example_world] "health") as (reg & mm & hl & ml & Hd & Hrun & Hserve).
  { repeat constructor. intros fn l [= <-]. repeat constructor; eexists; reflexivity. }
  { repeat constructor; apply example_world_ok. }
  destruct example_Run_ok as [lines Hrun'].
  assert (mm = example_reloaded) as ->.
  { pose proof (eq_trans (eq_sym Hrun) Hrun') as Eq. clear -Eq. apply (inj Ret) in Eq.
    exact (f_equal fst Eq). }
  destruct (Hserve) with (g := [12]) (addr := example_addr)
    (req := example_request "www.sub.example.com." TypeA)
    (q := mkQuestion "www.sub.example.com." TypeA ClassINET) (qs := @nil Question)
    as (out & n & Hout & Hone).
  - intros g Hg. vm_compute in Hg. injection Hg as <-. vm_compute. reflexivity.
  - eapply map_Forall_impl; [exact example_reloaded_plain|]. intros n z. apply sane_without_aliases.
  - reflexivity.
  - intros E'. discriminate E'.
  - destruct Hone as (m & Hm & _); [intros; reflexivity|]. exists reg, out, n, m. split.
    { vm_compute in Hd. injection Hd as <- _. vm_compute. reflexivity. }
    split; [exact Hout|exact Hm].
Defined.

Lemma program_stops_witness :
  ∃ log', @shutdown MaxMind_example example_flags example_environment (monitor_tick (pr_log example_process) true true) = Ret log' ∧
    open_files log' = ∅.
Proof.
  destruct (@program_stops GoFormat_blank arch_amd64 GoSort_merge GoRange_list ZoneScan_none
    MaxMind_example (λ _, false) (λ s, s) example_path_Join example_flags example_environment
    example_can_start (ex_intro _ tt eq_refl)) as (pr & E & Hstop).
  assert (pr = example_process) as ->.
  { apply (inj Serving), (inj Ret). rewrite <-E. exact example_run_ok. }
  destruct (Hstop (monitor_tick (pr_log example_process) true true)) as (log' & E' & _ & Hf).
  - apply rtc_once. right. exists true, true. reflexivity.
  - exists log'. split; [exact E'|exact Hf].
Defined.
